(* ===== verification/_CoqProject ===== *)
-Q . S2P
Prelude.v
ByteMem.v
CString.v
Ports.v
Bitmap.v
Paging.v
Disk.v
Memory.v
MemInit.v
PageTable.v
MemProps.v
Interrupt.v
DList.v
Sched.v
SchedProps.v
Sync.v
Uncontended.v
SyncInv.v
SyncSafe.v
SyncProps.v
Tss.v
Elf.v
MemSize.v
Loader.v
LoaderProps.v
Timer.v
Process.v
Spaces.v
Thread.v
ThreadProps.v
ThreadInit.v
UserMem.v
IntrStack.v
Ioqueue.v
IoqueueProps.v
Keyboard.v
Screen.v
UserProg.v
Console.v
ConsoleProps.v
Print.v
Exceptions.v
Enter.v
Boot.v
BootProps.v
PowerOn.v
Run.v
Typed.v
Create.v
