(* ===== verification/Prelude.v ===== *)
(** * A verification of the MyOs kernel

    MyOs is a small 32-bit x86 kernel in C and assembly: a boot sector and a
    loader that ask for the memory, read the kernel from disk and build the first
    page tables, a page allocator, interrupts, a round-robin scheduler with
    blocking, semaphores and locks, a keyboard driver behind a ring buffer, a
    console on the text screen, user processes and a system call.  This library
    models the program's own code function by function, as executable
    definitions that keep the source's names, and proves what makes each part
    correct, up to the whole machine from power on to its first process.

    ** How the program is modelled

    - Integers are [Z]; every C conversion that can wrap is written out
      ([u8] ... [s32] below).
    - A function that can stop the kernel or fault returns [res]: [Ok], the
      [Panic] of a failed ASSERT or PANIC (kernel/debug.h), or a page [Fault].  Loops run on [while_] with a
      fuel of 2^33 rounds; every loop walks 32-bit addresses, bit numbers or
      counters, so a longer run has repeated a state.  Every theorem about a
      loop proves that it returns within the fuel ([while_total]).
    - Memory comes in two layers.  Code that works on bytes (strings,
      bitmaps, page tables, descriptors) runs on the interface [ByteMem] of
      ByteMem.v, with two instances: a flat map, and the paged machine of
      Paging.v, physical memory and cr3 with the processor's two-level walk.
      Kernel objects (tasks, list nodes, semaphores, locks, I/O queues) live
      in typed stores indexed by their address; the record [kernel] of
      Sched.v holds them together with esp, eflags and the paged machine.
      The two layers do not alias: an object is never read as bytes.
    - Code that can lose the processor in the middle (sync.c, ioqueue.c,
      console.c) is split into program points; a thread is the list of the points it still
      has to run, and a step relation interleaves the threads through the
      scheduler and the timer interrupt.  Between two points a function runs
      with interrupts off or touches nothing another thread uses.  Code that
      takes a lock nobody else holds (thread creation, the page allocator of
      a process, the rounds of the printing threads, the kernel's start) is
      described by [runs] of Uncontended.v: one thread executes its points to
      the end.  A run is finite, so proving that it exists proves that the
      call returns.
    - [schedule] prints the name of the thread it switches to, and the keyboard
      interrupt a message.  The record [kernel] logs these strings, and the
      components that have a screen put them on it ([show_names] of Console.v).
    - Addresses fixed by the linker (the ready list, the list of all threads,
      entry points, strings) are parameters, and so are the devices the code
      only talks to: the BIOS, the disk behind the ports of kernel/io.h, and
      what they are assumed to do is a class ([Bios], [AtaDisk], ...) with a
      concrete instance in the examples.  [AtaDisk] is the protocol of an ATA
      disk, which may be busy before each sector; that it is not, which the
      code relies on after the first sector, is the separate hypothesis
      [no_wait] of the theorems about the boot.

    ** Files

    - Prelude: results, integers, loops, automation (HintDb [mach], tactics
      [zdm] and [rb]).  ByteMem: the memory interface, its contract
      [ByteMemSpec] and the flat instance.
    - CString: lib/string.c.  Bitmap: lib/bitmap.c.  Both over [ByteMem].
      Ports: kernel/io.h over any device.
    - Paging: the page walk, [pte_ptr], [pde_ptr], [addr_v2p] of
      kernel/memory.c, [page_dir_activate] of userprog/process.c; the machine
      as an instance of the memory contract, with framing.
    - Disk, MemSize, Elf, Loader: boot/mbr.S and boot/loader.S (reading
      sectors, the size of memory, [kernel_init], the whole).  LoaderProps:
      what the kernel is handed ([built]), and when that is free of stale page
      table entries ([no_stale]).  PowerOn: boot sector, loader and kernel
      composed.
    - Memory: kernel/memory.c (pools, [vaddr_get], [palloc],
      [page_table_add], [malloc_page], [get_kernel_pages], [mem_pool_init])
      and [setup_page] of boot/loader.S; the allocator's invariant [mem_inv].
      MemInit: the pool layout and the state after [mem_pool_init].
      PageTable: the branch of [page_table_add] that makes a new table.
      MemProps: the properties and runs on the loader's page tables.
    - Interrupt: kernel/interrupt.c (interrupt flag, descriptor table,
      handler table, 8259A, lidt operand).  Exceptions: its default handler
      and the keyboard's message on the screen.
    - DList: lib/kernel/list.c on a heap of nodes, against sequences.
    - Sched: thread/thread.c ([schedule], [thread_block], [thread_unblock]),
      thread/switch.S, [process_activate], [update_tss_esp] and the timer
      handler of device/timer.c; the invariant [sched_inv].  SchedProps:
      properties and runs.
    - Sync: thread/sync.c as program points, the step relation.  SyncInv,
      SyncSafe: the invariant of a lock and its preservation by every step.
      SyncProps: what locks guarantee, and contended runs.  Uncontended:
      runs of one thread, and a free lock in such a run.
    - Tss: userprog/tss.c and the descriptor macros of kernel/global.h.
      Timer: the programming of the 8253 in device/timer.c.
    - Process: the address space of a process, userprog/process.c.  Spaces:
      what data in mapped pages sees of allocations.
    - Thread: [init_thread], [thread_create], [thread_start], [thread_init]
      of thread/thread.c and [process_execute] of userprog/process.c as
      program points around the lock of [allocate_pid]; ThreadProps: the
      invariant [thread_inv] of all threads, kept by both creations.
      ThreadInit: [thread_init] establishes it.  Create: creations by
      several threads under the timer.
    - UserMem: [get_user_pages] and [get_a_page] of kernel/memory.c.
    - IntrStack: the entries of kernel/kernel.S ([VECTOR], [intr_exit],
      [struct intr_stack]), how the processor reads a gate, and system calls
      (userprog/syscall-init.c, lib/user/syscall.c).
    - Ioqueue, IoqueueProps: device/ioqueue.c.  Keyboard: device/keyboard.c.
    - Screen: lib/kernel/print.S against a terminal of 25 lines.  Console:
      device/console.c, the threads of kernel/main.c and [panic_spin] of
      kernel/debug.c.  ConsoleProps: its properties.  Print: the kernel's own
      messages.  UserProg: the user programs of kernel/main.c.
    - Enter: [start_process], the first run of a process.
    - Boot: kernel/init.c and kernel/main.c with their messages; BootProps:
      the kernel's start.  Run: [main] and its threads under the timer, from
      the end of the boot.  Typed: the ranges of the kernel's counters.

    ** What the theorems show

    - Locks (SyncProps): in every state that threads taking and releasing
      locks can reach under timer preemption, mutual exclusion holds, the
      semaphore tells the truth about the owner, no waiting thread is forgotten,
      and no assertion fails but that of [schedule] on an empty ready list,
      when a thread has to wait and no other is ready.
    - Memory (MemProps, Paging, Process): the pools are laid out soundly from
      0x210000 bytes up to 258 MB, [mem_pool_init] establishes the allocator's
      invariant on the loader's page tables when they hold no stale entry, [get_kernel_pages] returns the first gap, maps it
      to fresh frames, clears it and moves or changes no other heap page; both
      branches of [page_table_add]; [addr_v2p] is the processor's walk; a
      process directory shares the kernel half and has an empty user half.
    - The boot (Disk, MemSize, Elf, LoaderProps, PowerOn): the sectors asked
      for are read up to the first on which the disk is busy, all of them on a
      disk with [no_wait]; the segments of the kernel's ELF file reach their
      addresses; the loader hands over page tables, descriptors and the number
      its memory detection computed, which [mem_get_e820] shows is not the
      size of memory when the BIOS answers 0xe820; and from power on the
      machine comes to the kernel's loop.
    - The whole kernel (BootProps): from a machine of the loader without stale
      page table entries, whatever [next_pid] holds up to 65530, [main] reaches
      its endless loop with every component initialised, two threads and two
      processes ready, interrupts on and the messages on the screen.  Creating
      a thread or a process keeps [thread_inv] (ThreadProps).  A process
      dispatched for the first time arrives at privilege 3 with a mapped stack
      (Enter).  [runs_into_process] (Run) follows the booted system tick by
      tick: 73 ticks go as planned, then the first process runs and the next
      interrupt stops the machine.
    - Counters (Typed): the time left of a slice never exceeds the priority, so
      its countdown never wraps, semaphores are 0 or 1, and the integers of
      kernel objects stay in their C types.
    - Interrupts (IntrStack, Exceptions): an interrupt returns with every
      register as it was, through each of the 48 entries but eight, which
      miscount the error code; a system call changes only eax if its gate can
      be read, which on a process directory it cannot; an exception is
      reported.
    - Console (ConsoleProps, Screen): under every interleaving the texts of
      console calls are not mixed with each other, only with the names the
      scheduler prints; the print routines refine a terminal, and numbers are
      printed so that they read back.
    - Scheduling (SchedProps): round robin, the details of a switch, time
      slices, blocking and unblocking, each preserving [sched_inv].
    - Containers (DList, Bitmap, CString, IoqueueProps): lists refine
      sequences, bitmaps find the first free run or
      panic when full, strings, a ring buffer that
      is first in, first out under every interleaving.
    - Devices and tables (Interrupt, Tss, Timer, Keyboard): descriptors
      decode to what was meant except for the limit of the task state segment,
      the keyboard delivers the typed text and wakes its reader.
    - Some theorems record where the code does something else than it means:
      [bitmap_scan_overrun], [bitmap_scan_full_panics],
      [search_high_never_found], [pool_layout_truncates],
      [pool_layout_underflows],
      [get_kernel_pages_exhausted], [idt_operand_base], [process_lacks_idt],
      [frequency_set_low_byte], [extended_prefix_lost], [second_shift_lost],
      [put_char_refines], [tss_init_descriptors],
      [getpid_returns_pid], [mem_get_e820], [mem_get_fallbacks],
      [rd_disk_ignores_busy], [interrupt_roundtrip] (eight entries),
      [runs_into_process], [u_prog_faults], [pids_can_collide].

    ** Bounds

    The memory sizes of [main_boots] and [power_on] are those for which
    [usable_mem], what the code's 16-bit page count leaves of the reported
    number, is at least 0x270000: 448 KB beyond the first 2 MB, enough for the
    five threads; [next_pid], which the loader does not clear, is at most 65530
    there.  Names have fewer than 24 characters and pids stay below
    65535 where a thread is created; a ring buffer holds 1023 bytes.

    ** Not modelled

    - The end of physical memory: every physical address can be written, so a
      theorem about frames is about a machine that has memory behind each frame
      the code hands out.  The code itself believes the number at 0xb00.
    - The bytes of instructions: control flow is that of the definitions, and
      the code of a program is what its definition does.
    - In the boot code the A20 gate and the segment arithmetic of real mode;
      addresses there are linear.
    - The user/supervisor and write bits of pages, which the loader sets to
      user and writable everywhere, and the checks of segment limits other
      than that of the video segment.
    - Timer interrupts inside [put_char], which [console_not_mixed] treats as
      one step, and inside the points of thread creation, of [get_a_page] and
      of [start_process]: the theorems about these are about runs in which the
      thread keeps the processor, as it does while the kernel starts.  Create
      interleaves creations point by point and shows that pids can then
      collide.
    - The messages of [syscall_init], which nothing calls.
    - The functions of thread.c and process.c with empty bodies, declarations
      without code such as [list_iterate], and macros nothing uses.

    The words that [switch_to] pushes and pops are represented by the stack
    pointer it saves and restores, except on the first run of a thread, where
    [switch_pop] reads what [thread_create] stored.  After that first run the
    model's stack pointer is 8 bytes above the machine's, because a new thread
    does not return into [schedule]; only the page it is in matters. *)
From stdpp Require Export strings.
From stdpp Require Export base tactics numbers gmap list.

#[global] Open Scope Z_scope.

(** * Machine integers

    A C integer of width [w] is a [Z]; every arithmetic result that the C
    type wraps is wrapped explicitly.  [u8], [u16] and [u32] are the
    conversions to the unsigned types of lib/stdint.h, [s8] and [s32] the
    conversions to [int8_t] (and to gcc's signed plain [char]) and
    [int32_t]/[int]. *)

Definition u8 (z : Z) : Z := z mod 2 ^ 8.
Definition u16 (z : Z) : Z := z mod 2 ^ 16.
Definition u32 (z : Z) : Z := z mod 2 ^ 32.

Definition s8 (z : Z) : Z :=
  let u := z mod 2 ^ 8 in if u <? 2 ^ 7 then u else u - 2 ^ 8.
Definition s32 (z : Z) : Z :=
  let u := z mod 2 ^ 32 in if u <? 2 ^ 31 then u else u - 2 ^ 32.

(** [NULL] of kernel/global.h. *)
Definition NULL : Z := 0.
(** [PG_SIZE] of kernel/global.h. *)
Definition PG_SIZE : Z := 4096.

(** * Results

    [Ok a] is a normal return.  [Panic f] is a call of [panic_spin] raised in
    the C function [f] (kernel/debug.c: interrupts off, message, [while(1)]).
    [Fault] is an access the machine cannot perform (page fault).
    [OutOfFuel] is a loop that did not stop within its fuel. *)

Inductive res (A : Type) : Type :=
| Ok (a : A)
| Panic (f : string)
| Fault
| OutOfFuel.
Arguments Ok {_} _.
Arguments Panic {_} _.
Arguments Fault {_}.
Arguments OutOfFuel {_}.

#[global] Instance res_ret : MRet res := λ A a, Ok a.
#[global] Instance res_bind : MBind res := λ A B f r,
  match r with
  | Ok a => f a
  | Panic w => Panic w
  | Fault => Fault
  | OutOfFuel => OutOfFuel
  end.
#[global] Instance res_fmap : FMap res := λ A B f r,
  match r with
  | Ok a => Ok (f a)
  | Panic w => Panic w
  | Fault => Fault
  | OutOfFuel => OutOfFuel
  end.

(** The [ASSERT] macro of kernel/debug.h; [f] is its [__func__]. *)
Definition ASSERT (c : bool) (f : string) : res unit :=
  if c then Ok tt else Panic f.

Lemma bind_ok {A B} (a : A) (f : A → res B) : (Ok a ≫= f) = f a.
Proof. reflexivity. Qed.

Lemma bind_ok_inv {A B} (r : res A) (f : A → res B) b :
  r ≫= f = Ok b → ∃ a, r = Ok a ∧ f a = Ok b.
Proof. destruct r; naive_solver. Qed.

Lemma Ok_inj {A} (a b : A) : Ok a = Ok b → a = b.
Proof. congruence. Qed.

Lemma assert_true c f : c = true → ASSERT c f = Ok tt.
Proof. by intros ->. Qed.

(** * While loops

    [while_ body s] runs [body] from [s] until it returns [inr].  The fuel is
    a binary [positive], so a fuel of [2 ^ 33] costs nothing to write and
    nothing to run: the loop stops at its exit.  Every loop of the sources
    walks over addresses, bit numbers or counters of 32 bits, so a run that
    has not left the loop after [2 ^ 33] rounds has repeated a state and
    never leaves it. *)

Definition LOOP_FUEL : positive := 8589934592%positive.

Section while.
Context {St R : Type} (body : St → res (St + R)).

Definition then_ (k : St → res (St + R)) (r : St + R) : res (St + R) :=
  match r with inl s => k s | inr x => Ok (inr x) end.

Fixpoint while_pos (p : positive) (s : St) : res (St + R) :=
  match p with
  | xH => body s
  | xO q => while_pos q s ≫= then_ (while_pos q)
  | xI q => body s ≫= then_ (λ s', while_pos q s' ≫= then_ (while_pos q))
  end.

Definition while_ (p : positive) (s : St) : res R :=
  r ← while_pos p s;
  match r with inl _ => OutOfFuel | inr x => Ok x end.

(** The unary reading of the fuel, the one proofs use. *)
Fixpoint while_nat (n : nat) (s : St) : res (St + R) :=
  match n with
  | O => Ok (inl s)
  | S n' => body s ≫= then_ (while_nat n')
  end.

Lemma while_nat_add n m s :
  while_nat (n + m) s = while_nat n s ≫= then_ (while_nat m).
Proof.
  revert s. induction n as [|n IH]; intros s; simpl; [done|].
  destruct (body s) as [[s'|x]| | |]; simpl; auto.
Qed.

Lemma while_pos_nat p s : while_pos p s = while_nat (Pos.to_nat p) s.
Proof.
  revert s. induction p as [q IH|q IH|]; intros s; simpl while_pos.
  - rewrite Pos2Nat.inj_xI. simpl.
    destruct (body s) as [[s'|x]| | |]; simpl; try done.
    rewrite IH. replace (Pos.to_nat q + (Pos.to_nat q + 0))%nat
      with (Pos.to_nat q + Pos.to_nat q)%nat by lia.
    rewrite while_nat_add.
    destruct (while_nat (Pos.to_nat q) s') as [[s2|x]| | |]; simpl; auto.
  - rewrite IH, Pos2Nat.inj_xO.
    replace (2 * Pos.to_nat q)%nat with (Pos.to_nat q + Pos.to_nat q)%nat by lia.
    rewrite while_nat_add.
    destruct (while_nat (Pos.to_nat q) s) as [[s2|x]| | |]; simpl; auto.
  - simpl. destruct (body s) as [[s2|x]| | |]; simpl; auto.
Qed.

(** Runs that leave the loop within the fuel, by counting rounds. *)
Lemma while_from_nat p s x :
  (∃ n, (n ≤ Pos.to_nat p)%nat ∧ while_nat n s = Ok (inr x)) →
  while_ p s = Ok x.
Proof.
  intros (n & Hn & Hx). unfold while_. rewrite while_pos_nat.
  replace (Pos.to_nat p) with (n + (Pos.to_nat p - n))%nat by lia.
  by rewrite while_nat_add, Hx.
Qed.

Lemma while_nat_total (I : St → Prop) (μ : St → nat) (Q : R → Prop) :
  (∀ s, I s →
     (∃ s', body s = Ok (inl s') ∧ I s' ∧ (μ s' < μ s)%nat)
     ∨ (∃ x, body s = Ok (inr x) ∧ Q x)) →
  ∀ n s, I s → (μ s < n)%nat → ∃ x, while_nat n s = Ok (inr x) ∧ Q x.
Proof.
  intros Hstep n. induction n as [|n IH]; intros s HI Hn; [lia|].
  simpl. destruct (Hstep s HI) as [(s' & -> & HI' & Hlt)|(x & -> & HQ)]; simpl.
  - apply IH; [done|lia].
  - eauto.
Qed.

(** Total correctness of a loop: an invariant, a measure and a result. *)
Lemma while_total (I : St → Prop) (μ : St → Z) (Q : R → Prop) p s :
  (∀ s, I s → 0 ≤ μ s ∧
     ((∃ s', body s = Ok (inl s') ∧ I s' ∧ μ s' < μ s)
      ∨ (∃ x, body s = Ok (inr x) ∧ Q x))) →
  I s → μ s < Z.pos p → ∃ x, while_ p s = Ok x ∧ Q x.
Proof.
  intros Hstep HI Hp. unfold while_. rewrite while_pos_nat.
  destruct (while_nat_total I (λ s, Z.to_nat (μ s)) Q) with
    (n := Pos.to_nat p) (s := s) as (x & -> & HQ); simpl; eauto.
  - intros s0 HI0. destruct (Hstep s0 HI0) as (H0 & [(s' & Hb & HI' & Hlt)|?]); [left|by right].
    exists s'. split_and!; [done..|]. destruct (Hstep s' HI') as [? _]. lia.
  - lia.
Qed.

(** A loop that keeps an invariant and never leaves uses up any fuel. *)
Lemma while_diverges (I : St → Prop) p s :
  (∀ s, I s → ∃ s', body s = Ok (inl s') ∧ I s') → I s → while_ p s = OutOfFuel.
Proof.
  intros Hstep HI. unfold while_. rewrite while_pos_nat.
  assert (∃ s', while_nat (Pos.to_nat p) s = Ok (inl s')) as [s' ->]; [|done].
  revert s HI. induction (Pos.to_nat p) as [|n IH]; intros s HI; simpl; [eauto|].
  destruct (Hstep s HI) as (s' & -> & HI'). simpl. by apply IH.
Qed.
End while.

Lemma while_ext {St R} (f g : St → res (St + R)) p s :
  (∀ s, f s = g s) → while_ f p s = while_ g p s.
Proof.
  intros Hfg. unfold while_. rewrite !while_pos_nat. f_equal. generalize (Pos.to_nat p) as n.
  intros n. revert s. induction n as [|n IH]; intros s; simpl; [done|]. rewrite Hfg.
  destruct (g s) as [[s'|x]| | |]; simpl; auto.
Qed.

(** A loop whose first round faults. *)
Lemma while_fault {St R} (f : St → res (St + R)) p s : f s = Fault → while_ f p s = Fault.
Proof.
  intros Hf. unfold while_. rewrite while_pos_nat. destruct (Pos2Nat.is_succ p) as [n ->]. simpl. by rewrite Hf.
Qed.

Lemma LOOP_FUEL_val : Z.pos LOOP_FUEL = 2 ^ 33.
Proof. reflexivity. Qed.

#[global] Opaque LOOP_FUEL while_ while_pos.

(** * Automation

    [mach] holds the range facts of the machine integers, [zdm] is [lia] with
    division and remainder unfolded to their equations, [rb] runs the
    binds whose first computation is already known to succeed (by rewriting,
    so that no loop is unfolded on the way). *)

Create HintDb mach.

Ltac zdm := intros; Z.div_mod_to_equations; lia.
Ltac rb := repeat (rewrite bind_ok; cbv beta).

Lemma u8_range z : 0 ≤ u8 z < 256.
Proof. unfold u8. apply Z.mod_pos_bound. lia. Qed.

Lemma u16_range z : 0 ≤ u16 z < 65536.
Proof. unfold u16. apply Z.mod_pos_bound. lia. Qed.

Lemma u32_range z : 0 ≤ u32 z < 2 ^ 32.
Proof. unfold u32. apply Z.mod_pos_bound. lia. Qed.

Lemma u8_small z : 0 ≤ z < 256 → u8 z = z.
Proof. intros. unfold u8. apply Z.mod_small. lia. Qed.

Lemma u16_small z : 0 ≤ z < 65536 → u16 z = z.
Proof. intros. unfold u16. apply Z.mod_small. lia. Qed.

Lemma u32_small z : 0 ≤ z < 2 ^ 32 → u32 z = z.
Proof. intros. unfold u32. apply Z.mod_small. lia. Qed.

Lemma s32_small z : - 2 ^ 31 ≤ z < 2 ^ 31 → s32 z = z.
Proof.
  intros. unfold s32. destruct (Z.ltb_spec (z mod 2 ^ 32) (2 ^ 31)); zdm.
Qed.

Lemma u32_u32 z : u32 (u32 z) = u32 z.
Proof. unfold u32. apply Zmod_mod. Qed.

Lemma u32_add_l a b : u32 (u32 a + b) = u32 (a + b).
Proof. unfold u32. apply Zplus_mod_idemp_l. Qed.

Lemma s32_u32 z : s32 (u32 z) = s32 z.
Proof. unfold s32, u32. by rewrite Zmod_mod. Qed.

Lemma u32_s32 z : u32 (s32 z) = u32 z.
Proof.
  unfold u32, s32. destruct (Z.ltb_spec (z mod 2 ^ 32) (2 ^ 31)).
  - apply Zmod_mod.
  - rewrite <- (Z.mul_1_l (2 ^ 32)) at 2. rewrite Zminus_mod.
    rewrite Zmod_mod, Z.mul_1_l, Z_mod_same_full, Z.sub_0_r. apply Zmod_mod.
Qed.

(** Masks of the form [0xff..00] and [0x00..ff] are division and remainder. *)
Lemma land_low x k : 0 ≤ k → Z.land x (2 ^ k - 1) = x mod 2 ^ k.
Proof. intros. by rewrite <- Z.land_ones, Z.ones_equiv by done. Qed.

Lemma bits_above x n i : 0 ≤ x < 2 ^ n → 0 ≤ n ≤ i → Z.testbit x i = false.
Proof.
  intros Hx Hi. destruct (decide (x = 0)) as [->|Hne]; [apply Z.testbit_0_l|].
  apply Z.bits_above_log2; [lia|]. apply Z.log2_lt_pow2; [lia|].
  eapply Z.lt_le_trans; [apply Hx|]. apply Z.pow_le_mono_r; lia.
Qed.

Lemma land_high x k :
  0 ≤ x < 2 ^ 32 → 0 ≤ k ≤ 32 → Z.land x (2 ^ 32 - 2 ^ k) = x - x mod 2 ^ k.
Proof.
  intros Hx Hk. rewrite <- Z.land_ones by lia.
  rewrite Z.sub_land_same_l. apply Z.bits_inj'. intros i Hi.
  rewrite !Z.land_spec, Z.lnot_spec by done.
  destruct (decide (i < 32)) as [Hlt|Hge].
  - f_equal. replace (2 ^ 32 - 2 ^ k) with (Z.land (Z.ones 32) (Z.lnot (Z.ones k))).
    + rewrite Z.land_spec, Z.lnot_spec, Z.ones_spec_low by lia. done.
    + rewrite <- Z.sub_land_same_l, (Z.land_comm (Z.ones 32)), Z.land_ones_low.
      * rewrite !Z.ones_equiv. lia.
      * rewrite Z.ones_equiv. assert (0 < 2 ^ k) by lia. lia.
      * destruct (decide (k = 0)) as [->|]; [simpl; lia|].
        rewrite Z.ones_equiv, Z.log2_pred_pow2 by lia. lia.
  - rewrite (bits_above x 32 i) by lia. done.
Qed.

(** Or-ing flags into aligned bits is addition. *)
Lemma land_disjoint p f k :
  0 ≤ k → p mod 2 ^ k = 0 → 0 ≤ f < 2 ^ k → Z.land p f = 0.
Proof.
  intros Hk Hp Hf. apply Z.bits_inj'. intros i Hi. rewrite Z.land_spec, Z.bits_0.
  destruct (decide (i < k)).
  - assert (Z.testbit p i = false) as ->; [|done].
    rewrite <- (Z.mod_pow2_bits_low p k i), Hp, Z.bits_0 by lia. done.
  - rewrite (bits_above f k i) by lia. apply andb_false_r.
Qed.

Lemma lor_low p f k :
  0 ≤ k → p mod 2 ^ k = 0 → 0 ≤ f < 2 ^ k → Z.lor p f = p + f.
Proof.
  intros Hk Hp Hf. pose proof (land_disjoint p f k Hk Hp Hf) as H0.
  enough (Z.lor p f - p = f) by lia. rewrite Z.sub_lor_l_same_l.
  rewrite <- Z.sub_land_same_l, Z.land_comm, H0. lia.
Qed.

#[export] Hint Resolve u8_range u16_range u32_range : mach.
#[export] Hint Rewrite u8_small u16_small u32_small s32_small using lia : mach.

(** * Lists *)

Lemma filter_none {A} (P : A → Prop) {HP : ∀ x, Decision (P x)} (l : list A) :
  (∀ x, x ∈ l → ¬ P x) → filter P l = [].
Proof.
  induction l as [|x l IH]; intros Hx0; [done|].
  rewrite filter_cons. case_decide as Hx; [|apply IH; intros; apply Hx0; by right].
  destruct (Hx0 x); [by left|done].
Qed.

Lemma filter_all {A} (P : A → Prop) {HP : ∀ x, Decision (P x)} (l : list A) :
  (∀ x, x ∈ l → P x) → filter P l = l.
Proof.
  induction l as [|x l IH]; intros Hx0; [done|].
  rewrite filter_cons_True by (apply Hx0; by left).
  f_equal. apply IH. intros; apply Hx0; by right.
Qed.

Lemma filter_same {A} (P Q : A → Prop) {HP : ∀ x, Decision (P x)}
    {HQ : ∀ x, Decision (Q x)} (l : list A) :
  (∀ x, x ∈ l → P x ↔ Q x) → filter P l = filter Q l.
Proof.
  induction l as [|x l IH]; intros Hx0; [done|].
  rewrite !filter_cons, IH by (intros; apply Hx0; by right).
  pose proof (Hx0 x (list_elem_of_here x l)). repeat case_decide; tauto.
Qed.

(** Bounded search: the least index below [n] at which a test fails, if any. *)
Lemma bounded_search (P : Z → bool) n :
  (∀ i, 0 ≤ i < n → P i = true)
  ∨ (∃ j, 0 ≤ j < n ∧ P j = false ∧ ∀ i, 0 ≤ i < j → P i = true).
Proof.
  destruct (decide (0 ≤ n)) as [Hn|Hn]; [|left; intros; lia].
  revert n Hn. apply natlike_ind; [left; intros; lia|].
  intros n Hn [IH|(j & Hj & HP & Hlt)].
  - destruct (P n) eqn:E.
    + left. intros i Hi. destruct (decide (i = n)) as [->|]; [done|]. apply IH. lia.
    + right. exists n. split_and!; [lia..|done|]. intros i Hi. apply IH. lia.
  - right. exists j. split_and!; [lia..|done|done].
Qed.

(** Removing one element from what a filter keeps. *)
Lemma length_filter_remove {A} `{!EqDecision A} (P Q : A → Prop)
    {HP : ∀ x, Decision (P x)} {HQ : ∀ x, Decision (Q x)} (l : list A) y :
  NoDup l → y ∈ l → P y → (∀ x, x ∈ l → Q x ↔ P x ∧ x ≠ y) →
  length (filter P l) = S (length (filter Q l)).
Proof.
  intros Hnd Hy HPy HQe. induction l as [|x l IH]; [by apply not_elem_of_nil in Hy|].
  apply NoDup_cons in Hnd as [Hx Hnd]. rewrite !filter_cons.
  pose proof (HQe x (list_elem_of_here x l)) as Hhd.
  assert (Htl : ∀ z, z ∈ l → Q z ↔ P z ∧ z ≠ y) by (intros; apply HQe; by right).
  destruct (decide (x = y)) as [->|Hne].
  - rewrite (decide_True (P := P y)) by done. rewrite (decide_False (P := Q y)) by tauto.
    simpl. f_equal. f_equal. apply filter_same. intros z Hz. rewrite Htl by done.
    split; [|tauto]. intros; split; [done|]. by intros ->.
  - apply elem_of_cons in Hy as [Hy|Hy]; [done|].
    destruct (decide (P x)), (decide (Q x)); try tauto; simpl; rewrite IH by done; done.
Qed.

(** [P] on the integers of [[a, b)], by computation. *)
Definition all_range (a b : Z) (P : Z → bool) : bool := forallb P (seqZ a (b - a)).

Lemma all_range_spec a b P i : all_range a b P = true → a ≤ i < b → P i = true.
Proof.
  unfold all_range. rewrite forallb_forall. intros H Hi. apply H.
  rewrite <- list_elem_of_In, elem_of_seqZ. lia.
Qed.
