(* ===== verification/ByteMem.v ===== *)
(** The memory interface: what lib/string.c and lib/bitmap.c need of the
    memory they run on, the contract they are proved against, the flat
    instance of that contract, and the pure byte maps its statements speak of.
    The paged machine of Paging.v is the second instance. *)
From S2P Require Import Prelude.

(** * The interface *)

(** [*p] and [*p = v] on [uint8_t*]. *)
Class ByteMem (M : Type) := {
  load8 : M → Z → res Z;
  store8 : M → Z → Z → res M;
}.

(** [holds m g]: memory [m] holds the bytes of [g], each at its own writable
    place.  A client that owns [g] sees plain map behaviour; whatever is not
    in [g] is out of its sight. *)
Class ByteMemSpec (M : Type) `{!ByteMem M} := {
  holds : M → gmap Z Z → Prop;
  holds_byte m g a v : holds m g → g !! a = Some v → 0 ≤ v < 256;
  load8_holds m g a v : holds m g → g !! a = Some v → load8 m a = Ok v;
  store8_holds m g a v :
    holds m g → is_Some (g !! a) → 0 ≤ v < 256 →
    ∃ m', store8 m a v = Ok m' ∧ holds m' (<[a := v]> g);
}.

(** * Byte maps *)

(** [n] bytes are owned from [a] on. *)
Definition owned (g : gmap Z Z) (a n : Z) : Prop :=
  ∀ i, 0 ≤ i < n → is_Some (g !! (a + i)).

(** The bytes [bs] are stored from [a] on. *)
Definition bytes_at (g : gmap Z Z) (a : Z) (bs : list Z) : Prop :=
  ∀ i v, bs !! i = Some v → g !! (a + Z.of_nat i) = Some v.

(** Writing the bytes [bs] from [a] on. *)
Fixpoint write_bytes (g : gmap Z Z) (a : Z) (bs : list Z) : gmap Z Z :=
  match bs with
  | [] => g
  | b :: bs' => write_bytes (<[a := b]> g) (a + 1) bs'
  end.

Lemma lookup_write_bytes_lt g a bs b :
  b < a → write_bytes g a bs !! b = g !! b.
Proof.
  revert g a. induction bs as [|x bs IH]; intros g a Hb; simpl; [done|].
  rewrite IH by lia. by rewrite lookup_insert_ne by lia.
Qed.

Lemma lookup_write_bytes_ge g a bs b :
  a + Z.of_nat (length bs) ≤ b → write_bytes g a bs !! b = g !! b.
Proof.
  revert g a. induction bs as [|x bs IH]; intros g a Hb; simpl in *; [done|].
  rewrite IH by lia. by rewrite lookup_insert_ne by lia.
Qed.

Lemma lookup_write_bytes_in g a bs i v :
  bs !! i = Some v → write_bytes g a bs !! (a + Z.of_nat i) = Some v.
Proof.
  revert g a i. induction bs as [|x bs IH]; intros g a [|i] Hi; simpl in *; simplify_eq.
  - rewrite Z.add_0_r, lookup_write_bytes_lt by lia. apply lookup_insert_eq.
  - rewrite <- (IH (<[a:=x]> g) (a + 1) i Hi). f_equal. lia.
Qed.

Lemma bytes_at_write_bytes g a bs : bytes_at (write_bytes g a bs) a bs.
Proof. intros i v. apply lookup_write_bytes_in. Qed.

Lemma bytes_at_write_other g a bs b cs :
  bytes_at g b cs →
  b + Z.of_nat (length cs) ≤ a ∨ a + Z.of_nat (length bs) ≤ b →
  bytes_at (write_bytes g a bs) b cs.
Proof.
  intros Hb Hd i v Hi. pose proof (lookup_lt_Some _ _ _ Hi).
  destruct Hd; [rewrite lookup_write_bytes_lt by lia|rewrite lookup_write_bytes_ge by lia];
    by apply Hb.
Qed.

Lemma owned_insert g a n b v : owned g a n → owned (<[b := v]> g) a n.
Proof.
  intros Ho i Hi. destruct (decide (b = a + i)) as [->|].
  - rewrite lookup_insert_eq. eauto.
  - rewrite lookup_insert_ne by done. by apply Ho.
Qed.

Lemma owned_tail g a n : owned g a n → owned g (a + 1) (n - 1).
Proof.
  intros Ho i Hi. replace (a + 1 + i) with (a + (1 + i)) by lia. apply Ho. lia.
Qed.

Lemma owned_bytes_at g a bs : bytes_at g a bs → owned g a (Z.of_nat (length bs)).
Proof.
  intros Hb i Hi. destruct (lookup_lt_is_Some_2 bs (Z.to_nat i)) as [v Hv]; [lia|].
  apply Hb in Hv. rewrite Z2Nat.id in Hv by lia. eauto.
Qed.

Lemma bytes_at_cons g a b bs :
  bytes_at g a (b :: bs) ↔ g !! a = Some b ∧ bytes_at g (a + 1) bs.
Proof.
  split.
  - intros H. split.
    + rewrite <- (Z.add_0_r a). by apply (H 0%nat).
    + intros i v Hi. rewrite <- (H (S i) v Hi). f_equal. lia.
  - intros [H0 H] [|i] v Hi; simpl in Hi; simplify_eq.
    + by rewrite Z.add_0_r.
    + rewrite <- (H i v Hi). f_equal. lia.
Qed.

Lemma bytes_at_app g a bs cs :
  bytes_at g a (bs ++ cs) ↔
  bytes_at g a bs ∧ bytes_at g (a + Z.of_nat (length bs)) cs.
Proof.
  revert a. induction bs as [|b bs IH]; intros a; simpl.
  - rewrite Z.add_0_r. split; [intros; split; [by intros [] ?|done]|by intros [_ ?]].
  - rewrite !bytes_at_cons, IH.
    replace (a + Z.of_nat (S (length bs))) with (a + 1 + Z.of_nat (length bs)) by lia.
    tauto.
Qed.

Lemma bytes_at_insert_ne g a bs b v :
  bytes_at g a bs → b < a ∨ a + Z.of_nat (length bs) ≤ b →
  bytes_at (<[b := v]> g) a bs.
Proof.
  intros Hb Hd i w Hi. pose proof (lookup_lt_Some _ _ _ Hi).
  rewrite lookup_insert_ne by lia. by apply Hb.
Qed.

#[export] Hint Resolve owned_insert owned_tail owned_bytes_at : mach.

(** * The flat instance

    Memory as one finite map; an access outside its domain faults. *)

#[global] Instance flat_mem : ByteMem (gmap Z Z) := {
  load8 m a := match m !! a with Some v => Ok v | None => Fault end;
  store8 m a v := match m !! a with Some _ => Ok (<[a := v]> m) | None => Fault end;
}.

#[global] Program Instance flat_mem_spec : ByteMemSpec (gmap Z Z) := {
  holds m g := g ⊆ m ∧ ∀ a v, g !! a = Some v → 0 ≤ v < 256;
}.
Next Obligation. intros m g a v [_ Hr] Hg. eauto. Qed.
Next Obligation.
  intros m g a v [Hsub _] Hg. simpl. by rewrite (lookup_weaken _ _ _ _ Hg Hsub).
Qed.
Next Obligation.
  intros m g a v [Hsub Hr] [w Hw] Hv. simpl.
  rewrite (lookup_weaken _ _ _ _ Hw Hsub). eexists. split; [done|].
  split; [by apply insert_mono|]. intros b u.
  rewrite lookup_insert. case_decide; [by intros [= <-]|apply Hr].
Qed.

(** A flat memory holds itself when its cells are bytes: how witnesses build
    their memories. *)
Definition is_byte_map (g : gmap Z Z) : bool :=
  forallb (λ p : Z * Z, (0 <=? p.2) && (p.2 <? 256)) (map_to_list g).

Lemma flat_holds g : is_byte_map g = true → holds (M := gmap Z Z) g g.
Proof.
  intros H. split; [done|]. intros a v Hv.
  unfold is_byte_map in H. rewrite forallb_forall in H.
  specialize (H (a, v)). rewrite <- list_elem_of_In, elem_of_map_to_list in H.
  specialize (H Hv). simpl in H. lia.
Qed.

(** Executable forms of the byte-map predicates. *)
Fixpoint bytes_atb (g : gmap Z Z) (a : Z) (bs : list Z) : bool :=
  match bs with
  | [] => true
  | b :: bs' => bool_decide (g !! a = Some b) && bytes_atb g (a + 1) bs'
  end.

Lemma bytes_atb_ok g a bs : bytes_atb g a bs = true → bytes_at g a bs.
Proof.
  revert a. induction bs as [|b bs IH]; intros a; simpl.
  - intros _ i v Hi. by rewrite lookup_nil in Hi.
  - intros [H1%bool_decide_eq_true H2]%andb_true_iff. apply bytes_at_cons. auto.
Qed.

Definition ownedb (g : gmap Z Z) (a n : Z) : bool :=
  forallb (λ i, bool_decide (is_Some (g !! (a + Z.of_nat i)))) (seq 0 (Z.to_nat n)).

Lemma ownedb_ok g a n : ownedb g a n = true → owned g a n.
Proof.
  intros H i Hi. unfold ownedb in H. rewrite forallb_forall in H.
  specialize (H (Z.to_nat i)). rewrite in_seq, Z2Nat.id in H by lia.
  eapply bool_decide_eq_true_1, H. lia.
Qed.
