(* ===== verification/CString.v ===== *)
(** lib/string.c: the byte and string routines, over any memory that
    implements the interface of ByteMem.v.  Each loop of the source is one
    loop here: the counted ones ([while(size-- > 0)]) recurse on the count,
    the others run [while_].  Plain [char] is signed (gcc, i386), so the
    comparisons of the source are made on [s8] of the byte. *)
From S2P Require Import Prelude ByteMem.

Section routines.
Context {M : Type} `{!ByteMem M}.

(** [p++] on a byte pointer. *)
Definition incp (p : Z) : Z := u32 (p + 1).

Fixpoint memset_loop (m : M) (dst value : Z) (size : nat) : res M :=
  match size with
  | O => Ok m
  | S n => m' ← store8 m dst value; memset_loop m' (incp dst) value n
  end.

Definition memset (m : M) (dst_ value size : Z) : res M :=
  ASSERT (negb (dst_ =? NULL)) "memset";;
  memset_loop m dst_ (u8 value) (Z.to_nat (u32 size)).

Fixpoint memcpy_loop (m : M) (dst src : Z) (size : nat) : res M :=
  match size with
  | O => Ok m
  | S n =>
      c ← load8 m src;
      m' ← store8 m dst c;
      memcpy_loop m' (incp dst) (incp src) n
  end.

Definition memcpy (m : M) (dst_ src_ size : Z) : res M :=
  ASSERT (negb (dst_ =? NULL) && negb (src_ =? NULL)) "memcpy";;
  memcpy_loop m dst_ src_ (Z.to_nat (u32 size)).

Fixpoint memcmp_loop (m : M) (a b : Z) (size : nat) : res Z :=
  match size with
  | O => Ok 0
  | S n =>
      x ← load8 m a;
      y ← load8 m b;
      if negb (s8 x =? s8 y) then Ok (if s8 x >? s8 y then 1 else -1)
      else memcmp_loop m (incp a) (incp b) n
  end.

Definition memcmp (m : M) (a_ b_ size : Z) : res Z :=
  ASSERT (negb (a_ =? NULL) && negb (b_ =? NULL)) "memcmp";;
  memcmp_loop m a_ b_ (Z.to_nat (u32 size)).

(** The copying loop of strcpy and strcat: store one character, stop at zero. *)
Definition copy_body (st : M * Z * Z) : res (M * Z * Z + M) :=
  let '(m, dst, src) := st in
  c ← load8 m src;
  m' ← store8 m dst c;
  Ok (if c =? 0 then inr m' else inl (m', incp dst, incp src)).

Definition strcpy (m : M) (dst_ src_ : Z) : res (Z * M) :=
  ASSERT (negb (dst_ =? NULL) && negb (src_ =? NULL)) "strcpy";;
  m' ← while_ copy_body LOOP_FUEL (m, dst_, src_);
  Ok (dst_, m').

(** The scanning loop of strlen and strcat; its result points after the terminator. *)
Definition scan_body (m : M) (p : Z) : res (Z + Z) :=
  c ← load8 m p;
  Ok (if c =? 0 then inr (incp p) else inl (incp p)).

Definition strlen (m : M) (str : Z) : res Z :=
  ASSERT (negb (str =? NULL)) "strlen";;
  p ← while_ (scan_body m) LOOP_FUEL str;
  Ok (u32 (p - str - 1)).

Definition strcmp_body (m : M) (st : Z * Z) : res (Z * Z + Z) :=
  let '(a, b) := st in
  x ← load8 m a;
  y ← load8 m b;
  Ok (if negb (s8 x =? 0) && (s8 x =? s8 y) then inl (incp a, incp b)
      else inr (if s8 x <? s8 y then -1 else if s8 x >? s8 y then 1 else 0)).

Definition strcmp (m : M) (a b : Z) : res Z :=
  ASSERT (negb (a =? NULL) && negb (b =? NULL)) "strcmp";;
  while_ (strcmp_body m) LOOP_FUEL (a, b).

Definition strchr_body (m : M) (ch str : Z) : res (Z + Z) :=
  c ← load8 m str;
  Ok (if c =? 0 then inr NULL
      else if s8 c =? u8 ch then inr str
      else inl (incp str)).

Definition strchr (m : M) (str ch : Z) : res Z :=
  ASSERT (negb (str =? NULL)) "strchr";;
  while_ (strchr_body m ch) LOOP_FUEL str.

Definition strrchr_body (m : M) (ch : Z) (st : Z * Z) : res (Z * Z + Z) :=
  let '(str, last_char) := st in
  c ← load8 m str;
  Ok (if c =? 0 then inr last_char
      else inl (incp str, if s8 c =? u8 ch then str else last_char)).

Definition strrchr (m : M) (str ch : Z) : res Z :=
  ASSERT (negb (str =? NULL)) "strrchr";;
  while_ (strrchr_body m ch) LOOP_FUEL (str, NULL).

Definition strcat (m : M) (dst_ src_ : Z) : res (Z * M) :=
  ASSERT (negb (dst_ =? NULL) && negb (src_ =? NULL)) "strcat";;
  str ← while_ (scan_body m) LOOP_FUEL dst_;
  m' ← while_ copy_body LOOP_FUEL (m, u32 (str - 1), src_);
  Ok (dst_, m').

Definition strchrs_body (m : M) (ch : Z) (st : Z * Z) : res (Z * Z + Z) :=
  let '(p, ch_cnt) := st in
  c ← load8 m p;
  Ok (if c =? 0 then inr ch_cnt
      else inl (incp p, if s8 c =? u8 ch then u32 (ch_cnt + 1) else ch_cnt)).

Definition strchrs (m : M) (str ch : Z) : res Z :=
  ASSERT (negb (str =? NULL)) "strchrs";;
  while_ (strchrs_body m ch) LOOP_FUEL (str, 0).
End routines.

(** * Specifications *)

(** [cstr g a s]: the characters [s], none of them zero, are stored at [a],
    followed by the terminator, all below the end of the address space. *)
Definition cstr (g : gmap Z Z) (a : Z) (s : list Z) : Prop :=
  bytes_at g a (s ++ [0]) ∧ Forall (λ c, 0 < c < 256) s
  ∧ 0 < a ∧ a + Z.of_nat (length s) + 1 < 2 ^ 32.

Section specs.
Context {M : Type} `{!ByteMem M, !ByteMemSpec M}.
Implicit Types (m : M) (g : gmap Z Z) (s : list Z).

Lemma incp_small p : 0 ≤ p → p + 1 < 2 ^ 32 → incp p = p + 1.
Proof. intros. unfold incp. apply u32_small. lia. Qed.

Lemma cstr_cons g a c s :
  cstr g a (c :: s) → g !! a = Some c ∧ 0 < c < 256 ∧ cstr g (a + 1) s.
Proof.
  intros (Hb & Hf & Ha & Hl). simpl in *. apply bytes_at_cons in Hb as [H0 Hb].
  inversion_clear Hf. split_and!; auto with lia. repeat split; auto with lia.
Qed.

Lemma cstr_nil g a : cstr g a [] → g !! a = Some 0.
Proof. intros (Hb & _). by apply bytes_at_cons in Hb as [H0 _]. Qed.

Lemma cstr_pos g a s : cstr g a s → negb (a =? NULL) = true.
Proof. intros (_ & _ & ? & _). unfold NULL. destruct (Z.eqb_spec a 0); lia. Qed.

Lemma cstr_next g a c s : cstr g a (c :: s) → incp a = a + 1.
Proof. intros (_ & _ & ? & Hl). simpl in Hl. apply incp_small; lia. Qed.

Lemma cstr_length g a s : cstr g a s → Z.of_nat (length s) < 2 ^ 32.
Proof. intros (_ & _ & ? & ?). lia. Qed.

(** All the scanning loops of the file walk a string character by character;
    [strwalk] is that walk, once: a step on every character, an exit at the
    terminator or at a character that stops. *)
Lemma strwalk {St R} (body : St → res (St + R)) g (at_ : St → Z)
    (I : St → list Z → Prop) (Q : R → Prop) :
  (∀ st, I st [] → cstr g (at_ st) [] → ∃ r, body st = Ok (inr r) ∧ Q r) →
  (∀ st c s, I st (c :: s) → cstr g (at_ st) (c :: s) →
     (∃ st', body st = Ok (inl st') ∧ at_ st' = at_ st + 1 ∧ I st' s)
     ∨ (∃ r, body st = Ok (inr r) ∧ Q r)) →
  ∀ st s, I st s → cstr g (at_ st) s →
  ∃ r, while_ body LOOP_FUEL st = Ok r ∧ Q r.
Proof.
  intros Hnil Hcons st0 s0 HI0 Hs0.
  assert (Hrun : ∀ s st n, I st s → cstr g (at_ st) s → (length s < n)%nat →
    ∃ r, while_nat body n st = Ok (inr r) ∧ Q r).
  { intros s. induction s as [|c s IH]; intros st n HI Hs Hn;
      (destruct n as [|n]; [lia|]); simpl.
    - destruct (Hnil st HI Hs) as (r & -> & HQ). simpl. eauto.
    - simpl in Hn. destruct (Hcons st c s HI Hs) as [(st' & -> & Hat & HI')|(r & -> & HQ)];
        simpl; [|eauto].
      apply IH; [done| |lia]. rewrite Hat. by apply cstr_cons in Hs as (_ & _ & ?). }
  destruct (Hrun s0 st0 (S (length s0)) HI0 Hs0) as (r & Hr & HQ); [lia|].
  exists r. split; [|done]. apply while_from_nat. eexists. split; [|done].
  pose proof (cstr_length _ _ _ Hs0). pose proof LOOP_FUEL_val. lia.
Qed.
(** ** Counted loops *)

Lemma memset_loop_holds m g dst v n :
  holds m g → owned g dst (Z.of_nat n) → 0 ≤ v < 256 →
  0 ≤ dst → dst + Z.of_nat n ≤ 2 ^ 32 →
  ∃ m', memset_loop m dst v n = Ok m'
      ∧ holds m' (write_bytes g dst (replicate n v)).
Proof.
  intros Hh Ho Hv. revert m g dst Hh Ho.
  induction n as [|n IH]; intros m g dst Hh Ho Hd Hw; simpl; [eauto|].
  destruct (store8_holds m g dst v Hh) as (m1 & -> & Hh1); [|done|].
  { rewrite <- (Z.add_0_r dst). apply Ho. lia. }
  simpl. destruct n as [|n]; [simpl; eauto|].
  rewrite incp_small by lia. apply IH; [done| |lia..].
  apply owned_insert. replace (Z.of_nat (S n)) with (Z.of_nat (S (S n)) - 1) by lia.
  by apply owned_tail.
Qed.

(** [memset] writes [size] copies of the value and nothing else. *)
Lemma memset_holds m g dst v size :
  holds m g → owned g dst size → 0 < dst → 0 ≤ size → dst + size ≤ 2 ^ 32 →
  ∃ m', memset m dst v size = Ok m'
      ∧ holds m' (write_bytes g dst (replicate (Z.to_nat size) (u8 v))).
Proof.
  intros Hh Ho Hd Hs Hw. unfold memset, ASSERT, NULL.
  destruct (Z.eqb_spec dst 0); [lia|]. simpl.
  rewrite u32_small by lia.
  apply memset_loop_holds; rewrite ?Z2Nat.id; auto with lia. apply u8_range.
Qed.

Lemma memcpy_loop_holds m g dst src bs :
  holds m g → owned g dst (Z.of_nat (length bs)) → bytes_at g src bs →
  0 ≤ dst → 0 ≤ src →
  dst + Z.of_nat (length bs) ≤ 2 ^ 32 → src + Z.of_nat (length bs) ≤ 2 ^ 32 →
  dst ≤ src ∨ src + Z.of_nat (length bs) ≤ dst →
  ∃ m', memcpy_loop m dst src (length bs) = Ok m'
      ∧ holds m' (write_bytes g dst bs).
Proof.
  revert m g dst src. induction bs as [|b bs IH];
    intros m g dst src Hh Ho Hb Hd Hs Hdw Hsw Hov; simpl in *; [eauto|].
  apply bytes_at_cons in Hb as [Hb0 Hb].
  rewrite (load8_holds m g src b Hh Hb0). simpl.
  destruct (store8_holds m g dst b Hh) as (m1 & -> & Hh1).
  { rewrite <- (Z.add_0_r dst). apply Ho. lia. }
  { by eapply holds_byte. }
  simpl. destruct bs as [|b' bs]; [simpl; eauto|]. simpl length in *.
  rewrite !incp_small by lia. apply IH; [done| | |lia..].
  - apply owned_insert. replace (Z.of_nat (S (length bs)))
      with (Z.of_nat (S (S (length bs))) - 1) by lia. by apply owned_tail.
  - apply bytes_at_insert_ne; [done|]. simpl. lia.
Qed.

(** [memcpy] copies forward, so it is right whenever the destination does
    not start inside the source. *)
Lemma memcpy_holds m g dst src bs :
  holds m g → owned g dst (Z.of_nat (length bs)) → bytes_at g src bs →
  0 < dst → 0 < src → Z.of_nat (length bs) < 2 ^ 32 →
  dst + Z.of_nat (length bs) ≤ 2 ^ 32 → src + Z.of_nat (length bs) ≤ 2 ^ 32 →
  dst ≤ src ∨ src + Z.of_nat (length bs) ≤ dst →
  ∃ m', memcpy m dst src (Z.of_nat (length bs)) = Ok m'
      ∧ holds m' (write_bytes g dst bs).
Proof.
  intros. unfold memcpy, ASSERT, NULL.
  destruct (Z.eqb_spec dst 0), (Z.eqb_spec src 0); try lia. simpl.
  rewrite u32_small, Nat2Z.id by lia. apply memcpy_loop_holds; auto with lia.
Qed.

Lemma memcmp_loop_same m g a b bs :
  holds m g → bytes_at g a bs → bytes_at g b bs →
  0 ≤ a → 0 ≤ b → a + Z.of_nat (length bs) < 2 ^ 32 → b + Z.of_nat (length bs) < 2 ^ 32 →
  memcmp_loop m a b (length bs) = Ok 0.
Proof.
  intros Hh. revert a b. induction bs as [|x bs IH]; intros a b Ha Hb; simpl; [done|].
  intros. apply bytes_at_cons in Ha as [Ha0 Ha]. apply bytes_at_cons in Hb as [Hb0 Hb].
  rewrite (load8_holds m g a x), (load8_holds m g b x) by done. simpl.
  rewrite Z.eqb_refl. simpl. rewrite !incp_small by lia. apply IH; auto with lia.
Qed.

(** ** Scanning loops *)

Lemma strscan_holds m g a s :
  holds m g → cstr g a s →
  while_ (scan_body m) LOOP_FUEL a = Ok (a + Z.of_nat (length s) + 1).
Proof.
  intros Hh Hs.
  destruct (strwalk (scan_body m) g id
    (λ p r, p + Z.of_nat (length r) = a + Z.of_nat (length s))
    (λ r, r = a + Z.of_nat (length s) + 1)) with (st := a) (s := s)
    as (r & -> & ->); auto.
  - intros p HI Hc. unfold scan_body, id in *. rewrite (load8_holds m g p 0 Hh (cstr_nil _ _ Hc)).
    simpl in *. eexists. split; [done|]. destruct Hc as (_ & _ & ? & Hl). simpl in Hl.
    rewrite incp_small by lia. lia.
  - intros p c r HI Hc. left. pose proof (cstr_next _ _ _ _ Hc) as Hn.
    apply cstr_cons in Hc as (H0 & Hr & Hc). unfold scan_body, id in *.
    rewrite (load8_holds m g p c Hh H0). simpl in *.
    destruct (Z.eqb_spec c 0); [lia|]. eexists. split_and!; [done|done|]. lia.
Qed.

(** [strlen] returns the number of characters before the terminator. *)
Lemma strlen_holds m g a s :
  holds m g → cstr g a s → strlen m a = Ok (Z.of_nat (length s)).
Proof.
  intros Hh Hs. unfold strlen. rewrite assert_true by by eapply cstr_pos. rb.
  rewrite (strscan_holds m g a s) by done. rb. f_equal.
  pose proof (cstr_length _ _ _ Hs). rewrite u32_small; lia.
Qed.

(** The copying loop writes the whole string with its terminator, provided
    the destination does not start inside the source. *)
Lemma copy_holds m g dst src s :
  holds m g → cstr g src s → owned g dst (Z.of_nat (length s) + 1) →
  0 ≤ dst → dst + Z.of_nat (length s) + 1 < 2 ^ 32 →
  dst ≤ src ∨ src + Z.of_nat (length s) < dst →
  ∃ m', while_ copy_body LOOP_FUEL (m, dst, src) = Ok m'
      ∧ holds m' (write_bytes g dst (s ++ [0])).
Proof.
  intros Hh0 Hs0 Ho0 Hd0 Hw0 Hov0.
  assert (Hrun : ∀ s m g dst src n, holds m g → cstr g src s →
    owned g dst (Z.of_nat (length s) + 1) → 0 ≤ dst →
    dst + Z.of_nat (length s) + 1 < 2 ^ 32 →
    dst ≤ src ∨ src + Z.of_nat (length s) < dst → (length s < n)%nat →
    ∃ m', while_nat copy_body n (m, dst, src) = Ok (inr m')
        ∧ holds m' (write_bytes g dst (s ++ [0]))).
  { clear. intros s. induction s as [|c s IH];
      intros m g dst src n Hh Hs Ho Hd Hw Hov Hn; (destruct n as [|n]; [lia|]);
      simpl in *.
    - rewrite (load8_holds m g src 0 Hh (cstr_nil _ _ Hs)). simpl.
      destruct (store8_holds m g dst 0 Hh) as (m1 & -> & Hh1); [|lia|simpl; eauto].
      rewrite <- (Z.add_0_r dst). apply Ho. lia.
    - pose proof (cstr_next _ _ _ _ Hs) as Hn1. pose proof Hs as Hs'.
      apply cstr_cons in Hs' as (H0 & Hr & Hs').
      rewrite (load8_holds m g src c Hh H0). simpl.
      destruct (store8_holds m g dst c Hh) as (m1 & -> & Hh1); [|lia|].
      { rewrite <- (Z.add_0_r dst). apply Ho. lia. }
      simpl. destruct (Z.eqb_spec c 0); [lia|]. simpl.
      rewrite Hn1, incp_small by lia. apply IH; [done| | |lia..].
      + destruct Hs' as (Hb & Hf & Hp & Hl). repeat split; auto.
        apply bytes_at_insert_ne; [done|]. rewrite length_app. simpl. lia.
      + apply owned_insert. replace (Z.of_nat (length s) + 1)
          with (Z.of_nat (S (length s)) + 1 - 1) by lia. by apply owned_tail. }
  destruct (Hrun s m g dst src (S (length s))) as (m' & Hr & Hm'); auto.
  exists m'. split; [|done]. apply while_from_nat. eexists. split; [|done].
  pose proof (cstr_length _ _ _ Hs0). pose proof LOOP_FUEL_val. lia.
Qed.

Lemma strcpy_holds m g dst src s :
  holds m g → cstr g src s → owned g dst (Z.of_nat (length s) + 1) →
  0 < dst → dst + Z.of_nat (length s) + 1 < 2 ^ 32 →
  dst ≤ src ∨ src + Z.of_nat (length s) < dst →
  ∃ m', strcpy m dst src = Ok (dst, m')
      ∧ holds m' (write_bytes g dst (s ++ [0])).
Proof.
  intros Hh Hs Ho Hd Hw Hov. unfold strcpy. rewrite assert_true; rb.
  - destruct (copy_holds m g dst src s) as (m' & -> & Hm'); auto with lia.
    rb. eauto.
  - rewrite (cstr_pos _ _ _ Hs). unfold NULL. destruct (Z.eqb_spec dst 0); [lia|done].
Qed.

Lemma cstr_write g a s :
  0 < a → a + Z.of_nat (length s) + 1 < 2 ^ 32 → Forall (λ c, 0 < c < 256) s →
  cstr (write_bytes g a (s ++ [0])) a s.
Proof. intros. split_and!; auto. apply bytes_at_write_bytes. Qed.

Lemma cstr_write_other g a bs b s :
  cstr g b s → b + Z.of_nat (length s) < a ∨ a + Z.of_nat (length bs) ≤ b →
  cstr (write_bytes g a bs) b s.
Proof.
  intros (Hb & Hf & Hp & Hl) Hd. split_and!; auto.
  apply bytes_at_write_other; [done|]. rewrite length_app. simpl. lia.
Qed.

(** ** Comparison and search *)

Lemma s8_inj x y : 0 ≤ x < 256 → 0 ≤ y < 256 → s8 x = s8 y → x = y.
Proof.
  intros Hx Hy. unfold s8. rewrite !Z.mod_small by lia.
  destruct (Z.ltb_spec x (2 ^ 7)), (Z.ltb_spec y (2 ^ 7)); lia.
Qed.

(** A signed [char] equals a [uint8_t] only below 128. *)
Lemma s8_eq_u8 c ch : 0 < c < 256 → 0 ≤ ch < 256 → s8 c = u8 ch ↔ c = ch ∧ ch < 128.
Proof.
  intros Hc Hch. rewrite u8_small by done. unfold s8. rewrite Z.mod_small by lia.
  destruct (Z.ltb_spec c (2 ^ 7)); lia.
Qed.

(** The characters of two strings up to and including the terminators decide
    [strcmp]: [differ s t x y] says they first differ in [x] and [y]. *)
Definition differ (s t : list Z) (x y : Z) : Prop :=
  ∃ p s' t', s ++ [0] = p ++ x :: s' ∧ t ++ [0] = p ++ y :: t' ∧ x ≠ y.

Lemma differ_cons c s t x y : differ s t x y → differ (c :: s) (c :: t) x y.
Proof.
  intros (p & s' & t' & Hs & Ht & Hne). exists (c :: p), s', t'.
  simpl. by rewrite Hs, Ht.
Qed.

Definition strcmp_result (s t : list Z) (r : Z) : Prop :=
  (s = t ∧ r = 0)
  ∨ (∃ x y, differ s t x y ∧ r = if s8 x <? s8 y then -1 else 1).

Lemma strcmp_result_cons c s t r :
  strcmp_result s t r → strcmp_result (c :: s) (c :: t) r.
Proof.
  intros [[-> ->]|(x & y & Hd & ->)]; [by left|right].
  exists x, y. split; [by apply differ_cons|done].
Qed.

Lemma strcmp_head_diff x s y t :
  0 ≤ x < 256 → 0 ≤ y < 256 → x ≠ y → ∀ s0 t0,
  s0 ++ [0] = x :: s → t0 ++ [0] = y :: t →
  strcmp_result s0 t0 (if s8 x <? s8 y then -1 else if s8 x >? s8 y then 1 else 0).
Proof.
  intros Hx Hy Hne s0 t0 Hs Ht. right. exists x, y. split.
  - by exists [], s, t.
  - destruct (Z.ltb_spec (s8 x) (s8 y)); [done|].
    rewrite Z.gtb_ltb. destruct (Z.ltb_spec (s8 y) (s8 x)); [done|].
    destruct Hne. apply s8_inj; auto with lia.
Qed.

Lemma cstr_head g a s :
  cstr g a s → ∃ x r, s ++ [0] = x :: r ∧ g !! a = Some x ∧ 0 ≤ x < 256
                    ∧ (x = 0 → s = []) .
Proof.
  destruct s as [|c s]; intros Hs.
  - exists 0, []. split_and!; [done|by apply cstr_nil|lia..|done].
  - apply cstr_cons in Hs as (H0 & Hc & _). exists c, (s ++ [0]).
    split_and!; [done|done|lia..].
Qed.

Lemma strcmp_run m g s :
  ∀ t a b n, holds m g → cstr g a s → cstr g b t → (length s < n)%nat →
  ∃ r, while_nat (strcmp_body m) n (a, b) = Ok (inr r) ∧ strcmp_result s t r.
Proof.
  induction s as [|c s IH]; intros t a b n Hh Ha Hb Hn;
    (destruct n as [|n]; [lia|]); simpl;
    destruct (cstr_head _ _ _ Hb) as (y & t' & Hy & Hby & Hyr & Hy0);
    rewrite (load8_holds m g b y Hh Hby).
  - rewrite (load8_holds m g a 0 Hh (cstr_nil _ _ Ha)). simpl.
    eexists. split; [done|]. destruct (decide (y = 0)) as [->|Hne].
    + rewrite (Hy0 eq_refl). left. done.
    + apply (strcmp_head_diff 0 [] y t'); auto with lia.
  - pose proof (cstr_next _ _ _ _ Ha) as Hna.
    apply cstr_cons in Ha as (H0 & Hc & Ha). rewrite (load8_holds m g a c Hh H0). simpl.
    assert (s8 c ≠ 0) as Hc0.
    { intros E. assert (c = 0); [|lia]. apply s8_inj; [lia..|done]. }
    destruct (Z.eqb_spec (s8 c) 0) as [|_]; [done|]. simpl.
    destruct (Z.eqb_spec (s8 c) (s8 y)) as [Heq|Hne].
    + apply s8_inj in Heq as ->; [|lia..].
      destruct t as [|d t]; [simpl in Hy; simplify_eq; lia|].
      simpl in Hy. simplify_eq. pose proof (cstr_next _ _ _ _ Hb) as Hnb.
      apply cstr_cons in Hb as (_ & _ & Hb). simpl. rewrite Hna, Hnb.
      simpl in Hn. destruct (IH t (a + 1) (b + 1) n) as (r & -> & Hr); auto with lia.
      exists r. split; [done|]. by apply strcmp_result_cons.
    + eexists. split; [done|].
      apply (strcmp_head_diff c (s ++ [0]) y t'); auto with lia. congruence.
Qed.

Lemma strcmp_holds m g a b s t :
  holds m g → cstr g a s → cstr g b t →
  ∃ r, strcmp m a b = Ok r ∧ strcmp_result s t r.
Proof.
  intros Hh Ha Hb. unfold strcmp.
  rewrite assert_true by (by rewrite (cstr_pos _ _ _ Ha), (cstr_pos _ _ _ Hb)). rb.
  destruct (strcmp_run m g s t a b (S (length s))) as (r & Hr & Hres); auto.
  exists r. split; [|done]. apply while_from_nat. eexists. split; [|done].
  pose proof (cstr_length _ _ _ Ha). pose proof LOOP_FUEL_val. lia.
Qed.

Lemma strcmp_same m g a b s :
  holds m g → cstr g a s → cstr g b s → strcmp m a b = Ok 0.
Proof.
  intros Hh Ha Hb. destruct (strcmp_holds m g a b s s) as (r & -> & Hr); auto.
  destruct Hr as [[_ ->]|(x & y & (p & s' & t' & H1 & H2 & Hne) & _)]; [done|].
  rewrite H1 in H2. apply app_inv_head in H2. congruence.
Qed.

(** What [strchr], [strrchr] and [strchrs] look for: position [i] of [s]
    matches [ch] when the characters compare equal in the source. *)
Definition matches (s : list Z) (ch : Z) (i : nat) : Prop :=
  ∃ c, s !! i = Some c ∧ s8 c = u8 ch.

Definition match_count (s : list Z) (ch : Z) : Z :=
  Z.of_nat (length (filter (λ c, s8 c = u8 ch) s)).

Lemma strchr_holds m g a s ch :
  holds m g → cstr g a s →
  ∃ r, strchr m a ch = Ok r
    ∧ ((∃ i, r = a + Z.of_nat i ∧ matches s ch i ∧ ∀ j, (j < i)%nat → ¬ matches s ch j)
       ∨ (r = NULL ∧ ∀ j, ¬ matches s ch j)).
Proof.
  intros Hh Hs. unfold strchr. rewrite assert_true by by eapply cstr_pos. rb.
  apply (strwalk (strchr_body m ch) g id
    (λ p r, ∃ q, s = q ++ r ∧ p = a + Z.of_nat (length q)
              ∧ ∀ j, (j < length q)%nat → ¬ matches s ch j)) with (s := s); auto.
  - intros p (q & Heq & -> & Hq) Hc. unfold strchr_body, id in *.
    rewrite (load8_holds m g _ 0 Hh (cstr_nil _ _ Hc)). simpl.
    eexists. split; [done|]. right. split; [done|]. intros j Hj.
    apply (Hq j); [|done]. destruct Hj as (c & Hj & _).
    rewrite Heq, app_nil_r in Hj. by eapply lookup_lt_Some.
  - intros p c r (q & Heq & -> & Hq) Hc. pose proof (cstr_next _ _ _ _ Hc) as Hn.
    apply cstr_cons in Hc as (H0 & Hcr & _). unfold strchr_body, id in *.
    rewrite (load8_holds m g _ c Hh H0). simpl.
    destruct (Z.eqb_spec c 0); [lia|].
    destruct (Z.eqb_spec (s8 c) (u8 ch)) as [Hm|Hm].
    + right. eexists. split; [done|]. left. exists (length q). split_and!; auto.
      exists c. rewrite Heq. by rewrite list_lookup_middle.
    + left. eexists. split_and!; [done|done|].
      exists (q ++ [c]). rewrite length_app. simpl. split_and!.
      * by rewrite <- app_assoc.
      * rewrite Hn. lia.
      * intros j Hj. destruct (decide (j < length q)%nat) as [|Hge]; [by apply Hq|].
        intros (c' & Hj' & Hm'). assert (j = length q) as -> by lia.
        rewrite Heq, list_lookup_middle in Hj' by done. congruence.
  - exists []. split_and!; [done|simpl; lia|simpl; lia].
Qed.

Lemma strrchr_holds m g a s ch :
  holds m g → cstr g a s →
  ∃ r, strrchr m a ch = Ok r
    ∧ ((∃ i, r = a + Z.of_nat i ∧ matches s ch i ∧ ∀ j, (i < j)%nat → ¬ matches s ch j)
       ∨ (r = NULL ∧ ∀ j, ¬ matches s ch j)).
Proof.
  intros Hh Hs. unfold strrchr. rewrite assert_true by by eapply cstr_pos. rb.
  apply (strwalk (strrchr_body m ch) g fst
    (λ st r, ∃ q, s = q ++ r ∧ st.1 = a + Z.of_nat (length q)
       ∧ ((∃ i, st.2 = a + Z.of_nat i ∧ matches s ch i
               ∧ ∀ j, (i < j < length q)%nat → ¬ matches s ch j)
          ∨ (st.2 = NULL ∧ ∀ j, (j < length q)%nat → ¬ matches s ch j)))) with (s := s); auto.
  - intros [p l] (q & Heq & Hp & Hq) Hc. simpl in *. unfold strrchr_body.
    rewrite (load8_holds m g _ 0 Hh (cstr_nil _ _ Hc)). simpl.
    eexists. split; [done|]. rewrite app_nil_r in Heq. subst q.
    assert (∀ j, matches s ch j → (j < length s)%nat) as Hlt.
    { intros j (c & Hj & _). by eapply lookup_lt_Some. }
    destruct Hq as [(i & ? & Hi & Hj)|[? Hj]]; [left|right].
    + exists i. split_and!; auto. intros j ? Hmj. eapply Hj; [|done]. split; [done|]. by apply Hlt.
    + split; [done|]. intros j Hmj. eapply Hj; [|done]. by apply Hlt.
  - intros [p l] c r (q & Heq & Hp & Hq) Hc. simpl in *. pose proof (cstr_next _ _ _ _ Hc) as Hn.
    apply cstr_cons in Hc as (H0 & Hcr & _).
    rewrite (load8_holds m g _ c Hh H0). simpl.
    destruct (Z.eqb_spec c 0); [lia|]. left. eexists. split_and!; [done|done|].
    exists (q ++ [c]). rewrite length_app. simpl. split_and!.
    + by rewrite <- app_assoc.
    + lia.
    + assert (matches s ch (length q) ↔ s8 c = u8 ch) as Hmid.
      { unfold matches. rewrite Heq. setoid_rewrite list_lookup_middle; [|done..].
        split; [by intros (? & [= <-] & ?)|by exists c]. }
      destruct (Z.eqb_spec (s8 c) (u8 ch)) as [Hm|Hm]; [left|].
      * exists (length q). split_and!; [done|by apply Hmid|]. lia.
      * assert (∀ j, (j < length q + 1)%nat → matches s ch j → (j < length q)%nat) as Hsmall.
        { intros j Hj Hmj. destruct (decide (j = length q)) as [->|]; [|lia].
          destruct Hm. by apply Hmid. }
        destruct Hq as [(i & ? & Hi & Hj)|[? Hj]]; [left|right].
        -- exists i. split_and!; auto. intros j ? Hmj. eapply Hj; [|done].
           split; [lia|]. apply Hsmall; [lia|done].
        -- split; [done|]. intros j ? Hmj. eapply Hj; [|done]. by apply Hsmall.
  - exists []. simpl. split_and!; [done|lia|]. right. split; [done|lia].
Qed.

Lemma strchrs_holds m g a s ch :
  holds m g → cstr g a s → strchrs m a ch = Ok (match_count s ch).
Proof.
  intros Hh Hs. unfold strchrs. rewrite assert_true by by eapply cstr_pos. rb.
  destruct (strwalk (strchrs_body m ch) g fst
    (λ st r, 0 ≤ st.2 ∧ st.2 + match_count r ch = match_count s ch
           ∧ st.2 + Z.of_nat (length r) < 2 ^ 32)
    (λ r, r = match_count s ch)) with (st := (a, 0)) (s := s) as (r & -> & ->); auto.
  - intros [p n] (Hn & Hsum & _) Hc. simpl in *.
    rewrite (load8_holds m g _ 0 Hh (cstr_nil _ _ Hc)). simpl.
    eexists. split; [done|]. unfold match_count in Hsum at 1. simpl in Hsum. lia.
  - intros [p n] c r (Hn & Hsum & Hlt) Hc. simpl in *. left.
    pose proof (cstr_next _ _ _ _ Hc) as Hnx. apply cstr_cons in Hc as (H0 & Hcr & _).
    rewrite (load8_holds m g _ c Hh H0). simpl. destruct (Z.eqb_spec c 0); [lia|].
    eexists. split_and!; [done|done|..]; simpl; unfold match_count in Hsum at 1;
      rewrite filter_cons in Hsum; destruct (Z.eqb_spec (s8 c) (u8 ch)) as [E|E];
      (case_decide; [|done] || (case_decide; [done|])); simpl in Hsum;
      unfold match_count in *; rewrite ?u32_small by lia; lia.
  - simpl. pose proof (cstr_length _ _ _ Hs). lia.
Qed.

Lemma strcat_holds m g dst src s t :
  holds m g → cstr g dst s → cstr g src t →
  owned g dst (Z.of_nat (length s + length t) + 1) →
  dst + Z.of_nat (length s + length t) + 1 < 2 ^ 32 →
  src + Z.of_nat (length t) < dst
    ∨ dst + Z.of_nat (length s + length t) < src →
  ∃ m', strcat m dst src = Ok (dst, m')
      ∧ holds m' (write_bytes g (dst + Z.of_nat (length s)) (t ++ [0])).
Proof.
  intros Hh Hd Hs Ho Hw Hov. unfold strcat.
  rewrite assert_true by (by rewrite (cstr_pos _ _ _ Hd), (cstr_pos _ _ _ Hs)). rb.
  rewrite (strscan_holds m g dst s) by done. rb.
  pose proof (cstr_length _ _ _ Hd). destruct Hd as (_ & _ & Hd0 & _).
  rewrite u32_small by lia.
  replace (dst + Z.of_nat (length s) + 1 - 1) with (dst + Z.of_nat (length s)) by lia.
  destruct (copy_holds m g (dst + Z.of_nat (length s)) src t) as (m' & -> & Hm');
    auto with lia.
  - intros i Hi. replace (dst + Z.of_nat (length s) + i)
      with (dst + (Z.of_nat (length s) + i)) by lia. apply Ho. lia.
  - rb. eauto.
Qed.
End specs.

(** Executable form of [cstr]. *)
Definition cstrb (g : gmap Z Z) (a : Z) (s : list Z) : bool :=
  bytes_atb g a (s ++ [0]) && forallb (λ c, (0 <? c) && (c <? 256)) s
  && (0 <? a) && (a + Z.of_nat (length s) + 1 <? 2 ^ 32).

Lemma cstrb_ok g a s : cstrb g a s = true → cstr g a s.
Proof.
  unfold cstrb. rewrite !andb_true_iff. intros [[[H1 H2] H3] H4].
  split_and!; [by apply bytes_atb_ok| |lia..].
  apply List.Forall_forall. intros c Hc. rewrite forallb_forall in H2.
  specialize (H2 c Hc). lia.
Qed.

(** * Properties *)

Section properties.
Context {M : Type} `{!ByteMem M, !ByteMemSpec M}.
Implicit Types (m : M) (g : gmap Z Z) (s : list Z).

(** Copying a string and reading it back.  [strcpy] into an area that
    does not overlap the source returns the destination; afterwards the
    destination is a string of the same length that [strcmp] finds equal to
    the source, and the source is untouched. *)
Theorem strcpy_roundtrip m g dst src s :
  holds m g → cstr g src s → owned g dst (Z.of_nat (length s) + 1) →
  0 < dst → dst + Z.of_nat (length s) + 1 < 2 ^ 32 →
  dst + Z.of_nat (length s) < src ∨ src + Z.of_nat (length s) < dst →
  ∃ m' g', strcpy m dst src = Ok (dst, m') ∧ holds m' g'
    ∧ cstr g' dst s ∧ cstr g' src s
    ∧ strlen m' dst = Ok (Z.of_nat (length s))
    ∧ strcmp m' dst src = Ok 0.
Proof.
  intros Hh Hs Ho Hd Hw Hov.
  destruct (strcpy_holds m g dst src s) as (m' & Hr & Hm'); auto with lia.
  assert (cstr (write_bytes g dst (s ++ [0])) dst s) as Hcd.
  { apply cstr_write; auto. by destruct Hs as (_ & ? & _). }
  assert (cstr (write_bytes g dst (s ++ [0])) src s) as Hcs.
  { apply cstr_write_other; [done|]. rewrite length_app. simpl. lia. }
  exists m', (write_bytes g dst (s ++ [0])).
  split_and!; eauto using strlen_holds, strcmp_same.
Qed.

(** [strcmp] is the order of the strings: it returns 0 exactly on equal
    strings, and otherwise -1 or 1 by the first pair of differing characters
    (the terminator included), compared as signed characters. *)
Theorem strcmp_order m g a b s t :
  holds m g → cstr g a s → cstr g b t →
  ∃ r, strcmp m a b = Ok r ∧ (r = 0 ↔ s = t)
    ∧ ∀ x y, differ s t x y → r = if s8 x <? s8 y then -1 else 1.
Proof.
  intros Hh Ha Hb. destruct (strcmp_holds m g a b s t) as (r & Hr & Hres); auto.
  exists r. split; [done|].
  assert (Hself : ∀ x y u, ¬ differ u u x y).
  { intros x y u (p & s' & t' & H1 & H2 & Hne). rewrite H1 in H2.
    apply app_inv_head in H2. congruence. }
  destruct Hres as [[-> ->]|(x & y & Hd & ->)].
  - split; [done|]. intros x y Hd. by destruct (Hself x y t).
  - split.
    + split; [by destruct (s8 x <? s8 y)|]. intros ->. by destruct (Hself x y t).
    + intros x' y' Hd'. destruct Hd as (p & s1 & t1 & H1 & H2 & Hne).
      destruct Hd' as (p' & s2 & t2 & H3 & H4 & Hne').
      rewrite H1 in H3. rewrite H2 in H4.
      enough (x = x' ∧ y = y') as [-> ->] by done.
      clear -H3 H4 Hne Hne'. revert p' H3 H4. induction p as [|c p IH]; intros [|c' p'] H3 H4;
        simpl in *; simplify_eq; eauto.
Qed.

(** Searching a string for a 7-bit character: [strchr] returns the
    first occurrence, [strrchr] the last, both NULL when there is none, and
    [strchrs] the number of occurrences. *)
Theorem search_ascii m g a s ch :
  holds m g → cstr g a s → 0 < ch < 128 →
  (∃ r, strchr m a ch = Ok r
     ∧ ((∃ i, r = a + Z.of_nat i ∧ s !! i = Some ch
            ∧ ∀ j, (j < i)%nat → s !! j ≠ Some ch)
        ∨ (r = NULL ∧ ch ∉ s)))
  ∧ (∃ r, strrchr m a ch = Ok r
     ∧ ((∃ i, r = a + Z.of_nat i ∧ s !! i = Some ch
            ∧ ∀ j, (i < j)%nat → s !! j ≠ Some ch)
        ∨ (r = NULL ∧ ch ∉ s)))
  ∧ strchrs m a ch = Ok (Z.of_nat (length (filter (λ c, c = ch) s))).
Proof.
  intros Hh Hs Hch.
  assert (Hin : ∀ c, c ∈ s → s8 c = u8 ch ↔ c = ch).
  { intros c Hc. destruct Hs as (_ & Hf & _). rewrite List.Forall_forall in Hf.
    specialize (Hf c (proj1 (list_elem_of_In _ _) Hc)). simpl in Hf. rewrite s8_eq_u8 by lia. split; [by intros [? _]|].
    intros ->. split; [done|lia]. }
  assert (Hm : ∀ j, matches s ch j ↔ s !! j = Some ch).
  { intros j. split.
    - intros (c & Hj & E). rewrite Hin in E by by eapply list_elem_of_lookup_2. congruence.
    - intros Hj. exists ch. split; [done|]. apply Hin; [by eapply list_elem_of_lookup_2|done]. }
  assert (Hno : (∀ j, ¬ matches s ch j) → ch ∉ s).
  { intros Hj [j Hj']%list_elem_of_lookup. apply (Hj j). by apply Hm. }
  split_and!.
  - destruct (strchr_holds m g a s ch) as (r & -> & Hr); auto. setoid_rewrite Hm in Hr.
    exists r. split; [done|]. destruct Hr as [Hr|[? Hr]]; [by left|right; split; [done|]].
    apply Hno. intros j. rewrite Hm. apply Hr.
  - destruct (strrchr_holds m g a s ch) as (r & -> & Hr); auto. setoid_rewrite Hm in Hr.
    exists r. split; [done|]. destruct Hr as [Hr|[? Hr]]; [by left|right; split; [done|]].
    apply Hno. intros j. rewrite Hm. apply Hr.
  - rewrite (strchrs_holds m g a s ch) by done. unfold match_count. do 3 f_equal.
    by apply filter_same.
Qed.

(** A character of 128 or more is never found, not even by a search of a
    string that contains it: [*str == ch] compares a signed [char] with a
    [uint8_t]. *)
Theorem search_high_never_found m g a s ch :
  holds m g → cstr g a s → 128 ≤ ch < 256 →
  strchr m a ch = Ok NULL ∧ strrchr m a ch = Ok NULL ∧ strchrs m a ch = Ok 0.
Proof.
  intros Hh Hs Hch.
  assert (Hin : ∀ c, c ∈ s → s8 c ≠ u8 ch).
  { intros c Hc E. destruct Hs as (_ & Hf & _). rewrite List.Forall_forall in Hf.
    specialize (Hf c (proj1 (list_elem_of_In _ _) Hc)). simpl in Hf. rewrite s8_eq_u8 in E by lia. lia. }
  assert (Hm : ∀ j, ¬ matches s ch j).
  { intros j (c & Hj & E). eapply Hin; [|done]. by eapply list_elem_of_lookup_2. }
  split_and!.
  - destruct (strchr_holds m g a s ch) as (r & -> & [(i & _ & Hi & _)|[-> _]]); auto.
    by destruct (Hm i).
  - destruct (strrchr_holds m g a s ch) as (r & -> & [(i & _ & Hi & _)|[-> _]]); auto.
    by destruct (Hm i).
  - rewrite (strchrs_holds m g a s ch) by done. unfold match_count.
    rewrite filter_none; [done|]. intros c Hc. by apply Hin.
Qed.

(** [strcat] leaves at the destination the concatenation of the two
    strings, returns the destination and does not disturb the source. *)
Theorem strcat_concatenates m g dst src s t :
  holds m g → cstr g dst s → cstr g src t →
  owned g dst (Z.of_nat (length s + length t) + 1) →
  dst + Z.of_nat (length s + length t) + 1 < 2 ^ 32 →
  src + Z.of_nat (length t) < dst
    ∨ dst + Z.of_nat (length s + length t) < src →
  ∃ m' g', strcat m dst src = Ok (dst, m') ∧ holds m' g'
    ∧ cstr g' dst (s ++ t) ∧ cstr g' src t.
Proof.
  intros Hh Hd Hs Ho Hw Hov.
  destruct (strcat_holds m g dst src s t) as (m' & Hr & Hm'); auto.
  eexists m', _. split_and!; [done|done| |].
  - destruct Hd as (Hb & Hf & Hp & Hl). destruct Hs as (_ & Hft & _).
    split_and!; [|by apply Forall_app|done|rewrite length_app; lia].
    rewrite <- app_assoc. apply bytes_at_app. split; [|apply bytes_at_write_bytes].
    apply bytes_at_app in Hb as [Hb _]. apply bytes_at_write_other; [done|lia].
  - apply cstr_write_other; [done|]. rewrite length_app. simpl. lia.
Qed.

(** [memcpy] to a place that does not overlap the source makes [memcmp]
    return 0 on the two areas, and leaves the source as it was. *)
Theorem memcpy_memcmp m g dst src bs :
  holds m g → owned g dst (Z.of_nat (length bs)) → bytes_at g src bs →
  0 < dst → 0 < src →
  dst + Z.of_nat (length bs) < 2 ^ 32 → src + Z.of_nat (length bs) < 2 ^ 32 →
  dst + Z.of_nat (length bs) ≤ src ∨ src + Z.of_nat (length bs) ≤ dst →
  ∃ m' g', memcpy m dst src (Z.of_nat (length bs)) = Ok m' ∧ holds m' g'
    ∧ bytes_at g' src bs
    ∧ memcmp m' dst src (Z.of_nat (length bs)) = Ok 0.
Proof.
  intros Hh Ho Hb Hd Hs Hdw Hsw Hov.
  destruct (memcpy_holds m g dst src bs) as (m' & Hr & Hm'); auto with lia.
  assert (bytes_at (write_bytes g dst bs) src bs) by (apply bytes_at_write_other; auto; lia).
  exists m', (write_bytes g dst bs). split_and!; auto.
  unfold memcmp, ASSERT, NULL. destruct (Z.eqb_spec dst 0), (Z.eqb_spec src 0); try lia.
  simpl. rewrite u32_small, Nat2Z.id by lia.
  eapply memcmp_loop_same; eauto using bytes_at_write_bytes with lia.
Qed.
End properties.

(** * Concrete runs *)

Module StrRuns.
(** "hi" at 100, "hi" with a high character at 120, 32 free bytes at 200. *)
Definition mem : gmap Z Z :=
  write_bytes (write_bytes (write_bytes ∅ 200 (replicate 32 0))
    100 [104; 105; 0]) 120 [104; 200; 105; 0].

Lemma str_mem_holds : holds (M := gmap Z Z) mem mem.
Proof. apply flat_holds. vm_compute. reflexivity. Qed.

Lemma strcpy_roundtrip_witness :
  ∃ m' g', strcpy mem 200 100 = Ok (200, m') ∧ holds m' g'
    ∧ cstr g' 200 [104; 105] ∧ cstr g' 100 [104; 105]
    ∧ strlen m' 200 = Ok 2 ∧ strcmp m' 200 100 = Ok 0.
Proof.
  apply (strcpy_roundtrip mem mem 200 100 [104; 105]).
  - apply str_mem_holds.
  - apply cstrb_ok. vm_compute. reflexivity.
  - apply ownedb_ok. vm_compute. reflexivity.
  - lia.
  - vm_compute. reflexivity.
  - right. vm_compute. reflexivity.
Defined.

Lemma strcmp_order_witness :
  ∃ r, strcmp mem 100 120 = Ok r ∧ (r = 0 ↔ [104; 105] = [104; 200; 105])
    ∧ ∀ x y, differ [104; 105] [104; 200; 105] x y → r = if s8 x <? s8 y then -1 else 1.
Proof.
  apply (strcmp_order mem mem 100 120 [104; 105] [104; 200; 105]).
  - apply str_mem_holds.
  - apply cstrb_ok. vm_compute. reflexivity.
  - apply cstrb_ok. vm_compute. reflexivity.
Defined.

Lemma search_ascii_witness :
  ∃ r, strchr mem 100 105 = Ok r
     ∧ ((∃ i, r = 100 + Z.of_nat i ∧ [104; 105] !! i = Some 105
            ∧ ∀ j, (j < i)%nat → [104; 105] !! j ≠ Some 105)
        ∨ (r = NULL ∧ 105 ∉ [104; 105])).
Proof.
  refine (proj1 (search_ascii mem mem 100 [104; 105] 105 _ _ _)).
  - apply str_mem_holds.
  - apply cstrb_ok. vm_compute. reflexivity.
  - lia.
Defined.

Lemma search_high_never_found_witness :
  200 ∈ [104; 200; 105] ∧ strchr mem 120 200 = Ok NULL.
Proof.
  split; [right; left|].
  refine (proj1 (search_high_never_found mem mem 120 [104; 200; 105] 200 _ _ _)).
  - apply str_mem_holds.
  - apply cstrb_ok. vm_compute. reflexivity.
  - lia.
Defined.

(** "hi" is followed by room for the concatenation at 200. *)
Definition mem_cat : gmap Z Z := write_bytes mem 200 [104; 0].

Lemma strcat_concatenates_witness :
  ∃ m' g', strcat mem_cat 200 100 = Ok (200, m') ∧ holds m' g'
    ∧ cstr g' 200 [104; 104; 105] ∧ cstr g' 100 [104; 105].
Proof.
  apply (strcat_concatenates mem_cat mem_cat 200 100 [104] [104; 105]).
  - apply flat_holds. vm_compute. reflexivity.
  - apply cstrb_ok. vm_compute. reflexivity.
  - apply cstrb_ok. vm_compute. reflexivity.
  - apply ownedb_ok. vm_compute. reflexivity.
  - vm_compute. reflexivity.
  - left. vm_compute. reflexivity.
Defined.

Lemma memcpy_memcmp_witness :
  ∃ m' g', memcpy mem 200 120 3 = Ok m' ∧ holds m' g'
    ∧ bytes_at g' 120 [104; 200; 105] ∧ memcmp m' 200 120 3 = Ok 0.
Proof.
  apply (memcpy_memcmp mem mem 200 120 [104; 200; 105]).
  - apply str_mem_holds.
  - apply ownedb_ok. vm_compute. reflexivity.
  - apply bytes_atb_ok. vm_compute. reflexivity.
  - lia.
  - lia.
  - vm_compute. reflexivity.
  - vm_compute. reflexivity.
  - right. vm_compute. discriminate.
Defined.
End StrRuns.
