(* ===== verification/Ports.v ===== *)
(** kernel/io.h: the four port instructions, over any devices and any memory.
    [rep insw] and [rep outsw] move words between a port and an area of
    memory; what they do is stated against the words a port delivers or takes
    one at a time. *)
From S2P Require Import Prelude ByteMem.

(** * The interface of the devices *)

(** What reaches the processor's port bus: a device takes a value from an
    [out] and answers an [in], and may change its state in both. *)
Class Ports (D : Type) := {
  p_out8 : D → Z → Z → D;
  p_in8 : D → Z → Z * D;
  p_out16 : D → Z → Z → D;
  p_in16 : D → Z → Z * D;
}.

(** * Operations *)

Section io.
Context {D : Type} `{!Ports D} {M : Type} `{!ByteMem M}.

Definition outb (d : D) (port data : Z) : D := p_out8 d (u16 port) (u8 data).

Definition inb (d : D) (port : Z) : Z * D :=
  let '(data, d) := p_in8 d (u16 port) in (u8 data, d).

(** [rep outsw] with the direction flag clear. *)
Fixpoint rep_outsw (d : D) (m : M) (dx esi : Z) (ecx : nat) : res D :=
  match ecx with
  | O => Ok d
  | S n =>
      lo ← load8 m esi;
      hi ← load8 m (u32 (esi + 1));
      rep_outsw (p_out16 d dx (lo + 2 ^ 8 * hi)) m dx (u32 (esi + 2)) n
  end.

Definition outsw (d : D) (m : M) (port addr word_cnt : Z) : res D :=
  rep_outsw d m (u16 port) addr (Z.to_nat (u32 word_cnt)).

Fixpoint rep_insw (d : D) (m : M) (dx edi : Z) (ecx : nat) : res (D * M) :=
  match ecx with
  | O => Ok (d, m)
  | S n =>
      let '(w, d) := p_in16 d dx in
      m ← store8 m edi (u8 w);
      m ← store8 m (u32 (edi + 1)) (u8 (Z.shiftr w 8));
      rep_insw d m dx (u32 (edi + 2)) n
  end.

Definition insw (d : D) (m : M) (port addr word_cnt : Z) : res (D * M) :=
  rep_insw d m (u16 port) addr (Z.to_nat (u32 word_cnt)).
End io.

(** * Words and bytes *)

Definition le16 (w : Z) : list Z := [w mod 256; (w / 2 ^ 8) mod 256].

(** Words in memory, low byte first. *)
Definition word_bytes (ws : list Z) : list Z := ws ≫= le16.

Definition is_word (w : Z) : Prop := 0 ≤ w < 2 ^ 16.

Lemma word_bytes_cons w ws : word_bytes (w :: ws) = w mod 256 :: (w / 2 ^ 8) mod 256 :: word_bytes ws.
Proof. done. Qed.

Lemma length_word_bytes ws : length (word_bytes ws) = (2 * length ws)%nat.
Proof. induction ws as [|w ws IH]; [done|]. rewrite word_bytes_cons. simpl length in *. lia. Qed.

Lemma word_join w : is_word w → w mod 256 + 2 ^ 8 * ((w / 2 ^ 8) mod 256) = w.
Proof. unfold is_word. zdm. Qed.

(** * The words of a port *)

Section words.
Context {D : Type} `{!Ports D}.

Fixpoint sends (d : D) (port : Z) (ws : list Z) : D :=
  match ws with [] => d | w :: r => sends (p_out16 d port w) port r end.

Fixpoint receives (d : D) (port : Z) (n : nat) : list Z * D :=
  match n with
  | O => ([], d)
  | S n => let '(w, d) := p_in16 d port in let '(ws, d) := receives d port n in (w :: ws, d)
  end.
End words.

Section holds.
Context {D : Type} `{!Ports D} {M : Type} `{!ByteMem M, !ByteMemSpec M}.

Lemma rep_outsw_sends ws :
  Forall is_word ws → ∀ (d : D) (m : M) g dx esi,
  holds m g → bytes_at g esi (word_bytes ws) →
  0 ≤ esi → esi + 2 * Z.of_nat (length ws) ≤ 2 ^ 32 →
  rep_outsw d m dx esi (length ws) = Ok (sends d dx ws).
Proof.
  induction 1 as [|w ws Hw _ IH]; intros d m g dx esi Hm Hb He Htop; [done|].
  rewrite word_bytes_cons, !bytes_at_cons in Hb. destruct Hb as (H0 & H1 & Hb).
  cbn [length] in Htop. cbn [length rep_outsw sends].
  rewrite (load8_holds m g esi _ Hm H0). rb.
  rewrite (u32_small (esi + 1)) by lia. rewrite (load8_holds m g (esi + 1) _ Hm H1). rb.
  rewrite (word_join w Hw). destruct ws as [|w' ws]; [done|]. cbn [length] in Htop.
  rewrite (u32_small (esi + 2)) by lia. apply (IH _ m g); [done| |lia|simpl length; lia].
  by replace (esi + 2) with (esi + 1 + 1) by lia.
Qed.

Lemma rep_insw_receives n : ∀ (d : D) (m : M) g dx edi,
  holds m g → owned g edi (2 * Z.of_nat n) → 0 ≤ edi → edi + 2 * Z.of_nat n ≤ 2 ^ 32 →
  let '(ws, d') := receives d dx n in
  Forall is_word ws →
  ∃ m', rep_insw d m dx edi n = Ok (d', m') ∧ holds m' (write_bytes g edi (word_bytes ws)).
Proof.
  induction n as [|n IH]; intros d m g dx edi Hm Ho He Htop; simpl.
  { intros _. by exists m. }
  destruct (p_in16 d dx) as [w d1]. specialize (IH d1).
  destruct (receives d1 dx n) as [ws d'] eqn:Er. intros [Hw Hws]%Forall_cons.
  destruct (store8_holds m g edi (u8 w) Hm) as (m1 & -> & Hm1).
  { rewrite <- (Z.add_0_r edi). apply Ho. lia. }
  { apply u8_range. }
  rb. rewrite (u32_small (edi + 1)) by lia.
  destruct (store8_holds m1 _ (edi + 1) (u8 (Z.shiftr w 8)) Hm1) as (m2 & -> & Hm2).
  { apply owned_insert with (n := 2 * Z.of_nat (S n)); [done|lia]. }
  { apply u8_range. }
  rb. set (g2 := <[edi + 1 := _]> _) in Hm2.
  assert (Eg : g2 = write_bytes g edi (le16 w)).
  { unfold g2, le16, u8. simpl. by rewrite Z.shiftr_div_pow2. }
  destruct n as [|n].
  { simpl in Er. injection Er as <- <-. exists m2. split; [done|]. rewrite Eg in Hm2. exact Hm2. }
  rewrite (u32_small (edi + 2)) by lia. specialize (IH m2 g2 dx (edi + 2)). rewrite Er in IH.
  destruct IH as (m' & Hrun & Hm'); [done| |lia|lia|done|].
  { intros i Hi. replace (edi + 2 + i) with (edi + (2 + i)) by lia. unfold g2.
    apply owned_insert with (n := 2 * Z.of_nat (S (S n))); [|lia]. by apply owned_insert. }
  exists m'. split; [done|]. rewrite Eg in Hm'. rewrite word_bytes_cons.
  by replace (edi + 2) with (edi + 1 + 1) in Hm' by lia.
Qed.

(** * Properties *)

(** C40: [outsw] and [insw] are inverse to each other.  When the port [q] gives
    back the words that were sent to the port [p], what [outsw] reads from one
    area of memory [insw] stores in another area, byte for byte; nothing but
    that area changes. *)
Theorem outsw_insw_roundtrip (d d' : D) (m : M) g p q src dst ws :
  holds m g → bytes_at g src (word_bytes ws) → Forall is_word ws →
  owned g dst (2 * Z.of_nat (length ws)) →
  0 ≤ src → src + 2 * Z.of_nat (length ws) ≤ 2 ^ 32 →
  0 ≤ dst → dst + 2 * Z.of_nat (length ws) ≤ 2 ^ 32 →
  receives (sends d (u16 p) ws) (u16 q) (length ws) = (ws, d') →
  ∃ d1 m', outsw d m p src (Z.of_nat (length ws)) = Ok d1
    ∧ insw d1 m q dst (Z.of_nat (length ws)) = Ok (d', m')
    ∧ holds m' (write_bytes g dst (word_bytes ws)).
Proof.
  intros Hm Hb Hw Ho Hs Hs' Hd Hd' Hr. exists (sends d (u16 p) ws).
  unfold outsw, insw. rewrite (u32_small (Z.of_nat (length ws))), Nat2Z.id by lia.
  rewrite (rep_outsw_sends ws Hw d m g) by done.
  pose proof (rep_insw_receives (length ws) (sends d (u16 p) ws) m g (u16 q) dst Hm Ho Hd Hd') as Hi.
  rewrite Hr in Hi. destruct (Hi Hw) as (m' & Hin & Hm'). by exists m'.
Qed.
End holds.

(** * A port that echoes *)

Module PortRuns.

(** Words wait in a queue. *)
#[local] Instance echo : Ports (list Z) := {|
  p_out8 d _ v := d ++ [v]; p_in8 d _ := (default 0 (head d), tail d);
  p_out16 d _ v := d ++ [v]; p_in16 d _ := (default 0 (head d), tail d);
|}.

Definition mem : gmap Z Z := write_bytes (write_bytes ∅ 100 [1; 2; 3; 255]) 200 [9; 9; 9; 9; 9].

Lemma outsw_insw_roundtrip_witness :
  ∃ m', insw (M := gmap Z Z) [0x0201; 0xff03] mem 0x1f0 200 2 = Ok ([], m')
    ∧ bytes_at m' 200 [1; 2; 3; 255; 9].
Proof.
  destruct (outsw_insw_roundtrip (M := gmap Z Z) (D := list Z) [] [] mem mem 0x1f0 0x1f0 100 200
    [0x0201; 0xff03]) as (d1 & m' & H1 & H2 & Hs & _).
  - by apply flat_holds.
  - by apply bytes_atb_ok.
  - rewrite !Forall_cons, Forall_nil. unfold is_word. lia.
  - by apply ownedb_ok.
  - lia.
  - simpl. lia.
  - lia.
  - simpl. lia.
  - reflexivity.
  - vm_compute in H1. injection H1 as <-. exists m'. split; [exact H2|].
    intros i v Hi. eapply lookup_weaken; [|exact Hs].
    change (list_lookup i [1; 2; 3; 255; 9] = Some v) in Hi.
    do 5 (destruct i as [|i]; [by injection Hi as <-|]). done.
Defined.
End PortRuns.
