(* ===== verification/Bitmap.v ===== *)
(** lib/bitmap.c and lib/bitmap.h: the bit maps behind every allocator of the
    kernel, over any memory that implements the interface of ByteMem.v.
    [bit g b i] is the abstract bit [i] of bitmap [b] in the bytes [g]; the
    lemmas relate every routine to it, one bit past the end included, which
    [bitmap_scan] does look at. *)
From S2P Require Import Prelude ByteMem CString.

(** [struct bitmap]. *)
Record bitmap := Bitmap {
  btmp_bytes_len : Z;
  bits : Z;
}.

Definition BITMAP_MASK : Z := 1.

Section ops.
Context {M : Type} `{!ByteMem M}.

(** [&btmp->bits[i]]. *)
Definition bits_elt (btmp : bitmap) (i : Z) : Z := u32 (bits btmp + i).

Definition bitmap_init (m : M) (btmp : bitmap) : res M :=
  memset m (bits btmp) 0 (btmp_bytes_len btmp).

Definition bitmap_scan_test (m : M) (btmp : bitmap) (bit_idx : Z) : res Z :=
  let byte_idx := bit_idx / 8 in
  let bit_odd := bit_idx mod 8 in
  v ← load8 m (bits_elt btmp byte_idx);
  Ok (Z.land v (Z.shiftl BITMAP_MASK bit_odd)).

(** First loop: skip the bytes that are full. *)
Definition skip_body (m : M) (btmp : bitmap) (idx_byte : Z) : res (Z + Z) :=
  v ← load8 m (bits_elt btmp idx_byte);
  Ok (if (255 =? v) && (idx_byte <? btmp_bytes_len btmp)
      then inl (u32 (idx_byte + 1)) else inr idx_byte).

(** Second loop: the first clear bit of that byte. *)
Definition find_bit_body (m : M) (btmp : bitmap) (idx_byte idx_bit : Z) : res (Z + Z) :=
  v ← load8 m (bits_elt btmp idx_byte);
  Ok (if negb (Z.land (Z.shiftl (u8 BITMAP_MASK) idx_bit) v =? 0)
      then inl (idx_bit + 1) else inr idx_bit).

(** Third loop: count consecutive clear bits. *)
Definition run_body (m : M) (btmp : bitmap) (cnt : Z) (st : Z * Z * Z)
    : res (Z * Z * Z + Z) :=
  let '(bit_left, next_bit, count) := st in
  if bit_left >? 0 then
    t ← bitmap_scan_test m btmp next_bit;
    let count := if t =? 0 then u32 (count + 1) else 0 in
    if count =? cnt then Ok (inr (s32 (next_bit - cnt + 1)))
    else Ok (inl (u32 (bit_left - 1), u32 (next_bit + 1), count))
  else Ok (inr (-1)).

Definition bitmap_scan (m : M) (btmp : bitmap) (cnt : Z) : res Z :=
  idx_byte ← while_ (skip_body m btmp) LOOP_FUEL 0;
  ASSERT (idx_byte <? btmp_bytes_len btmp) "bitmap_scan";;
  if idx_byte =? btmp_bytes_len btmp then Ok (-1) else
  idx_bit ← while_ (find_bit_body m btmp idx_byte) LOOP_FUEL 0;
  let bit_idx_start := s32 (idx_byte * 8 + idx_bit) in
  if cnt =? 1 then Ok bit_idx_start else
  let bit_left := u32 (btmp_bytes_len btmp * 8 - bit_idx_start) in
  while_ (run_body m btmp cnt) LOOP_FUEL (bit_left, u32 (bit_idx_start + 1), 1).

Definition bitmap_set (m : M) (btmp : bitmap) (bit_idx value : Z) : res M :=
  ASSERT ((value =? 0) || (value =? 1)) "bitmap_set";;
  let byte_idx := bit_idx / 8 in
  let bit_odd := bit_idx mod 8 in
  v ← load8 m (bits_elt btmp byte_idx);
  if negb (value =? 0)
  then store8 m (bits_elt btmp byte_idx) (u8 (Z.lor v (Z.shiftl BITMAP_MASK bit_odd)))
  else store8 m (bits_elt btmp byte_idx)
         (u8 (Z.land v (Z.lnot (Z.shiftl BITMAP_MASK bit_odd)))).
End ops.

(** * The abstract bitmap *)

Definition bit (g : gmap Z Z) (b : bitmap) (i : Z) : bool :=
  Z.testbit (default 0 (g !! (bits b + i / 8))) (i mod 8).

(** A usable bitmap: its bytes and the byte after them are owned, it does not
    wrap, and its bit numbers fit an [int]. *)
Definition bm_wf (g : gmap Z Z) (b : bitmap) : Prop :=
  0 < bits b ∧ 0 < btmp_bytes_len b < 2 ^ 28 - 2
  ∧ bits b + btmp_bytes_len b + 1 ≤ 2 ^ 32
  ∧ owned g (bits b) (btmp_bytes_len b + 1).

Definition nbits (b : bitmap) : Z := 8 * btmp_bytes_len b.

(** Bits [s] to [s + cnt - 1] are all clear. *)
Definition window (g : gmap Z Z) (b : bitmap) (s cnt : Z) : Prop :=
  ∀ i, s ≤ i < s + cnt → bit g b i = false.

(** The bytes after setting bit [i] to [v]. *)
Definition set_bit (g : gmap Z Z) (b : bitmap) (i : Z) (v : bool) : gmap Z Z :=
  let a := bits b + i / 8 in
  let old := default 0 (g !! a) in
  <[a := if v then Z.setbit old (i mod 8) else Z.clearbit old (i mod 8)]> g.

Lemma bit_set_bit g b i v j :
  0 ≤ i → 0 ≤ j →
  bit (set_bit g b i v) b j = if decide (i = j) then v else bit g b j.
Proof.
  intros Hi Hj. unfold bit, set_bit. rewrite lookup_insert.
  pose proof (Z.mod_pos_bound i 8). pose proof (Z.mod_pos_bound j 8).
  destruct (decide (i = j)) as [->|Hne].
  - rewrite decide_True by done. simpl.
    destruct v; [apply Z.setbit_eq|apply Z.clearbit_eq]; lia.
  - case_decide as Ha; [|done]. simpl.
    assert (i / 8 = j / 8) as E by lia.
    assert (i mod 8 ≠ j mod 8) by (rewrite !Z.mod_eq by lia; lia).
    rewrite E. destruct v.
    + rewrite Z.setbit_neq by lia. done.
    + rewrite Z.clearbit_neq by lia. done.
Qed.

(** Setting a bit of one bitmap does not touch a bitmap stored elsewhere. *)
Lemma bit_set_bit_other g b i v b' j :
  bits b + i / 8 ≠ bits b' + j / 8 → bit (set_bit g b i v) b' j = bit g b' j.
Proof. intros Hne. unfold bit, set_bit. by rewrite lookup_insert_ne. Qed.

Lemma bm_wf_insert g b a v : bm_wf g b → bm_wf (<[a := v]> g) b.
Proof. intros (? & ? & ? & Ho). split_and!; try lia. by apply owned_insert. Qed.

Lemma bm_wf_set_bit g b b' i v : bm_wf g b → bm_wf (set_bit g b' i v) b.
Proof. apply bm_wf_insert. Qed.

#[export] Hint Resolve bm_wf_insert bm_wf_set_bit : mach.

(** The number of clear bits. *)
Definition free_count (g : gmap Z Z) (b : bitmap) : nat :=
  length (filter (λ i, bit g b i = false) (seqZ 0 (nbits b))).

Lemma free_count_set g b i :
  0 ≤ i < nbits b → bit g b i = false →
  free_count g b = S (free_count (set_bit g b i true) b).
Proof.
  intros Hi Hf. unfold free_count.
  apply (length_filter_remove _ _ _ i); [apply NoDup_seqZ|apply elem_of_seqZ; lia|done|].
  intros j Hj%elem_of_seqZ. rewrite bit_set_bit by lia. case_decide; [subst|]; tauto || naive_solver.
Qed.

Lemma free_count_other g b i v b' :
  bits b + i / 8 < bits b' ∨ bits b' + btmp_bytes_len b' ≤ bits b + i / 8 →
  free_count (set_bit g b i v) b' = free_count g b'.
Proof.
  intros Hd. unfold free_count. f_equal. apply filter_same. intros j Hj%elem_of_seqZ.
  rewrite bit_set_bit_other; [done|]. unfold nbits in *. zdm.
Qed.

(** The least clear bit, when one is left. *)
Lemma free_count_least g b :
  (0 < free_count g b)%nat →
  ∃ i, 0 ≤ i < nbits b ∧ bit g b i = false ∧ ∀ j, 0 ≤ j < i → bit g b j = true.
Proof.
  intros Hc. destruct (bounded_search (bit g b) (nbits b)) as [Hall|?]; [|done].
  exfalso. unfold free_count in Hc. rewrite filter_none in Hc; [simpl in Hc; lia|].
  intros i Hi%elem_of_seqZ. rewrite Hall by lia. done.
Qed.

Lemma free_count_zero g b :
  free_count g b = 0%nat → ∀ i, 0 ≤ i < nbits b → bit g b i = true.
Proof.
  intros Hc i Hi. destruct (bit g b i) eqn:E; [done|].
  pose proof (free_count_set g b i Hi E). lia.
Qed.

(** Setting [n] consecutive bits. *)
Fixpoint set_bits (g : gmap Z Z) (b : bitmap) (s : Z) (n : nat) : gmap Z Z :=
  match n with
  | O => g
  | S n' => set_bits (set_bit g b s true) b (s + 1) n'
  end.

Lemma bit_set_bits g b s n j :
  0 ≤ s → 0 ≤ j →
  bit (set_bits g b s n) b j
  = if decide (s ≤ j < s + Z.of_nat n) then true else bit g b j.
Proof.
  revert g s. induction n as [|n IH]; intros g s Hs Hj; simpl.
  - rewrite decide_False by lia. done.
  - rewrite IH, bit_set_bit by lia. repeat case_decide; auto; lia.
Qed.

Lemma bit_set_bits_other g b s n b' j :
  0 ≤ s → bits b + (s + Z.of_nat n - 1) / 8 < bits b' + j / 8 ∨ bits b' + j / 8 < bits b + s / 8 →
  bit (set_bits g b s n) b' j = bit g b' j.
Proof.
  revert g s. induction n as [|n IH]; intros g s Hs Hd; simpl; [done|].
  rewrite IH; [|lia|].
  - apply bit_set_bit_other. zdm.
  - destruct Hd as [Hd|Hd]; [left|right; zdm].
    by replace (s + 1 + Z.of_nat n - 1) with (s + Z.of_nat (S n) - 1) by lia.
Qed.

Lemma bm_wf_set_bits g b b' s n : bm_wf g b → bm_wf (set_bits g b' s n) b.
Proof.
  revert g s. induction n as [|n IH]; intros g s Hwf; simpl; [done|].
  apply IH. by apply bm_wf_set_bit.
Qed.

(** A byte is 0xff exactly when its eight bits are set. *)
Lemma byte_full v :
  0 ≤ v < 256 → v = 255 ↔ (∀ k, 0 ≤ k < 8 → Z.testbit v k = true).
Proof.
  intros Hv. split.
  - intros -> k Hk. change 255 with (Z.ones 8). apply Z.ones_spec_low. lia.
  - intros Hk. change 255 with (Z.ones 8). apply Z.bits_inj'. intros k Hk0.
    destruct (decide (k < 8)).
    + rewrite Hk, Z.ones_spec_low by lia. done.
    + rewrite (bits_above v 8 k), Z.ones_spec_high by lia. done.
Qed.

(** Testing a bit with a mask. *)
Lemma land_mask v k :
  0 ≤ k → Z.land v (Z.shiftl 1 k) = if Z.testbit v k then 2 ^ k else 0.
Proof.
  intros Hk. apply Z.bits_inj'. intros i Hi.
  rewrite Z.land_spec, Z.shiftl_1_l.
  destruct (decide (i = k)) as [->|Hne].
  - rewrite Z.pow2_bits_true by done. rewrite andb_true_r.
    destruct (Z.testbit v k); [by rewrite Z.pow2_bits_true|by rewrite Z.bits_0].
  - rewrite Z.pow2_bits_false by lia. rewrite andb_false_r.
    destruct (Z.testbit v k); [by rewrite Z.pow2_bits_false by lia|by rewrite Z.bits_0].
Qed.

Lemma mask_zero v k :
  0 ≤ k → (Z.land v (Z.shiftl 1 k) =? 0) = negb (Z.testbit v k).
Proof.
  intros Hk. rewrite land_mask by done. pose proof (Z.pow_pos_nonneg 2 k).
  destruct (Z.testbit v k); simpl; [|done]. apply Z.eqb_neq. lia.
Qed.

(** The two read-modify-write expressions of [bitmap_set] stay bytes. *)
Lemma set_byte v k :
  0 ≤ v < 256 → 0 ≤ k < 8 →
  u8 (Z.lor v (Z.shiftl 1 k)) = Z.setbit v k ∧ 0 ≤ Z.setbit v k < 256.
Proof.
  intros Hv Hk. rewrite Z.setbit_spec', Z.shiftl_1_l.
  assert (0 ≤ Z.lor v (2 ^ k) < 2 ^ 8).
  { split; [apply Z.lor_nonneg; lia|].
    destruct (decide (Z.lor v (2 ^ k) = 0)) as [->|]; [lia|].
    assert (0 ≤ Z.lor v (2 ^ k)) by (apply Z.lor_nonneg; lia).
    apply Z.log2_lt_pow2; [lia|]. rewrite Z.log2_lor, Z.log2_pow2 by lia.
    destruct (decide (v = 0)) as [->|]; [simpl; lia|].
    assert (Z.log2 v < 8) by (apply Z.log2_lt_pow2; lia). lia. }
  split; [apply u8_small; lia|lia].
Qed.

Lemma clear_byte v k :
  0 ≤ v < 256 → 0 ≤ k < 8 →
  u8 (Z.land v (Z.lnot (Z.shiftl 1 k))) = Z.clearbit v k ∧ 0 ≤ Z.clearbit v k < 256.
Proof.
  intros Hv Hk. rewrite Z.clearbit_spec', Z.shiftl_1_l, Z.ldiff_land.
  assert (0 ≤ Z.land v (Z.lnot (2 ^ k)) ≤ v); [|split; [apply u8_small; lia|lia]].
  rewrite <- Z.sub_land_same_l. split.
  - rewrite Z.sub_land_same_l. apply Z.land_nonneg. lia.
  - assert (0 ≤ Z.land v (2 ^ k)) by (apply Z.land_nonneg; lia). lia.
Qed.

(** * The routines against the abstract bitmap *)

Section specs.
Context {M : Type} `{!ByteMem M, !ByteMemSpec M}.
Implicit Types (m : M) (g : gmap Z Z) (b : bitmap).

(** Every byte a routine addresses is owned and holds the abstract bits. *)
Lemma bits_elt_holds m g b k :
  holds m g → bm_wf g b → 0 ≤ k ≤ btmp_bytes_len b →
  ∃ v, load8 m (bits_elt b k) = Ok v ∧ g !! (bits b + k) = Some v ∧ 0 ≤ v < 256
     ∧ bits_elt b k = bits b + k
     ∧ ∀ j, 0 ≤ j < 8 → bit g b (8 * k + j) = Z.testbit v j.
Proof.
  intros Hh (Hb & Hl & Hw & Ho) Hk. destruct (Ho k) as [v Hv]; [lia|].
  assert (bits_elt b k = bits b + k) as E by (unfold bits_elt; apply u32_small; lia).
  exists v. rewrite E. split_and!; auto.
  - by eapply load8_holds.
  - by apply (holds_byte m g (bits b + k) v).
  - by apply (holds_byte m g (bits b + k) v).
  - intros j Hj. unfold bit.
    replace ((8 * k + j) / 8) with k by zdm.
    replace ((8 * k + j) mod 8) with j by zdm. by rewrite Hv.
Qed.

Lemma div8_range b i : 0 ≤ i < nbits b + 8 → 0 ≤ i / 8 ≤ btmp_bytes_len b.
Proof. unfold nbits. zdm. Qed.

Lemma scan_test_holds m g b i :
  holds m g → bm_wf g b → 0 ≤ i < nbits b + 8 →
  ∃ t, bitmap_scan_test m b i = Ok t ∧ (t =? 0) = negb (bit g b i).
Proof.
  intros Hh Hwf Hi. unfold bitmap_scan_test, BITMAP_MASK.
  destruct (bits_elt_holds m g b (i / 8)) as (v & -> & Hv & _ & _ & Hbit);
    [done..|by apply div8_range|].
  rb. eexists. split; [done|]. pose proof (Z.mod_pos_bound i 8).
  rewrite mask_zero by lia. rewrite <- Hbit by lia.
  do 2 f_equal. zdm.
Qed.

Lemma bitmap_set_holds m g b i value :
  holds m g → bm_wf g b → 0 ≤ i < nbits b + 8 → value = 0 ∨ value = 1 →
  ∃ m', bitmap_set m b i value = Ok m' ∧ holds m' (set_bit g b i (value =? 1)).
Proof.
  intros Hh Hwf Hi Hval. unfold bitmap_set, BITMAP_MASK.
  rewrite assert_true by (destruct Hval as [-> | ->]; done). rb.
  destruct (bits_elt_holds m g b (i / 8)) as (v & -> & Hv & Hr & -> & _);
    [done..|by apply div8_range|].
  rb. pose proof (Z.mod_pos_bound i 8 ltac:(lia)) as Hodd.
  unfold set_bit. rewrite Hv. simpl default.
  destruct (set_byte v (i mod 8)) as [-> Hs]; [done..|].
  destruct (clear_byte v (i mod 8)) as [-> Hc]; [done..|].
  destruct Hval as [-> | ->]; simpl; apply store8_holds; auto; by eexists.
Qed.

(** [bitmap_init] clears every bit. *)
Lemma bitmap_init_holds m g b :
  holds m g → bm_wf g b →
  ∃ m' g', bitmap_init m b = Ok m' ∧ holds m' g' ∧ bm_wf g' b
    ∧ window g' b 0 (nbits b)
    ∧ (∀ a, a < bits b ∨ bits b + btmp_bytes_len b ≤ a → g' !! a = g !! a).
Proof.
  intros Hh Hwf. pose proof Hwf as (Hb & Hl & Hw & Ho). unfold bitmap_init.
  destruct (memset_holds m g (bits b) 0 (btmp_bytes_len b)) as (m' & -> & Hm');
    try done; try lia.
  { intros i Hi. apply Ho. lia. }
  eexists m', _. split; [done|]. split; [done|].
  set (g' := write_bytes _ _ _) in *.
  assert (Hin : ∀ k, 0 ≤ k < btmp_bytes_len b → g' !! (bits b + k) = Some 0).
  { intros k Hk. unfold g'. rewrite <- (Z2Nat.id k) by lia.
    apply lookup_write_bytes_in. apply lookup_replicate. split; [done|lia]. }
  assert (Hout : ∀ a, a < bits b ∨ bits b + btmp_bytes_len b ≤ a → g' !! a = g !! a).
  { intros a [Ha|Ha]; unfold g'.
    - by apply lookup_write_bytes_lt.
    - apply lookup_write_bytes_ge. rewrite length_replicate. lia. }
  split_and!; auto.
  - split_and!; try lia. intros k Hk. destruct (decide (k < btmp_bytes_len b)).
    + rewrite Hin by lia. eauto.
    + rewrite Hout by lia. apply Ho. lia.
  - intros i Hi. unfold bit, nbits in *. rewrite Hin by zdm. apply Z.bits_0.
Qed.

(** ** [bitmap_scan] *)

Lemma skip_holds m g b :
  holds m g → bm_wf g b →
  ∃ k, while_ (skip_body m b) LOOP_FUEL 0 = Ok k ∧ 0 ≤ k ≤ btmp_bytes_len b
    ∧ (∀ i, 0 ≤ i < 8 * k → bit g b i = true)
    ∧ (k < btmp_bytes_len b → ∃ j, 0 ≤ j < 8 ∧ bit g b (8 * k + j) = false).
Proof.
  intros Hh Hwf.
  apply (while_total (skip_body m b)
    (λ k, 0 ≤ k ≤ btmp_bytes_len b ∧ ∀ i, 0 ≤ i < 8 * k → bit g b i = true)
    (λ k, btmp_bytes_len b - k)).
  - intros k [Hk Hfull]. split; [lia|]. unfold skip_body.
    destruct (bits_elt_holds m g b k) as (v & -> & Hv & Hr & _ & Hbit); [done..|]. rb.
    pose proof Hwf as (? & Hlen & ? & _).
    destruct (Z.eqb_spec 255 v) as [<-|Hne]; simpl.
    + destruct (Z.ltb_spec k (btmp_bytes_len b)) as [Hlt|Hge].
      * left. eexists. split; [done|]. rewrite u32_small by lia.
        split; [|lia]. split; [lia|]. intros i Hi. destruct (decide (i < 8 * k)); [by apply Hfull; lia|].
        replace i with (8 * k + (i - 8 * k)) by lia. rewrite Hbit by lia.
        apply byte_full; lia.
      * right. eexists. split; [done|]. split_and!; auto with lia.
    + right. eexists. split; [done|]. split_and!; auto with lia.
      intros _. destruct (bounded_search (Z.testbit v) 8) as [Hall|(j & Hj & E & _)].
      * destruct Hne. symmetry. by apply byte_full.
      * exists j. split; [done|]. by rewrite Hbit.
  - split; [|lia]. destruct Hwf as (_ & ? & _). lia.
  - destruct Hwf as (_ & ? & _). pose proof LOOP_FUEL_val. lia.
Qed.

Lemma find_bit_holds m g b k j :
  holds m g → bm_wf g b → 0 ≤ k < btmp_bytes_len b → 0 ≤ j < 8 →
  bit g b (8 * k + j) = false → (∀ i, 0 ≤ i < j → bit g b (8 * k + i) = true) →
  while_ (find_bit_body m b k) LOOP_FUEL 0 = Ok j.
Proof.
  intros Hh Hwf Hk Hj Hf Ht.
  destruct (bits_elt_holds m g b k) as (v & Hload & Hv & Hr & _ & Hbit); [done..|lia|].
  destruct (while_total (find_bit_body m b k) (λ i, 0 ≤ i ≤ j) (λ i, j - i) (λ r, r = j)
    LOOP_FUEL 0) as (r & -> & ->); [|lia| |done].
  - intros i Hi. split; [lia|]. unfold find_bit_body, BITMAP_MASK. rewrite Hload. rb.
    change (u8 1) with 1. rewrite Z.land_comm, mask_zero by lia. rewrite <- Hbit by lia.
    destruct (decide (i = j)) as [->|].
    + right. exists j. by rewrite Hf.
    + left. exists (i + 1). rewrite Ht by lia. simpl. split_and!; [done|lia..].
  - pose proof LOOP_FUEL_val. lia.
Qed.

(** The counting loop.  [i0] is where it starts: the first clear bit. *)
Lemma run_holds m g b cnt i0 :
  holds m g → bm_wf g b → 2 ≤ cnt < 2 ^ 31 → 0 ≤ i0 < nbits b →
  bit g b i0 = false → (∀ i, 0 ≤ i < i0 → bit g b i = true) →
  ∃ r, while_ (run_body m b cnt) LOOP_FUEL (nbits b - i0, i0 + 1, 1) = Ok r
    ∧ ((0 ≤ r ∧ r + cnt ≤ nbits b + 1 ∧ window g b r cnt
          ∧ ∀ s, 0 ≤ s < r → ¬ window g b s cnt)
       ∨ (r = -1 ∧ ∀ s, 0 ≤ s → s + cnt ≤ nbits b + 1 → ¬ window g b s cnt)).
Proof.
  intros Hh Hwf Hcnt Hi0 Hf Ht. pose proof Hwf as (_ & Hlen & _).
  assert (Hnb : nbits b < 2 ^ 31 - 16) by (unfold nbits; lia).
  apply (while_total (run_body m b cnt)
    (λ '(bit_left, next, count),
       0 ≤ bit_left ∧ next + bit_left = nbits b + 1 ∧ 0 ≤ count < cnt ∧ 0 ≤ next - count
       ∧ window g b (next - count) count
       ∧ (next - count = 0 ∨ bit g b (next - count - 1) = true)
       ∧ ∀ s, 0 ≤ s → s + cnt ≤ next → ¬ window g b s cnt)
    (λ st, st.1.1)).
  - intros [[bl nx] ct] (Hbl & Hsum & Hct & Hlo & Hwin & Hmax & Hno). simpl. split; [done|].
    rewrite Z.gtb_ltb. destruct (Z.ltb_spec 0 bl) as [Hpos|Hz].
    2:{ right. eexists. split; [done|]. right. split; [done|]. intros s Hs Hs'. apply Hno; lia. }
    destruct (scan_test_holds m g b nx) as (t & -> & Ht0); [done..|lia|]. rb.
    rewrite Ht0. destruct (bit g b nx) eqn:Ebit; cbn [negb].
    + destruct (Z.eqb_spec 0 cnt); [lia|]. left. eexists. split; [done|].
      rewrite !u32_small by lia. split; [|simpl; lia]. split_and!; try lia.
      * intros i Hi. lia.
      * right. by replace (nx + 1 - 0 - 1) with nx by lia.
      * intros s Hs Hs' Hw. destruct (decide (s + cnt ≤ nx)); [by eapply Hno|].
        specialize (Hw nx). rewrite Ebit in Hw. discriminate Hw. lia.
    + rewrite (u32_small (ct + 1)) by lia.
      assert (window g b (nx - ct) (ct + 1)) as Hwin'.
      { intros i Hi. destruct (decide (i = nx)) as [->|]; [done|]. apply Hwin. lia. }
      destruct (Z.eqb_spec (ct + 1) cnt) as [Heq|Hne].
      * right. eexists. split; [done|]. left. rewrite s32_small by lia.
        replace (nx - cnt + 1) with (nx - ct) by lia. rewrite <- Heq.
        split_and!; [lia..|done|]. intros s Hs. rewrite Heq. apply Hno; lia.
      * left. eexists. split; [done|]. rewrite !u32_small by lia. split; [|simpl; lia].
        replace (nx + 1 - (ct + 1)) with (nx - ct) by lia. split_and!; try lia; try done.
        intros s Hs Hs' Hw. destruct (decide (s + cnt ≤ nx)); [by eapply Hno|].
        destruct Hmax as [?|Hmax]; [lia|]. specialize (Hw (nx - ct - 1)).
        rewrite Hmax in Hw. discriminate Hw. lia.
  - split_and!; try lia.
    + intros i Hi. replace i with i0 by lia. done.
    + destruct (decide (i0 = 0)); [left; lia|right].
      replace (i0 + 1 - 1 - 1) with (i0 - 1) by lia. apply Ht. lia.
    + intros s Hs Hs' Hw. specialize (Hw s). rewrite Ht in Hw by lia. discriminate Hw. lia.
  - simpl. pose proof LOOP_FUEL_val. lia.
Qed.

(** How far [bitmap_scan] looks: one bit past the end when it counts. *)
Definition scan_limit (b : bitmap) (cnt : Z) : Z :=
  if cnt =? 1 then nbits b else nbits b + 1.

(** What [bitmap_scan] promises on a bitmap that is not full. *)
Definition scan_result (g : gmap Z Z) (b : bitmap) (cnt r : Z) : Prop :=
  (0 ≤ r ∧ r + cnt ≤ scan_limit b cnt ∧ window g b r cnt
     ∧ ∀ s, 0 ≤ s < r → ¬ window g b s cnt)
  ∨ (r = -1 ∧ ∀ s, 0 ≤ s → s + cnt ≤ scan_limit b cnt → ¬ window g b s cnt).

Lemma scan_full m g b cnt :
  holds m g → bm_wf g b → (∀ i, 0 ≤ i < nbits b → bit g b i = true) →
  bitmap_scan m b cnt = Panic "bitmap_scan".
Proof.
  intros Hh Hwf Hfull. unfold bitmap_scan.
  destruct (skip_holds m g b) as (k & -> & Hk & _ & Hj); [done..|]. rb.
  destruct (Z.ltb_spec k (btmp_bytes_len b)) as [Hlt|_]; [|done].
  destruct Hj as (j & Hj & E); [done|]. rewrite Hfull in E; [done|].
  unfold nbits. lia.
Qed.

Lemma scan_start m g b i0 :
  holds m g → bm_wf g b → 0 ≤ i0 < nbits b → bit g b i0 = false →
  (∀ i, 0 ≤ i < i0 → bit g b i = true) →
  while_ (skip_body m b) LOOP_FUEL 0 = Ok (i0 / 8)
  ∧ while_ (find_bit_body m b (i0 / 8)) LOOP_FUEL 0 = Ok (i0 mod 8).
Proof.
  intros Hh Hwf Hi0 Hf Ht. unfold nbits in Hi0.
  destruct (skip_holds m g b) as (k & -> & Hk & Hfull & Hj); [done..|].
  assert (k = i0 / 8) as ->.
  { destruct (decide (i0 < 8 * k)) as [Hlt|Hge]; [by rewrite Hfull in Hf by lia|].
    destruct (decide (8 * k + 8 ≤ i0)) as [Hge8|]; [|zdm].
    destruct Hj as (j & Hj & E); [lia|]. by rewrite Ht in E by lia. }
  split; [done|]. apply (find_bit_holds m g b); auto.
  - zdm.
  - apply Z.mod_pos_bound. lia.
  - rewrite <- Hf. f_equal. zdm.
  - intros i Hi. apply Ht. zdm.
Qed.

Lemma scan_free m g b cnt i0 :
  holds m g → bm_wf g b → 1 ≤ cnt < 2 ^ 31 → 0 ≤ i0 < nbits b →
  bit g b i0 = false → (∀ i, 0 ≤ i < i0 → bit g b i = true) →
  ∃ r, bitmap_scan m b cnt = Ok r ∧ scan_result g b cnt r.
Proof.
  intros Hh Hwf Hcnt Hi0 Hf Ht. unfold bitmap_scan, scan_result, scan_limit.
  destruct (scan_start m g b i0) as [-> Hbit]; [done..|].
  pose proof Hwf as (_ & Hlen & _). assert (nbits b < 2 ^ 31) by (unfold nbits; lia).
  assert (0 ≤ i0 / 8 < btmp_bytes_len b) by (unfold nbits in *; zdm).
  rb. rewrite assert_true by lia. rb.
  destruct (Z.eqb_spec (i0 / 8) (btmp_bytes_len b)); [lia|].
  rewrite Hbit. rb.
  replace (i0 / 8 * 8 + i0 mod 8) with i0 by zdm. rewrite s32_small by lia.
  destruct (Z.eqb_spec cnt 1) as [->|].
  - exists i0. split; [done|]. left. split_and!; try lia.
    + intros i Hi. by replace i with i0 by lia.
    + intros s Hs Hw. specialize (Hw s). rewrite Ht in Hw by lia. discriminate Hw. lia.
  - replace (btmp_bytes_len b * 8 - i0) with (nbits b - i0) by (unfold nbits; lia).
    rewrite !u32_small by lia. apply run_holds; auto with lia.
Qed.

Lemma bitmap_scan_holds m g b cnt :
  holds m g → bm_wf g b → 1 ≤ cnt < 2 ^ 31 →
  (bitmap_scan m b cnt = Panic "bitmap_scan" ∧ ∀ i, 0 ≤ i < nbits b → bit g b i = true)
  ∨ (∃ r, bitmap_scan m b cnt = Ok r ∧ scan_result g b cnt r
        ∧ ∃ i, 0 ≤ i < nbits b ∧ bit g b i = false).
Proof.
  intros Hh Hwf Hcnt. destruct (bounded_search (bit g b) (nbits b)) as [Hall|(i0 & Hi & Hf & Ht)].
  - left. split; [|done]. by apply (scan_full m g).
  - right. destruct (scan_free m g b cnt i0) as (r & Hr & Hres); auto. eauto 6.
Qed.
End specs.

(** * Properties *)

Section properties.
Context {M : Type} `{!ByteMem M, !ByteMemSpec M}.
Implicit Types (m : M) (g : gmap Z Z) (b : bitmap).

(** C35: [bitmap_scan] on every bitmap.  A full bitmap stops it in its ASSERT.
    On a bitmap with a clear bit it terminates and returns the first run of
    [cnt] clear bits, or -1 when there is none, but for runs of more than one
    bit it counts the bit right after the bitmap as part of it: the run is
    inside the bitmap or sticks out by exactly that bit, when it is clear. *)
Theorem bitmap_scan_first_fit m g b cnt :
  holds m g → bm_wf g b → 1 ≤ cnt < 2 ^ 31 →
  ((∀ i, 0 ≤ i < nbits b → bit g b i = true) → bitmap_scan m b cnt = Panic "bitmap_scan")
  ∧ ∀ i, 0 ≤ i < nbits b → bit g b i = false →
      ∃ r, bitmap_scan m b cnt = Ok r ∧ scan_result g b cnt r
        ∧ (r = -1 ∨ r + cnt ≤ nbits b
           ∨ 1 < cnt ∧ r + cnt = nbits b + 1 ∧ bit g b (nbits b) = false).
Proof.
  intros Hh Hwf Hcnt. split; [by apply scan_full|]. intros i Hi Hf.
  destruct (bitmap_scan_holds m g b cnt) as [[_ Hall]|(r & Hr & Hres & _)]; [done..|by rewrite Hall in Hf|].
  exists r. split_and!; [done..|]. destruct Hres as [(H0 & Hl & Hw & _)|[-> _]]; [right|by left].
  unfold scan_limit in Hl. destruct (Z.eqb_spec cnt 1); [left; lia|].
  destruct (decide (r + cnt ≤ nbits b)); [by left|right]. split_and!; [lia|lia|]. apply Hw. lia.
Qed.

(** On a full bitmap [bitmap_scan] stops in its ASSERT, whatever is
    asked: the [return -1] after it is never reached. *)
Theorem bitmap_scan_full_panics m g b cnt :
  holds m g → bm_wf g b → (∀ i, 0 ≤ i < nbits b → bit g b i = true) →
  bitmap_scan m b cnt = Panic "bitmap_scan".
Proof. apply scan_full. Qed.

(** A run that [bitmap_scan] returns lies inside the bitmap when it is
    one bit long, or when the bit after the bitmap is set. *)
Theorem bitmap_scan_in_range m g b cnt r :
  holds m g → bm_wf g b → 1 ≤ cnt < 2 ^ 31 →
  cnt = 1 ∨ bit g b (nbits b) = true →
  bitmap_scan m b cnt = Ok r → r ≠ -1 →
  0 ≤ r ∧ r + cnt ≤ nbits b ∧ window g b r cnt.
Proof.
  intros Hh Hwf Hcnt Hguard Hr Hne.
  destruct (bitmap_scan_holds m g b cnt) as [[Hp _]|(r' & Hr' & Hres & _)]; auto; [congruence|].
  assert (r' = r) as -> by congruence.
  destruct Hres as [(H0 & Hlim & Hw & _)|[? _]]; [|done].
  split_and!; auto. unfold scan_limit in Hlim. destruct Hguard as [->|Hg]; [done|].
  destruct (Z.eqb_spec cnt 1); [lia|].
  destruct (decide (r + cnt = nbits b + 1)); [|lia].
  specialize (Hw (nbits b)). rewrite Hg in Hw. discriminate Hw. lia.
Qed.

(** [bitmap_set] changes the bit it names and no other: afterwards
    [bitmap_scan_test] reads the written value there and what it read before
    everywhere else, in this bitmap and in any other stored elsewhere. *)
Theorem bitmap_set_test m g b i value :
  holds m g → bm_wf g b → 0 ≤ i < nbits b → value = 0 ∨ value = 1 →
  ∃ m', bitmap_set m b i value = Ok m'
    ∧ (∃ t, bitmap_scan_test m' b i = Ok t ∧ (t =? 0) = (value =? 0))
    ∧ ∀ b' j, bm_wf g b' → 0 ≤ j < nbits b' →
        b' = b ∧ j ≠ i ∨ bits b' + btmp_bytes_len b' ≤ bits b
          ∨ bits b + btmp_bytes_len b ≤ bits b' →
        ∃ t t', bitmap_scan_test m b' j = Ok t ∧ bitmap_scan_test m' b' j = Ok t'
              ∧ (t' =? 0) = (t =? 0).
Proof.
  intros Hh Hwf Hi Hval.
  destruct (bitmap_set_holds m g b i value) as (m' & Hr & Hm'); auto; [lia|].
  exists m'. split_and!; [done| |].
  - destruct (scan_test_holds m' (set_bit g b i (value =? 1)) b i) as (t & Ht & E);
      [done|by apply bm_wf_set_bit|lia|].
    exists t. split; [done|]. rewrite E, bit_set_bit, decide_True by (done || lia).
    destruct Hval as [-> | ->]; done.
  - intros b' j Hwf' Hj Hsep.
    destruct (scan_test_holds m g b' j) as (t & Ht & E); [done..|lia|].
    destruct (scan_test_holds m' (set_bit g b i (value =? 1)) b' j) as (t' & Ht' & E');
      [done|by apply bm_wf_set_bit|lia|].
    exists t, t'. split_and!; auto. rewrite E, E'. f_equal.
    destruct Hsep as [[-> Hne]|Hsep].
    + rewrite bit_set_bit, decide_False by (done || lia). done.
    + apply bit_set_bit_other. unfold nbits in *. zdm.
Qed.

(** After [bitmap_init] the whole bitmap is free: a scan for any number
    of bits that fits returns bit 0. *)
Theorem bitmap_init_scan m g b cnt :
  holds m g → bm_wf g b → 1 ≤ cnt ≤ nbits b →
  ∃ m', bitmap_init m b = Ok m' ∧ bitmap_scan m' b cnt = Ok 0.
Proof.
  intros Hh Hwf Hcnt.
  destruct (bitmap_init_holds m g b) as (m' & g' & Hr & Hm' & Hwf' & Hwin & _); auto.
  exists m'. split; [done|]. pose proof Hwf as (_ & Hlen & _).
  assert (nbits b < 2 ^ 31) by (unfold nbits; lia).
  destruct (scan_free m' g' b cnt 0) as (r & -> & Hres); auto; try lia.
  { apply Hwin. lia. }
  assert (window g' b 0 cnt) by (intros i ?; apply Hwin; lia).
  f_equal. destruct Hres as [(Hr0 & _ & _ & Hleast)|[_ Hnone]].
  - destruct (decide (r = 0)) as [|Hne]; [done|]. by destruct (Hleast 0); [lia|].
  - destruct (Hnone 0); [lia| |done]. unfold scan_limit. destruct (cnt =? 1); lia.
Qed.
End properties.

(** * Concrete runs *)

Module BitmapRuns.
(** A one-byte bitmap at 64 with bits 6 and 7 clear, followed by a zero
    byte; a full one at 80; one with a set guard bit at 96. *)
Definition mem : gmap Z Z :=
  write_bytes (write_bytes (write_bytes ∅ 64 [63; 0]) 80 [255; 0]) 96 [63; 1].
Definition bm : bitmap := Bitmap 1 64.
Definition bm_full : bitmap := Bitmap 1 80.
Definition bm_guard : bitmap := Bitmap 1 96.

Lemma bm_mem_holds : holds (M := gmap Z Z) mem mem.
Proof. apply flat_holds. vm_compute. reflexivity. Qed.

Lemma bm_mem_wf a : a = 64 ∨ a = 80 ∨ a = 96 → bm_wf mem (Bitmap 1 a).
Proof.
  intros Ha. split_and!; simpl; try (destruct Ha as [->|[->| ->]]; lia).
  apply ownedb_ok. destruct Ha as [->|[->| ->]]; vm_compute; reflexivity.
Qed.

(** The run may stick out of the bitmap.  A one-byte bitmap with two
    clear bits at its end, followed by a zero byte, "has" three free bits:
    [bitmap_scan] returns 6 for a request of 3, although bit 8 is not part
    of the bitmap. *)
Theorem bitmap_scan_overrun :
  bitmap_scan mem bm 3 = Ok 6 ∧ nbits bm = 8.
Proof. vm_compute. split; reflexivity. Qed.

Lemma bitmap_scan_first_fit_witness :
  ∃ r, bitmap_scan mem bm 2 = Ok r ∧ scan_result mem bm 2 r.
Proof.
  destruct (bitmap_scan_first_fit mem mem bm 2) as [_ Hs].
  - apply bm_mem_holds.
  - apply bm_mem_wf. auto.
  - lia.
  - destruct (Hs 6) as (r & Hr & Hres & _); [vm_compute; split; congruence|vm_compute; reflexivity|].
    exists r. split; [exact Hr|exact Hres].
Defined.

Lemma bitmap_scan_full_panics_witness :
  bitmap_scan mem bm_full 1 = Panic "bitmap_scan".
Proof.
  apply (bitmap_scan_full_panics mem mem bm_full 1).
  - apply bm_mem_holds.
  - apply bm_mem_wf. auto.
  - intros i Hi. change (nbits bm_full) with 8 in Hi.
    assert (i = 0 ∨ i = 1 ∨ i = 2 ∨ i = 3 ∨ i = 4 ∨ i = 5 ∨ i = 6 ∨ i = 7) as Hc by lia.
    destruct Hc as [->|[->|[->|[->|[->|[->|[->| ->]]]]]]]; vm_compute; reflexivity.
Defined.

Lemma bitmap_scan_in_range_witness :
  0 ≤ 6 ∧ 6 + 2 ≤ nbits bm_guard ∧ window mem bm_guard 6 2.
Proof.
  apply (bitmap_scan_in_range mem mem bm_guard 2 6).
  - apply bm_mem_holds.
  - apply bm_mem_wf. auto.
  - lia.
  - right. vm_compute. reflexivity.
  - vm_compute. reflexivity.
  - lia.
Defined.

Lemma bitmap_set_test_witness :
  ∃ m', bitmap_set mem bm 6 1 = Ok m'
    ∧ ∃ t, bitmap_scan_test m' bm 6 = Ok t ∧ (t =? 0) = (1 =? 0).
Proof.
  destruct (bitmap_set_test mem mem bm 6 1) as (m' & H1 & H2 & _).
  - apply bm_mem_holds.
  - apply bm_mem_wf. auto.
  - vm_compute. split; congruence.
  - by right.
  - exists m'. split; [exact H1|exact H2].
Defined.

Lemma bitmap_init_scan_witness :
  ∃ m', bitmap_init mem bm_full = Ok m' ∧ bitmap_scan m' bm_full 8 = Ok 0.
Proof.
  apply (bitmap_init_scan mem mem bm_full 8).
  - apply bm_mem_holds.
  - apply bm_mem_wf. auto.
  - vm_compute. split; congruence.
Defined.
End BitmapRuns.
