(* ===== verification/Paging.v ===== *)
(** The paged machine and the part of kernel/memory.c that talks to it:
    [pde_ptr], [pte_ptr], [addr_v2p] and [page_dir_activate] of
    userprog/process.c.

    The machine is physical memory and the register cr3; a virtual access
    walks the two-level page tables of 32-bit x86 (4 KB pages, present bit 0
    of each entry, frame in the upper 20 bits).  The kernel runs at ring 0
    with CR0.WP clear, so the U/S and R/W bits do not restrict it.  A table
    entry that goes from absent to present needs no TLB flush, which is the
    only change the code makes to a live table.

    The machine is the second instance of the memory interface of ByteMem.v:
    the string and bitmap routines run on it unchanged. *)
From S2P Require Import Prelude ByteMem CString.

(** * Physical memory *)

Record machine := Machine {
  pm : gmap Z Z;
  cr3 : Z;
}.

Definition rd8 (m : gmap Z Z) (a : Z) : Z := u8 (default 0 (m !! a)).

(** Little-endian 32-bit access. *)
Definition rd32 (m : gmap Z Z) (a : Z) : Z :=
  rd8 m a + 2 ^ 8 * rd8 m (a + 1) + 2 ^ 16 * rd8 m (a + 2) + 2 ^ 24 * rd8 m (a + 3).

Definition wr32 (m : gmap Z Z) (a v : Z) : gmap Z Z :=
  <[a + 3 := v / 2 ^ 24 mod 256]> (<[a + 2 := v / 2 ^ 16 mod 256]>
  (<[a + 1 := v / 2 ^ 8 mod 256]> (<[a := v mod 256]> m))).

Lemma rd8_range m a : 0 ≤ rd8 m a < 256.
Proof. apply u8_range. Qed.

Lemma rd8_insert_eq m a v : 0 ≤ v < 256 → rd8 (<[a := v]> m) a = v.
Proof. intros. unfold rd8. rewrite lookup_insert_eq. simpl. by apply u8_small. Qed.

Lemma rd8_insert_ne m a v b : a ≠ b → rd8 (<[a := v]> m) b = rd8 m b.
Proof. intros. unfold rd8. by rewrite lookup_insert_ne. Qed.

Lemma rd32_range m a : 0 ≤ rd32 m a < 2 ^ 32.
Proof.
  unfold rd32. pose proof (rd8_range m a). pose proof (rd8_range m (a + 1)).
  pose proof (rd8_range m (a + 2)). pose proof (rd8_range m (a + 3)). lia.
Qed.

Lemma rd32_insert_other m a v b : a < b ∨ b + 4 ≤ a → rd32 (<[a := v]> m) b = rd32 m b.
Proof. intros. unfold rd32. by rewrite !rd8_insert_ne by lia. Qed.

Lemma rd8_wr32_other m a v b : b < a ∨ a + 4 ≤ b → rd8 (wr32 m a v) b = rd8 m b.
Proof. intros. unfold wr32. by rewrite !rd8_insert_ne by lia. Qed.

Lemma rd32_wr32_other m a v b : b + 4 ≤ a ∨ a + 4 ≤ b → rd32 (wr32 m a v) b = rd32 m b.
Proof. intros. unfold rd32. by rewrite !rd8_wr32_other by lia. Qed.

Lemma rd32_wr32_same m a v : 0 ≤ v < 2 ^ 32 → rd32 (wr32 m a v) a = v.
Proof.
  intros Hv. unfold rd32, wr32.
  rewrite (rd8_insert_eq _ (a + 3)) by zdm.
  rewrite (rd8_insert_ne _ (a + 3) _ (a + 2)), (rd8_insert_eq _ (a + 2)) by (lia || zdm).
  rewrite (rd8_insert_ne _ (a + 3) _ (a + 1)), (rd8_insert_ne _ (a + 2) _ (a + 1)),
    (rd8_insert_eq _ (a + 1)) by (lia || zdm).
  rewrite (rd8_insert_ne _ (a + 3) _ a), (rd8_insert_ne _ (a + 2) _ a),
    (rd8_insert_ne _ (a + 1) _ a), (rd8_insert_eq _ a) by (lia || zdm).
  zdm.
Qed.

(** * The page walk *)

(** Bit 0 of an entry, and its frame. *)
Definition present (e : Z) : bool := Z.testbit e 0.
Definition frame (e : Z) : Z := Z.land e 0xfffff000.

Definition pde_addr (M : machine) (va : Z) : Z := frame (cr3 M) + 4 * (va / 2 ^ 22).
Definition pde_at (M : machine) (va : Z) : Z := rd32 (pm M) (pde_addr M va).
Definition pte_addr (M : machine) (va : Z) : Z :=
  frame (pde_at M va) + 4 * (va / 2 ^ 12 mod 2 ^ 10).
Definition pte_at (M : machine) (va : Z) : Z := rd32 (pm M) (pte_addr M va).

Definition translate (M : machine) (va : Z) : option Z :=
  if present (pde_at M va) then
    if present (pte_at M va) then Some (frame (pte_at M va) + va mod 2 ^ 12)
    else None
  else None.

(** Byte and word accesses by virtual address.  A word access is used on
    4-aligned addresses only, so it never crosses a page. *)
#[global] Instance paged_mem : ByteMem machine := {
  load8 M va := match translate M va with
                | Some pa => Ok (rd8 (pm M) pa)
                | None => Fault
                end;
  store8 M va v := match translate M va with
                   | Some pa => Ok (Machine (<[pa := v]> (pm M)) (cr3 M))
                   | None => Fault
                   end;
}.

Definition load32 (M : machine) (va : Z) : res Z :=
  match translate M va with Some pa => Ok (rd32 (pm M) pa) | None => Fault end.

Definition store32 (M : machine) (va v : Z) : res machine :=
  match translate M va with
  | Some pa => Ok (Machine (wr32 (pm M) pa v) (cr3 M))
  | None => Fault
  end.

(** * kernel/memory.c: addresses of table entries *)

Definition PDE_IDX (addr : Z) : Z := Z.shiftr (Z.land addr 0xffc00000) 22.
Definition PTE_IDX (addr : Z) : Z := Z.shiftr (Z.land addr 0x003ff000) 12.

Definition pte_ptr (vaddr : Z) : Z :=
  u32 (0xffc00000 + Z.shiftr (Z.land vaddr 0xffc00000) 10 + PTE_IDX vaddr * 4).

Definition pde_ptr (vaddr : Z) : Z := u32 (0xfffff000 + PDE_IDX vaddr * 4).

Definition addr_v2p (M : machine) (vaddr : Z) : res Z :=
  pte ← load32 M (pte_ptr vaddr);
  Ok (u32 (Z.land pte 0xfffff000 + Z.land vaddr 0x00000fff)).

(** userprog/process.c, [page_dir_activate]: [pgdir] is the thread's field. *)
Definition page_dir_activate (M : machine) (pgdir : Z) : res machine :=
  if negb (pgdir =? NULL)
  then pagedir_phy_addr ← addr_v2p M pgdir; Ok (Machine (pm M) pagedir_phy_addr)
  else Ok (Machine (pm M) 0x100000).

(** * Address arithmetic *)

Lemma frame_eq e : 0 ≤ e < 2 ^ 32 → frame e = e - e mod 4096.
Proof. intros. unfold frame. by apply (land_high e 12). Qed.

Lemma frame_props e : 0 ≤ e < 2 ^ 32 →
  0 ≤ frame e ∧ frame e + 4096 ≤ 2 ^ 32 ∧ frame e mod 4096 = 0 ∧ frame e ≤ e < frame e + 4096.
Proof. intros He. rewrite frame_eq by done. zdm. Qed.

Lemma frame_flags p f : 0 ≤ p → p + 4096 ≤ 2 ^ 32 → p mod 4096 = 0 → 0 ≤ f < 4096 →
  frame (p + f) = p.
Proof. intros. rewrite frame_eq by lia. zdm. Qed.

Lemma PDE_IDX_eq va : 0 ≤ va < 2 ^ 32 → PDE_IDX va = va / 2 ^ 22.
Proof.
  intros. unfold PDE_IDX. change 0xffc00000 with (2 ^ 32 - 2 ^ 22).
  rewrite land_high, Z.shiftr_div_pow2 by lia. zdm.
Qed.

Lemma PTE_IDX_eq va : 0 ≤ va < 2 ^ 32 → PTE_IDX va = va / 2 ^ 12 mod 2 ^ 10.
Proof.
  intros. unfold PTE_IDX.
  replace 0x003ff000 with (Z.land (2 ^ 22 - 1) (2 ^ 32 - 2 ^ 12)) by reflexivity.
  rewrite Z.land_assoc, land_low, land_high, Z.shiftr_div_pow2 by (lia || zdm). zdm.
Qed.

Lemma pde_ptr_eq va : 0 ≤ va < 2 ^ 32 → pde_ptr va = 0xfffff000 + 4 * (va / 2 ^ 22).
Proof. intros. unfold pde_ptr. rewrite PDE_IDX_eq by done. rewrite u32_small; zdm. Qed.

(** The page-table entries, seen through the self map, form one array indexed
    by the page number. *)
Lemma pte_ptr_eq va : 0 ≤ va < 2 ^ 32 → pte_ptr va = 0xffc00000 + 4 * (va / 2 ^ 12).
Proof.
  intros. unfold pte_ptr. rewrite PTE_IDX_eq by done.
  change 0xffc00000 with (2 ^ 32 - 2 ^ 22).
  rewrite land_high, Z.shiftr_div_pow2 by lia. rewrite u32_small; zdm.
Qed.

Lemma pte_ptr_range va : 0 ≤ va < 2 ^ 32 → 0 ≤ pte_ptr va < 2 ^ 32.
Proof. intros. rewrite pte_ptr_eq by done. zdm. Qed.

Lemma pde_ptr_range va : 0 ≤ va < 2 ^ 32 → 0 ≤ pde_ptr va < 2 ^ 32.
Proof. intros. rewrite pde_ptr_eq by done. zdm. Qed.

(** * The self map

    Entry 1023 of every page directory points to the directory itself
    (boot/loader.S, [create_page_dir]). *)

Definition selfmap (M : machine) : Prop :=
  0 ≤ cr3 M < 2 ^ 32
  ∧ present (rd32 (pm M) (frame (cr3 M) + 4092)) = true
  ∧ frame (rd32 (pm M) (frame (cr3 M) + 4092)) = frame (cr3 M).

Lemma pde_at_selfmap M va :
  selfmap M → 0xffc00000 ≤ va < 2 ^ 32 →
  present (pde_at M va) = true ∧ frame (pde_at M va) = frame (cr3 M).
Proof.
  intros (_ & Hp & Hf) Hva. unfold pde_at, pde_addr.
  by replace (va / 2 ^ 22) with 1023 by zdm.
Qed.

Lemma pde_ptr_translate M va :
  selfmap M → 0 ≤ va < 2 ^ 32 → translate M (pde_ptr va) = Some (pde_addr M va).
Proof.
  intros Hs Hva. pose proof (pde_ptr_eq va Hva) as E.
  destruct (pde_at_selfmap M (pde_ptr va)) as [Hp Hf]; [done|zdm|].
  unfold translate. rewrite Hp. unfold pte_at, pte_addr. rewrite Hf.
  replace (pde_ptr va / 2 ^ 12 mod 2 ^ 10) with 1023 by zdm.
  destruct Hs as (_ & Hp' & Hf'). change (4 * 1023) with 4092. rewrite Hp', Hf'.
  unfold pde_addr. do 2 f_equal. zdm.
Qed.

Lemma pte_ptr_translate M va :
  selfmap M → 0 ≤ va < 2 ^ 32 →
  translate M (pte_ptr va) = if present (pde_at M va) then Some (pte_addr M va) else None.
Proof.
  intros Hs Hva. pose proof (pte_ptr_eq va Hva) as E.
  destruct (pde_at_selfmap M (pte_ptr va)) as [Hp Hf]; [done|zdm|].
  unfold translate. rewrite Hp.
  assert (pte_at M (pte_ptr va) = pde_at M va) as ->.
  { unfold pte_at, pte_addr, pde_at at 2, pde_addr. rewrite Hf. do 2 f_equal. zdm. }
  destruct (present (pde_at M va)); [|done]. unfold pte_addr. do 2 f_equal. zdm.
Qed.

Lemma load_pde M va :
  selfmap M → 0 ≤ va < 2 ^ 32 → load32 M (pde_ptr va) = Ok (pde_at M va).
Proof. intros. unfold load32. by rewrite pde_ptr_translate. Qed.

Lemma load_pte M va :
  selfmap M → 0 ≤ va < 2 ^ 32 → present (pde_at M va) = true →
  load32 M (pte_ptr va) = Ok (pte_at M va).
Proof. intros ? ? Hp. unfold load32. by rewrite pte_ptr_translate, Hp. Qed.

Lemma store_pde M va v :
  selfmap M → 0 ≤ va < 2 ^ 32 →
  store32 M (pde_ptr va) v = Ok (Machine (wr32 (pm M) (pde_addr M va) v) (cr3 M)).
Proof. intros. unfold store32. by rewrite pde_ptr_translate. Qed.

Lemma store_pte M va v :
  selfmap M → 0 ≤ va < 2 ^ 32 → present (pde_at M va) = true →
  store32 M (pte_ptr va) v = Ok (Machine (wr32 (pm M) (pte_addr M va) v) (cr3 M)).
Proof. intros ? ? Hp. unfold store32. by rewrite pte_ptr_translate, Hp. Qed.

Lemma addr_v2p_translate M va pa :
  selfmap M → 0 ≤ va < 2 ^ 32 → translate M va = Some pa → addr_v2p M va = Ok pa.
Proof.
  intros Hs Hva. unfold translate. destruct (present (pde_at M va)) eqn:Hp; [|done].
  destruct (present (pte_at M va)); [|done]. intros [= <-].
  unfold addr_v2p. rewrite load_pte by done. rb.
  change 0x00000fff with (2 ^ 12 - 1). rewrite land_low by lia.
  pose proof (frame_props (pte_at M va) (rd32_range _ _)) as Hf. unfold frame in *.
  rewrite u32_small; [done|]. pose proof (Z.mod_pos_bound va (2 ^ 12)). lia.
Qed.

(** * Stores that leave a walk alone *)

(** The physical bytes the walk of [va] reads. *)
Definition walk_byte (M : machine) (va x : Z) : Prop :=
  pde_addr M va ≤ x < pde_addr M va + 4 ∨ pte_addr M va ≤ x < pte_addr M va + 4.

(** Two machines with the same cr3 and the same walk bytes of [va] translate
    it alike. *)
Definition same_walk (M M' : machine) (va : Z) : Prop :=
  cr3 M' = cr3 M ∧ ∀ x, walk_byte M va x → rd8 (pm M') x = rd8 (pm M) x.

Lemma rd32_same m m' a :
  (∀ x, a ≤ x < a + 4 → rd8 m' x = rd8 m x) → rd32 m' a = rd32 m a.
Proof. intros H. unfold rd32. by rewrite !H by lia. Qed.

Lemma same_walk_addrs M M' va :
  same_walk M M' va →
  pde_at M' va = pde_at M va ∧ pte_addr M' va = pte_addr M va ∧ pte_at M' va = pte_at M va.
Proof.
  intros [Hc Hx].
  assert (pde_addr M' va = pde_addr M va) as Ea by (unfold pde_addr; by rewrite Hc).
  assert (pde_at M' va = pde_at M va) as Ed.
  { unfold pde_at. rewrite Ea. apply rd32_same. intros x Hx'. apply Hx. by left. }
  assert (pte_addr M' va = pte_addr M va) as Et by (unfold pte_addr; by rewrite Ed).
  split_and!; auto. unfold pte_at. rewrite Et. apply rd32_same.
  intros x Hx'. apply Hx. by right.
Qed.

Lemma same_walk_translate M M' va :
  same_walk M M' va → translate M' va = translate M va.
Proof.
  intros H. destruct (same_walk_addrs M M' va H) as (Hd & _ & Ht).
  unfold translate. by rewrite Hd, Ht.
Qed.

Lemma same_walk_byte M M' va x :
  same_walk M M' va → walk_byte M' va x ↔ walk_byte M va x.
Proof.
  intros H. pose proof (same_walk_addrs M M' va H) as (_ & Ht & _).
  unfold walk_byte. rewrite Ht. unfold pde_addr. by rewrite (proj1 H).
Qed.

Lemma same_walk_insert M va x v :
  ¬ walk_byte M va x → same_walk M (Machine (<[x := v]> (pm M)) (cr3 M)) va.
Proof.
  intros Hn. split; [done|]. intros y Hy. simpl. apply rd8_insert_ne. by intros ->.
Qed.

Lemma same_walk_wr32 M va a v :
  (∀ x, a ≤ x < a + 4 → ¬ walk_byte M va x) →
  same_walk M (Machine (wr32 (pm M) a v) (cr3 M)) va.
Proof.
  intros Hn. split; [done|]. intros y Hy. simpl. apply rd8_wr32_other.
  destruct (decide (y < a)); [by left|]. destruct (decide (a + 4 ≤ y)); [by right|].
  destruct (Hn y); [lia|done].
Qed.

(** * The machine implements the memory interface

    It holds [g] when every address of [g] is mapped to a physical byte of its
    own, and none of these bytes belongs to the tables that map them. *)

Definition paged_holds (M : machine) (g : gmap Z Z) : Prop :=
  ∀ a v, g !! a = Some v → 0 ≤ v < 256 ∧ ∃ pa, translate M a = Some pa ∧ rd8 (pm M) pa = v
    ∧ ∀ b w, g !! b = Some w → (translate M b = Some pa → b = a) ∧ ¬ walk_byte M b pa.

#[global] Program Instance paged_mem_spec : ByteMemSpec machine := {
  holds := paged_holds;
}.
Next Obligation. intros M g a v H Ha. by destruct (H a v Ha). Qed.
Next Obligation.
  intros M g a v H Ha. destruct (H a v Ha) as (_ & pa & Ht & <- & _).
  simpl. by rewrite Ht.
Qed.
Next Obligation.
  intros M g a v H [w Hw] Hv. destruct (H a w Hw) as (_ & pa & Ht & _ & Hsep).
  simpl. rewrite Ht. eexists. split; [done|].
  set (M' := Machine (<[pa := v]> (pm M)) (cr3 M)).
  assert (Hsame : ∀ b u, g !! b = Some u → same_walk M M' b).
  { intros b u Hb. apply same_walk_insert. by destruct (Hsep b u Hb). }
  assert (Hdom : ∀ b u, <[a := v]> g !! b = Some u → ∃ u', g !! b = Some u').
  { intros b u. rewrite lookup_insert. case_decide; subst; eauto. }
  intros b u Hb. destruct (Hdom b u Hb) as [u' Hb'].
  destruct (H b u' Hb') as (Hu' & pb & Htb & Hrd & Hsepb).
  assert (Hothers : ∀ c w', <[a := v]> g !! c = Some w' →
    (translate M' c = Some pb → c = b) ∧ ¬ walk_byte M' c pb).
  { intros c w' Hc. destruct (Hdom c w' Hc) as [w'' Hc']. pose proof (Hsame c w'' Hc') as Hs.
    rewrite (same_walk_translate M M' c Hs), (same_walk_byte M M' c pb Hs). eauto. }
  rewrite lookup_insert in Hb. case_decide as Hab.
  - subst b. injection Hb as <-. split; [done|]. exists pa.
    assert (pb = pa) as -> by congruence. split_and!; [|by apply rd8_insert_eq|done].
    by rewrite (same_walk_translate M M' a (Hsame a _ Hw)).
  - assert (u' = u) as -> by congruence. split; [done|]. exists pb. split_and!; [| |done].
    + by rewrite (same_walk_translate M M' b (Hsame b _ Hb)).
    + simpl. rewrite rd8_insert_ne; [done|]. intros ->.
      destruct (Hsepb a _ Hw) as [E _]. by apply E in Ht.
Qed.

(** * Framing

    The interface once more, this time remembering where the run started:
    [framed M0 g0 M g] says that [M] was reached from [M0] by stores to the
    addresses of [g0] only.  It implements the same contract, so every lemma
    about a routine of ByteMem.v's clients also tells what the routine leaves
    alone: cr3, the mapping, and every physical byte outside [g0]. *)

Definition framed (M0 : machine) (g0 : gmap Z Z) (M : machine) (g : gmap Z Z) : Prop :=
  paged_holds M g
  ∧ cr3 M = cr3 M0
  ∧ (∀ a, is_Some (g !! a) ↔ is_Some (g0 !! a))
  ∧ (∀ a, is_Some (g0 !! a) → translate M a = translate M0 a)
  ∧ (∀ x, (∀ a, is_Some (g0 !! a) → translate M0 a ≠ Some x) →
       rd8 (pm M) x = rd8 (pm M0) x).

Lemma framed_refl M g : paged_holds M g → framed M g M g.
Proof. intros. by split_and!. Qed.

Lemma paged_store_eq M g a v :
  paged_holds M g → is_Some (g !! a) → 0 ≤ v < 256 →
  ∃ pa, translate M a = Some pa
    ∧ store8 M a v = Ok (Machine (<[pa := v]> (pm M)) (cr3 M))
    ∧ paged_holds (Machine (<[pa := v]> (pm M)) (cr3 M)) (<[a := v]> g)
    ∧ ∀ b, is_Some (g !! b) →
        translate (Machine (<[pa := v]> (pm M)) (cr3 M)) b = translate M b.
Proof.
  intros H [w Hw] Hv. pose proof (H a w Hw) as (_ & pa & Ht & _ & Hsep).
  destruct (store8_holds (M := machine) M g a v) as (M' & Hst & Hh); [done|by eexists|done|].
  exists pa. assert (store8 M a v = Ok (Machine (<[pa := v]> (pm M)) (cr3 M))) as Hst'
    by (simpl; by rewrite Ht).
  rewrite Hst' in Hst. injection Hst as <-. split_and!; auto.
  intros b [u Hb]. apply same_walk_translate, same_walk_insert. by destruct (Hsep b u Hb).
Qed.

Program Definition framed_spec (M0 : machine) (g0 : gmap Z Z) : ByteMemSpec machine := {|
  holds := framed M0 g0;
|}.
Next Obligation. intros M0 g0 M g a v [H _] Ha. by destruct (H a v Ha). Qed.
Next Obligation. intros M0 g0 M g a v [H _] Ha. by apply (load8_holds (M := machine) M g). Qed.
Next Obligation.
  intros M0 g0 M g a v (H & Hc & Hdom & Htr & Hfr) Ha Hv.
  destruct (paged_store_eq M g a v H Ha Hv) as (pa & Hpa & -> & Hh & Hsame).
  eexists. split; [done|]. split_and!; [done|done| | |].
  - intros b. rewrite <- Hdom, lookup_insert. case_decide; [subst; naive_solver|done].
  - intros b Hb. rewrite Hsame by by apply Hdom. by apply Htr.
  - intros x Hx. simpl. rewrite rd8_insert_ne; [by apply Hfr|]. intros ->.
    apply (Hx a); [by apply Hdom|]. by rewrite <- Htr by by apply Hdom.
Qed.

(** * Properties *)

(** The page-table trick of [pte_ptr] and [pde_ptr].  In an address space
    whose last directory entry points to the directory itself, [pde_ptr va]
    is a virtual address of the directory entry of [va], and [pte_ptr va] one
    of its table entry, or unmapped when the directory entry is absent. *)
Theorem table_pointers_correct M va :
  selfmap M → 0 ≤ va < 2 ^ 32 →
  translate M (pde_ptr va) = Some (pde_addr M va)
  ∧ translate M (pte_ptr va)
    = (if present (pde_at M va) then Some (pte_addr M va) else None).
Proof. intros. split; [by apply pde_ptr_translate|by apply pte_ptr_translate]. Qed.

(** C37: [addr_v2p] computes what the MMU computes: on a mapped address it
    returns its physical address, and without a page table it faults. *)
Theorem addr_v2p_is_translate M va :
  selfmap M → 0 ≤ va < 2 ^ 32 →
  (∀ pa, translate M va = Some pa → addr_v2p M va = Ok pa)
  ∧ (present (pde_at M va) = false → addr_v2p M va = Fault).
Proof.
  intros Hs Hva. split.
  - intros pa. by apply addr_v2p_translate.
  - intros Hp. unfold addr_v2p, load32. by rewrite pte_ptr_translate, Hp.
Qed.

(** [page_dir_activate] loads cr3 with the physical address of the
    thread's page directory, or with the kernel's directory at 0x100000 when
    the thread has none, and changes no memory. *)
Theorem page_dir_activate_cr3 M pgdir pa :
  selfmap M → 0 ≤ pgdir < 2 ^ 32 → pgdir = NULL ∨ translate M pgdir = Some pa →
  page_dir_activate M pgdir
  = Ok (Machine (pm M) (if pgdir =? NULL then 0x100000 else pa)).
Proof.
  intros Hs Hr Hp. unfold page_dir_activate.
  destruct (Z.eqb_spec pgdir NULL) as [->|Hne]; [done|]. simpl.
  destruct Hp as [?|Hp]; [done|]. by rewrite (addr_v2p_translate M pgdir pa) by done.
Qed.
