(* ===== verification/Disk.v ===== *)
(** [rd_disk_m_32] of boot/loader.S and [rd_disk_m_16] of boot/mbr.S: reading
    sectors from the first ATA disk by programmed input.  The disk is a
    parameter; [AtaDisk] is what an ATA disk promises, sector by sector. *)
From S2P Require Import Prelude ByteMem Paging Ports.

(** * Operations *)

(** Little-endian stores to physical memory. *)
Definition wr16 (m : gmap Z Z) (a v : Z) : gmap Z Z := write_bytes m a (le16 v).

Section rd_disk.
Context {D : Type} `{!Ports D}.

(** Count, LBA address, device and the command 0x20; [shr eax, cl] with
    [cl = 8] before each part of the address. *)
Definition ata_select (d : D) (eax cl : Z) : D :=
  let d := p_out8 d 0x1f2 cl in
  let d := p_out8 d 0x1f3 (u8 eax) in
  let eax := Z.shiftr eax 8 in
  let d := p_out8 d 0x1f4 (u8 eax) in
  let eax := Z.shiftr eax 8 in
  let d := p_out8 d 0x1f5 (u8 eax) in
  let eax := Z.shiftr eax 8 in
  let al := Z.lor (Z.land (u8 eax) 0x0f) 0xe0 in
  let d := p_out8 d 0x1f6 al in
  p_out8 d 0x1f7 0x20.

Definition not_ready (d : D) : res (D + D) :=
  let '(al, d) := p_in8 d 0x1f7 in
  Ok (if Z.land al 0x88 =? 0x08 then inr d else inl d).

(** One word: [in ax, dx; mov [ebx], ax; add ebx, 2; loop].  [wrap] is the
    width of the registers: [u32] in the loader, [u16] in the boot sector. *)
Definition go_on_read (wrap : Z → Z) (st : D * gmap Z Z * Z * Z)
    : res (D * gmap Z Z * Z * Z + D * gmap Z Z) :=
  let '(d, m, ebx, ecx) := st in
  let '(ax, d) := p_in16 d 0x1f0 in
  let m := wr16 m ebx ax in
  let ebx := wrap (ebx + 2) in
  let ecx := wrap (ecx - 1) in
  Ok (if ecx =? 0 then inr (d, m) else inl (d, m, ebx, ecx)).

(** [mul dx] leaves the low half of the product in [ax], which goes to [cx];
    the upper half of [ecx] keeps what the caller had there. *)
Definition rd_disk_m_32 (d : D) (m : gmap Z Z) (eax ebx ecx : Z) : res (D * gmap Z Z) :=
  let d := ata_select d eax (u8 ecx) in
  d ← while_ not_ready LOOP_FUEL d;
  let ecx := ecx - ecx mod 2 ^ 16 + u16 (u16 ecx * 256) in
  while_ (go_on_read u32) LOOP_FUEL (d, m, ebx, ecx).

Definition rd_disk_m_16 (d : D) (m : gmap Z Z) (eax bx cx : Z) : res (D * gmap Z Z) :=
  let d := ata_select d eax (u8 cx) in
  d ← while_ not_ready LOOP_FUEL d;
  let cx := u16 (cx * 256) in
  while_ (go_on_read u16) LOOP_FUEL (d, m, bx, cx).
End rd_disk.

(** * What the code relies on *)

(** The words of [cnt] sectors. *)
Definition sector_words (img : Z → Z) (lba cnt : Z) : list Z := img <$> seqZ (256 * lba) (256 * cnt).
Definition sector_bytes (img : Z → Z) (lba cnt : Z) : list Z := word_bytes (sector_words img lba cnt).

(** [transfer d n img ws]: a read of the words [ws], the rest of some sectors,
    is under way; the status register shows busy for [n] more reads and then
    data request, and only then does the data port deliver.  After the last
    word of a sector the disk may be busy again before the next one. *)
Class AtaDisk (D : Type) `{!Ports D} := {
  idle : D → (Z → Z) → Prop;
  transfer : D → nat → (Z → Z) → list Z → Prop;
  ata_words d img i : idle d img → is_word (img i);
  ata_command d img cnt b0 b1 b2 b3 :
    idle d img → 1 ≤ cnt < 256 → 0 ≤ b0 < 256 → 0 ≤ b1 < 256 → 0 ≤ b2 < 256 → 0 ≤ b3 < 16 →
    ∃ n, Z.of_nat n < 2 ^ 32 ∧
      transfer (p_out8 (p_out8 (p_out8 (p_out8 (p_out8 (p_out8 d 0x1f2 cnt) 0x1f3 b0) 0x1f4 b1)
                  0x1f5 b2) 0x1f6 (0xe0 + b3)) 0x1f7 0x20) n img
        (sector_words img (b0 + 2 ^ 8 * b1 + 2 ^ 16 * b2 + 2 ^ 24 * b3) cnt);
  ata_busy d n img ws : transfer d (S n) img ws →
    ∃ s d', p_in8 d 0x1f7 = (s, d') ∧ Z.land s 0x88 ≠ 0x08 ∧ transfer d' n img ws;
  ata_ready d img w ws : transfer d 0 img (w :: ws) →
    ∃ s d', p_in8 d 0x1f7 = (s, d') ∧ Z.land s 0x88 = 0x08 ∧ transfer d' 0 img (w :: ws);
  (* a word inside a sector *)
  ata_data d img w ws : transfer d 0 img (w :: ws) → (length ws mod 256 ≠ 0)%nat →
    ∃ d', p_in16 d 0x1f0 = (w, d') ∧ transfer d' 0 img ws;
  (* the last word of a sector, with others to follow *)
  ata_next d img w ws : transfer d 0 img (w :: ws) → ws ≠ [] → (length ws mod 256 = 0)%nat →
    ∃ n d', p_in16 d 0x1f0 = (w, d') ∧ transfer d' n img ws;
  (* the last word *)
  ata_last d img w : transfer d 0 img [w] → ∃ d', p_in16 d 0x1f0 = (w, d') ∧ idle d' img;
  (* port 0x92, which opens the A20 gate, is not the disk's *)
  ata_a20_in d img : idle d img → idle (p_in8 d 0x92).2 img;
  ata_a20_out d img v : idle d img → idle (p_out8 d 0x92 v) img;
}.

(** A disk that has the next sector ready as soon as it has delivered one, as
    an emulated disk has.  The standard does not promise it. *)
Definition no_wait (D : Type) `{!Ports D, !AtaDisk D} : Prop :=
  ∀ (d : D) img n w ws, transfer d 0 img (w :: ws) → transfer (p_in16 d 0x1f0).2 n img ws → n = O.

(** What [n] reads of the data port return, and the disk after them. *)
Fixpoint port_words {D} `{!Ports D} (n : nat) (d : D) : list Z :=
  match n with O => [] | S n => (p_in16 d 0x1f0).1 :: port_words n (p_in16 d 0x1f0).2 end.
Fixpoint taken {D} `{!Ports D} (n : nat) (d : D) : D :=
  match n with O => d | S n => taken n (p_in16 d 0x1f0).2 end.

(** * Proofs *)

Section proofs.
Context {D : Type} `{!Ports D, !AtaDisk D}.

(** The four parts of an LBA address. *)
Lemma ata_select_parts (d : D) lba cl :
  0 ≤ lba < 2 ^ 28 →
  ata_select d lba cl
  = p_out8 (p_out8 (p_out8 (p_out8 (p_out8 (p_out8 d 0x1f2 cl) 0x1f3 (lba mod 256))
      0x1f4 (lba / 2 ^ 8 mod 256)) 0x1f5 (lba / 2 ^ 16 mod 256)) 0x1f6 (0xe0 + lba / 2 ^ 24)) 0x1f7 0x20.
Proof.
  intros Hl. unfold ata_select, u8. cbv zeta. rewrite !Z.shiftr_shiftr by lia.
  change (8 + 8) with 16. change (16 + 8) with 24. rewrite !Z.shiftr_div_pow2 by lia.
  assert (Hb : 0 ≤ lba / 2 ^ 24 < 16) by zdm.
  rewrite (Z.mod_small (lba / 2 ^ 24)) by lia.
  change 0x0f with (2 ^ 4 - 1). rewrite land_low, (Z.mod_small (lba / 2 ^ 24) (2 ^ 4)) by lia.
  rewrite Z.lor_comm, (lor_low 0xe0 (lba / 2 ^ 24) 4) by (done || lia). done.
Qed.

Lemma poll_holds (d : D) n img w ws :
  transfer d n img (w :: ws) → Z.of_nat n < 2 ^ 32 →
  ∃ d', while_ not_ready LOOP_FUEL d = Ok d' ∧ transfer d' 0 img (w :: ws).
Proof.
  intros Ht Hn. cut (∃ d', while_nat not_ready (S n) d = Ok (inr d') ∧ transfer d' 0 img (w :: ws)).
  { intros (d' & Hw & Ht'). exists d'. split; [|done]. apply while_from_nat. exists (S n).
    split; [|done]. apply Nat2Z.inj_le. rewrite positive_nat_Z, LOOP_FUEL_val. lia. }
  clear Hn. revert d Ht. induction n as [|n IH]; intros d Ht.
  - destruct (ata_ready d img w ws Ht) as (s & d' & E & Hs & Ht'). exists d'. split; [|done].
    cbn [while_nat]. unfold not_ready. rewrite E, Hs. done.
  - destruct (ata_busy d n img _ Ht) as (s & d' & E & Hs & Ht'). destruct (IH d' Ht') as (d2 & Hw & Ht2).
    exists d2. split; [|done]. change (while_nat not_ready (S (S n)) d)
      with (not_ready d ≫= then_ (while_nat not_ready (S n))).
    assert (not_ready d = Ok (if Z.land s 0x88 =? 0x08 then inr d' else inl d')) as ->
      by (unfold not_ready; by rewrite E).
    destruct (Z.eqb_spec (Z.land s 0x88) 0x08); [done|]. exact Hw.
Qed.

(** The data loop at either width, on any device. *)
Lemma read_loop (wrap : Z → Z) top n :
  (∀ x, 0 ≤ x < top → wrap x = x) → top ≤ 2 ^ 32 → ∀ (d : D) m ebx,
  0 ≤ ebx → ebx + 2 * Z.of_nat (S n) ≤ top →
  while_ (go_on_read wrap) LOOP_FUEL (d, m, ebx, Z.of_nat (S n))
  = Ok (taken (S n) d, write_bytes m ebx (word_bytes (port_words (S n) d))).
Proof.
  intros Hwrap Htop d m ebx Hb Hend. apply while_from_nat. exists (S n). split.
  { apply Nat2Z.inj_le. rewrite positive_nat_Z, LOOP_FUEL_val. lia. }
  revert d m ebx Hb Hend. induction n as [|n IH]; intros d m ebx Hb Hend.
  - cbn [while_nat]. unfold go_on_read. cbn [port_words taken]. destruct (p_in16 d 0x1f0) as [w d1].
    rewrite (Hwrap (Z.of_nat 1 - 1)) by lia. done.
  - change (while_nat (go_on_read wrap) (S (S n)) (d, m, ebx, Z.of_nat (S (S n))))
      with (go_on_read wrap (d, m, ebx, Z.of_nat (S (S n))) ≫= then_ (while_nat (go_on_read wrap) (S n))).
    assert (go_on_read wrap (d, m, ebx, Z.of_nat (S (S n)))
            = Ok (inl ((p_in16 d 0x1f0).2, wr16 m ebx (p_in16 d 0x1f0).1, ebx + 2, Z.of_nat (S n)))) as ->.
    { unfold go_on_read. destruct (p_in16 d 0x1f0) as [w d1].
      rewrite (Hwrap (ebx + 2)), (Hwrap (Z.of_nat _ - 1)) by lia.
      replace (Z.of_nat (S (S n)) - 1) with (Z.of_nat (S n)) by lia.
      by destruct (Z.eqb_spec (Z.of_nat (S n)) 0); [lia|]. }
    rb. cbn [then_]. rewrite IH by lia. do 3 f_equal.
    change (port_words (S (S n)) d) with ((p_in16 d 0x1f0).1 :: port_words (S n) (p_in16 d 0x1f0).2).
    generalize (port_words (S n) (p_in16 d 0x1f0).2). intros l. unfold wr16. rewrite word_bytes_cons. simpl.
    by replace (ebx + 1 + 1) with (ebx + 2) by lia.
Qed.

Lemma length_port_words n : ∀ d : D, length (port_words n d) = n.
Proof. induction n as [|n IH]; intros d; simpl; [done|]. by rewrite IH. Qed.

Lemma port_words_app a b : ∀ d : D, port_words (a + b) d = port_words a d ++ port_words b (taken a d).
Proof. induction a as [|a IH]; intros d; simpl; [done|]. by rewrite IH. Qed.

Lemma taken_app a b : ∀ d : D, taken (a + b) d = taken b (taken a d).
Proof. induction a as [|a IH]; intros d; simpl; [done|]. by rewrite IH. Qed.

(** What is left of a sector, delivered; [r] are the sectors after it. *)
Lemma deliver_sector img r ws : ∀ d : D,
  transfer d 0 img (ws ++ r) → (0 < length ws ≤ 256)%nat → (length r mod 256 = 0)%nat →
  port_words (length ws) d = ws
  ∧ if decide (r = []) then idle (taken (length ws) d) img
    else ∃ n, transfer (taken (length ws) d) n img r ∧ (no_wait D → n = O).
Proof.
  induction ws as [|w ws IH]; intros d Ht Hl Hr; [simpl in Hl; lia|].
  destruct ws as [|w' ws].
  - simpl in Ht |- *. case_decide as Er.
    + subst r. destruct (ata_last d img w Ht) as (d' & -> & Hi). done.
    + destruct (ata_next d img w r Ht Er Hr) as (n & d' & E & Ht'). rewrite E. split; [done|].
      exists n. split; [done|]. intros Hnw. apply (Hnw d img n w r Ht). by rewrite E.
  - destruct (ata_data d img w ((w' :: ws) ++ r) Ht) as (d' & E & Ht').
    { rewrite length_app, Nat.Div0.add_mod, Hr, Nat.add_0_r, Nat.Div0.mod_mod.
      rewrite Nat.mod_small by (simpl in *; lia). simpl. lia. }
    destruct (IH d' Ht') as [Hp Hs]; [simpl in *; lia|done|].
    change (length (w :: w' :: ws)) with (S (length (w' :: ws))). cbn [port_words taken]. rewrite E. cbn [fst snd].
    by rewrite Hp.
Qed.

(** Sector after sector, as long as the disk is not busy between two. *)
Lemma deliver img c : ∀ (d : D) ws,
  transfer d 0 img ws → length ws = (256 * S c)%nat →
  ∃ k, (1 ≤ k ≤ S c)%nat ∧ port_words (256 * k) d = take (256 * k) ws
    ∧ (k = S c ∧ idle (taken (256 * k) d) img
       ∨ (k < S c)%nat ∧ ∃ n, transfer (taken (256 * k) d) (S n) img (drop (256 * k) ws))
    ∧ (no_wait D → k = S c).
Proof.
  induction c as [|c IH]; intros d ws Ht Hl.
  - exists 1%nat. split; [lia|]. rewrite <- (app_nil_r ws) in Ht.
    destruct (deliver_sector img [] ws d Ht) as [Hp Hs]; [lia|done|]. rewrite decide_True in Hs by done.
    rewrite Hl in Hp, Hs. change (256 * 1)%nat with (256 * 1)%nat. rewrite Hp, take_ge by lia. auto.
  - rewrite <- (take_drop 256 ws) in Ht.
    assert (Hlt : length (take 256 ws) = 256%nat) by (rewrite length_take; lia).
    assert (Hld : length (drop 256 ws) = (256 * S c)%nat) by (rewrite length_drop; lia).
    destruct (deliver_sector img (drop 256 ws) (take 256 ws) d Ht) as [Hp Hs]; [lia| |].
    { rewrite Hld, Nat.mul_comm. apply Nat.Div0.mod_mul. }
    rewrite Hlt in Hp, Hs. rewrite decide_False in Hs by (intros E; rewrite E in Hld; simpl in Hld; lia).
    destruct Hs as ([|n] & Ht1 & Hnw).
    + destruct (IH _ _ Ht1 Hld) as (k & Hk & Hp' & Hend & Hall). exists (S k). split; [lia|].
      replace (256 * S k)%nat with (256 + 256 * k)%nat by lia. split.
      { rewrite port_words_app, Hp, Hp'. rewrite <- (take_drop 256 ws) at 3.
        rewrite take_app_ge by lia. by rewrite Hlt, Nat.add_comm, Nat.add_sub. }
      split; [|intros Hd; rewrite (Hall Hd); lia].
      rewrite taken_app, <- drop_drop. destruct Hend as [[-> ?]|[? ?]]; [left|right]; split; auto; lia.
    + exists 1%nat. split; [lia|]. split; [exact Hp|]. split; [right; split; [lia|]; by exists n|].
      intros Hd. by specialize (Hnw Hd).
Qed.

Lemma length_sector_words img lba cnt : length (sector_words img lba cnt) = Z.to_nat (256 * cnt).
Proof. unfold sector_words. by rewrite length_fmap, length_seqZ. Qed.

Lemma length_sector_bytes img lba cnt :
  0 ≤ cnt → Z.of_nat (length (sector_bytes img lba cnt)) = 512 * cnt.
Proof. intros. unfold sector_bytes. rewrite length_word_bytes, length_sector_words. lia. Qed.

Lemma sector_bytes_app img lba a b :
  0 ≤ a → 0 ≤ b → sector_bytes img lba (a + b) = sector_bytes img lba a ++ sector_bytes img (lba + a) b.
Proof.
  intros Ha Hb. unfold sector_bytes, sector_words, word_bytes.
  rewrite Z.mul_add_distr_l, seqZ_app, fmap_app, bind_app by lia. by rewrite Z.mul_add_distr_l.
Qed.

Lemma take_sector_bytes img lba k c :
  0 ≤ k ≤ c → word_bytes (take (256 * Z.to_nat k) (sector_words img lba c)) = sector_bytes img lba k.
Proof.
  intros Hk. unfold sector_bytes, sector_words. f_equal.
  replace (256 * c) with (256 * k + 256 * (c - k)) by lia.
  rewrite seqZ_app, fmap_app, take_app_le by (rewrite ?length_fmap, ?length_seqZ; lia).
  apply take_ge. rewrite length_fmap, length_seqZ. lia.
Qed.

Lemma drop_sector_words img lba k c :
  0 ≤ k ≤ c → drop (256 * Z.to_nat k) (sector_words img lba c) = sector_words img (lba + k) (c - k).
Proof.
  intros Hk. unfold sector_words.
  replace (256 * c) with (256 * k + 256 * (c - k)) by lia.
  rewrite seqZ_app, fmap_app, drop_app_ge by (rewrite ?length_fmap, ?length_seqZ; lia).
  rewrite length_fmap, length_seqZ. replace (256 * Z.to_nat k - Z.to_nat (256 * k))%nat with O by lia.
  by rewrite drop_0, Z.mul_add_distr_l.
Qed.

(** The routine has met a disk that is busy after [k] sectors: it reads on. *)
Definition met_busy (d1 : D) (img : Z → Z) (lba cnt k : Z) : Prop :=
  ∃ n, transfer (taken (256 * Z.to_nat k) d1) (S n) img (sector_words img (lba + k) (cnt - k)).

(** Both routines after the command. *)
Lemma rd_disk_run (wrap : Z → Z) top (d : D) img m lba ebx cnt :
  (∀ x, 0 ≤ x < top → wrap x = x) → top ≤ 2 ^ 32 →
  idle d img → 0 ≤ lba < 2 ^ 28 → 1 ≤ cnt < 256 → 0 ≤ ebx → ebx + 512 * cnt ≤ top →
  ∃ d1 k bs, while_ not_ready LOOP_FUEL (ata_select d lba cnt) = Ok d1
    ∧ while_ (go_on_read wrap) LOOP_FUEL (d1, m, ebx, cnt * 256)
      = Ok (taken (Z.to_nat (256 * cnt)) d1, write_bytes m ebx bs)
    ∧ Z.of_nat (length bs) = 512 * cnt ∧ 1 ≤ k ≤ cnt
    ∧ sector_bytes img lba k `prefix_of` bs
    ∧ (k = cnt ∧ idle (taken (Z.to_nat (256 * cnt)) d1) img ∨ k < cnt ∧ met_busy d1 img lba cnt k)
    ∧ (no_wait D → k = cnt).
Proof.
  intros Hwrap Htop Hi Hl Hc Hb Hend. rewrite ata_select_parts by done.
  destruct (ata_command d img cnt (lba mod 256) (lba / 2 ^ 8 mod 256) (lba / 2 ^ 16 mod 256) (lba / 2 ^ 24))
    as (n & Hn & Ht); [done|done|zdm..|].
  replace (lba mod 256 + _ + _ + _) with lba in Ht by zdm.
  pose proof (length_sector_words img lba cnt) as Hlen.
  assert (∃ w ws, sector_words img lba cnt = w :: ws) as (w & ws & Ew).
  { destruct (sector_words img lba cnt) as [|w ws]; [simpl in Hlen; lia|by eexists _, _]. }
  rewrite Ew in Ht. destruct (poll_holds _ n img w ws Ht Hn) as (d1 & Hpoll & Ht1). rewrite <- Ew in Ht1.
  destruct (deliver img (Z.to_nat (cnt - 1)) d1 _ Ht1) as (k & Hk & Hp & Hfin & Hall); [lia|].
  replace (S (Z.to_nat (cnt - 1))) with (Z.to_nat cnt) in * by lia.
  assert (Ek : (256 * k = 256 * Z.to_nat (Z.of_nat k))%nat) by lia.
  exists d1, (Z.of_nat k), (word_bytes (port_words (Z.to_nat (256 * cnt)) d1)).
  split; [exact Hpoll|]. split_and!; [|rewrite length_word_bytes, length_port_words; lia|lia|lia| | |intros Hd; rewrite (Hall Hd); lia].
  - replace (cnt * 256) with (Z.of_nat (S (Z.to_nat (256 * cnt - 1)))) by lia.
    replace (Z.to_nat (256 * cnt)) with (S (Z.to_nat (256 * cnt - 1))) by lia. by apply (read_loop wrap top); [..|lia].
  - replace (Z.to_nat (256 * cnt)) with (256 * k + 256 * (Z.to_nat cnt - k))%nat by lia.
    rewrite port_words_app, Hp, Ek. unfold word_bytes at 1. rewrite bind_app. fold (word_bytes (take (256 * Z.to_nat (Z.of_nat k)) (sector_words img lba cnt))).
    rewrite take_sector_bytes by lia. apply prefix_app_r. done.
  - destruct Hfin as [[-> Hid]|[Hlt Hbusy]]; [left|right].
    + split; [lia|]. by replace (Z.to_nat (256 * cnt)) with (256 * Z.to_nat cnt)%nat by lia.
    + split; [lia|]. unfold met_busy. rewrite <- Ek, <- drop_sector_words, <- Ek by lia. exact Hbusy.
Qed.

Lemma rd_disk_m_32_eq (d : D) m lba dst cnt :
  1 ≤ cnt < 256 →
  rd_disk_m_32 d m lba dst cnt
  = d1 ← while_ not_ready LOOP_FUEL (ata_select d lba cnt);
    while_ (go_on_read u32) LOOP_FUEL (d1, m, dst, cnt * 256).
Proof.
  intros Hc. unfold rd_disk_m_32. cbv zeta.
  rewrite (u8_small cnt), (u16_small cnt), (u16_small (cnt * 256)), (Z.mod_small cnt (2 ^ 16)) by lia.
  by replace (cnt - cnt + cnt * 256) with (cnt * 256) by lia.
Qed.

Lemma rd_disk_m_16_eq (d : D) m lba dst cnt :
  1 ≤ cnt < 256 →
  rd_disk_m_16 d m lba dst cnt
  = d1 ← while_ not_ready LOOP_FUEL (ata_select d lba cnt);
    while_ (go_on_read u16) LOOP_FUEL (d1, m, dst, cnt * 256).
Proof. intros Hc. unfold rd_disk_m_16. cbv zeta. by rewrite (u8_small cnt), (u16_small (cnt * 256)) by lia. Qed.

(** On a disk that does not wait all sectors arrive. *)
Lemma rd_disk_all (wrap : Z → Z) top (d : D) img m lba ebx cnt :
  no_wait D → (∀ x, 0 ≤ x < top → wrap x = x) → top ≤ 2 ^ 32 →
  idle d img → 0 ≤ lba < 2 ^ 28 → 1 ≤ cnt < 256 → 0 ≤ ebx → ebx + 512 * cnt ≤ top →
  ∃ d', (d1 ← while_ not_ready LOOP_FUEL (ata_select d lba cnt);
         while_ (go_on_read wrap) LOOP_FUEL (d1, m, ebx, cnt * 256))
        = Ok (d', write_bytes m ebx (sector_bytes img lba cnt)) ∧ idle d' img.
Proof.
  intros Hnw Hwrap Htop Hi Hl Hc Hb Hend.
  destruct (rd_disk_run wrap top d img m lba ebx cnt) as (d1 & k & bs & -> & E & Hlen & Hk & Hpre & Hfin & Hall); auto.
  rb. rewrite E. specialize (Hall Hnw). subst k. destruct Hfin as [[_ Hid]|[? _]]; [|lia].
  eexists. split; [|exact Hid]. do 3 f_equal. destruct Hpre as [r ->].
  pose proof (length_sector_bytes img lba cnt ltac:(lia)). rewrite length_app in Hlen.
  destruct r; [by rewrite app_nil_r|simpl in Hlen; lia].
Qed.

Lemma rd_disk_m_32_holds (d : D) img m lba dst cnt :
  no_wait D → idle d img → 0 ≤ lba < 2 ^ 28 → 1 ≤ cnt < 256 → 0 ≤ dst → dst + 512 * cnt ≤ 2 ^ 32 →
  ∃ d', rd_disk_m_32 d m lba dst cnt = Ok (d', write_bytes m dst (sector_bytes img lba cnt)) ∧ idle d' img.
Proof.
  intros Hnw Hi Hl Hc Hd Hend. rewrite rd_disk_m_32_eq by done.
  apply (rd_disk_all u32 (2 ^ 32)); auto with lia. apply u32_small.
Qed.

Lemma rd_disk_m_16_holds (d : D) img m lba dst cnt :
  no_wait D → idle d img → 0 ≤ lba < 2 ^ 28 → 1 ≤ cnt < 256 → 0 ≤ dst → dst + 512 * cnt ≤ 2 ^ 16 →
  ∃ d', rd_disk_m_16 d m lba dst cnt = Ok (d', write_bytes m dst (sector_bytes img lba cnt)) ∧ idle d' img.
Proof.
  intros Hnw Hi Hl Hc Hd Hend. rewrite rd_disk_m_16_eq by done.
  apply (rd_disk_all u16 (2 ^ 16)); auto with lia. apply u16_small.
Qed.

Lemma write_bytes_app (l k : list Z) : ∀ m a,
  write_bytes m a (l ++ k) = write_bytes (write_bytes m a l) (a + Z.of_nat (length l)) k.
Proof.
  induction l as [|v l IH]; intros m a; simpl; [by rewrite Z.add_0_r|].
  rewrite IH. f_equal. lia.
Qed.

(** * Properties *)

(** A routine has returned with [k] of [cnt] sectors, and [k] is less than
    [cnt] only when the disk was busy after them. *)
Definition reads_sectors (d : D) (img : Z → Z) (m : gmap Z Z) (lba dst cnt : Z) (r : res (D * gmap Z Z)) : Prop :=
  ∃ d1 d' m' k, while_ not_ready LOOP_FUEL (ata_select d lba cnt) = Ok d1 ∧ r = Ok (d', m')
    ∧ 1 ≤ k ≤ cnt ∧ bytes_at m' dst (sector_bytes img lba k)
    ∧ (∀ x, ¬ dst ≤ x < dst + 512 * cnt → m' !! x = m !! x)
    ∧ (k = cnt ∧ idle d' img ∨ k < cnt ∧ met_busy d1 img lba cnt k)
    ∧ (no_wait D → k = cnt).

(** C12: the disk routines of the boot sector and of the loader.  On an idle
    ATA disk, for 1 to 255 sectors at a 28-bit address and an area that the
    pointer register can reach, both routines return and change no byte outside
    the area.  They poll the status before the first sector only, so what
    arrives is the sectors up to the first one before which the disk is busy:
    always the first, and all of them, with the disk idle again, when the disk
    is never busy between two sectors. *)
Theorem rd_disk_reads (d : D) img m lba dst cnt :
  idle d img → 0 ≤ lba < 2 ^ 28 → 1 ≤ cnt < 256 → 0 ≤ dst →
  (dst + 512 * cnt ≤ 2 ^ 32 → reads_sectors d img m lba dst cnt (rd_disk_m_32 d m lba dst cnt))
  ∧ (dst + 512 * cnt ≤ 2 ^ 16 → reads_sectors d img m lba dst cnt (rd_disk_m_16 d m lba dst cnt)).
Proof.
  intros Hi Hl Hc Hd.
  assert (Hgen : ∀ wrap top r, (∀ x, 0 ≤ x < top → wrap x = x) → top ≤ 2 ^ 32 → dst + 512 * cnt ≤ top →
    r = (d1 ← while_ not_ready LOOP_FUEL (ata_select d lba cnt);
         while_ (go_on_read wrap) LOOP_FUEL (d1, m, dst, cnt * 256)) → reads_sectors d img m lba dst cnt r).
  { intros wrap top r Hwrap Htop Hend ->.
    destruct (rd_disk_run wrap top d img m lba dst cnt)
      as (d1 & k & bs & Hpoll & E & Hlen & Hk & [r ->] & Hfin & Hall); auto.
    eexists d1, _, _, k. rewrite Hpoll. rb. split_and!; [done|exact E|lia|lia| | |exact Hfin|exact Hall].
    - rewrite write_bytes_app. intros i v Hv. rewrite lookup_write_bytes_lt.
      + by apply bytes_at_write_bytes.
      + apply lookup_lt_Some in Hv. lia.
    - intros x Hx. destruct (decide (x < dst)); [by apply lookup_write_bytes_lt|apply lookup_write_bytes_ge; lia]. }
  split; intros Hend.
  - apply (Hgen u32 (2 ^ 32)); [apply u32_small|lia|done|by apply rd_disk_m_32_eq].
  - apply (Hgen u16 (2 ^ 16)); [apply u16_small|lia|done|by apply rd_disk_m_16_eq].
Qed.
End proofs.

(** * A disk *)

Module DiskRuns.

(** A controller with its disk, which stays busy for [gap] reads of the status
    between two sectors of one command. *)
Record ata (gap : nat) := Ata {
  a_img : Z → Z;
  a_cnt : Z; a_lo : Z; a_mid : Z; a_hi : Z; a_dev : Z;
  a_busy : nat; a_left : list Z;
}.
Arguments Ata {gap} _ _ _ _ _ _ _ _.
Arguments a_img {gap} _.
Arguments a_busy {gap} _.
Arguments a_left {gap} _.

Definition ata_out8 {gap} (d : ata gap) (port v : Z) : ata gap :=
  let 'Ata img cnt lo mid hi dev busy rest := d in
  match port with
  | 0x1f2 => Ata img v lo mid hi dev busy rest
  | 0x1f3 => Ata img cnt v mid hi dev busy rest
  | 0x1f4 => Ata img cnt lo v hi dev busy rest
  | 0x1f5 => Ata img cnt lo mid v dev busy rest
  | 0x1f6 => Ata img cnt lo mid hi v busy rest
  | 0x1f7 =>
      if v =? 0x20
      then Ata img cnt lo mid hi dev 1
             (sector_words img (lo + 2 ^ 8 * mid + 2 ^ 16 * hi + 2 ^ 24 * (dev mod 16)) cnt)
      else d
  | _ => d
  end.

Definition ata_in8 {gap} (d : ata gap) (port : Z) : Z * ata gap :=
  let 'Ata img cnt lo mid hi dev busy rest := d in
  match port, busy with
  | 0x1f7, S n => (0x80, Ata img cnt lo mid hi dev n rest)
  | 0x1f7, O => (match rest with [] => 0x50 | _ => 0x58 end, d)
  | _, _ => (0, d)
  end.

Definition gap_after (gap : nat) (ws : list Z) : nat :=
  match ws with [] => O | _ => if (length ws mod 256 =? 0)%nat then gap else O end.

Definition ata_in16 {gap} (d : ata gap) (port : Z) : Z * ata gap :=
  let 'Ata img cnt lo mid hi dev busy rest := d in
  match port, busy, rest with
  | 0x1f0, O, w :: ws => (w, Ata img cnt lo mid hi dev (gap_after gap ws) ws)
  | _, _, _ => (0xffff, d)
  end.

#[global] Instance ata_ports gap : Ports (ata gap) := {|
  p_out8 := ata_out8; p_in8 := ata_in8; p_out16 d _ _ := d; p_in16 := ata_in16;
|}.

(** It is an ATA disk, whatever the gap. *)
#[global] Program Instance ata_disk gap : AtaDisk (ata gap) := {|
  idle d img := a_img d = img ∧ (∀ i, is_word (img i));
  transfer d n img ws := a_img d = img ∧ (∀ i, is_word (img i)) ∧ a_busy d = n ∧ a_left d = ws;
|}.
Next Obligation. intros gap d img i (_ & H). apply H. Qed.
Next Obligation.
  intros gap [] img cnt b0 b1 b2 b3 (E & Hw) Hc H0 H1 H2 H3. exists 1%nat. split; [lia|].
  simpl in *. split_and!; auto. f_equal; [done|]. zdm.
Qed.
Next Obligation.
  intros gap [] n img ws (E & Hw & Eb & El). simpl in *. subst. eexists _, _. by split_and!.
Qed.
Next Obligation.
  intros gap [] img w ws (E & Hw & Eb & El). simpl in *. subst. eexists _, _. by split_and!.
Qed.
Next Obligation.
  intros gap [] img w ws (E & Hw & Eb & El) Hl. simpl in *. subst. eexists. split_and!; try done.
  unfold gap_after. destruct ws; [done|]. by rewrite (proj2 (Nat.eqb_neq _ _)) by done.
Qed.
Next Obligation. intros gap [] img w ws (E & Hw & Eb & El) Hne Hl. simpl in *. subst. by eexists _, _. Qed.
Next Obligation. intros gap [] img w (E & Hw & Eb & El). simpl in *. subst. by eexists. Qed.
Next Obligation. intros gap [] img (E & Hw). simpl in *. by destruct a_busy0. Qed.
Next Obligation. intros gap [] img v (E & Hw). done. Qed.

Lemma ata_no_wait : no_wait (ata 0).
Proof.
  intros [] img n w ws (E & _ & Eb & El) (_ & _ & En & _). simpl in *. subst. simpl.
  unfold gap_after. destruct ws; [done|]. by case_match.
Qed.

(** Word [i] of the disk is [i]. *)
Definition disk (gap : nat) : ata gap := Ata u16 0 0 0 0 0 0 [].

Lemma disk_idle gap : idle (disk gap) u16.
Proof. split_and!; try done. intros i. apply u16_range. Qed.

(** Two sectors from address 9, words 0x900 and on. *)
Lemma rd_disk_reads_witness :
  ∃ d' m', rd_disk_m_32 (disk 0) ∅ 9 0x70000 2 = Ok (d', m') ∧ idle d' u16
    ∧ m' !! 0x70000 = Some 0 ∧ m' !! 0x70201 = Some 0x0a ∧ m' !! 0x70400 = None.
Proof.
  destruct (rd_disk_reads (disk 0) u16 ∅ 9 0x70000 2 (disk_idle 0))
    as [(d1 & d' & m' & k & _ & E & Hk & Hb & Ho & Hfin & Hall) _]; [lia|lia|lia|lia|].
  assert (Ek : k = 2) by exact (Hall ata_no_wait). subst k.
  destruct Hfin as [[_ Hi]|[Hlt _]]; [|lia].
  exists d', m'. split; [exact E|]. split; [exact Hi|]. split.
  - apply (Hb O). reflexivity.
  - split; [apply (Hb 513%nat); reflexivity|]. rewrite Ho by lia. reflexivity.
Defined.

(** A disk that is busy between two sectors makes the routine store words
    that are not on the disk: the status is read once, before the first
    sector, and not again. *)
Example rd_disk_ignores_busy :
  match rd_disk_m_32 (disk 1) ∅ 9 0x70000 2 with
  | Ok (_, m') => rd32 m' 0x70000 = 0x09010900 ∧ rd32 m' 0x70200 = 0xffffffff
  | _ => False
  end.
Proof. vm_compute. done. Qed.
End DiskRuns.
