(* ===== verification/Memory.v ===== *)
(** kernel/memory.c on the paged machine: the pools, the page allocator and
    the mapping code, with the page tables that boot/loader.S leaves behind
    as the starting point.  The pool and [kernel_vaddr] structures are written
    once, by [mem_pool_init]; after that the code changes machine memory only
    (the bitmap bytes, the page tables, the pages), so an operation takes the
    structures as an argument and passes the machine along. *)
From S2P Require Import Prelude ByteMem CString Bitmap Paging.

(** * Data *)

Record virtual_addr := VirtualAddr {
  vaddr_bitmap : bitmap;
  vaddr_start : Z;
}.

Inductive pool_flags := PF_KERNEL | PF_USER.

(** The values of the enum, for [pf & PF_KERNEL]. *)
Definition pf_value (pf : pool_flags) : Z :=
  match pf with PF_KERNEL => 1 | PF_USER => 2 end.

Definition PG_P_1 : Z := 1.
Definition PG_RW_W : Z := 2.
Definition PG_US_U : Z := 4.

Definition MEM_BITMAP_BASE : Z := 0xc009a000.
Definition K_HEAP_START : Z := 0xc0100000.

(** [struct pool] without its lock, which Sync.v models. *)
Record pool := Pool {
  pool_bitmap : bitmap;
  phy_addr_start : Z;
  pool_size : Z;
}.

(** The globals of kernel/memory.c. *)
Record kmem := KMem {
  kernel_pool : pool;
  user_pool : pool;
  kernel_vaddr : virtual_addr;
}.

(** * Operations *)

(** [while(cnt < pg_cnt) bitmap_set(btmp, bit_idx_start + cnt++, 1);] *)
Fixpoint set_loop (M : machine) (btmp : bitmap) (bit_idx : Z) (n : nat) : res machine :=
  match n with
  | O => Ok M
  | S n' => M' ← bitmap_set M btmp bit_idx 1; set_loop M' btmp (u32 (bit_idx + 1)) n'
  end.

(** [cur] is [running_thread()->userprog_vaddr]. *)
Definition vaddr_get (km : kmem) (cur : virtual_addr) (M : machine)
    (pf : pool_flags) (pg_cnt : Z) : res (Z * machine) :=
  match pf with
  | PF_KERNEL =>
      let va := kernel_vaddr km in
      bit_idx_start ← bitmap_scan M (vaddr_bitmap va) pg_cnt;
      if bit_idx_start =? -1 then Ok (NULL, M) else
      M' ← set_loop M (vaddr_bitmap va) bit_idx_start (Z.to_nat pg_cnt);
      Ok (u32 (s32 (vaddr_start va + bit_idx_start * PG_SIZE)), M')
  | PF_USER =>
      bit_idx_start ← bitmap_scan M (vaddr_bitmap cur) pg_cnt;
      if bit_idx_start =? -1 then Ok (NULL, M) else
      M' ← set_loop M (vaddr_bitmap cur) bit_idx_start (Z.to_nat pg_cnt);
      let vaddr_start := s32 (vaddr_start cur + bit_idx_start * PG_SIZE) in
      ASSERT (u32 vaddr_start <? 0xc0000000 - PG_SIZE) "vaddr_get";;
      Ok (u32 vaddr_start, M')
  end.

Definition palloc (m_pool : pool) (M : machine) : res (Z * machine) :=
  bit_idx ← bitmap_scan M (pool_bitmap m_pool) 1;
  if bit_idx =? -1 then Ok (NULL, M) else
  M' ← bitmap_set M (pool_bitmap m_pool) bit_idx 1;
  Ok (u32 (s32 (bit_idx * PG_SIZE) + phy_addr_start m_pool), M').

(** [page_phyaddr | PG_US_U | PG_RW_W | PG_P_1]. *)
Definition pg_entry (phyaddr : Z) : Z :=
  Z.lor (Z.lor (Z.lor phyaddr PG_US_U) PG_RW_W) PG_P_1.

Definition page_table_add (km : kmem) (M : machine) (vaddr page_phyaddr : Z) : res machine :=
  let pde := pde_ptr vaddr in
  let pte := pte_ptr vaddr in
  d ← load32 M pde;
  if negb (Z.land d 0x00000001 =? 0) then
    t ← load32 M pte;
    ASSERT (Z.land t 0x00000001 =? 0) "page_table_add";;
    if Z.land t 0x00000001 =? 0 then store32 M pte (pg_entry page_phyaddr)
    else Panic "page_table_add"
  else
    '(pde_phyaddr, M1) ← palloc (kernel_pool km) M;
    M2 ← store32 M1 pde (pg_entry pde_phyaddr);
    M3 ← memset M2 (Z.land pte 0xfffff000) 0 PG_SIZE;
    t ← load32 M3 pte;
    ASSERT (Z.land t 0x00000001 =? 0) "page_table_add";;
    store32 M3 pte (pg_entry page_phyaddr).

(** The mapping loop of [malloc_page]; the boolean tells whether it finished. *)
Fixpoint malloc_loop (km : kmem) (mem_pool : pool) (M : machine) (vaddr : Z) (cnt : nat)
    : res (bool * machine) :=
  match cnt with
  | O => Ok (true, M)
  | S cnt' =>
      '(page_phyaddr, M1) ← palloc mem_pool M;
      if page_phyaddr =? NULL then Ok (false, M1) else
      M2 ← page_table_add km M1 vaddr page_phyaddr;
      malloc_loop km mem_pool M2 (u32 (vaddr + PG_SIZE)) cnt'
  end.

Definition malloc_page (km : kmem) (cur : virtual_addr) (M : machine)
    (pf : pool_flags) (pg_cnt : Z) : res (Z * machine) :=
  ASSERT ((pg_cnt >? 0) && (pg_cnt <? 3840)) "malloc_page";;
  '(vaddr_start, M1) ← vaddr_get km cur M pf pg_cnt;
  if vaddr_start =? NULL then Ok (NULL, M1) else
  let mem_pool :=
    if negb (Z.land (pf_value pf) (pf_value PF_KERNEL) =? 0)
    then kernel_pool km else user_pool km in
  '(done, M2) ← malloc_loop km mem_pool M1 vaddr_start (Z.to_nat pg_cnt);
  Ok (if (done : bool) then vaddr_start else NULL, M2).

Definition get_kernel_pages (km : kmem) (cur : virtual_addr) (M : machine) (pg_cnt : Z)
    : res (Z * machine) :=
  '(vaddr, M1) ← malloc_page km cur M PF_KERNEL pg_cnt;
  if negb (vaddr =? NULL)
  then M2 ← memset M1 vaddr 0 (u32 (pg_cnt * PG_SIZE)); Ok (vaddr, M2)
  else Ok (vaddr, M1).

(** The numbers [mem_pool_init] computes, without its console output and the
    two [lock_init]s (Sync.v). *)
Definition pool_layout (all_mem : Z) : kmem :=
  let page_table_size := u32 (PG_SIZE * 256) in
  let used_mem := u32 (page_table_size + 0x100000) in
  let free_mem := u32 (all_mem - used_mem) in
  let all_free_pages := u16 (free_mem / PG_SIZE) in
  let kernel_free_pages := u16 (all_free_pages / 2) in
  let user_free_pages := u16 (all_free_pages - kernel_free_pages) in
  let kbm_length := kernel_free_pages / 8 in
  let ubm_length := user_free_pages / 8 in
  let kp_start := used_mem in
  let up_start := u32 (kp_start + kernel_free_pages * PG_SIZE) in
  KMem (Pool (Bitmap kbm_length MEM_BITMAP_BASE) kp_start (u32 (kernel_free_pages * PG_SIZE)))
       (Pool (Bitmap ubm_length (u32 (MEM_BITMAP_BASE + kbm_length))) up_start
             (u32 (user_free_pages * PG_SIZE)))
       (VirtualAddr (Bitmap kbm_length (u32 (MEM_BITMAP_BASE + kbm_length + ubm_length)))
                    K_HEAP_START).

Definition mem_pool_init (M : machine) (all_mem : Z) : res (kmem * machine) :=
  let km := pool_layout all_mem in
  M1 ← bitmap_init M (pool_bitmap (kernel_pool km));
  M2 ← bitmap_init M1 (pool_bitmap (user_pool km));
  M3 ← bitmap_init M2 (vaddr_bitmap (kernel_vaddr km));
  Ok (km, M3).

(** [mem_init]: the loader left the memory size at physical 0xb00. *)
Definition mem_init (M : machine) : res (kmem * machine) :=
  mem_bytes_total ← load32 M 0xb00;
  mem_pool_init M mem_bytes_total.

(** * boot/loader.S, [setup_page]: the page tables the kernel starts with *)

Definition PAGE_DIR_TABLE_POS : Z := 0x100000.

Fixpoint clear_bytes (m : gmap Z Z) (a : Z) (n : nat) : gmap Z Z :=
  match n with O => m | S n' => clear_bytes (<[a := 0]> m) (a + 1) n' end.

(** [n] entries from [a] on: [e], [e + 0x1000], ... *)
Fixpoint fill_entries (m : gmap Z Z) (a e : Z) (n : nat) : gmap Z Z :=
  match n with O => m | S n' => fill_entries (wr32 m a e) (a + 4) (e + 0x1000) n' end.

Definition setup_page (m : gmap Z Z) : gmap Z Z :=
  let m := clear_bytes m PAGE_DIR_TABLE_POS 4096 in
  let eax := Z.lor (PAGE_DIR_TABLE_POS + 0x1000) 7 in
  let m := wr32 m (PAGE_DIR_TABLE_POS + 0x0) eax in
  let m := wr32 m (PAGE_DIR_TABLE_POS + 0xc00) eax in
  let m := wr32 m (PAGE_DIR_TABLE_POS + 4092) (eax - 0x1000) in
  let m := fill_entries m (PAGE_DIR_TABLE_POS + 0x1000) 7 256 in
  fill_entries m (PAGE_DIR_TABLE_POS + 769 * 4) (Z.lor (PAGE_DIR_TABLE_POS + 0x2000) 7) 254.

Definition boot_machine : machine := Machine (setup_page ∅) PAGE_DIR_TABLE_POS.

(** * The kernel's half of the address space

    From 3 GB on every address space looks alike: directory entries 768 to
    1022 point to 255 consecutive page tables at physical 0x101000, so the
    kernel's table entries are one array indexed by the kernel page number,
    whose first 256 entries map the low megabyte. *)

Definition KBASE : Z := 0xc0000000.
Definition KTABLES : Z := 0x101000.
(** First address that is no longer mapped by the kernel tables. *)
Definition KTOP : Z := 0xffc00000.

(** Kernel table entry number [i]. *)
Definition kpte (M : machine) (i : Z) : Z := rd32 (pm M) (KTABLES + 4 * i).

Record kspace (M : machine) : Prop := {
  ks_self : selfmap M;
  ks_dir : frame (cr3 M) = PAGE_DIR_TABLE_POS ∨ 0x200000 ≤ frame (cr3 M);
  ks_pde i : 768 ≤ i < 1023 →
    present (rd32 (pm M) (frame (cr3 M) + 4 * i)) = true
    ∧ frame (rd32 (pm M) (frame (cr3 M) + 4 * i)) = KTABLES + (i - 768) * 4096;
  ks_low i : 0 ≤ i < 256 → present (kpte M i) = true ∧ frame (kpte M i) = i * 4096;
  (* only entry 1023 uses the directory as a page table *)
  ks_user i : 0 ≤ i < 768 → present (rd32 (pm M) (frame (cr3 M) + 4 * i)) = true →
    frame (rd32 (pm M) (frame (cr3 M) + 4 * i)) ≠ frame (cr3 M);
}.

(** Kernel page number of an address. *)
Definition kpage (va : Z) : Z := (va - KBASE) / 4096.

Lemma kspace_pde M va :
  kspace M → KBASE ≤ va < KTOP →
  present (pde_at M va) = true ∧ pte_addr M va = KTABLES + 4 * kpage va
  ∧ pte_at M va = kpte M (kpage va).
Proof.
  intros Hk Hva. unfold KBASE, KTOP, KTABLES in *.
  destruct (ks_pde M Hk (va / 2 ^ 22)) as [Hp Hf]; [zdm|].
  assert (pte_addr M va = KTABLES + 4 * kpage va) as E.
  { unfold pte_addr, pde_at, pde_addr. rewrite Hf. unfold kpage, KBASE, KTABLES. zdm. }
  split_and!; [done|done|]. unfold pte_at, kpte. by rewrite E.
Qed.

Lemma kspace_translate M va :
  kspace M → KBASE ≤ va < KTOP →
  translate M va = if present (kpte M (kpage va))
                   then Some (frame (kpte M (kpage va)) + va mod 4096) else None.
Proof.
  intros Hk Hva. destruct (kspace_pde M va Hk Hva) as (Hp & _ & Ht).
  unfold translate. by rewrite Hp, Ht.
Qed.

(** The low megabyte is mapped linearly. *)
Lemma kspace_translate_low M va :
  kspace M → KBASE ≤ va < K_HEAP_START → translate M va = Some (va - KBASE).
Proof.
  intros Hk Hva. unfold KBASE, K_HEAP_START in *.
  rewrite kspace_translate by (done || unfold KBASE, KTOP; lia).
  destruct (ks_low M Hk (kpage va)) as [-> ->]; unfold kpage, KBASE; [zdm|].
  f_equal. zdm.
Qed.

(** Kernel addresses walk through the directory and the kernel tables. *)
Lemma kspace_walk M va x :
  kspace M → KBASE ≤ va < KTOP → walk_byte M va x →
  frame (cr3 M) ≤ x < frame (cr3 M) + 4096
  ∨ KTABLES + 4 * kpage va ≤ x < KTABLES + 4 * kpage va + 4.
Proof.
  intros Hk Hva [Hx|Hx].
  - left. unfold pde_addr, KBASE, KTOP in *. zdm.
  - right. by destruct (kspace_pde M va Hk Hva) as (_ & <- & _).
Qed.

Lemma kpage_range va : KBASE ≤ va < KTOP → 0 ≤ kpage va < 255 * 1024.
Proof. unfold kpage, KBASE, KTOP. zdm. Qed.

Lemma kspace_dir_range M : kspace M → PAGE_DIR_TABLE_POS ≤ frame (cr3 M) ∧
  (frame (cr3 M) + 4096 ≤ KTABLES ∨ 0x200000 ≤ frame (cr3 M)).
Proof.
  intros Hk. unfold PAGE_DIR_TABLE_POS, KTABLES.
  destruct (ks_dir M Hk) as [->|?]; unfold PAGE_DIR_TABLE_POS; lia.
Qed.

(** What the kernel keeps in low memory it holds: no table lives there. *)
Definition low_map (g : gmap Z Z) : Prop :=
  ∀ a, is_Some (g !! a) → KBASE ≤ a < K_HEAP_START.

Lemma kspace_holds M g :
  kspace M → low_map g →
  (∀ a v, g !! a = Some v → 0 ≤ v < 256 ∧ rd8 (pm M) (a - KBASE) = v) →
  paged_holds M g.
Proof.
  intros Hk Hlow Hrd a v Ha. destruct (Hrd a v Ha) as [Hv Hb]. split; [done|].
  pose proof (Hlow a ltac:(by eexists)) as Hr.
  exists (a - KBASE). split_and!; [by apply kspace_translate_low|done|].
  intros b w Hb'. pose proof (Hlow b ltac:(by eexists)) as Hr'. split.
  - rewrite kspace_translate_low by done. intros [= E]. lia.
  - pose proof (kspace_dir_range M Hk). unfold KBASE, K_HEAP_START, PAGE_DIR_TABLE_POS in *.
    intros Hw. apply kspace_walk in Hw; [|done|unfold KBASE, KTOP; lia].
    pose proof (kpage_range b). unfold KBASE, KTOP, KTABLES in *. lia.
Qed.

(** Two machines that agree on the directory and on the second megabyte, where
    the kernel tables are, share the kernel half. *)
Definition same_tables (M M' : machine) : Prop :=
  cr3 M' = cr3 M ∧ ∀ x, 0x100000 ≤ x < 0x200000
      ∨ frame (cr3 M) ≤ x < frame (cr3 M) + 4096 → rd8 (pm M') x = rd8 (pm M) x.

Lemma kpte_same_tables M M' i :
  same_tables M M' → 0 ≤ i < 255 * 1024 → kpte M' i = kpte M i.
Proof. intros [_ H] Hi. apply rd32_same. intros x Hx. apply H. unfold KTABLES in *. lia. Qed.

Lemma kspace_same_tables M M' : kspace M → same_tables M M' → kspace M'.
Proof.
  intros Hk Hh. pose proof (proj1 Hh) as Hc.
  assert (Hrd : ∀ i, 0 ≤ i ≤ 4092 →
    rd32 (pm M') (frame (cr3 M) + i) = rd32 (pm M) (frame (cr3 M) + i)).
  { intros i Hi. apply rd32_same. intros x Hx. apply Hh. lia. }
  destruct (ks_self M Hk) as (Hs1 & Hs2 & Hs3). split.
  - unfold selfmap. rewrite Hc, Hrd by lia. done.
  - rewrite Hc. by apply ks_dir.
  - intros i Hi. rewrite Hc, Hrd by lia. by apply ks_pde.
  - intros i Hi. rewrite (kpte_same_tables M M') by (done || lia). by apply ks_low.
  - intros i Hi. rewrite Hc, Hrd by lia. by apply ks_user.
Qed.

(** In particular two machines that agree from the first megabyte on. *)
Definition same_high (M M' : machine) : Prop :=
  cr3 M' = cr3 M ∧ ∀ x, 0x100000 ≤ x → rd8 (pm M') x = rd8 (pm M) x.

Lemma kpte_same_high M M' i : same_high M M' → 0 ≤ i → kpte M' i = kpte M i.
Proof. intros [_ H] Hi. apply rd32_same. intros x Hx. apply H. unfold KTABLES in *. lia. Qed.

Lemma kspace_same_high M M' : kspace M → same_high M M' → kspace M'.
Proof.
  intros Hk [Hc Hh]. apply (kspace_same_tables M); [done|]. split; [done|].
  pose proof (kspace_dir_range M Hk). unfold PAGE_DIR_TABLE_POS in *.
  intros x Hx. apply Hh. lia.
Qed.

(** Runs that only touch low memory leave the kernel half alone. *)
Lemma framed_same_high M g M' g' :
  kspace M → low_map g → framed M g M' g' → same_high M M'.
Proof.
  intros Hk Hlow (_ & Hc & _ & _ & Hx). split; [done|]. intros x Hx'. apply Hx.
  intros a Ha. rewrite kspace_translate_low by auto. intros [= <-].
  specialize (Hlow a Ha). unfold KBASE, K_HEAP_START in *. lia.
Qed.

Lemma low_map_framed M g M' g' : low_map g → framed M g M' g' → low_map g'.
Proof. intros Hlow (_ & _ & Hdom & _) a Ha. apply Hlow. by apply Hdom. Qed.

(** * The allocators *)

Lemma palloc_full M g p :
  paged_holds M g → bm_wf g (pool_bitmap p) →
  (∀ i, 0 ≤ i < nbits (pool_bitmap p) → bit g (pool_bitmap p) i = true) →
  palloc p M = Panic "bitmap_scan".
Proof.
  intros Hh Hwf Hall. unfold palloc. by rewrite (scan_full (M := machine) M g).
Qed.

(** Frame number [i] of a pool. *)
Definition pool_frame (p : pool) (i : Z) : Z := phy_addr_start p + i * PG_SIZE.

Definition pool_wf (p : pool) : Prop :=
  0x200000 ≤ phy_addr_start p ∧ phy_addr_start p mod 4096 = 0
  ∧ nbits (pool_bitmap p) ≤ 2 ^ 19
  ∧ pool_frame p (nbits (pool_bitmap p)) ≤ 2 ^ 32.

Lemma palloc_free M g p i :
  paged_holds M g → bm_wf g (pool_bitmap p) → pool_wf p →
  0 ≤ i < nbits (pool_bitmap p) → bit g (pool_bitmap p) i = false →
  (∀ j, 0 ≤ j < i → bit g (pool_bitmap p) j = true) →
  ∃ M', palloc p M = Ok (pool_frame p i, M')
      ∧ framed M g M' (set_bit g (pool_bitmap p) i true).
Proof.
  intros Hh Hwf (Hs & Ha & Hn & He) Hi Hf Ht. unfold palloc.
  destruct (scan_free (M := machine) M g (pool_bitmap p) 1 i) as (r & -> & Hr);
    try done; try lia.
  assert (r = i) as ->.
  { destruct Hr as [(H0 & _ & Hw & Hl)|[_ Hn']].
    - destruct (decide (r < i)) as [Hlt|].
      + specialize (Hw r). rewrite Ht in Hw by lia. discriminate Hw. lia.
      + destruct (decide (i < r)) as [Hgt|]; [|lia]. destruct (Hl i); [lia|].
        intros k Hk. by replace k with i by lia.
    - destruct (Hn' i); [lia|unfold scan_limit; simpl; lia|].
      intros k Hk. by replace k with i by lia. }
  rb. destruct (Z.eqb_spec i (-1)); [lia|].
  destruct (bitmap_set_holds (ByteMemSpec0 := framed_spec M g) M g (pool_bitmap p) i 1)
    as (M' & -> & Hm'); [by apply framed_refl|done|lia|by right|].
  rb. exists M'. split; [|done]. do 2 f_equal. unfold pool_frame, PG_SIZE in *.
  rewrite s32_small by lia. rewrite u32_small; lia.
Qed.

(** * Reserving virtual pages *)

Lemma set_loop_framed M0 g0 n : ∀ M g b s,
  framed M0 g0 M g → bm_wf g b → 0 ≤ s → s + Z.of_nat n ≤ nbits b + 8 →
  ∃ M', set_loop M b s n = Ok M' ∧ framed M0 g0 M' (set_bits g b s n).
Proof.
  induction n as [|n IH]; intros M g b s Hf Hwf Hs Hn; simpl; [eauto|].
  pose proof Hwf as (_ & Hlen & _).
  destruct (bitmap_set_holds (ByteMemSpec0 := framed_spec M0 g0) M g b s 1)
    as (M1 & -> & Hf1); [done..|lia|by right|]. rb.
  rewrite u32_small by (unfold nbits in *; lia).
  apply IH; [done|by apply bm_wf_set_bit|lia..].
Qed.

(** * Frames in use *)

(** Entry [i] of the current page directory. *)
Definition dir_entry (M : machine) (i : Z) : Z := rd32 (pm M) (frame (cr3 M) + 4 * i).

(** The frame [f] is neither the directory, nor a page of the kernel half, nor
    a page table of the user half. *)
Record frame_unused (M : machine) (f : Z) : Prop := {
  fu_dir : frame (cr3 M) ≠ f;
  fu_kernel i : 0 ≤ i < 255 * 1024 → present (kpte M i) = true → frame (kpte M i) ≠ f;
  fu_user i : 0 ≤ i < 768 → present (dir_entry M i) = true → frame (dir_entry M i) ≠ f;
}.

Lemma dir_entry_same_tables M M' i :
  same_tables M M' → 0 ≤ i < 1024 → dir_entry M' i = dir_entry M i.
Proof.
  intros [Hc H] Hi. unfold dir_entry. rewrite Hc. apply rd32_same. intros x Hx. apply H. lia.
Qed.

Lemma same_high_tables M M' : kspace M → same_high M M' → same_tables M M'.
Proof.
  intros Hk [Hc Hh]. split; [done|]. pose proof (kspace_dir_range M Hk).
  unfold PAGE_DIR_TABLE_POS in *. intros x Hx. apply Hh. lia.
Qed.

Lemma frame_unused_same M M' f :
  same_tables M M' → frame_unused M f → frame_unused M' f.
Proof.
  intros Hs [Hd Hp Hu]. split.
  - by rewrite (proj1 Hs).
  - intros i Hi. rewrite (kpte_same_tables M M') by done. by apply Hp.
  - intros i Hi. rewrite (dir_entry_same_tables M M') by (done || lia). by apply Hu.
Qed.

(** * Mapping one kernel page *)

(** A page address with the three attribute bits. *)
Lemma pg_entry_eq p : p mod 4096 = 0 → pg_entry p = p + 7.
Proof.
  intros Hp. unfold pg_entry, PG_US_U, PG_RW_W, PG_P_1.
  rewrite <- !Z.lor_assoc. change (Z.lor 4 (Z.lor 2 1)) with 7.
  by apply (lor_low p 7 12).
Qed.

Lemma entry_props p : 0 ≤ p → p + 4096 ≤ 2 ^ 32 → p mod 4096 = 0 →
  0 ≤ p + 7 < 2 ^ 32 ∧ present (p + 7) = true ∧ frame (p + 7) = p.
Proof.
  intros. split_and!; [lia..| |by apply frame_flags].
  unfold present. rewrite Z.bit0_odd, Z.odd_add.
  assert (Z.odd p = false) as ->; [|done].
  rewrite Zodd_mod. apply Z.eqb_neq. zdm.
Qed.

Definition map_kpage (M : machine) (j p : Z) : machine :=
  Machine (wr32 (pm M) (KTABLES + 4 * j) (p + 7)) (cr3 M).

Lemma kpte_map_same M j p :
  0 ≤ p → p + 4096 ≤ 2 ^ 32 → kpte (map_kpage M j p) j = p + 7.
Proof. intros. unfold kpte, map_kpage. simpl. apply rd32_wr32_same. lia. Qed.

Lemma kpte_map_other M j p i : i ≠ j → kpte (map_kpage M j p) i = kpte M i.
Proof. intros. unfold kpte, map_kpage. simpl. apply rd32_wr32_other. lia. Qed.

Lemma rd8_map_other M j p x :
  0 ≤ j < 255 * 1024 → x < KTABLES ∨ 0x200000 ≤ x →
  rd8 (pm (map_kpage M j p)) x = rd8 (pm M) x.
Proof. intros. unfold map_kpage, KTABLES in *. simpl. apply rd8_wr32_other. lia. Qed.

Lemma kspace_map M j p : kspace M → 256 ≤ j < 255 * 1024 → kspace (map_kpage M j p).
Proof.
  intros Hk Hj. pose proof (kspace_dir_range M Hk) as [Hd Hd'].
  assert (Hrd : ∀ i, 0 ≤ i < 1024 →
    rd32 (pm (map_kpage M j p)) (frame (cr3 M) + 4 * i) = rd32 (pm M) (frame (cr3 M) + 4 * i)).
  { intros i Hi. simpl. apply rd32_wr32_other. unfold KTABLES in *. lia. }
  destruct (ks_self M Hk) as (Hs1 & Hs2 & Hs3). split.
  - unfold selfmap. change (cr3 (map_kpage M j p)) with (cr3 M).
    pose proof (Hrd 1023 ltac:(lia)) as Hr. change (4 * 1023) with 4092 in Hr. by rewrite Hr.
  - apply (ks_dir M Hk).
  - intros i Hi. change (cr3 (map_kpage M j p)) with (cr3 M).
    rewrite Hrd by lia. by apply ks_pde.
  - intros i Hi. rewrite kpte_map_other by lia. by apply ks_low.
  - intros i Hi. change (cr3 (map_kpage M j p)) with (cr3 M).
    rewrite Hrd by lia. by apply ks_user.
Qed.

Lemma dir_entry_map M j p i :
  kspace M → 256 ≤ j < 255 * 1024 → 0 ≤ i < 1024 →
  dir_entry (map_kpage M j p) i = dir_entry M i.
Proof.
  intros Hk Hj Hi. pose proof (kspace_dir_range M Hk). unfold dir_entry. simpl.
  apply rd32_wr32_other. unfold KTABLES in *. lia.
Qed.

Lemma frame_unused_map M j p f :
  kspace M → 256 ≤ j < 255 * 1024 → 0 ≤ p → p + 4096 ≤ 2 ^ 32 →
  frame_unused M f → frame (p + 7) ≠ f → frame_unused (map_kpage M j p) f.
Proof.
  intros Hk Hj Hp0 Hp1 [Hd Hp Hu] Hne. split; [done| |].
  - intros i Hi. destruct (decide (i = j)) as [->|].
    + by rewrite kpte_map_same.
    + rewrite kpte_map_other by done. by apply Hp.
  - intros i Hi. rewrite dir_entry_map by (done || lia). by apply Hu.
Qed.

(** [page_table_add] on a kernel address only ever takes its first branch: it
    writes one entry of the kernel's table array, or stops when that entry is
    in use. *)
Lemma present_land e : (Z.land e 1 =? 0) = negb (present e).
Proof. unfold present. apply (mask_zero e 0). lia. Qed.

Lemma page_table_add_kernel km M va p :
  kspace M → KBASE ≤ va < KTOP → p mod 4096 = 0 →
  page_table_add km M va p
  = if present (kpte M (kpage va)) then Panic "page_table_add"
    else Ok (map_kpage M (kpage va) p).
Proof.
  intros Hk Hva Hp. destruct (kspace_pde M va Hk Hva) as (Hpd & Ha & Ht).
  pose proof (ks_self M Hk) as Hs.
  assert (0 ≤ va < 2 ^ 32) by (unfold KBASE, KTOP in *; lia).
  unfold page_table_add. rewrite load_pde by done. rb.
  change 0x00000001 with 1. rewrite present_land, Hpd. simpl negb. cbv iota.
  rewrite load_pte by done. rb. rewrite present_land, Ht.
  destruct (present (kpte M (kpage va))); [done|]. simpl negb.
  rewrite assert_true by done. rb. cbv iota.
  by rewrite store_pte, Ha, pg_entry_eq by done.
Qed.

(** * The allocator's invariant *)

Abbreviation kbm km := (pool_bitmap (kernel_pool km)).
Abbreviation ubm km := (pool_bitmap (user_pool km)).
Abbreviation vbm km := (vaddr_bitmap (kernel_vaddr km)).

Record mem_inv (km : kmem) (M : machine) (g : gmap Z Z) : Prop := {
  mi_space : kspace M;
  mi_low : low_map g;
  mi_holds : paged_holds M g;
  mi_kb : bm_wf g (kbm km);
  mi_ub : bm_wf g (ubm km);
  mi_vb : bm_wf g (vbm km);
  (* the three bitmaps lie one after the other *)
  mi_sep_ku : bits (kbm km) + btmp_bytes_len (kbm km) ≤ bits (ubm km);
  mi_sep_uv : bits (ubm km) + btmp_bytes_len (ubm km) ≤ bits (vbm km);
  mi_kpool : pool_wf (kernel_pool km);
  mi_upool : pool_wf (user_pool km);
  mi_sep_pools :
    pool_frame (kernel_pool km) (nbits (kbm km)) ≤ phy_addr_start (user_pool km);
  mi_vstart : vaddr_start (kernel_vaddr km) = K_HEAP_START;
  mi_vtop : K_HEAP_START + 4096 * (nbits (vbm km) + 1) ≤ KTOP;
  (* a free heap page is not mapped; the bit after the bitmap counts as one *)
  mi_unmapped j : 0 ≤ j ≤ nbits (vbm km) →
    bit g (vbm km) j = false → present (kpte M (256 + j)) = false;
  (* a free frame is not in use *)
  mi_kfree i : 0 ≤ i < nbits (kbm km) →
    bit g (kbm km) i = false → frame_unused M (pool_frame (kernel_pool km) i);
  mi_ufree i : 0 ≤ i < nbits (ubm km) →
    bit g (ubm km) i = false → frame_unused M (pool_frame (user_pool km) i);
}.

(** The bytes of [g] are where the low mapping puts them. *)
Lemma mem_inv_read km M g a v :
  mem_inv km M g → g !! a = Some v → 0 ≤ v < 256 ∧ rd8 (pm M) (a - KBASE) = v.
Proof.
  intros Hi Ha. destruct (mi_holds _ _ _ Hi a v Ha) as (Hv & pa & Ht & Hrd & _).
  rewrite kspace_translate_low in Ht;
    [|apply (mi_space _ _ _ Hi)|apply (mi_low _ _ _ Hi); by eexists].
  split; [done|]. congruence.
Qed.

Lemma pool_frame_props p i :
  pool_wf p → 0 ≤ i < nbits (pool_bitmap p) →
  0x200000 ≤ pool_frame p i ∧ pool_frame p i + 4096 ≤ 2 ^ 32
  ∧ pool_frame p i mod 4096 = 0.
Proof. unfold pool_wf, pool_frame, PG_SIZE. intros (? & ? & ? & ?) ?. zdm. Qed.

Lemma pool_frame_inj p i j : pool_frame p i = pool_frame p j → i = j.
Proof. unfold pool_frame, PG_SIZE. lia. Qed.

Lemma low_read M g a v :
  kspace M → low_map g → paged_holds M g → g !! a = Some v →
  0 ≤ v < 256 ∧ rd8 (pm M) (a - KBASE) = v.
Proof.
  intros Hk Hl Hh Ha. destruct (Hh a v Ha) as (Hv & pa & Ht & Hrd & _).
  rewrite kspace_translate_low in Ht; [|done|apply Hl; by eexists].
  split; [done|]. congruence.
Qed.

(** Bits of the other bitmaps survive a change of the kernel pool's. *)
Lemma set_kb_other km M g i b' j :
  mem_inv km M g → 0 ≤ i < nbits (kbm km) → b' = ubm km ∨ b' = vbm km → 0 ≤ j →
  bit (set_bit g (kbm km) i true) b' j = bit g b' j.
Proof.
  intros Hi Hr Hb Hj. apply bit_set_bit_other.
  pose proof (mi_sep_ku _ _ _ Hi). pose proof (mi_sep_uv _ _ _ Hi).
  pose proof (mi_ub _ _ _ Hi) as (_ & Hl & _). unfold nbits in *.
  destruct Hb as [-> | ->]; zdm.
Qed.

(** Where the heap page [j] is. *)
Definition heap_addr (j : Z) : Z := K_HEAP_START + 4096 * j.

Lemma heap_addr_props km M g j :
  mem_inv km M g → 0 ≤ j ≤ nbits (vbm km) →
  KBASE ≤ heap_addr j < KTOP ∧ kpage (heap_addr j) = 256 + j ∧ 256 + j < 255 * 1024.
Proof.
  intros Hi Hj. pose proof (mi_vtop _ _ _ Hi).
  unfold heap_addr, K_HEAP_START, kpage, KBASE, KTOP in *. zdm.
Qed.

(** What one round of the mapping loop does. *)
Record mapped_one (km : kmem) (M : machine) (g : gmap Z Z) (j i : Z)
    (M' : machine) (g' : gmap Z Z) : Prop := {
  mo_inv : mem_inv km M' g';
  mo_bits : g' = set_bit g (kbm km) i true;
  mo_free : 0 ≤ i < nbits (kbm km) ∧ bit g (kbm km) i = false;
  mo_new : kpte M' (256 + j) = pool_frame (kernel_pool km) i + 7;
  mo_old k : k ≠ 256 + j → 0 ≤ k → kpte M' k = kpte M k;
  mo_mem x : 0x100000 ≤ x < KTABLES ∨ 0x200000 ≤ x → rd8 (pm M') x = rd8 (pm M) x;
  mo_cr3 : cr3 M' = cr3 M;
}.

Lemma map_one_inv km M g j i M1 :
  mem_inv km M g → 0 ≤ j ≤ nbits (vbm km) → bit g (vbm km) j = true →
  0 ≤ i < nbits (kbm km) → bit g (kbm km) i = false →
  framed M g M1 (set_bit g (kbm km) i true) →
  mapped_one km M g j i
    (map_kpage M1 (256 + j) (pool_frame (kernel_pool km) i)) (set_bit g (kbm km) i true).
Proof.
  intros Hi Hj Hbj Hir Hif Hf.
  pose proof (mi_space _ _ _ Hi) as Hk. pose proof (mi_low _ _ _ Hi) as Hl.
  pose proof (framed_same_high _ _ _ _ Hk Hl Hf) as Hh.
  pose proof (kspace_same_high _ _ Hk Hh) as Hk1.
  destruct (heap_addr_props km M g j Hi Hj) as (_ & _ & Hj').
  destruct (pool_frame_props _ _ (mi_kpool _ _ _ Hi) Hir) as (Hf1 & Hf2 & Hf3).
  set (f := pool_frame (kernel_pool km) i) in *.
  set (M2 := map_kpage M1 (256 + j) f). set (g1 := set_bit g (kbm km) i true) in *.
  assert (Hold : ∀ k, k ≠ 256 + j → 0 ≤ k → kpte M2 k = kpte M k).
  { intros k Hne Hk0. unfold M2. rewrite kpte_map_other by done.
    by apply kpte_same_high. }
  assert (Hnew : kpte M2 (256 + j) = f + 7) by (apply kpte_map_same; lia).
  destruct (entry_props f) as (_ & Hep & Hef); [lia..|done|].
  assert (Hk2 : kspace M2) by (apply kspace_map; [done|lia]).
  assert (Hl2 : low_map g1) by by eapply low_map_framed.
  assert (Hcr : cr3 M2 = cr3 M) by apply Hh.
  assert (Hunused : ∀ f', frame_unused M f' → f' ≠ f → frame_unused M2 f').
  { intros f' Hfu Hne. apply (frame_unused_same M M1) in Hfu as [Hd Hp Hu];
      [|by apply same_high_tables]. apply frame_unused_map; [done|lia|lia|lia|by split|].
    rewrite Hef. congruence. }
  split; auto.
  - split; auto; try by apply Hi.
    + apply kspace_holds; auto. intros a v Ha.
      destruct (low_read M1 g1 a v) as [Hv Hr]; auto; [by apply Hf|].
      split; [done|]. unfold M2. rewrite rd8_map_other; [done|lia|].
      specialize (Hl2 a ltac:(by eexists)). unfold KBASE, K_HEAP_START, KTABLES in *. lia.
    + apply bm_wf_set_bit, Hi.
    + apply bm_wf_set_bit, Hi.
    + apply bm_wf_set_bit, Hi.
    + intros j' Hj'r. unfold g1. rewrite (set_kb_other km M g) by (auto || lia).
      intros Hb. assert (j' ≠ j) by (intros ->; congruence). rewrite Hold by lia.
      by apply (mi_unmapped _ _ _ Hi).
    + intros i' Hi'. unfold g1. rewrite bit_set_bit by lia. case_decide as Hd; [done|].
      intros Hb. apply Hunused; [by apply (mi_kfree _ _ _ Hi)|].
      intros E. destruct Hd. symmetry. by eapply pool_frame_inj.
    + intros i' Hi'. unfold g1. rewrite (set_kb_other km M g) by (auto || lia).
      intros Hb. apply Hunused; [by apply (mi_ufree _ _ _ Hi)|].
      pose proof (mi_sep_pools _ _ _ Hi). unfold f, pool_frame, PG_SIZE in *. lia.
  - intros x Hx. unfold M2. rewrite rd8_map_other by (unfold KTABLES in *; lia).
    apply Hh. lia.
Qed.

(** What the whole mapping loop does: heap pages [j] to [j + n - 1] are mapped
    to frames that were free, each to its own; nothing else changes. *)
Record mapped_range (km : kmem) (M : machine) (g : gmap Z Z) (j n : Z)
    (M' : machine) (g' : gmap Z Z) : Prop := {
  mr_inv : mem_inv km M' g';
  mr_other b k : b = ubm km ∨ b = vbm km → 0 ≤ k → bit g' b k = bit g b k;
  mr_used i : 0 ≤ i < nbits (kbm km) → bit g (kbm km) i = true → bit g' (kbm km) i = true;
  mr_new k : 0 ≤ k < n → ∃ i, 0 ≤ i < nbits (kbm km) ∧ bit g (kbm km) i = false
    ∧ bit g' (kbm km) i = true ∧ kpte M' (256 + j + k) = pool_frame (kernel_pool km) i + 7;
  mr_inj k k' : 0 ≤ k < n → 0 ≤ k' < n →
    frame (kpte M' (256 + j + k)) = frame (kpte M' (256 + j + k')) → k = k';
  mr_old k : 0 ≤ k → k < 256 + j ∨ 256 + j + n ≤ k → kpte M' k = kpte M k;
  mr_mem x : 0x100000 ≤ x < KTABLES ∨ 0x200000 ≤ x → rd8 (pm M') x = rd8 (pm M) x;
  mr_cr3 : cr3 M' = cr3 M;
  mr_count : free_count g (kbm km) = (free_count g' (kbm km) + Z.to_nat n)%nat;
}.

Lemma mapped_range_nil km M g j : mem_inv km M g → mapped_range km M g j 0 M g.
Proof. intros Hi. split; auto; intros; lia. Qed.

Lemma frame_kpte km M g i :
  mem_inv km M g → 0 ≤ i < nbits (kbm km) →
  frame (pool_frame (kernel_pool km) i + 7) = pool_frame (kernel_pool km) i.
Proof.
  intros Hi Hr. destruct (pool_frame_props _ _ (mi_kpool _ _ _ Hi) Hr) as (? & ? & ?).
  by apply entry_props; [lia|..].
Qed.

Lemma mapped_range_cons km M g j n i M1 g1 M2 g2 :
  mem_inv km M g → 0 ≤ j → 0 ≤ n → mapped_one km M g j i M1 g1 →
  mapped_range km M1 g1 (j + 1) n M2 g2 →
  mapped_range km M g j (n + 1) M2 g2.
Proof.
  intros Hi Hj Hn H1 H2. destruct (mo_free _ _ _ _ _ _ _ H1) as [Hir Hif].
  pose proof (mo_bits _ _ _ _ _ _ _ H1) as Hg1.
  assert (Hb1 : bit g1 (kbm km) i = true).
  { rewrite Hg1, bit_set_bit, decide_True by (done || lia). done. }
  assert (Hb1' : ∀ k, 0 ≤ k → bit g1 (kbm km) k = false → bit g (kbm km) k = false ∧ k ≠ i).
  { intros k Hk. rewrite Hg1, bit_set_bit by lia. case_decide; naive_solver. }
  assert (Hhead : kpte M2 (256 + j) = pool_frame (kernel_pool km) i + 7).
  { rewrite (mr_old _ _ _ _ _ _ _ H2) by lia. apply H1. }
  assert (Hnew : ∀ k, 0 ≤ k < n + 1 → ∃ i', 0 ≤ i' < nbits (kbm km) ∧ bit g (kbm km) i' = false
    ∧ bit g2 (kbm km) i' = true ∧ kpte M2 (256 + j + k) = pool_frame (kernel_pool km) i' + 7
    ∧ (0 < k → i' ≠ i)).
  { intros k Hk. destruct (decide (k = 0)) as [->|].
    - exists i. split_and!; try lia; try done; [by eapply mr_used|by rewrite Z.add_0_r].
    - destruct (mr_new _ _ _ _ _ _ _ H2 (k - 1)) as (i' & Hi' & Hf' & Ht' & E); [lia|].
      destruct (Hb1' i') as [? ?]; [lia|done|]. exists i'. split_and!; auto; try lia.
      rewrite <- E. f_equal. lia. }
  split; try by apply H2.
  - intros b k Hb Hk. rewrite (mr_other _ _ _ _ _ _ _ H2), Hg1 by done.
    by apply (set_kb_other km M g).
  - intros k Hk Ht. apply (mr_used _ _ _ _ _ _ _ H2); [done|].
    rewrite Hg1, bit_set_bit by lia. by case_decide.
  - intros k Hk. destruct (Hnew k Hk) as (i' & ? & ? & ? & ? & _). eauto.
  - assert (Hneq : ∀ k, 0 < k < n + 1 →
      frame (kpte M2 (256 + j + k)) ≠ frame (kpte M2 (256 + j))).
    { intros k Hk E. destruct (Hnew k) as (i' & Hi' & _ & _ & Ek & Hne); [lia|].
      rewrite Ek, Hhead, !(frame_kpte km M g) in E by done.
      apply Hne; [lia|]. by eapply pool_frame_inj. }
    intros k k' Hk Hk' E.
    destruct (decide (k = 0)) as [->|], (decide (k' = 0)) as [->|]; auto.
    + rewrite Z.add_0_r in E. destruct (Hneq k'); [lia|done].
    + rewrite Z.add_0_r in E. destruct (Hneq k); [lia|done].
    + enough (k - 1 = k' - 1) by lia. apply (mr_inj _ _ _ _ _ _ _ H2); [lia..|].
      replace (256 + (j + 1) + (k - 1)) with (256 + j + k) by lia.
      by replace (256 + (j + 1) + (k' - 1)) with (256 + j + k') by lia.
  - intros k Hk Hout. rewrite (mr_old _ _ _ _ _ _ _ H2) by lia.
    apply (mo_old _ _ _ _ _ _ _ H1); lia.
  - intros x Hx. rewrite (mr_mem _ _ _ _ _ _ _ H2) by done. by apply H1.
  - rewrite (mr_cr3 _ _ _ _ _ _ _ H2). apply H1.
  - pose proof (mr_count _ _ _ _ _ _ _ H2). rewrite (free_count_set g (kbm km) i) by done.
    rewrite <- Hg1. lia.
Qed.

(** One round: a frame, then its mapping. *)
Lemma malloc_round km M g j :
  mem_inv km M g → 0 ≤ j ≤ nbits (vbm km) → bit g (vbm km) j = true →
  present (kpte M (256 + j)) = false → (0 < free_count g (kbm km))%nat →
  ∃ i f M1 M2 g', palloc (kernel_pool km) M = Ok (f, M1) ∧ f ≠ NULL
    ∧ page_table_add km M1 (heap_addr j) f = Ok M2 ∧ mapped_one km M g j i M2 g'.
Proof.
  intros Hi Hj Hb Hp Hc. destruct (free_count_least _ _ Hc) as (i & Hir & Hif & Hit).
  destruct (palloc_free M g (kernel_pool km) i) as (M1 & Hpal & Hf); auto; try by apply Hi.
  destruct (pool_frame_props _ _ (mi_kpool _ _ _ Hi) Hir) as (Hf1 & Hf2 & Hf3).
  destruct (heap_addr_props km M g j Hi Hj) as (Hva & Hkp & Hj').
  pose proof (framed_same_high _ _ _ _ (mi_space _ _ _ Hi) (mi_low _ _ _ Hi) Hf) as Hh.
  eexists i, _, M1, _, _. split_and!; [done|unfold NULL; lia| |by apply map_one_inv].
  rewrite page_table_add_kernel; auto.
  - rewrite Hkp, (kpte_same_high M M1), Hp by (done || lia). done.
  - by apply (kspace_same_high M), Hh; apply Hi.
Qed.

(** Heap pages [j] to [j + n - 1] are reserved and not yet mapped. *)
Definition reserved (km : kmem) (M : machine) (g : gmap Z Z) (j : Z) (n : nat) : Prop :=
  0 ≤ j ∧ j + Z.of_nat n ≤ nbits (vbm km) + 1
  ∧ ∀ k, j ≤ k < j + Z.of_nat n →
      bit g (vbm km) k = true ∧ present (kpte M (256 + k)) = false.

Lemma reserved_next km M g j n i M' g' :
  mem_inv km M g → reserved km M g j (S n) → mapped_one km M g j i M' g' →
  reserved km M' g' (j + 1) n.
Proof.
  intros Hi (Hj & Hn & Hr) H1. split_and!; try lia. intros k Hk.
  destruct (Hr k) as [Hb Hp]; [lia|]. split.
  - rewrite (mo_bits _ _ _ _ _ _ _ H1), (set_kb_other km M g); auto; try lia.
    by destruct (mo_free _ _ _ _ _ _ _ H1).
  - rewrite (mo_old _ _ _ _ _ _ _ H1) by lia. done.
Qed.

Lemma heap_addr_next km M g j :
  mem_inv km M g → 0 ≤ j ≤ nbits (vbm km) → u32 (heap_addr j + PG_SIZE) = heap_addr (j + 1).
Proof.
  intros Hi Hj. pose proof (mi_vtop _ _ _ Hi).
  unfold heap_addr, PG_SIZE, K_HEAP_START, KTOP in *. rewrite u32_small; lia.
Qed.

Lemma malloc_loop_enough km n : ∀ M g j,
  mem_inv km M g → reserved km M g j n → (n ≤ free_count g (kbm km))%nat →
  ∃ M' g', malloc_loop km (kernel_pool km) M (heap_addr j) n = Ok (true, M')
         ∧ mapped_range km M g j (Z.of_nat n) M' g'.
Proof.
  induction n as [|n IH]; intros M g j Hi Hr Hc; simpl malloc_loop.
  - exists M, g. split; [done|]. by apply mapped_range_nil.
  - pose proof Hr as (Hj & Hn & Hr'). destruct (Hr' j) as [Hb Hp]; [lia|].
    destruct (malloc_round km M g j) as (i & f & M1 & M2 & g' & -> & Hf & Hadd & H1);
      auto with lia. rb.
    destruct (Z.eqb_spec f NULL); [done|]. rewrite Hadd. rb.
    rewrite (heap_addr_next km M g) by (done || lia).
    destruct (IH M2 g' (j + 1)) as (M' & g'' & -> & H2).
    + apply H1.
    + by eapply reserved_next.
    + destruct (mo_free _ _ _ _ _ _ _ H1). rewrite (free_count_set g (kbm km) i) in Hc by done.
      rewrite (mo_bits _ _ _ _ _ _ _ H1). lia.
    + exists M', g''. split; [done|]. replace (Z.of_nat (S n)) with (Z.of_nat n + 1) by lia.
      eapply mapped_range_cons; eauto with lia.
Qed.

Lemma malloc_loop_exhausted km n : ∀ M g j,
  mem_inv km M g → reserved km M g j n → (free_count g (kbm km) < n)%nat →
  malloc_loop km (kernel_pool km) M (heap_addr j) n = Panic "bitmap_scan".
Proof.
  induction n as [|n IH]; intros M g j Hi Hr Hc; [lia|]. simpl malloc_loop.
  destruct (decide (free_count g (kbm km) = 0%nat)) as [Hz|Hnz].
  - rewrite (palloc_full M g); [done|apply Hi..|]. by apply free_count_zero.
  - pose proof Hr as (Hj & Hn & Hr'). destruct (Hr' j) as [Hb Hp]; [lia|].
    destruct (malloc_round km M g j) as (i & f & M1 & M2 & g' & -> & Hf & Hadd & H1);
      auto with lia. rb.
    destruct (Z.eqb_spec f NULL); [done|]. rewrite Hadd. rb.
    rewrite (heap_addr_next km M g) by (done || lia). apply (IH M2 g').
    + apply H1.
    + by eapply reserved_next.
    + destruct (mo_free _ _ _ _ _ _ _ H1). rewrite (free_count_set g (kbm km) i) in Hc by done.
      rewrite (mo_bits _ _ _ _ _ _ _ H1). lia.
Qed.

(** ** [vaddr_get] for the kernel *)

Lemma mem_inv_reserve km M g r n M1 :
  mem_inv km M g → 0 ≤ r → r + Z.of_nat n ≤ nbits (vbm km) →
  window g (vbm km) r (Z.of_nat n) →
  framed M g M1 (set_bits g (vbm km) r n) →
  mem_inv km M1 (set_bits g (vbm km) r n)
  ∧ reserved km M1 (set_bits g (vbm km) r n) r n
  ∧ same_high M M1
  ∧ (∀ b k, b = kbm km ∨ b = ubm km → 0 ≤ k < nbits b →
       bit (set_bits g (vbm km) r n) b k = bit g b k).
Proof.
  intros Hi Hr Hn Hw Hf.
  pose proof (framed_same_high _ _ _ _ (mi_space _ _ _ Hi) (mi_low _ _ _ Hi) Hf) as Hh.
  pose proof (mi_sep_ku _ _ _ Hi). pose proof (mi_sep_uv _ _ _ Hi).
  pose proof (mi_ub _ _ _ Hi) as (_ & ? & _).
  assert (Hoth : ∀ b k, b = kbm km ∨ b = ubm km → 0 ≤ k < nbits b →
    bit (set_bits g (vbm km) r n) b k = bit g b k).
  { intros b k Hb Hk. apply bit_set_bits_other; [done|]. right. unfold nbits in Hk.
    destruct Hb as [-> | ->]; zdm. }
  assert (Hun : ∀ f, frame_unused M f → frame_unused M1 f).
  { intros f. apply frame_unused_same, same_high_tables; [apply Hi|done]. }
  split_and!; auto.
  - split; try by apply Hi.
    + by apply (kspace_same_high M); [apply Hi|].
    + eapply low_map_framed; [apply Hi|done].
    + apply Hf.
    + apply bm_wf_set_bits, Hi.
    + apply bm_wf_set_bits, Hi.
    + apply bm_wf_set_bits, Hi.
    + intros j Hj. rewrite bit_set_bits by lia. case_decide; [done|].
      rewrite (kpte_same_high M M1) by (done || lia). by apply (mi_unmapped _ _ _ Hi).
    + intros i Hir. rewrite Hoth by auto. intros. by apply Hun, (mi_kfree _ _ _ Hi).
    + intros i Hir. rewrite Hoth by auto. intros. by apply Hun, (mi_ufree _ _ _ Hi).
  - split_and!; try lia. intros k Hk. split.
    + rewrite bit_set_bits, decide_True by lia. done.
    + rewrite (kpte_same_high M M1) by (done || lia).
      apply (mi_unmapped _ _ _ Hi); [lia|]. by apply Hw.
Qed.

Lemma vaddr_get_kernel km cur M g n s :
  mem_inv km M g → (0 < n)%nat → 0 ≤ s → s + Z.of_nat n ≤ nbits (vbm km) →
  window g (vbm km) s (Z.of_nat n) →
  ∃ r M1, vaddr_get km cur M PF_KERNEL (Z.of_nat n) = Ok (heap_addr r, M1)
    ∧ 0 ≤ r ≤ s ∧ window g (vbm km) r (Z.of_nat n)
    ∧ (∀ s', 0 ≤ s' < r → ¬ window g (vbm km) s' (Z.of_nat n))
    ∧ framed M g M1 (set_bits g (vbm km) r n).
Proof.
  intros Hi Hn Hs Hsn Hw. pose proof (mi_vb _ _ _ Hi) as Hwf.
  pose proof Hwf as (_ & Hlen & _). pose proof (mi_vtop _ _ _ Hi) as Htop.
  unfold vaddr_get.
  destruct (bitmap_scan_holds (M := machine) M g (vbm km) (Z.of_nat n))
    as [[_ Hall]|(r & -> & Hres & _)]; [apply Hi|done|unfold nbits in *; lia| |].
  { specialize (Hw s). rewrite Hall in Hw by lia. discriminate Hw. lia. }
  assert (0 ≤ r ≤ s ∧ window g (vbm km) r (Z.of_nat n)
    ∧ ∀ s', 0 ≤ s' < r → ¬ window g (vbm km) s' (Z.of_nat n)) as (Hr & Hwr & Hleast).
  { destruct Hres as [(H0 & _ & Hwr & Hl)|[_ Hno]].
    - split_and!; auto. destruct (decide (r ≤ s)); [done|]. destruct (Hl s); [lia|done].
    - destruct (Hno s); [done| |done]. unfold scan_limit. destruct (_ =? 1); lia. }
  rb. destruct (Z.eqb_spec r (-1)); [lia|]. rewrite Nat2Z.id.
  destruct (set_loop_framed M g n M g (vbm km) r) as (M1 & -> & Hf);
    [apply framed_refl, Hi|done|lia..|].
  rb. exists r, M1. split_and!; auto; try lia.
  rewrite (mi_vstart _ _ _ Hi), u32_s32. unfold heap_addr, PG_SIZE, K_HEAP_START, KTOP in *.
  rewrite u32_small by lia. do 2 f_equal. lia.
Qed.

(** The result of reserving and mapping: [mapped_range] seen from the state
    before the reservation. *)
Record allocated (km : kmem) (M : machine) (g : gmap Z Z) (r n : Z)
    (M' : machine) (g' : gmap Z Z) : Prop := {
  al_inv : mem_inv km M' g';
  al_vbits k : 0 ≤ k → bit g' (vbm km) k
    = if decide (r ≤ k < r + n) then true else bit g (vbm km) k;
  al_ubits k : 0 ≤ k < nbits (ubm km) → bit g' (ubm km) k = bit g (ubm km) k;
  al_kbits i : 0 ≤ i < nbits (kbm km) → bit g (kbm km) i = true → bit g' (kbm km) i = true;
  al_count : free_count g (kbm km) = (free_count g' (kbm km) + Z.to_nat n)%nat;
  al_new k : 0 ≤ k < n → ∃ i, 0 ≤ i < nbits (kbm km) ∧ bit g (kbm km) i = false
    ∧ bit g' (kbm km) i = true ∧ kpte M' (256 + r + k) = pool_frame (kernel_pool km) i + 7;
  al_inj k k' : 0 ≤ k < n → 0 ≤ k' < n →
    frame (kpte M' (256 + r + k)) = frame (kpte M' (256 + r + k')) → k = k';
  al_old k : 0 ≤ k < 255 * 1024 → k < 256 + r ∨ 256 + r + n ≤ k → kpte M' k = kpte M k;
  al_mem x : 0x100000 ≤ x < KTABLES ∨ 0x200000 ≤ x →
    (∀ k, 0 ≤ k < n → ¬ frame (kpte M' (256 + r + k)) ≤ x < frame (kpte M' (256 + r + k)) + 4096) →
    rd8 (pm M') x = rd8 (pm M) x;
  al_cr3 : cr3 M' = cr3 M;
}.

Lemma free_count_same g g' b :
  (∀ k, 0 ≤ k < nbits b → bit g' b k = bit g b k) → free_count g' b = free_count g b.
Proof.
  intros H. unfold free_count. f_equal. apply filter_same. intros k Hk%elem_of_seqZ.
  by rewrite H by lia.
Qed.

Lemma mapped_range_allocated km M g r n M1 M' g' :
  mem_inv km M g → 0 ≤ r → same_high M M1 →
  (∀ b k, b = kbm km ∨ b = ubm km → 0 ≤ k < nbits b →
     bit (set_bits g (vbm km) r n) b k = bit g b k) →
  mapped_range km M1 (set_bits g (vbm km) r n) r (Z.of_nat n) M' g' →
  allocated km M g r (Z.of_nat n) M' g'.
Proof.
  intros Hi Hr Hh Hoth H. split; try by apply H.
  - intros k Hk. rewrite (mr_other _ _ _ _ _ _ _ H) by auto. by apply bit_set_bits.
  - intros k Hk. rewrite (mr_other _ _ _ _ _ _ _ H) by (auto || lia). apply Hoth; auto.
  - intros i Hir Hb. apply (mr_used _ _ _ _ _ _ _ H); [done|]. rewrite Hoth; auto.
  - rewrite <- (mr_count _ _ _ _ _ _ _ H). symmetry. apply free_count_same. auto.
  - intros k Hk. destruct (mr_new _ _ _ _ _ _ _ H k Hk) as (i & Hir & Hb & ? & ?).
    exists i. split_and!; auto; try lia. by rewrite Hoth in Hb by auto.
  - intros k Hk Hout. rewrite (mr_old _ _ _ _ _ _ _ H) by (done || lia).
    apply kpte_same_high; [done|lia].
  - intros x Hx _. rewrite (mr_mem _ _ _ _ _ _ _ H) by done. apply Hh. lia.
  - rewrite (mr_cr3 _ _ _ _ _ _ _ H). apply Hh.
Qed.

Lemma heap_addr_not_null km M g r :
  mem_inv km M g → 0 ≤ r → heap_addr r ≠ NULL.
Proof. intros _ Hr. unfold heap_addr, K_HEAP_START, NULL. lia. Qed.

Lemma malloc_page_kernel km cur M g n s :
  mem_inv km M g → (0 < n)%nat → Z.of_nat n < 3840 → 0 ≤ s →
  s + Z.of_nat n ≤ nbits (vbm km) → window g (vbm km) s (Z.of_nat n) →
  (∃ r M' g', malloc_page km cur M PF_KERNEL (Z.of_nat n) = Ok (heap_addr r, M')
     ∧ 0 ≤ r ≤ s ∧ window g (vbm km) r (Z.of_nat n)
     ∧ (∀ s', 0 ≤ s' < r → ¬ window g (vbm km) s' (Z.of_nat n))
     ∧ allocated km M g r (Z.of_nat n) M' g' ∧ (n ≤ free_count g (kbm km))%nat)
  ∨ (malloc_page km cur M PF_KERNEL (Z.of_nat n) = Panic "bitmap_scan"
     ∧ (free_count g (kbm km) < n)%nat).
Proof.
  intros Hi Hn Hmax Hs Hsn Hw. unfold malloc_page.
  rewrite assert_true by lia. rb.
  destruct (vaddr_get_kernel km cur M g n s) as (r & M1 & -> & Hr & Hwr & Hl & Hf); auto. rb.
  destruct (Z.eqb_spec (heap_addr r) NULL) as [E|_].
  { by apply (heap_addr_not_null km M g) in E; [|done|lia]. }
  destruct (mem_inv_reserve km M g r n M1) as (Hi1 & Hres & Hh & Hoth); auto; [lia..|].
  change (negb (Z.land (pf_value PF_KERNEL) (pf_value PF_KERNEL) =? 0)) with true. cbv iota.
  rewrite Nat2Z.id.
  assert (free_count (set_bits g (vbm km) r n) (kbm km) = free_count g (kbm km)) as Hc
    by (apply free_count_same; auto).
  destruct (decide (n ≤ free_count g (kbm km))%nat) as [Hle|Hgt]; [left|right].
  - destruct (malloc_loop_enough km n M1 _ r Hi1 Hres) as (M' & g' & -> & Hm);
      [by rewrite Hc|]. rb.
    exists r, M', g'. split_and!; auto; try lia. by eapply mapped_range_allocated; [|lia|..].
  - rewrite (malloc_loop_exhausted km n M1 _ r Hi1 Hres) by (rewrite Hc; lia).
    split; [done|lia].
Qed.

(** * Clearing the new pages *)

Lemma allocated_translate km M g r n M' g' x :
  allocated km M g r n M' g' → 0 ≤ r → r + n ≤ nbits (vbm km) → 0 ≤ x < 4096 * n →
  ∃ i, 0 ≤ i < nbits (kbm km) ∧ bit g (kbm km) i = false
    ∧ KBASE ≤ heap_addr r + x < KTOP
    ∧ kpage (heap_addr r + x) = 256 + r + x / 4096
    ∧ frame (kpte M' (256 + r + x / 4096)) = pool_frame (kernel_pool km) i
    ∧ translate M' (heap_addr r + x) = Some (pool_frame (kernel_pool km) i + x mod 4096).
Proof.
  intros Ha Hr Hn Hx. pose proof (al_inv _ _ _ _ _ _ _ Ha) as Hi.
  pose proof (mi_vtop _ _ _ Hi) as Htop.
  destruct (al_new _ _ _ _ _ _ _ Ha (x / 4096)) as (i & Hir & Hf & Ht & E); [zdm|].
  assert (kpage (heap_addr r + x) = 256 + r + x / 4096) as Hkp.
  { unfold kpage, heap_addr, KBASE, K_HEAP_START. zdm. }
  assert (KBASE ≤ heap_addr r + x < KTOP) as Hrange.
  { unfold heap_addr, KBASE, K_HEAP_START, KTOP in *. lia. }
  destruct (pool_frame_props _ _ (mi_kpool _ _ _ Hi) Hir) as (? & ? & ?).
  destruct (entry_props (pool_frame (kernel_pool km) i)) as (_ & Hp & Hfr); [lia..|done|].
  exists i. split_and!; try done; try lia.
  - by rewrite E, Hfr.
  - rewrite kspace_translate by (done || apply Hi). rewrite Hkp, E, Hp, Hfr.
    do 2 f_equal. unfold heap_addr, K_HEAP_START. zdm.
Qed.

(** The bitmap bytes together with the bytes of the new pages. *)
Definition heap_map (M : machine) (g : gmap Z Z) (va : Z) (n : nat) : gmap Z Z :=
  write_bytes g va
    ((λ i : nat, match translate M (va + Z.of_nat i) with
                 | Some pa => rd8 (pm M) pa | None => 0 end) <$> seq 0 n).

Lemma heap_map_in M g va n x pa :
  0 ≤ x < Z.of_nat n → translate M (va + x) = Some pa →
  heap_map M g va n !! (va + x) = Some (rd8 (pm M) pa).
Proof.
  intros Hx Ht. unfold heap_map. rewrite <- (Z2Nat.id x) by lia.
  apply lookup_write_bytes_in. rewrite list_lookup_fmap, lookup_seq_lt by lia. simpl.
  rewrite Z2Nat.id, Ht by lia. done.
Qed.

Lemma heap_map_out M g va n a :
  a < va ∨ va + Z.of_nat n ≤ a → heap_map M g va n !! a = g !! a.
Proof.
  intros [Ha|Ha]; unfold heap_map.
  - by apply lookup_write_bytes_lt.
  - apply lookup_write_bytes_ge. rewrite length_fmap, length_seq. lia.
Qed.

Lemma paged_holds_mono M g G : paged_holds M G → g ⊆ G → paged_holds M g.
Proof.
  intros H Hsub a v Ha. pose proof (lookup_weaken _ _ _ _ Ha Hsub) as Ha'.
  destruct (H a v Ha') as (Hv & pa & Ht & Hr & Ho). split; [done|].
  exists pa. split_and!; auto. intros b w Hb. apply (Ho b w). by eapply lookup_weaken.
Qed.

Section clearing.
Context (km : kmem) (M : machine) (g : gmap Z Z) (r : Z) (n : nat) (M' : machine) (g' : gmap Z Z).
Context (Hinv : mem_inv km M g) (Ha : allocated km M g r (Z.of_nat n) M' g').
Context (Hr : 0 ≤ r) (Hn : r + Z.of_nat n ≤ nbits (vbm km)).

Let N : nat := Z.to_nat (4096 * Z.of_nat n).
Let G : gmap Z Z := heap_map M' g' (heap_addr r) N.

(** Where the bytes of [G] are. *)
Lemma heap_map_dom a v :
  G !! a = Some v →
  KBASE ≤ a < KTOP ∧ 0 ≤ v < 256 ∧ ∃ pa, translate M' a = Some pa ∧ rd8 (pm M') pa = v
  ∧ ((a < K_HEAP_START ∧ pa = a - KBASE ∧ g' !! a = Some v)
     ∨ (∃ x i, 0 ≤ x < 4096 * Z.of_nat n ∧ a = heap_addr r + x
          ∧ 0 ≤ i < nbits (kbm km) ∧ bit g (kbm km) i = false
          ∧ frame (kpte M' (256 + r + x / 4096)) = pool_frame (kernel_pool km) i
          ∧ pa = pool_frame (kernel_pool km) i + x mod 4096)).
Proof.
  intros HG. pose proof (al_inv _ _ _ _ _ _ _ Ha) as Hi'.
  destruct (decide (heap_addr r ≤ a < heap_addr r + 4096 * Z.of_nat n)) as [Hin|Hout].
  - destruct (allocated_translate km M g r (Z.of_nat n) M' g' (a - heap_addr r))
      as (i & Hir & Hf & Hrange & Hkp & Hfr & Ht); auto with lia.
    replace (heap_addr r + (a - heap_addr r)) with a in * by lia.
    unfold G in HG. replace a with (heap_addr r + (a - heap_addr r)) in HG by lia.
    rewrite (heap_map_in M' g' (heap_addr r) N _
      (pool_frame (kernel_pool km) i + (a - heap_addr r) mod 4096)) in HG;
      [|unfold N; lia|by replace (heap_addr r + (a - heap_addr r)) with a by lia].
    injection HG as <-. split_and!; try apply rd8_range; try lia.
    eexists. split_and!; [done|done|]. right. exists (a - heap_addr r), i.
    split_and!; auto; lia.
  - unfold G in HG. rewrite heap_map_out in HG by (unfold N; lia).
    pose proof (mi_low _ _ _ Hi' a ltac:(by eexists)) as Hlow.
    destruct (low_read M' g' a v) as [Hv Hrd]; try done; try by apply Hi'.
    split_and!; try (unfold KBASE, K_HEAP_START, KTOP in *; lia).
    exists (a - KBASE). split_and!; auto.
    + apply kspace_translate_low; [apply Hi'|done].
    + left. split_and!; auto. lia.
Qed.

Lemma new_frame_dir i :
  0 ≤ i < nbits (kbm km) → bit g (kbm km) i = false →
  pool_frame (kernel_pool km) i + 4096 ≤ frame (cr3 M')
  ∨ frame (cr3 M') + 4096 ≤ pool_frame (kernel_pool km) i.
Proof.
  intros Hir Hf. pose proof (fu_dir _ _ (mi_kfree _ _ _ Hinv i Hir Hf)) as Hne.
  rewrite (al_cr3 _ _ _ _ _ _ _ Ha).
  destruct (pool_frame_props _ _ (mi_kpool _ _ _ Hinv) Hir) as (_ & _ & H1).
  destruct (ks_self _ (mi_space _ _ _ Hinv)) as (Hc & _).
  destruct (frame_props _ Hc) as (_ & _ & H2 & _). zdm.
Qed.

(** No byte of [G] belongs to the directory or to the kernel tables. *)
Lemma heap_map_apart a v pa :
  G !! a = Some v → translate M' a = Some pa →
  (pa < 0x100000 ∨ 0x200000 ≤ pa)
  ∧ ¬ (frame (cr3 M') ≤ pa < frame (cr3 M') + 4096).
Proof.
  intros HG Ht. destruct (heap_map_dom a v HG) as (Hrange & _ & pa' & Ht' & _ & Hc).
  assert (pa' = pa) as -> by congruence.
  pose proof (kspace_dir_range M' (mi_space _ _ _ (al_inv _ _ _ _ _ _ _ Ha))) as [Hd _].
  destruct Hc as [(Hlo & -> & _)|(x & i & Hx & -> & Hir & Hf & _ & ->)].
  - unfold KBASE, K_HEAP_START, PAGE_DIR_TABLE_POS in *. lia.
  - destruct (pool_frame_props _ _ (mi_kpool _ _ _ Hinv) Hir) as (? & _ & _).
    pose proof (new_frame_dir i Hir Hf). pose proof (Z.mod_pos_bound x 4096). lia.
Qed.

Lemma heap_map_holds : paged_holds M' G.
Proof.
  pose proof (mi_space _ _ _ (al_inv _ _ _ _ _ _ _ Ha)) as Hk.
  intros a v HG. destruct (heap_map_dom a v HG) as (Hrange & Hv & pa & Ht & Hrd & Hc).
  split; [done|]. exists pa. split_and!; auto. intros b w HGb.
  destruct (heap_map_dom b w HGb) as (Hrb & _ & pb & Htb & _ & Hcb). split.
  - intros E. assert (pb = pa) as -> by congruence.
    destruct Hc as [(Hlo & E1 & _)|(x & i & Hx & -> & Hir & Hf & Hfr & E1)];
      destruct Hcb as [(Hlob & E2 & _)|(y & i' & Hy & -> & Hir' & Hf' & Hfr' & E2)].
    + lia.
    + destruct (pool_frame_props _ _ (mi_kpool _ _ _ Hinv) Hir') as (? & _ & _).
      pose proof (Z.mod_pos_bound y 4096). unfold KBASE, K_HEAP_START in *. lia.
    + destruct (pool_frame_props _ _ (mi_kpool _ _ _ Hinv) Hir) as (? & _ & _).
      pose proof (Z.mod_pos_bound x 4096). unfold KBASE, K_HEAP_START in *. lia.
    + destruct (pool_frame_props _ _ (mi_kpool _ _ _ Hinv) Hir) as (_ & _ & Hm).
      destruct (pool_frame_props _ _ (mi_kpool _ _ _ Hinv) Hir') as (_ & _ & Hm').
      assert (pool_frame (kernel_pool km) i = pool_frame (kernel_pool km) i') as Ef by zdm.
      assert (y / 4096 = x / 4096).
      { apply (al_inj _ _ _ _ _ _ _ Ha); [zdm..|]. congruence. }
      f_equal. zdm.
  - intros Hw. destruct (heap_map_apart a v pa HG Ht) as [Hp1 Hp2].
    apply kspace_walk in Hw; [|done..]. pose proof (kpage_range b Hrb).
    unfold KTABLES in *. lia.
Qed.

Lemma clear_framed :
  ∃ M2, memset M' (heap_addr r) 0 (4096 * Z.of_nat n) = Ok M2
    ∧ framed M' G M2 (write_bytes G (heap_addr r) (replicate N 0)).
Proof.
  pose proof (mi_vtop _ _ _ Hinv) as Htop.
  destruct (memset_holds (ByteMemSpec0 := framed_spec M' G) M' G (heap_addr r) 0
    (4096 * Z.of_nat n)) as (M2 & HM2 & Hf); eauto; try (unfold heap_addr, K_HEAP_START, KTOP in *; lia).
  - apply framed_refl, heap_map_holds.
  - intros x Hx. destruct (allocated_translate km M g r (Z.of_nat n) M' g' x)
      as (i & _ & _ & _ & _ & _ & Ht); auto with lia.
    unfold G. erewrite heap_map_in; [|unfold N; lia|done]. eauto.
Qed.

Lemma clear_tables M2 g2 : framed M' G M2 g2 → same_tables M' M2.
Proof.
  intros (_ & Hc & _ & _ & Hx). split; [done|]. intros x Hxr. apply Hx.
  intros a [v HG] Ht. destruct (heap_map_apart a v x HG Ht) as [Hp1 Hp2].
  destruct Hxr; [lia|done].
Qed.

(** Stores to the new pages that leave the bitmaps alone keep the result of
    the allocation. *)
Lemma allocated_stores M2 g2 :
  framed M' G M2 g2 → g' ⊆ g2 → allocated km M g r (Z.of_nat n) M2 g'.
Proof.
  intros Hf Hsub. pose proof (clear_tables _ _ Hf) as Hst.
  pose proof (al_inv _ _ _ _ _ _ _ Ha) as Hi'. pose proof (mi_vtop _ _ _ Hinv) as Htop.
  assert (Htop' : 256 + r + Z.of_nat n ≤ 255 * 1024) by (unfold K_HEAP_START, KTOP in *; lia).
  split; try by apply Ha.
  - split; try by apply Hi'.
    + by apply (kspace_same_tables M'); [apply Hi'|].
    + by apply (paged_holds_mono _ _ _ (proj1 Hf)).
    + intros j Hj Hb. rewrite (kpte_same_tables M' M2); [by apply (mi_unmapped _ _ _ Hi')|done|].
      unfold K_HEAP_START, KTOP in *; lia.
    + intros i Hir Hb. apply (frame_unused_same M'); [done|]. by apply (mi_kfree _ _ _ Hi').
    + intros i Hir Hb. apply (frame_unused_same M'); [done|]. by apply (mi_ufree _ _ _ Hi').
  - intros k Hk. rewrite (kpte_same_tables M' M2) by (done || lia).
    by apply (al_new _ _ _ _ _ _ _ Ha).
  - intros k k' Hk Hk'. rewrite !(kpte_same_tables M' M2) by (done || lia).
    by apply (al_inj _ _ _ _ _ _ _ Ha).
  - intros k Hk Hout. rewrite (kpte_same_tables M' M2) by done.
    by apply (al_old _ _ _ _ _ _ _ Ha).
  - intros x Hx Hnot. rewrite <- (al_mem _ _ _ _ _ _ _ Ha); [|done|].
    + apply Hf. intros a [v HG] Ht.
      destruct (heap_map_dom a v HG) as (_ & _ & pa & Ht' & _ & Hc).
      assert (pa = x) as -> by congruence.
      destruct Hc as [(? & -> & _)|(y & i & Hy & -> & Hir & _ & Hfr & ->)];
        [unfold KBASE, K_HEAP_START in *; lia|].
      apply (Hnot (y / 4096)); [zdm|]. rewrite (kpte_same_tables M' M2) by (done || zdm).
      rewrite Hfr. pose proof (Z.mod_pos_bound y 4096). lia.
    + intros k Hk. rewrite <- (kpte_same_tables M' M2) by (done || lia). by apply Hnot.
  - rewrite (proj1 Hst). apply (al_cr3 _ _ _ _ _ _ _ Ha).
Qed.

Lemma heap_map_low : g' ⊆ G.
Proof.
  apply map_subseteq_spec. intros a v Hav.
  pose proof (mi_low _ _ _ (al_inv _ _ _ _ _ _ _ Ha) a ltac:(by eexists)) as Hlow.
  unfold G. rewrite heap_map_out; [done|]. unfold heap_addr, KBASE, K_HEAP_START in *; lia.
Qed.

Lemma clear_pages :
  ∃ M2, memset M' (heap_addr r) 0 (4096 * Z.of_nat n) = Ok M2
    ∧ allocated km M g r (Z.of_nat n) M2 g'
    ∧ ∀ x, 0 ≤ x < 4096 * Z.of_nat n → load8 M2 (heap_addr r + x) = Ok 0.
Proof.
  destruct clear_framed as (M2 & Hms & Hf). exists M2. split_and!; [done| |].
  - apply (allocated_stores _ _ Hf). apply map_subseteq_spec. intros a v Hav.
    pose proof (mi_low _ _ _ (al_inv _ _ _ _ _ _ _ Ha) a ltac:(by eexists)) as Hlow.
    rewrite lookup_write_bytes_lt by (unfold heap_addr, KBASE, K_HEAP_START in *; lia).
    by eapply lookup_weaken, heap_map_low.
  - intros x Hx. apply (load8_holds (ByteMemSpec := framed_spec M' G) M2 _ _ 0 Hf).
    rewrite <- (Z2Nat.id x) by lia. apply lookup_write_bytes_in.
    apply lookup_replicate. unfold N. split; [done|lia].
Qed.
End clearing.

(** [get_kernel_pages] with enough frames, in the terms of [allocated]. *)
Lemma get_kernel_pages_holds km cur M g n s :
  mem_inv km M g → (0 < n)%nat → Z.of_nat n < 3840 → 0 ≤ s →
  s + Z.of_nat n ≤ nbits (vbm km) → window g (vbm km) s (Z.of_nat n) →
  (n ≤ free_count g (kbm km))%nat →
  ∃ r M' g', get_kernel_pages km cur M (Z.of_nat n) = Ok (heap_addr r, M')
    ∧ 0 ≤ r ≤ s ∧ window g (vbm km) r (Z.of_nat n)
    ∧ (∀ s', 0 ≤ s' < r → ¬ window g (vbm km) s' (Z.of_nat n))
    ∧ allocated km M g r (Z.of_nat n) M' g'
    ∧ ∀ x, 0 ≤ x < 4096 * Z.of_nat n → load8 M' (heap_addr r + x) = Ok 0.
Proof.
  intros Hi Hn Hmax Hs Hsn Hw Hc.
  destruct (malloc_page_kernel km cur M g n s)
    as [(r & M1 & g' & HM & Hr & Hwr & Hl & Ha & _)|[_ ?]]; auto; [|lia].
  destruct (clear_pages km M g r n M1 g') as (M2 & Hms & Ha2 & Hz); auto with lia.
  exists r, M2, g'. split_and!; auto; try lia.
  unfold get_kernel_pages. rewrite HM. rb.
  destruct (Z.eqb_spec (heap_addr r) NULL) as [E|_].
  { by apply (heap_addr_not_null km M g) in E; [|done|lia]. }
  simpl negb. cbv iota. unfold PG_SIZE. rewrite u32_small by lia.
  rewrite Z.mul_comm, Hms. done.
Qed.

(** A mapped kernel address outside the kernel's first 2 MB of memory keeps
    its frame and its byte. *)
Lemma allocated_keeps km M g r n M' g' va pa :
  mem_inv km M g → allocated km M g r n M' g' → 0 ≤ r → r + n ≤ nbits (vbm km) →
  window g (vbm km) r n → KBASE ≤ va < KTOP → translate M va = Some pa → 0x200000 ≤ pa →
  translate M' va = Some pa ∧ rd8 (pm M') pa = rd8 (pm M) pa.
Proof.
  intros Hi Ha Hr Hn Hw Hva Ht Hpa. pose proof (kpage_range va Hva) as Hkr.
  pose proof (al_inv _ _ _ _ _ _ _ Ha) as Hi'.
  rewrite kspace_translate in Ht by (done || apply Hi).
  destruct (present (kpte M (kpage va))) eqn:Hp; [|done]. injection Ht as <-.
  assert (Hout : kpage va < 256 + r ∨ 256 + r + n ≤ kpage va).
  { destruct (decide (256 + r ≤ kpage va < 256 + r + n)); [|lia].
    pose proof (mi_unmapped _ _ _ Hi (kpage va - 256)) as Hu.
    replace (256 + (kpage va - 256)) with (kpage va) in Hu by lia.
    rewrite Hu in Hp; [done|lia|]. apply Hw. lia. }
  split.
  - rewrite kspace_translate by (done || apply Hi').
    by rewrite (al_old _ _ _ _ _ _ _ Ha), Hp by done.
  - apply (al_mem _ _ _ _ _ _ _ Ha); [by right|]. intros k Hk.
    destruct (al_new _ _ _ _ _ _ _ Ha k Hk) as (i & Hir & Hf & _ & ->).
    destruct (pool_frame_props _ _ (mi_kpool _ _ _ Hi) Hir) as (? & ? & ?).
    destruct (entry_props (pool_frame (kernel_pool km) i)) as (_ & _ & ->); [lia..|done|].
    pose proof (fu_kernel _ _ (mi_kfree _ _ _ Hi i Hir Hf) _ Hkr Hp).
    destruct (frame_props (kpte M (kpage va)) (rd32_range _ _)) as (_ & _ & Hal & _). zdm.
Qed.
