(* ===== verification/MemInit.v ===== *)
(** [mem_pool_init] of kernel/memory.c: the pools laid out for every memory
    size, the bitmaps they leave behind and the allocator's invariant on the
    machine boot/loader.S hands over. *)
From S2P Require Import Prelude ByteMem CString Bitmap Paging Memory.

(** * [mem_pool_init] *)

Section layout.
Context (all_mem : Z) (Hmem : 0x200000 ≤ all_mem < 2 ^ 32).

Let free_pages : Z := u16 ((all_mem - 0x200000) / 4096).

Lemma free_pages_range : 0 ≤ free_pages < 65536.
Proof. apply u16_range. Qed.

Lemma free_pages_le : 0x200000 + 4096 * free_pages ≤ all_mem.
Proof.
  assert (free_pages ≤ (all_mem - 0x200000) / 4096); [|zdm].
  unfold free_pages, u16. apply Z.mod_le; zdm.
Qed.

(** The layout in plain arithmetic. *)
Lemma pool_layout_eq :
  let kf := free_pages / 2 in
  let uf := free_pages - kf in
  pool_layout all_mem
  = KMem (Pool (Bitmap (kf / 8) MEM_BITMAP_BASE) 0x200000 (kf * 4096))
         (Pool (Bitmap (uf / 8) (MEM_BITMAP_BASE + kf / 8)) (0x200000 + kf * 4096) (uf * 4096))
         (VirtualAddr (Bitmap (kf / 8) (MEM_BITMAP_BASE + kf / 8 + uf / 8)) K_HEAP_START).
Proof.
  pose proof free_pages_range as Hr. pose proof free_pages_le as Hle. unfold free_pages in *.
  unfold pool_layout, PG_SIZE, MEM_BITMAP_BASE, K_HEAP_START.
  change (u32 (u32 (4096 * 256) + 0x100000)) with 0x200000.
  rewrite (u32_small (all_mem - 0x200000)) by lia.
  set (fp := u16 ((all_mem - 0x200000) / 4096)) in *. clearbody fp.
  rewrite !(u16_small (fp / 2)) by zdm.
  rewrite !(u16_small (fp - fp / 2)) by zdm.
  rewrite !u32_small by zdm. done.
Qed.
End layout.

(** The page count is kept in 16 bits: a machine of [all_mem] bytes is run as
    one of [usable_mem all_mem] bytes. *)
Definition usable_mem (all_mem : Z) : Z :=
  0x200000 + PG_SIZE * u16 (u32 (all_mem - 0x200000) / PG_SIZE).

Lemma usable_mem_range all_mem : 0x200000 ≤ usable_mem all_mem < 0x10200000.
Proof.
  unfold usable_mem, PG_SIZE. pose proof (u16_range (u32 (all_mem - 0x200000) / 4096)). lia.
Qed.

Lemma pool_layout_usable all_mem : pool_layout all_mem = pool_layout (usable_mem all_mem).
Proof.
  unfold pool_layout. change (u32 (u32 (PG_SIZE * 256) + 0x100000)) with 0x200000.
  assert (u16 (u32 (usable_mem all_mem - 0x200000) / PG_SIZE) = u16 (u32 (all_mem - 0x200000) / PG_SIZE)) as ->;
    [|done].
  unfold usable_mem. pose proof (u16_range (u32 (all_mem - 0x200000) / PG_SIZE)) as Hr.
  set (q := u16 (u32 (all_mem - 0x200000) / PG_SIZE)) in *. unfold PG_SIZE in *.
  replace (0x200000 + 4096 * q - 0x200000) with (q * 4096) by lia.
  by rewrite u32_small, Z.div_mul, u16_small by lia.
Qed.

Lemma mem_pool_init_usable M all_mem :
  mem_pool_init M all_mem = mem_pool_init M (usable_mem all_mem).
Proof. unfold mem_pool_init. by rewrite pool_layout_usable. Qed.

(** [n] bytes of the low megabyte, as a map. *)
Definition region_map (M : machine) (a : Z) (n : nat) : gmap Z Z := heap_map M ∅ a n.

Lemma region_map_lookup M a n b :
  kspace M → KBASE ≤ a → a + Z.of_nat n ≤ K_HEAP_START →
  region_map M a n !! b
  = if decide (a ≤ b < a + Z.of_nat n) then Some (rd8 (pm M) (b - KBASE)) else None.
Proof.
  intros Hk Ha Hn. unfold region_map. case_decide as Hd.
  - replace b with (a + (b - a)) by lia. erewrite heap_map_in; [|lia|].
    + by replace (a + (b - a)) with b by lia.
    + replace (a + (b - a)) with b by lia. apply kspace_translate_low; [done|lia].
  - by rewrite heap_map_out by lia.
Qed.

Lemma region_map_holds M a n :
  kspace M → KBASE ≤ a → a + Z.of_nat n ≤ K_HEAP_START →
  low_map (region_map M a n) ∧ paged_holds M (region_map M a n)
  ∧ owned (region_map M a n) a (Z.of_nat n).
Proof.
  intros Hk Ha Hn.
  assert (Hlow : low_map (region_map M a n)).
  { intros b. rewrite region_map_lookup by done. case_decide; [lia|].
    intros [? ?]. done. }
  split_and!; auto.
  - apply kspace_holds; auto. intros b v. rewrite region_map_lookup by done.
    case_decide; [|done]. intros [= <-]. split; [apply rd8_range|done].
  - intros i Hi. rewrite region_map_lookup, decide_True by (done || lia). eauto.
Qed.

(** Initialising a bitmap keeps the other two as they are. *)
Lemma window_keep g g' b b' :
  window g b 0 (nbits b) →
  (∀ a, a < bits b' ∨ bits b' + btmp_bytes_len b' ≤ a → g' !! a = g !! a) →
  bits b + btmp_bytes_len b ≤ bits b' →
  window g' b 0 (nbits b).
Proof.
  intros Hw Hsame Hsep i Hi. specialize (Hw i Hi). unfold bit, nbits in *.
  rewrite Hsame; [done|]. left. zdm.
Qed.

Lemma bm_wf_framed M g0 M' g' b : framed M g0 M' g' → bm_wf g0 b → bm_wf g' b.
Proof.
  intros (_ & _ & Hdom & _) (? & ? & ? & Hob). split_and!; try lia.
  intros i Hi. apply Hdom. by apply Hob.
Qed.

(** The three [bitmap_init]s of [mem_pool_init]. *)
Lemma init_bitmaps M g0 kb ub vb :
  paged_holds M g0 → bm_wf g0 kb → bm_wf g0 ub → bm_wf g0 vb →
  bits kb + btmp_bytes_len kb ≤ bits ub → bits ub + btmp_bytes_len ub ≤ bits vb →
  ∃ M' g', (M1 ← bitmap_init M kb; M2 ← bitmap_init M1 ub; bitmap_init M2 vb) = Ok M'
    ∧ framed M g0 M' g'
    ∧ window g' kb 0 (nbits kb) ∧ window g' ub 0 (nbits ub) ∧ window g' vb 0 (nbits vb).
Proof.
  intros Hh Hwk Hwu Hwv Hku Huv. pose proof Hwu as (_ & Hlu & _).
  destruct (bitmap_init_holds (ByteMemSpec0 := framed_spec M g0) M g0 kb)
    as (M1 & g1 & -> & Hf1 & _ & Hw1 & _); [by apply framed_refl|done|]. rb.
  destruct (bitmap_init_holds (ByteMemSpec0 := framed_spec M g0) M1 g1 ub)
    as (M2 & g2 & -> & Hf2 & _ & Hw2 & Hs2); [done|by apply (bm_wf_framed M g0 M1)|]. rb.
  destruct (bitmap_init_holds (ByteMemSpec0 := framed_spec M g0) M2 g2 vb)
    as (M3 & g3 & -> & Hf3 & _ & Hw3 & Hs3); [done|by apply (bm_wf_framed M g0 M2)|].
  exists M3, g3. split_and!; auto.
  - apply (window_keep g2 g3 kb vb); [|done|lia]. by apply (window_keep g1 g2 kb ub).
  - by apply (window_keep g2 g3 ub vb).
Qed.

(** What [mem_inv] asks of the three structures alone. *)
Record layout_wf (km : kmem) : Prop := {
  lw_k : MEM_BITMAP_BASE = bits (kbm km) ∧ 1 ≤ btmp_bytes_len (kbm km) ≤ 4096;
  lw_u : bits (ubm km) = bits (kbm km) + btmp_bytes_len (kbm km)
       ∧ 1 ≤ btmp_bytes_len (ubm km) ≤ 4096;
  lw_v : bits (vbm km) = bits (ubm km) + btmp_bytes_len (ubm km)
       ∧ btmp_bytes_len (vbm km) = btmp_bytes_len (kbm km);
  lw_kpool : pool_wf (kernel_pool km);
  lw_upool : pool_wf (user_pool km);
  lw_pools : pool_frame (kernel_pool km) (nbits (kbm km)) ≤ phy_addr_start (user_pool km);
  lw_vstart : vaddr_start (kernel_vaddr km) = K_HEAP_START;
}.

Lemma pool_layout_wf all_mem :
  0x210000 ≤ all_mem < 0x10200000 → layout_wf (pool_layout all_mem).
Proof.
  intros Hmem. rewrite pool_layout_eq by lia. cbv zeta.
  rewrite (u16_small ((all_mem - 0x200000) / 4096)) by zdm.
  split; unfold pool_wf, pool_frame, nbits, PG_SIZE, MEM_BITMAP_BASE; simpl; try done; zdm.
Qed.

(** A fresh machine: the directory and the first table as the loader leaves
    them, and no entry of the other kernel tables, which the loader does not
    write, marked present. *)
Record fresh_machine (M : machine) : Prop := {
  fm_space : kspace M;
  fm_dir : frame (cr3 M) = PAGE_DIR_TABLE_POS;
  fm_heap i : 256 ≤ i < 255 * 1024 → present (kpte M i) = false;
  fm_user i : 0 ≤ i < 768 → present (dir_entry M i) = true → frame (dir_entry M i) < 0x200000;
  (* the first table serves the lowest addresses too *)
  fm_ident : present (dir_entry M 0) = true ∧ frame (dir_entry M 0) = KTABLES;
}.

(** The lowest megabyte is mapped to itself by way of that table. *)
Lemma ident_translate M va :
  kspace M → present (dir_entry M 0) = true → frame (dir_entry M 0) = KTABLES →
  0 ≤ va < 0x100000 → translate M va = Some va.
Proof.
  intros Hk Hp Hf Hva. unfold dir_entry in *. unfold translate, pte_at, pte_addr, pde_at, pde_addr.
  replace (va / 2 ^ 22) with 0 by zdm. rewrite Hp, Hf.
  replace ((va / 2 ^ 12) mod 2 ^ 10) with (va / 4096) by zdm.
  destruct (ks_low M Hk (va / 4096)) as [Hp' Hf']; [zdm|]. unfold kpte in Hp', Hf'.
  rewrite Hp', Hf'. f_equal. zdm.
Qed.

Lemma fresh_unused M M' f :
  fresh_machine M → same_high M M' → 0x200000 ≤ f → frame_unused M' f.
Proof.
  intros Hm Hh Hf. split.
  - rewrite (proj1 Hh), (fm_dir M Hm). unfold PAGE_DIR_TABLE_POS. lia.
  - intros i Hi. rewrite (kpte_same_high M M') by (done || lia).
    destruct (decide (i < 256)).
    + destruct (ks_low M (fm_space M Hm) i) as [_ ->]; lia.
    + by rewrite (fm_heap M Hm) by lia.
  - intros i Hi. rewrite (dir_entry_same_tables M M');
      [|by apply same_high_tables; [apply Hm|]|lia].
    intros Hp. apply (fm_user M Hm) in Hp; [lia|done].
Qed.

Lemma fresh_mem_inv km M g0 M' g' :
  fresh_machine M → layout_wf km → low_map g0 →
  bm_wf g0 (kbm km) → bm_wf g0 (ubm km) → bm_wf g0 (vbm km) →
  framed M g0 M' g' → mem_inv km M' g'.
Proof.
  intros Hm Hl Hlow Hwk Hwu Hwv Hf. pose proof (fm_space M Hm) as Hk.
  pose proof (framed_same_high _ _ _ _ Hk Hlow Hf) as Hh.
  destruct (lw_k km Hl), (lw_u km Hl), (lw_v km Hl) as [? Hlv].
  destruct (lw_kpool km Hl) as (? & _), (lw_upool km Hl) as (? & _).
  split; try (by apply Hl); try (by apply (bm_wf_framed M g0 M')).
  - by apply (kspace_same_high M).
  - by eapply low_map_framed.
  - apply Hf.
  - lia.
  - lia.
  - unfold nbits, K_HEAP_START, KTOP in *. rewrite Hlv. lia.
  - intros j Hj _. rewrite (kpte_same_high M M') by (done || lia). apply Hm.
    unfold nbits in Hj. lia.
  - intros i Hi _. apply (fresh_unused M); auto. unfold pool_frame, PG_SIZE. lia.
  - intros i Hi _. apply (fresh_unused M); auto. unfold pool_frame, PG_SIZE. lia.
Qed.

Lemma mem_pool_init_region M all_mem :
  fresh_machine M → 0x210000 ≤ all_mem < 0x10200000 →
  let km := pool_layout all_mem in
  ∃ M' g, mem_pool_init M all_mem = Ok (km, M') ∧ mem_inv km M' g ∧ same_high M M'
    ∧ window g (kbm km) 0 (nbits (kbm km)) ∧ window g (ubm km) 0 (nbits (ubm km))
    ∧ window g (vbm km) 0 (nbits (vbm km)) ∧ ∀ a, is_Some (g !! a) → MEM_BITMAP_BASE ≤ a.
Proof.
  intros Hm Hmem km. pose proof (pool_layout_wf all_mem Hmem) as Hl. fold km in Hl.
  pose proof (fm_space M Hm) as Hk.
  destruct (lw_k km Hl) as [Ek Hlk], (lw_u km Hl) as [Eu Hlu], (lw_v km Hl) as [Ev Hlv].
  set (n := Z.to_nat (2 * btmp_bytes_len (kbm km) + btmp_bytes_len (ubm km) + 1)).
  destruct (region_map_holds M MEM_BITMAP_BASE n) as (Hlow & Hh & Ho);
    [done|unfold MEM_BITMAP_BASE, KBASE; lia|unfold n, MEM_BITMAP_BASE, K_HEAP_START; lia|].
  set (g0 := region_map M MEM_BITMAP_BASE n) in *.
  assert (Hwf : ∀ b, MEM_BITMAP_BASE ≤ bits b → 1 ≤ btmp_bytes_len b ≤ 4096 →
    bits b + btmp_bytes_len b + 1 ≤ MEM_BITMAP_BASE + Z.of_nat n → bm_wf g0 b).
  { intros b Hb Hlb Hend. unfold n, MEM_BITMAP_BASE in *. split_and!; try lia. intros i Hi.
    replace (bits b + i) with (0xc009a000 + (bits b + i - 0xc009a000)) by lia. apply Ho. lia. }
  assert (Hwk : bm_wf g0 (kbm km)) by (apply Hwf; lia).
  assert (Hwu : bm_wf g0 (ubm km)) by (apply Hwf; lia).
  assert (Hwv : bm_wf g0 (vbm km)) by (apply Hwf; lia).
  destruct (init_bitmaps M g0 (kbm km) (ubm km) (vbm km)) as (M' & g' & Hi & Hf & Hw);
    auto with lia.
  exists M', g'. split_and!; try apply Hw.
  - unfold mem_pool_init. fold km. apply bind_ok_inv in Hi as (M1 & -> & Hi). rb.
    apply bind_ok_inv in Hi as (M2 & -> & Hi). rb. rewrite Hi. done.
  - by apply (fresh_mem_inv km M g0).
  - by apply (framed_same_high M g0 M' g').
  - intros a Ha. pose proof Hf as (_ & _ & Hdom & _). apply Hdom in Ha. unfold g0 in Ha.
    rewrite region_map_lookup in Ha; [|done|unfold MEM_BITMAP_BASE, KBASE; lia
      |unfold n, MEM_BITMAP_BASE, K_HEAP_START; lia].
    case_decide; [lia|]. by destruct Ha.
Qed.

Lemma mem_pool_init_holds M all_mem :
  fresh_machine M → 0x210000 ≤ all_mem < 0x10200000 →
  let km := pool_layout all_mem in
  ∃ M' g, mem_pool_init M all_mem = Ok (km, M') ∧ mem_inv km M' g ∧ same_high M M'
    ∧ window g (kbm km) 0 (nbits (kbm km)) ∧ window g (ubm km) 0 (nbits (ubm km))
    ∧ window g (vbm km) 0 (nbits (vbm km)).
Proof.
  intros Hm Hmem. destruct (mem_pool_init_region M all_mem Hm Hmem)
    as (M' & g & E & Hi & Hh & Hk & Hu & Hv & _). exists M', g. by split_and!.
Qed.
