(* ===== verification/PageTable.v ===== *)
(** The second branch of [page_table_add] (kernel/memory.c): a frame becomes a
    new page table of the user half. *)
From S2P Require Import Prelude ByteMem CString Bitmap Paging Memory.

(** * Mapping into a fresh page table

    The second branch of [page_table_add]: the directory has no entry for the
    address, so a frame becomes a new page table, is cleared through the self
    map and receives the entry. *)

(** The window through which page table number [idx] appears. *)
Lemma table_window M idx x :
  selfmap M → 0 ≤ idx < 1024 → 0 ≤ x < 4096 →
  translate M (KTOP + 4096 * idx + x)
  = (if present (dir_entry M idx) then Some (frame (dir_entry M idx) + x) else None)
  ∧ ∀ y, walk_byte M (KTOP + 4096 * idx + x) y →
      frame (cr3 M) ≤ y < frame (cr3 M) + 4096.
Proof.
  intros Hs Hi Hx. set (va := KTOP + 4096 * idx + x).
  assert (0xffc00000 ≤ va < 2 ^ 32) by (unfold va, KTOP; lia).
  destruct (pde_at_selfmap M va Hs) as [Hp Hf]; [lia|].
  assert (pte_addr M va = frame (cr3 M) + 4 * idx) as Ha.
  { unfold pte_addr. rewrite Hf. unfold va, KTOP. zdm. }
  split.
  - unfold translate, pte_at. rewrite Hp, Ha. fold (dir_entry M idx).
    destruct (present (dir_entry M idx)); [|done]. do 2 f_equal. unfold va, KTOP. zdm.
  - intros y [Hy|Hy]; [unfold pde_addr, va, KTOP in Hy; zdm|rewrite Ha in Hy; lia].
Qed.

Lemma pte_ptr_page va :
  0 ≤ va < KBASE → Z.land (pte_ptr va) 0xfffff000 = KTOP + 4096 * (va / 2 ^ 22).
Proof.
  intros Hva. unfold KBASE in Hva. change 0xfffff000 with (2 ^ 32 - 2 ^ 12).
  rewrite land_high by (try (apply pte_ptr_range; lia); lia).
  rewrite pte_ptr_eq by lia. unfold KTOP. zdm.
Qed.

(** Clearing one page table through its window. *)
Lemma clear_table M idx f :
  selfmap M → 0 ≤ idx < 1024 → dir_entry M idx = f + 7 →
  0 ≤ f → f + 4096 ≤ 2 ^ 32 → f mod 4096 = 0 → frame (cr3 M) ≠ f →
  ∃ M', memset M (KTOP + 4096 * idx) 0 PG_SIZE = Ok M' ∧ cr3 M' = cr3 M
    ∧ (∀ x, f ≤ x < f + 4096 → rd8 (pm M') x = 0)
    ∧ (∀ x, x < f ∨ f + 4096 ≤ x → rd8 (pm M') x = rd8 (pm M) x).
Proof.
  intros Hs Hi He Hf0 Hf1 Hfa Hne. set (va := KTOP + 4096 * idx).
  destruct (entry_props f) as (_ & Hp & Hfr); [done..|].
  assert (Hd : frame (cr3 M) + 4096 ≤ f ∨ f + 4096 ≤ frame (cr3 M)).
  { destruct (frame_props (cr3 M)) as (_ & _ & Hm & _); [apply Hs|]. zdm. }
  assert (Ht : ∀ x, 0 ≤ x < 4096 → translate M (va + x) = Some (f + x)).
  { intros x Hx. unfold va. destruct (table_window M idx x) as [-> _]; auto. by rewrite He, Hp, Hfr. }
  set (G := heap_map M ∅ va 4096).
  assert (HG : ∀ a v, G !! a = Some v →
    ∃ x, 0 ≤ x < 4096 ∧ a = va + x ∧ v = rd8 (pm M) (f + x)).
  { intros a v Ha. destruct (decide (va ≤ a < va + 4096)).
    - exists (a - va). split_and!; [lia..|]. unfold G in Ha. replace a with (va + (a - va)) in Ha by lia.
      erewrite heap_map_in in Ha; [|lia|apply Ht; lia]. congruence.
    - unfold G in Ha. rewrite heap_map_out in Ha by lia. done. }
  assert (Hh : paged_holds M G).
  { intros a v Ha. destruct (HG a v Ha) as (x & Hx & -> & ->). split; [apply rd8_range|].
    exists (f + x). split_and!; [by apply Ht|done|]. intros b w Hb.
    destruct (HG b w Hb) as (y & Hy & -> & _). split.
    - rewrite Ht by done. intros [= E]. lia.
    - intros Hw. apply (proj2 (table_window M idx y Hs Hi Hy)) in Hw. lia. }
  destruct (memset_holds (ByteMemSpec0 := framed_spec M G) M G va 0 PG_SIZE) as (M' & HM & HF);
    [by apply framed_refl| |unfold va, KTOP, PG_SIZE; lia..|].
  { intros x Hx. unfold G. erewrite heap_map_in; [eauto|unfold PG_SIZE in Hx; lia|].
    apply Ht. by unfold PG_SIZE in Hx. }
  exists M'. split; [done|]. destruct HF as (Hh' & Hc & _ & Htr & Hfr'). split_and!; [done| |].
  - intros x Hx. destruct (Hh' (va + (x - f)) 0) as (_ & pa & Ht' & Hrd & _).
    { rewrite <- (Z2Nat.id (x - f)) by lia. apply lookup_write_bytes_in.
      apply lookup_replicate. unfold PG_SIZE. split; [done|lia]. }
    rewrite Htr, Ht in Ht' by (lia || (unfold G; erewrite heap_map_in; [eauto|lia|apply Ht; lia])).
    injection Ht' as <-. rewrite <- Hrd. f_equal. lia.
  - intros x Hx. apply Hfr'. intros a [v Ha]. destruct (HG a v Ha) as (y & Hy & -> & _).
    rewrite Ht by done. intros [= E]. lia.
Qed.

(** The effect of that branch after its [palloc]: directory entry [idx] points
    to the frame [f], whose only entry is number [k], for the page [p]. *)
Record new_table (M : machine) (idx k f p : Z) (M' : machine) : Prop := {
  nt_cr3 : cr3 M' = cr3 M;
  nt_pde : dir_entry M' idx = f + 7;
  nt_dir i : 0 ≤ i < 1024 → i ≠ idx → dir_entry M' i = dir_entry M i;
  nt_pte j : 0 ≤ j < 1024 → rd32 (pm M') (f + 4 * j) = if decide (j = k) then p + 7 else 0;
  nt_mem x : ¬ (frame (cr3 M) ≤ x < frame (cr3 M) + 4096) → ¬ (f ≤ x < f + 4096) →
    rd8 (pm M') x = rd8 (pm M) x;
}.

Lemma rd32_zero m a : (∀ x, a ≤ x < a + 4 → rd8 m x = 0) → rd32 m a = 0.
Proof. intros H. unfold rd32. by rewrite !H by lia. Qed.

(** Writing one entry of the user half of the directory. *)
Definition set_dir (M : machine) (idx e : Z) : machine :=
  Machine (wr32 (pm M) (frame (cr3 M) + 4 * idx) e) (cr3 M).

Lemma dir_entry_set_dir M idx e i :
  0 ≤ e < 2 ^ 32 →
  dir_entry (set_dir M idx e) i = if decide (i = idx) then e else dir_entry M i.
Proof.
  intros He. unfold dir_entry, set_dir. simpl. case_decide as E.
  - subst i. by apply rd32_wr32_same.
  - apply rd32_wr32_other. lia.
Qed.

(** The self map is entry 1023 of the directory. *)
Lemma selfmap_dir M M' :
  selfmap M → cr3 M' = cr3 M → dir_entry M' 1023 = dir_entry M 1023 → selfmap M'.
Proof.
  intros (Hs1 & Hs2 & Hs3) Hc E. unfold dir_entry in E. change (4 * 1023) with 4092 in E.
  unfold selfmap. rewrite E, Hc. done.
Qed.

Lemma fill_new_table M va f p :
  selfmap M → 0 ≤ va < KBASE →
  0 ≤ f → f + 4096 ≤ 2 ^ 32 → f mod 4096 = 0 → frame (cr3 M) ≠ f →
  0 ≤ p → p + 4096 ≤ 2 ^ 32 → p mod 4096 = 0 →
  ∃ M', (M2 ← store32 M (pde_ptr va) (pg_entry f);
         M3 ← memset M2 (Z.land (pte_ptr va) 0xfffff000) 0 PG_SIZE;
         t ← load32 M3 (pte_ptr va);
         ASSERT (Z.land t 0x00000001 =? 0) "page_table_add";;
         store32 M3 (pte_ptr va) (pg_entry p)) = Ok M'
    ∧ new_table M (va / 2 ^ 22) (va / 2 ^ 12 mod 2 ^ 10) f p M'.
Proof.
  intros Hs Hva Hf0 Hf1 Hfa Hne Hp0 Hp1 Hpa.
  assert (Hva' : 0 ≤ va < 2 ^ 32) by (unfold KBASE in Hva; lia).
  set (idx := va / 2 ^ 22). assert (Hidx : 0 ≤ idx < 768) by (unfold idx, KBASE in *; zdm).
  set (k := va / 2 ^ 12 mod 2 ^ 10). assert (Hkr : 0 ≤ k < 1024) by (apply Z.mod_pos_bound; lia).
  destruct (frame_props _ (proj1 Hs)) as (Hd0 & _ & Hda & _).
  assert (Hsep : frame (cr3 M) + 4096 ≤ f ∨ f + 4096 ≤ frame (cr3 M)) by zdm.
  destruct (entry_props f) as (Hfe & Hfp & Hff); [done..|].
  rewrite store_pde, !pg_entry_eq by done. rb.
  change (Machine (wr32 (pm M) (pde_addr M va) (f + 7)) (cr3 M)) with (set_dir M idx (f + 7)).
  pose proof (dir_entry_set_dir M idx (f + 7)) as Hd2.
  rewrite pte_ptr_page by done. fold idx.
  destruct (clear_table (set_dir M idx (f + 7)) idx f) as (M3 & -> & Hc3 & Hz3 & Ho3); auto; try lia.
  { apply (selfmap_dir M); [done..|]. by rewrite Hd2, decide_False by lia. }
  { by rewrite Hd2, decide_True by lia. }
  rb. change (cr3 M3 = cr3 M) in Hc3.
  assert (Hd3 : ∀ i, 0 ≤ i < 1024 →
    dir_entry M3 i = if decide (i = idx) then f + 7 else dir_entry M i).
  { intros i Hi. rewrite <- Hd2 by done. unfold dir_entry. rewrite Hc3.
    change (cr3 (set_dir M idx (f + 7))) with (cr3 M).
    apply rd32_same. intros x Hx. apply Ho3. lia. }
  assert (Hs3 : selfmap M3).
  { apply (selfmap_dir M); [done..|]. by rewrite Hd3, decide_False by lia. }
  assert (Hpd : pde_at M3 va = f + 7).
  { change (pde_at M3 va) with (dir_entry M3 idx). by rewrite Hd3, decide_True by lia. }
  assert (Hpa3 : pte_addr M3 va = f + 4 * k) by (unfold pte_addr; by rewrite Hpd, Hff).
  assert (Hz : ∀ j, 0 ≤ j < 1024 → rd32 (pm M3) (f + 4 * j) = 0).
  { intros j Hj. apply rd32_zero. intros x Hx. apply Hz3. lia. }
  rewrite load_pte by (done || by rewrite Hpd). rb. unfold pte_at. rewrite Hpa3, Hz by done.
  rewrite assert_true by done. rb.
  rewrite store_pte, Hpa3 by (done || by rewrite Hpd).
  assert (Hd4 : ∀ i, 0 ≤ i < 1024 →
    dir_entry (Machine (wr32 (pm M3) (f + 4 * k) (p + 7)) (cr3 M3)) i = dir_entry M3 i).
  { intros i Hi. unfold dir_entry. simpl. apply rd32_wr32_other. rewrite Hc3. lia. }
  eexists. split; [done|]. split; simpl.
  - done.
  - by rewrite Hd4, Hd3, decide_True by lia.
  - intros i Hi Hni. by rewrite Hd4, Hd3, decide_False by lia.
  - intros j Hj. case_decide as E.
    + subst j. apply rd32_wr32_same. lia.
    + rewrite rd32_wr32_other by lia. by apply Hz.
  - intros x Hx1 Hx2. rewrite rd8_wr32_other by lia. rewrite Ho3 by lia.
    apply rd8_wr32_other. lia.
Qed.

Section new_table.
Context (M : machine) (idx k f p : Z) (M' : machine).
Context (Hk : kspace M) (Hidx : 0 ≤ idx < 768).
Context (Hf : 0x200000 ≤ f) (Hf1 : f + 4096 ≤ 2 ^ 32) (Hfa : f mod 4096 = 0).
Context (Hne : frame (cr3 M) ≠ f) (Hnt : new_table M idx k f p M').

Lemma new_table_apart : frame (cr3 M) + 4096 ≤ f ∨ f + 4096 ≤ frame (cr3 M).
Proof.
  destruct (ks_self M Hk) as (Hc & _). destruct (frame_props _ Hc) as (_ & _ & Hda & _). zdm.
Qed.

Lemma new_table_low x : x < 0x100000 → rd8 (pm M') x = rd8 (pm M) x.
Proof.
  intros Hx. pose proof (kspace_dir_range M Hk) as [Hd _]. unfold PAGE_DIR_TABLE_POS in Hd.
  apply (nt_mem _ _ _ _ _ _ Hnt); lia.
Qed.

Lemma new_table_kpte i : 0 ≤ i < 255 * 1024 → kpte M' i = kpte M i.
Proof.
  intros Hi. pose proof (kspace_dir_range M Hk) as [Hd Hd']. unfold kpte.
  apply rd32_same. unfold KTABLES, PAGE_DIR_TABLE_POS in *. intros x Hx.
  apply (nt_mem _ _ _ _ _ _ Hnt); lia.
Qed.

Lemma new_table_kspace : kspace M'.
Proof.
  split.
  - apply (selfmap_dir M); [apply Hk|apply (nt_cr3 _ _ _ _ _ _ Hnt)|].
    apply (nt_dir _ _ _ _ _ _ Hnt); lia.
  - rewrite (nt_cr3 _ _ _ _ _ _ Hnt). by apply ks_dir.
  - intros i Hi. pose proof (nt_dir _ _ _ _ _ _ Hnt i ltac:(lia) ltac:(lia)) as E.
    unfold dir_entry in E. rewrite E. by apply ks_pde.
  - intros i Hi. rewrite new_table_kpte by lia. by apply ks_low.
  - intros i Hi. destruct (decide (i = idx)) as [->|].
    + change (rd32 (pm M') (frame (cr3 M') + 4 * idx)) with (dir_entry M' idx).
      rewrite (nt_pde _ _ _ _ _ _ Hnt), (nt_cr3 _ _ _ _ _ _ Hnt). intros _.
      rewrite frame_flags by (lia || done). done.
    + pose proof (nt_dir _ _ _ _ _ _ Hnt i ltac:(lia) ltac:(lia)) as E.
      unfold dir_entry in E. rewrite E, (nt_cr3 _ _ _ _ _ _ Hnt). by apply ks_user.
Qed.

Lemma new_table_unused f' : frame_unused M f' → f' ≠ f → frame_unused M' f'.
Proof.
  intros [Hd Hp Hu] Hff. split.
  - by rewrite (nt_cr3 _ _ _ _ _ _ Hnt).
  - intros i Hi. rewrite new_table_kpte by done. by apply Hp.
  - intros i Hi. destruct (decide (i = idx)) as [->|].
    + rewrite (nt_pde _ _ _ _ _ _ Hnt). intros _.
      rewrite frame_flags by (lia || done). done.
    + rewrite (nt_dir _ _ _ _ _ _ Hnt) by lia. by apply Hu.
Qed.

(** In the region of the new table only the page [k] is mapped. *)
Lemma new_table_translate_in va :
  0 ≤ p → p + 4096 ≤ 2 ^ 32 → p mod 4096 = 0 → va / 2 ^ 22 = idx →
  translate M' va
  = if decide (va / 2 ^ 12 mod 2 ^ 10 = k) then Some (p + va mod 4096) else None.
Proof.
  intros Hp0 Hp1 Hpa Hva.
  destruct (entry_props f) as (_ & Hfp & Hff); [lia..|done|].
  destruct (entry_props p) as (_ & Hpp & Hpf); [done..|].
  assert (pde_at M' va = f + 7) as Ed.
  { unfold pde_at, pde_addr. rewrite Hva. apply (nt_pde _ _ _ _ _ _ Hnt). }
  unfold translate, pte_at, pte_addr. rewrite Ed, Hfp, Hff.
  rewrite (nt_pte _ _ _ _ _ _ Hnt) by (apply Z.mod_pos_bound; lia).
  case_decide; [by rewrite Hpp, Hpf|done].
Qed.

(** Every other address keeps its translation, unless its page table was the
    frame just taken. *)
Lemma new_table_translate_out va :
  0 ≤ va < KTOP → va / 2 ^ 22 ≠ idx → frame_unused M f → translate M' va = translate M va.
Proof.
  intros Hva Hi Hfu. unfold KTOP in Hva.
  assert (pde_at M' va = pde_at M va) as Ed.
  { apply (nt_dir _ _ _ _ _ _ Hnt); zdm. }
  unfold translate. rewrite Ed. destruct (present (pde_at M va)) eqn:Hp; [|done].
  assert (pte_at M' va = pte_at M va) as ->; [|done].
  destruct (decide (KBASE ≤ va)) as [Hge|Hlt].
  - assert (KBASE ≤ va < KTOP) as Hr by (unfold KTOP; lia).
    destruct (kspace_pde M' va new_table_kspace Hr) as (_ & _ & ->).
    destruct (kspace_pde M va Hk Hr) as (_ & _ & ->).
    apply new_table_kpte. by apply kpage_range.
  - pose proof (fu_user _ _ Hfu (va / 2 ^ 22)) as Hu. unfold KBASE in Hlt.
    pose proof (ks_user M Hk (va / 2 ^ 22)) as Hd.
    change (dir_entry M (va / 2 ^ 22)) with (pde_at M va) in Hu.
    change (rd32 (pm M) (frame (cr3 M) + 4 * (va / 2 ^ 22))) with (pde_at M va) in Hd.
    specialize (Hu ltac:(zdm) Hp). specialize (Hd ltac:(zdm) Hp).
    unfold pte_at, pte_addr. rewrite Ed.
    pose proof (frame_props (pde_at M va) (rd32_range _ _)) as (_ & _ & Hfra & _).
    pose proof (Z.mod_pos_bound (va / 2 ^ 12) (2 ^ 10) ltac:(lia)).
    destruct (ks_self M Hk) as (Hc & _). destruct (frame_props _ Hc) as (_ & _ & Hda & _).
    apply rd32_same. intros x Hx. apply (nt_mem _ _ _ _ _ _ Hnt); zdm.
Qed.
End new_table.

Lemma new_table_inv km M g i M1 idx k p M' :
  mem_inv km M g → 0 ≤ i < nbits (kbm km) → bit g (kbm km) i = false → 0 ≤ idx < 768 →
  framed M g M1 (set_bit g (kbm km) i true) →
  new_table M1 idx k (pool_frame (kernel_pool km) i) p M' →
  mem_inv km M' (set_bit g (kbm km) i true).
Proof.
  intros Hi Hir Hif Hidx Hf Hnt.
  pose proof (mi_space _ _ _ Hi) as Hk. pose proof (mi_low _ _ _ Hi) as Hl.
  pose proof (framed_same_high _ _ _ _ Hk Hl Hf) as Hh.
  pose proof (same_high_tables _ _ Hk Hh) as Hst.
  pose proof (kspace_same_high _ _ Hk Hh) as Hk1.
  pose proof (low_map_framed _ _ _ _ Hl Hf) as Hl1.
  destruct (pool_frame_props _ _ (mi_kpool _ _ _ Hi) Hir) as (Hf1 & Hf2 & Hf3).
  assert (Hne : frame (cr3 M1) ≠ pool_frame (kernel_pool km) i).
  { rewrite (proj1 Hh). by apply (mi_kfree _ _ _ Hi). }
  assert (Hk' : kspace M') by (eapply (new_table_kspace M1); eauto).
  assert (Hkp : ∀ j, 0 ≤ j < 255 * 1024 → kpte M' j = kpte M j).
  { intros j Hj. rewrite (new_table_kpte M1 idx k _ p M') by eauto.
    by apply (kpte_same_tables M). }
  assert (Hun : ∀ f', frame_unused M f' → f' ≠ pool_frame (kernel_pool km) i →
    frame_unused M' f').
  { intros f' Hfu Hff. eapply (new_table_unused M1); eauto. by apply (frame_unused_same M). }
  split; try done; try (by apply bm_wf_set_bit, Hi); try by apply Hi.
  - apply kspace_holds; auto. intros a v Ha.
    destruct (low_read M1 _ a v Hk1 Hl1 (proj1 Hf) Ha) as [Hv Hr]. split; [done|].
    specialize (Hl1 a ltac:(by eexists)). unfold KBASE, K_HEAP_START in *.
    rewrite (new_table_low M1 idx k (pool_frame (kernel_pool km) i) p M'); auto; lia.
  - intros j Hj. rewrite (set_kb_other km M g) by (auto || lia). intros Hb.
    pose proof (mi_vtop _ _ _ Hi). rewrite Hkp by (unfold K_HEAP_START, KTOP in *; lia).
    by apply (mi_unmapped _ _ _ Hi).
  - intros i' Hi'. rewrite bit_set_bit by lia. case_decide as Hd; [done|]. intros Hb.
    apply Hun; [by apply (mi_kfree _ _ _ Hi)|].
    intros E. destruct Hd. symmetry. by eapply pool_frame_inj.
  - intros i' Hi'. rewrite (set_kb_other km M g) by (auto || lia). intros Hb.
    apply Hun; [by apply (mi_ufree _ _ _ Hi)|].
    pose proof (mi_sep_pools _ _ _ Hi). unfold pool_frame, PG_SIZE in *. lia.
Qed.

(** An address whose page table lies above the low megabyte keeps its
    translation when only the low megabyte changes. *)
Lemma same_high_translate M M' va :
  kspace M → same_high M M' → 0 ≤ va → 0x100000 ≤ frame (pde_at M va) →
  translate M' va = translate M va.
Proof.
  intros Hk [Hc Hm] Hva Hf. pose proof (kspace_dir_range M Hk) as [Hd _].
  unfold PAGE_DIR_TABLE_POS in Hd.
  assert (Hdir : pde_at M' va = pde_at M va).
  { unfold pde_at, pde_addr. rewrite Hc. apply rd32_same. intros x Hx. apply Hm. zdm. }
  assert (Hpt : pte_at M' va = pte_at M va).
  { unfold pte_at, pte_addr. rewrite Hdir. apply rd32_same. intros x Hx. apply Hm.
    pose proof (Z.mod_pos_bound (va / 2 ^ 12) (2 ^ 10)). lia. }
  unfold translate. by rewrite Hdir, Hpt.
Qed.

(** The whole second branch, from the allocator's invariant. *)
Lemma page_table_add_fresh km M g va p :
  mem_inv km M g → 0 ≤ va < KBASE → present (pde_at M va) = false →
  (0 < free_count g (kbm km))%nat → 0 ≤ p → p + 4096 ≤ 2 ^ 32 → p mod 4096 = 0 →
  ∃ i M1 M', 0 ≤ i < nbits (kbm km) ∧ bit g (kbm km) i = false
    ∧ page_table_add km M va p = Ok M'
    ∧ framed M g M1 (set_bit g (kbm km) i true)
    ∧ new_table M1 (va / 2 ^ 22) (va / 2 ^ 12 mod 2 ^ 10)
        (pool_frame (kernel_pool km) i) p M'.
Proof.
  intros Hi Hva Hp Hc Hp0 Hp1 Hpa. destruct (free_count_least _ _ Hc) as (i & Hir & Hif & Hit).
  pose proof (mi_space _ _ _ Hi) as Hk. pose proof (mi_low _ _ _ Hi) as Hl.
  destruct (palloc_free M g (kernel_pool km) i) as (M1 & Hpal & Hf); auto; try by apply Hi.
  destruct (pool_frame_props _ _ (mi_kpool _ _ _ Hi) Hir) as (Hf1 & Hf2 & Hf3).
  pose proof (framed_same_high _ _ _ _ Hk Hl Hf) as Hh.
  pose proof (kspace_same_high _ _ Hk Hh) as Hk1.
  destruct (fill_new_table M1 va (pool_frame (kernel_pool km) i) p) as (M' & HM & Hnt);
    auto; try lia; [by apply ks_self| |].
  { rewrite (proj1 Hh). by apply (mi_kfree _ _ _ Hi). }
  exists i, M1, M'. split_and!; try done; try lia.
  unfold page_table_add. rewrite load_pde by (apply Hk || unfold KBASE in *; lia). rb.
  change 0x00000001 with 1. rewrite present_land, Hp. simpl negb. cbv iota.
  rewrite Hpal. rb. exact HM.
Qed.
