(* ===== verification/MemProps.v ===== *)
(** What kernel/memory.c guarantees: the pool layout, the invariant after
    [mem_pool_init], the kernel page allocator end to end, and both branches
    of [page_table_add].  The runs at the end start from the page tables that
    boot/loader.S builds. *)
From S2P Require Import Prelude ByteMem CString Bitmap Paging Memory MemInit PageTable.

(** * The boot machine *)

(** The conditions of [fresh_machine], checked by computation; [top] bounds the
    physical addresses written so far. *)
Definition fresh_check (M : machine) (top : Z) : bool :=
  (cr3 M =? PAGE_DIR_TABLE_POS)
  && (dir_entry M 1023 =? PAGE_DIR_TABLE_POS + 7)
  && (dir_entry M 0 =? KTABLES + 7)
  && all_range 768 1023 (λ i, dir_entry M i =? KTABLES + (i - 768) * 4096 + 7)
  && all_range 0 256 (λ i, kpte M i =? i * 4096 + 7)
  && all_range 0 768 (λ i, (frame (dir_entry M i) <? 0x200000)
       && negb (frame (dir_entry M i) =? PAGE_DIR_TABLE_POS))
  && forallb (λ kv, kv.1 <? top) (map_to_list (pm M))
  && (top <=? KTABLES + 1024).

Lemma entry_flags p : 0 ≤ p → p + 4096 ≤ 2 ^ 32 → p mod 4096 = 0 →
  present (p + 7) = true ∧ frame (p + 7) = p.
Proof. intros. by destruct (entry_props p) as (_ & ? & ?). Qed.

Lemma fresh_check_spec M top : fresh_check M top = true → fresh_machine M.
Proof.
  unfold fresh_check. rewrite !andb_true_iff, !Z.eqb_eq.
  intros (((((((Hc & Hs) & H0) & Hd) & Hl) & Hu) & Hdom) & Htop).
  assert (Hfc : frame (cr3 M) = PAGE_DIR_TABLE_POS) by (rewrite Hc; reflexivity).
  assert (Hu' : ∀ i, 0 ≤ i < 768 → frame (dir_entry M i) < 0x200000
    ∧ frame (dir_entry M i) ≠ PAGE_DIR_TABLE_POS).
  { intros i Hi. pose proof (all_range_spec _ _ _ i Hu Hi) as [? ?]%andb_prop. lia. }
  assert (Hk : kspace M).
  { split.
    - unfold selfmap. rewrite Hc. fold (dir_entry M 1023) in Hs.
      unfold dir_entry in Hs. rewrite Hc in Hs. change (4 * 1023) with 4092 in Hs.
      rewrite Hs. split_and!; try reflexivity; unfold PAGE_DIR_TABLE_POS; lia.
    - by left.
    - intros i Hi. pose proof (all_range_spec _ _ _ i Hd Hi) as E%Z.eqb_eq.
      unfold dir_entry in E. rewrite E. apply entry_flags; unfold KTABLES; zdm.
    - intros i Hi. pose proof (all_range_spec _ _ _ i Hl Hi) as ->%Z.eqb_eq.
      apply entry_flags; zdm.
    - intros i Hi _. rewrite Hfc. apply Hu' in Hi as [_ Hi]. unfold dir_entry in Hi.
      by rewrite Hfc in Hi. }
  split; [done|done| | |rewrite H0; by apply entry_flags].
  - intros i Hi. unfold kpte. rewrite rd32_zero; [done|]. intros x Hx. unfold rd8.
    destruct (pm M !! x) as [v|] eqn:E; [|done]. apply elem_of_map_to_list in E.
    rewrite forallb_forall in Hdom. specialize (Hdom (x, v)).
    rewrite <- list_elem_of_In in Hdom. specialize (Hdom E). simpl in Hdom. lia.
  - intros i Hi _. by apply Hu'.
Qed.

Lemma boot_fresh : fresh_machine boot_machine.
Proof. apply (fresh_check_spec _ 0x101400). vm_compute. reflexivity. Qed.

(** * Properties *)

(** C38: the pool layout is sound for every memory size from 2 MB + 64 KB up to
    258 MB.  The three bitmaps lie one after the other from 0xc009a000 on and
    end before the kernel's stack page at 0xc009e000, each bitmap covers only
    whole frames of its pool, the kernel's pool ends where the user's begins,
    the pools start above the kernel's 2 MB and end within the memory. *)
Theorem pool_layout_sound all_mem :
  0x210000 ≤ all_mem < 0x10200000 →
  let km := pool_layout all_mem in
  let kp := kernel_pool km in let up := user_pool km in
  bits (kbm km) = MEM_BITMAP_BASE
  ∧ bits (ubm km) = bits (kbm km) + btmp_bytes_len (kbm km)
  ∧ bits (vbm km) = bits (ubm km) + btmp_bytes_len (ubm km)
  ∧ bits (vbm km) + btmp_bytes_len (vbm km) < 0xc009e000
  ∧ phy_addr_start kp = 0x200000
  ∧ phy_addr_start up = phy_addr_start kp + pool_size kp
  ∧ phy_addr_start up + pool_size up ≤ all_mem < phy_addr_start up + pool_size up + 4096
  ∧ 0 ≤ pool_size kp - nbits (kbm km) * PG_SIZE < 8 * PG_SIZE
  ∧ 0 ≤ pool_size up - nbits (ubm km) * PG_SIZE < 8 * PG_SIZE
  ∧ nbits (vbm km) = nbits (kbm km).
Proof.
  intros Hmem. rewrite pool_layout_eq by lia. cbv zeta.
  rewrite (u16_small ((all_mem - 0x200000) / 4096)) by zdm.
  unfold nbits, PG_SIZE, MEM_BITMAP_BASE. simpl. split_and!; zdm.
Qed.

(** Above 258 MB the page count no longer fits [uint16_t]: a machine with
    256 MB more gets exactly the pools of the smaller one, so a 512 MB machine
    is laid out as if it had 256 MB. *)
Theorem pool_layout_truncates all_mem :
  0x200000 ≤ all_mem → all_mem + 0x10000000 < 2 ^ 32 →
  pool_layout (all_mem + 0x10000000) = pool_layout all_mem.
Proof.
  intros H1 H2. rewrite !pool_layout_eq by lia. cbv zeta.
  assert (u16 ((all_mem + 0x10000000 - 0x200000) / 4096) = u16 ((all_mem - 0x200000) / 4096))
    as ->; [|done]. unfold u16. zdm.
Qed.

(** A size below 2 MB makes [all_mem - used_mem] wrap around: the pools are
    laid out as if 256 MB more were there, far beyond the memory. *)
Theorem pool_layout_underflows all_mem :
  0 ≤ all_mem < 0x200000 →
  let up := user_pool (pool_layout all_mem) in
  phy_addr_start up + pool_size up = 0x10000000 + PG_SIZE * (all_mem / PG_SIZE)
  ∧ all_mem < phy_addr_start up.
Proof.
  intros Hm. rewrite pool_layout_usable. unfold PG_SIZE.
  assert (usable_mem all_mem = 0x10000000 + 4096 * (all_mem / 4096)) as E.
  { unfold usable_mem, PG_SIZE, u16, u32. zdm. }
  rewrite pool_layout_eq by (pose proof (usable_mem_range all_mem); lia). rewrite E. cbv zeta.
  rewrite u16_small by zdm. simpl. unfold PG_SIZE. zdm.
Qed.

(** C28: [mem_pool_init] on a machine with the loader's page tables, none of
    whose unused entries is marked present, and a number [all_mem] of any size
    of which the 16-bit page count leaves 64 KB or more: it succeeds, the
    allocator's invariant holds, every frame and every heap page is free, and
    no byte from 1 MB on changes. *)
Theorem mem_pool_init_establishes M all_mem :
  fresh_machine M → 0x210000 ≤ usable_mem all_mem →
  let km := pool_layout all_mem in
  ∃ M' g, mem_pool_init M all_mem = Ok (km, M') ∧ mem_inv km M' g ∧ same_high M M'
    ∧ window g (kbm km) 0 (nbits (kbm km)) ∧ window g (ubm km) 0 (nbits (ubm km))
    ∧ window g (vbm km) 0 (nbits (vbm km)).
Proof.
  intros Hf Hm. pose proof (usable_mem_range all_mem). rewrite pool_layout_usable, mem_pool_init_usable.
  apply mem_pool_init_holds; [done|lia].
Qed.

(** C16: [get_kernel_pages] on success.  When the heap has a gap of [n] pages and
    the pool [n] free frames, it returns the address of the first such gap,
    keeps the invariant, takes exactly [n] frames, maps each new page to a
    frame of its own that was free, leaves the mapping of every other kernel
    page alone, and hands all [n] pages out zeroed. *)
Theorem get_kernel_pages_allocates km cur M g n s :
  mem_inv km M g → (0 < n)%nat → Z.of_nat n < 3840 → 0 ≤ s →
  s + Z.of_nat n ≤ nbits (vbm km) → window g (vbm km) s (Z.of_nat n) →
  (n ≤ free_count g (kbm km))%nat →
  ∃ r M' g', get_kernel_pages km cur M (Z.of_nat n) = Ok (heap_addr r, M')
    ∧ 0 ≤ r ≤ s ∧ window g (vbm km) r (Z.of_nat n)
    ∧ (∀ s', 0 ≤ s' < r → ¬ window g (vbm km) s' (Z.of_nat n))
    ∧ allocated km M g r (Z.of_nat n) M' g'
    ∧ ∀ x, 0 ≤ x < 4096 * Z.of_nat n → load8 M' (heap_addr r + x) = Ok 0.
Proof. apply get_kernel_pages_holds. Qed.

(** C36: exhausted memory.  With a gap in the heap but fewer than [n] free
    frames [get_kernel_pages] does not return NULL: the assertion of
    [bitmap_scan] stops the kernel. *)
Theorem get_kernel_pages_exhausted km cur M g n s :
  mem_inv km M g → Z.of_nat n < 3840 → 0 ≤ s →
  s + Z.of_nat n ≤ nbits (vbm km) → window g (vbm km) s (Z.of_nat n) →
  (free_count g (kbm km) < n)%nat →
  get_kernel_pages km cur M (Z.of_nat n) = Panic "bitmap_scan".
Proof.
  intros Hi Hmax Hs Hsn Hw Hc. unfold get_kernel_pages.
  destruct (malloc_page_kernel km cur M g n s) as [(r & M1 & g' & _ & _ & _ & _ & _ & ?)|[-> _]];
    auto; lia.
Qed.

(** C17: an allocation leaves the data of earlier ones alone: an address of the
    kernel half that is mapped to a frame at or above 2 MB, where all frames
    are that allocations hand out, keeps its frame and the byte it holds. *)
Theorem get_kernel_pages_keeps_data km cur M g n s va pa :
  mem_inv km M g → (0 < n)%nat → Z.of_nat n < 3840 → 0 ≤ s →
  s + Z.of_nat n ≤ nbits (vbm km) → window g (vbm km) s (Z.of_nat n) →
  (n ≤ free_count g (kbm km))%nat →
  KBASE ≤ va < KTOP → translate M va = Some pa → 0x200000 ≤ pa →
  ∃ r M', get_kernel_pages km cur M (Z.of_nat n) = Ok (r, M')
    ∧ translate M' va = Some pa ∧ load8 M' va = load8 M va.
Proof.
  intros Hi Hn Hmax Hs Hsn Hw Hc Hva Ht Hpa.
  destruct (get_kernel_pages_holds km cur M g n s)
    as (r & M' & g' & HM & Hr & Hwr & _ & Ha & _); auto.
  exists (heap_addr r), M'. split; [done|].
  destruct (allocated_keeps km M g r (Z.of_nat n) M' g' va pa) as [Ht' Hrd]; auto with lia.
  split; [done|]. simpl. by rewrite Ht, Ht', Hrd.
Qed.

(** [page_table_add] in the kernel half.  A page that is already mapped makes
    the kernel stop; otherwise the page, and no other page of the kernel half,
    gets the frame. *)
Theorem page_table_add_kernel_maps km M va p :
  kspace M → KBASE ≤ va < KTOP → 0 ≤ p → p + 4096 ≤ 2 ^ 32 → p mod 4096 = 0 →
  match translate M va with
  | Some _ => page_table_add km M va p = Panic "page_table_add"
  | None => ∃ M', page_table_add km M va p = Ok M' ∧ kspace M' ∧
      ∀ va', KBASE ≤ va' < KTOP →
        translate M' va' = if decide (va' / 4096 = va / 4096)
                           then Some (p + va' mod 4096) else translate M va'
  end.
Proof.
  intros Hk Hva Hp0 Hp1 Hpa. pose proof (kpage_range va Hva) as Hkr.
  rewrite kspace_translate, page_table_add_kernel by done.
  destruct (present (kpte M (kpage va))) eqn:Hp; [done|].
  assert (256 ≤ kpage va).
  { destruct (decide (kpage va < 256)); [|lia].
    destruct (ks_low M Hk (kpage va)) as [E _]; [lia|congruence]. }
  eexists. split; [done|]. split; [by apply kspace_map; [|lia]|]. intros va' Hva'.
  rewrite kspace_translate by (done || by apply kspace_map; [|lia]).
  destruct (entry_props p) as (_ & Hpp & Hpf); [done..|].
  assert (kpage va' = kpage va ↔ va' / 4096 = va / 4096) as Hiff
    by (unfold kpage, KBASE in *; zdm).
  case_decide as E.
  - rewrite (proj2 Hiff E), kpte_map_same by done. by rewrite Hpp, Hpf.
  - rewrite kpte_map_other by tauto. by rewrite kspace_translate.
Qed.

(** C27: [page_table_add] where the user half has no page table yet.  One free
    kernel frame becomes the table: afterwards the page is mapped, the rest
    of its 4 MB region is not (the new table was cleared), every address
    outside the region keeps its translation, and the allocator's invariant
    holds with that one frame taken. *)
Theorem page_table_add_new_table km M g va p :
  mem_inv km M g → 0 ≤ va < KBASE → present (pde_at M va) = false →
  (0 < free_count g (kbm km))%nat → 0 ≤ p → p + 4096 ≤ 2 ^ 32 → p mod 4096 = 0 →
  ∃ i M', 0 ≤ i < nbits (kbm km) ∧ bit g (kbm km) i = false
    ∧ page_table_add km M va p = Ok M'
    ∧ mem_inv km M' (set_bit g (kbm km) i true)
    ∧ (∀ va', va' / 2 ^ 22 = va / 2 ^ 22 →
         translate M' va' = if decide (va' / 4096 = va / 4096)
                            then Some (p + va' mod 4096) else None)
    ∧ ∀ va', 0 ≤ va' < KTOP → va' / 2 ^ 22 ≠ va / 2 ^ 22 →
         0x100000 ≤ frame (pde_at M va') → translate M' va' = translate M va'.
Proof.
  intros Hi Hva Hp Hc Hp0 Hp1 Hpa.
  destruct (page_table_add_fresh km M g va p) as (i & M1 & M' & Hir & Hif & HM & Hf & Hnt); auto.
  pose proof (mi_space _ _ _ Hi) as Hk.
  pose proof (framed_same_high _ _ _ _ Hk (mi_low _ _ _ Hi) Hf) as Hh.
  pose proof (kspace_same_high _ _ Hk Hh) as Hk1.
  destruct (pool_frame_props _ _ (mi_kpool _ _ _ Hi) Hir) as (Hf1 & Hf2 & Hf3).
  pose proof (mi_kfree _ _ _ Hi i Hir Hif) as Hun.
  assert (Hun1 : frame_unused M1 (pool_frame (kernel_pool km) i))
    by (apply (frame_unused_same M); [by apply same_high_tables|done]).
  assert (Hidx : 0 ≤ va / 2 ^ 22 < 768) by (unfold KBASE in *; zdm).
  exists i, M'. split_and!; try done; try lia.
  - by apply (new_table_inv km M g i M1 (va / 2 ^ 22) (va / 2 ^ 12 mod 2 ^ 10) p M').
  - intros va' E. erewrite (new_table_translate_in M1); eauto; [|lia..].
    repeat case_decide; try done; zdm.
  - intros va' Hr Hne Hfr.
    erewrite (new_table_translate_out M1); eauto; [|apply Hun1..].
    by apply same_high_translate; [| |lia|].
Qed.

(** * Runs *)

Lemma free_count_all g b : 0 ≤ nbits b → window g b 0 (nbits b) → free_count g b = Z.to_nat (nbits b).
Proof.
  intros Hn Hw. unfold free_count. rewrite filter_all.
  - rewrite length_seqZ. lia.
  - intros k Hk%elem_of_seqZ. apply Hw. lia.
Qed.

Module MemRuns.
(** The kernel on a 32 MB machine, and on one with 16 free frames. *)
Definition km32 : kmem := pool_layout 0x2000000.
Definition km_small : kmem := pool_layout 0x210000.

Definition init_machine (all_mem : Z) : machine :=
  match mem_pool_init boot_machine all_mem with Ok (_, M) => M | _ => boot_machine end.

Lemma init_machine_inv all_mem :
  0x210000 ≤ all_mem < 0x10200000 →
  let km := pool_layout all_mem in
  ∃ g, mem_inv km (init_machine all_mem) g ∧ same_high boot_machine (init_machine all_mem)
    ∧ window g (vbm km) 0 (nbits (vbm km))
    ∧ free_count g (kbm km) = Z.to_nat (nbits (kbm km)).
Proof.
  intros Hm. cbv zeta. destruct (mem_pool_init_holds boot_machine all_mem boot_fresh Hm)
    as (M' & g & E & Hi & Hh & Hk & _ & Hv).
  exists g. unfold init_machine. rewrite E. split_and!; auto.
  apply free_count_all; [|done]. destruct (mi_kb _ _ _ Hi) as (_ & ? & _). unfold nbits. lia.
Qed.

Lemma window_sub g b s n s' n' : window g b s n → s ≤ s' → s' + n' ≤ s + n → window g b s' n'.
Proof. intros H ? ? i Hi. apply H. lia. Qed.

Lemma mem_pool_init_establishes_witness :
  ∃ M', mem_pool_init boot_machine 0x2000000 = Ok (km32, M').
Proof.
  destruct (mem_pool_init_establishes boot_machine 0x2000000 boot_fresh) as (M' & g & H & _);
    [vm_compute; discriminate|].
  exists M'. exact H.
Defined.

Lemma pool_layout_sound_witness :
  phy_addr_start (user_pool km32) = phy_addr_start (kernel_pool km32) + pool_size (kernel_pool km32).
Proof.
  destruct (pool_layout_sound 0x2000000 ltac:(lia)) as (_ & _ & _ & _ & _ & H & _).
  exact H.
Defined.

Lemma pool_layout_truncates_witness :
  pool_layout (0x10000000 + 0x10000000) = pool_layout 0x10000000.
Proof. apply (pool_layout_truncates 0x10000000); lia. Defined.

Lemma get_kernel_pages_allocates_witness :
  ∃ r M', get_kernel_pages km32 (kernel_vaddr km32) (init_machine 0x2000000) 2
            = Ok (heap_addr r, M')
    ∧ load8 M' (heap_addr r + 8191) = Ok 0.
Proof.
  destruct (init_machine_inv 0x2000000 ltac:(lia)) as (g & Hi & _ & Hw & Hc).
  change (nbits (kbm (pool_layout 0x2000000))) with 3840 in Hc.
  change (nbits (vbm (pool_layout 0x2000000))) with 3840 in Hw.
  destruct (get_kernel_pages_allocates km32 (kernel_vaddr km32) _ g 2 0 Hi)
    as (r & M' & g' & H & _ & _ & _ & _ & Hz); [lia|lia|lia| | |unfold km32; lia|].
  - change (0 + 2 ≤ 3840). lia.
  - apply (window_sub _ _ 0 3840); [exact Hw|lia|lia].
  - exists r, M'. split; [exact H|apply Hz; lia].
Defined.

Lemma addr_v2p_is_translate_witness : addr_v2p boot_machine 0xc009a123 = Ok 0x9a123.
Proof.
  apply (addr_v2p_is_translate boot_machine 0xc009a123 (ks_self _ (fm_space _ boot_fresh))).
  - lia.
  - vm_compute. reflexivity.
Defined.

Lemma table_pointers_correct_witness :
  translate boot_machine (pde_ptr 0xc009a123) = Some 0x100c00.
Proof.
  destruct (table_pointers_correct boot_machine 0xc009a123 (ks_self _ (fm_space _ boot_fresh)))
    as [H _]; [lia|].
  rewrite H. vm_compute. reflexivity.
Defined.

Lemma page_dir_activate_cr3_witness :
  page_dir_activate boot_machine 0xc009a000 = Ok (Machine (pm boot_machine) 0x9a000).
Proof.
  apply (page_dir_activate_cr3 boot_machine 0xc009a000 0x9a000
    (ks_self _ (fm_space _ boot_fresh))); [lia|].
  right. vm_compute. reflexivity.
Defined.

Lemma page_table_add_kernel_maps_witness :
  page_table_add km32 boot_machine 0xc009a000 0x300000 = Panic "page_table_add".
Proof.
  pose proof (page_table_add_kernel_maps km32 boot_machine 0xc009a000 0x300000
    (fm_space _ boot_fresh)) as H.
  assert (translate boot_machine 0xc009a000 = Some 0x9a000) as E by (vm_compute; reflexivity).
  rewrite E in H. apply H; unfold KBASE, KTOP; vm_compute; try split; congruence.
Defined.

(** 0x08048000, where user programs start, has no page table at boot. *)
Lemma user_pde_absent all_mem :
  0x210000 ≤ all_mem < 0x10200000 →
  present (pde_at (init_machine all_mem) 0x08048000) = false.
Proof.
  intros Hm. destruct (init_machine_inv all_mem Hm) as (g & Hi & Hh & _).
  assert (dir_entry (init_machine all_mem) 32 = dir_entry boot_machine 32) as E.
  { apply dir_entry_same_tables; [|lia]. apply same_high_tables; [apply boot_fresh|done]. }
  change (pde_at (init_machine all_mem) 0x08048000) with (dir_entry (init_machine all_mem) 32).
  rewrite E. vm_compute. reflexivity.
Qed.

Lemma page_table_add_new_table_witness :
  ∃ M', page_table_add km32 (init_machine 0x2000000) 0x08048000 0x1100000 = Ok M'
    ∧ translate M' 0x08048abc = Some 0x1100abc
    ∧ translate M' 0x08049000 = None.
Proof.
  destruct (init_machine_inv 0x2000000 ltac:(lia)) as (g & Hi & _ & _ & Hc).
  change (nbits (kbm (pool_layout 0x2000000))) with 3840 in Hc.
  destruct (page_table_add_new_table km32 _ g 0x08048000 0x1100000 Hi)
    as (i & M' & _ & _ & HM & _ & Hin & _).
  - unfold KBASE. lia.
  - apply user_pde_absent. lia.
  - unfold km32. lia.
  - lia.
  - lia.
  - reflexivity.
  - exists M'. split; [exact HM|]. split; rewrite Hin by reflexivity; reflexivity.
Defined.

(** On the small machine a page table takes one of the eight kernel frames,
    so eight heap pages can no longer be backed. *)
Lemma get_kernel_pages_exhausted_witness :
  ∃ M, page_table_add km_small (init_machine 0x210000) 0x08048000 0x208000 = Ok M
    ∧ get_kernel_pages km_small (kernel_vaddr km_small) M 8 = Panic "bitmap_scan".
Proof.
  destruct (init_machine_inv 0x210000 ltac:(lia)) as (g & Hi & _ & Hw & Hc).
  change (nbits (kbm (pool_layout 0x210000))) with 8 in Hc.
  change (nbits (vbm (pool_layout 0x210000))) with 8 in Hw.
  fold km_small in Hi, Hw, Hc.
  destruct (page_table_add_fresh km_small _ g 0x08048000 0x208000 Hi)
    as (i & M1 & M' & Hir & Hif & HM & Hf & Hnt);
    [unfold KBASE; lia|apply user_pde_absent; lia|lia|lia|lia|reflexivity|].
  exists M'. split; [exact HM|].
  apply (get_kernel_pages_exhausted km_small (kernel_vaddr km_small) M'
    (set_bit g (kbm km_small) i true) 8 0).
  - apply (new_table_inv km_small _ g i M1 _ _ _ M' Hi Hir Hif) with (2 := Hf) (3 := Hnt).
    split; [vm_compute; congruence|vm_compute; reflexivity].
  - lia.
  - lia.
  - change (0 + 8 ≤ 8). lia.
  - intros k Hk. rewrite (set_kb_other km_small _ g i (vbm km_small) k Hi Hir)
      by (auto || lia). apply Hw. exact Hk.
  - pose proof (free_count_set g (kbm km_small) i Hir Hif). lia.
Defined.

(** A second allocation keeps the bytes of the first. *)
Lemma get_kernel_pages_keeps_data_witness :
  ∃ va M, get_kernel_pages km32 (kernel_vaddr km32) (init_machine 0x2000000) 1 = Ok (va, M)
    ∧ ∃ r M', get_kernel_pages km32 (kernel_vaddr km32) M 1 = Ok (r, M')
        ∧ load8 M' va = load8 M va.
Proof.
  destruct (init_machine_inv 0x2000000 ltac:(lia)) as (g & Hi & _ & Hw & Hc).
  change (nbits (kbm (pool_layout 0x2000000))) with 3840 in Hc.
  change (nbits (vbm (pool_layout 0x2000000))) with 3840 in Hw.
  fold km32 in Hi, Hw, Hc.
  destruct (get_kernel_pages_holds km32 (kernel_vaddr km32) _ g 1 0 Hi)
    as (r & M & g' & HM & Hr & _ & _ & Ha & _);
    [lia|lia|lia|change (0 + 1 ≤ 3840); lia|by apply (window_sub _ _ 0 3840)|lia|].
  assert (r = 0) as -> by lia.
  destruct (allocated_translate km32 _ g 0 1 M g' 0 Ha)
    as (i & Hir & _ & Hva & _ & _ & Ht); [lia|change (0 + 1 ≤ 3840); lia|lia|].
  pose proof (al_inv _ _ _ _ _ _ _ Ha) as Hi'.
  destruct (pool_frame_props _ _ (mi_kpool _ _ _ Hi') Hir) as (? & _ & _).
  rewrite Z.add_0_r in Ht, Hva.
  exists (heap_addr 0), M. split; [exact HM|].
  destruct (get_kernel_pages_keeps_data km32 (kernel_vaddr km32) M g' 1 1 (heap_addr 0)
    (pool_frame (kernel_pool km32) i + 0 mod 4096) Hi') as (r' & M' & HM' & _ & Hl).
  - lia.
  - lia.
  - lia.
  - change (1 + 1 ≤ 3840). lia.
  - intros k Hk. rewrite (al_vbits _ _ _ _ _ _ _ Ha) by lia.
    rewrite decide_False by lia. apply Hw. lia.
  - pose proof (al_count _ _ _ _ _ _ _ Ha). lia.
  - exact Hva.
  - exact Ht.
  - rewrite Zmod_0_l. lia.
  - exists r', M'. split; [exact HM'|exact Hl].
Defined.
End MemRuns.
