(* ===== verification/Interrupt.v ===== *)
(** kernel/interrupt.c: the interrupt flag, the descriptor table, the handler
    table and the start-up sequence of the interrupt controller. *)
From S2P Require Import Prelude.

(** * The interrupt flag

    The state is the eflags register; [sti] and [cli] set and clear bit 9. *)

Inductive intr_status := INTR_OFF | INTR_ON.

#[global] Instance intr_status_eq_dec : EqDecision intr_status.
Proof. solve_decision. Defined.

Definition EFLAGS_IF : Z := 0x00000200.

Definition sti (eflags : Z) : Z := Z.lor eflags EFLAGS_IF.
Definition cli (eflags : Z) : Z := Z.ldiff eflags EFLAGS_IF.

Definition intr_get_status (eflags : Z) : intr_status :=
  if Z.land EFLAGS_IF eflags =? 0 then INTR_OFF else INTR_ON.

Definition intr_enable (eflags : Z) : intr_status * Z :=
  match intr_get_status eflags with
  | INTR_ON => (INTR_ON, eflags)
  | INTR_OFF => (INTR_OFF, sti eflags)
  end.

Definition intr_disable (eflags : Z) : intr_status * Z :=
  match intr_get_status eflags with
  | INTR_OFF => (INTR_OFF, eflags)
  | INTR_ON => (INTR_ON, cli eflags)
  end.

Definition intr_set_status (status : intr_status) (eflags : Z) : intr_status * Z :=
  match status with
  | INTR_ON => intr_enable eflags
  | INTR_OFF => intr_disable eflags
  end.

Lemma land_if e : Z.land EFLAGS_IF e = if Z.testbit e 9 then EFLAGS_IF else 0.
Proof.
  change EFLAGS_IF with (2 ^ 9). apply Z.bits_inj'. intros n Hn.
  rewrite Z.land_spec, Z.pow2_bits_eqb by lia.
  destruct (Z.eqb_spec 9 n) as [<-|Hne].
  - destruct (Z.testbit e 9); [|by rewrite Z.bits_0].
    by rewrite Z.pow2_bits_true by lia.
  - destruct (Z.testbit e 9); [|by rewrite Z.bits_0].
    by rewrite Z.pow2_bits_false by lia.
Qed.

Lemma intr_get_status_bit e :
  intr_get_status e = if Z.testbit e 9 then INTR_ON else INTR_OFF.
Proof. unfold intr_get_status. rewrite land_if. by destruct (Z.testbit e 9). Qed.

Lemma sti_bit e n : 0 ≤ n → Z.testbit (sti e) n = (n =? 9) || Z.testbit e n.
Proof.
  intros Hn. unfold sti. rewrite Z.lor_spec. change EFLAGS_IF with (2 ^ 9).
  rewrite Z.pow2_bits_eqb by lia. rewrite orb_comm. f_equal.
  by destruct (Z.eqb_spec 9 n), (Z.eqb_spec n 9).
Qed.

Lemma cli_bit e n : 0 ≤ n → Z.testbit (cli e) n = negb (n =? 9) && Z.testbit e n.
Proof.
  intros Hn. unfold cli. rewrite Z.ldiff_spec. change EFLAGS_IF with (2 ^ 9).
  rewrite Z.pow2_bits_eqb by lia. rewrite andb_comm. f_equal. f_equal.
  by destruct (Z.eqb_spec 9 n), (Z.eqb_spec n 9).
Qed.

Lemma intr_get_status_sti e : intr_get_status (sti e) = INTR_ON.
Proof. by rewrite intr_get_status_bit, sti_bit. Qed.

Lemma intr_get_status_cli e : intr_get_status (cli e) = INTR_OFF.
Proof. by rewrite intr_get_status_bit, cli_bit. Qed.

Lemma intr_disable_off e : intr_get_status (intr_disable e).2 = INTR_OFF.
Proof.
  unfold intr_disable. destruct (intr_get_status e) eqn:E; [done|].
  apply intr_get_status_cli.
Qed.

Lemma intr_disable_old e : (intr_disable e).1 = intr_get_status e.
Proof. unfold intr_disable. by destruct (intr_get_status e). Qed.

Lemma intr_set_status_get s e : intr_get_status (intr_set_status s e).2 = s.
Proof.
  destruct s; simpl; [apply intr_disable_off|]. unfold intr_enable.
  destruct (intr_get_status e) eqn:E; [apply intr_get_status_sti|done].
Qed.

Lemma sti_cli e : intr_get_status e = INTR_ON → sti (cli e) = e.
Proof.
  rewrite intr_get_status_bit. destruct (Z.testbit e 9) eqn:E; [intros _|done].
  apply Z.bits_inj'. intros n Hn.
  rewrite sti_bit, cli_bit by done. by destruct (Z.eqb_spec n 9) as [->|].
Qed.

(** Restoring the status undoes the disabling, register included. *)
Lemma intr_restore e :
  let '(old, e') := intr_disable e in (intr_set_status old e').2 = e.
Proof.
  unfold intr_disable. destruct (intr_get_status e) eqn:E; simpl.
  - unfold intr_disable. by rewrite E.
  - unfold intr_enable. rewrite intr_get_status_cli. by apply sti_cli.
Qed.

(** * The descriptor table *)

Definition IDT_DESC_CNT : Z := 0x81.
Definition SELECTOR_K_CODE : Z := 1 * 2 ^ 3 + 0 * 2 ^ 2 + 0.
Definition IDT_DESC_ATTR_DPL0 : Z := 1 * 2 ^ 7 + 0 * 2 ^ 5 + 0xe.
Definition IDT_DESC_ATTR_DPL3 : Z := 1 * 2 ^ 7 + 3 * 2 ^ 5 + 0xe.

Record gate_desc := GateDesc {
  func_offset_low_word : Z;
  gate_selector : Z;
  dcount : Z;
  attribute : Z;
  func_offset_higt_word : Z;
}.

Definition make_idt_desc (attr function : Z) : gate_desc :=
  GateDesc (u16 (Z.land (u32 function) 0x0000ffff)) SELECTOR_K_CODE 0 (u8 attr)
           (u16 (Z.shiftr (Z.land (u32 function) 0xffff0000) 16)).

(** [intr_entry_table i] is word [i] of the table kernel.S defines (the loop
    also reads the words that follow its 0x30 entries). *)
Definition idt_desc_init (intr_entry_table : Z → Z) (syscall_handler : Z) : list gate_desc :=
  let idt := (λ i, make_idt_desc IDT_DESC_ATTR_DPL0 (intr_entry_table i))
               <$> seqZ 0 IDT_DESC_CNT in
  <[Z.to_nat (IDT_DESC_CNT - 1) := make_idt_desc IDT_DESC_ATTR_DPL3 syscall_handler]> idt.

(** What the processor reads from a gate: offset, selector, present bit,
    privilege level and type. *)
Definition gate_offset (g : gate_desc) : Z :=
  func_offset_low_word g + 2 ^ 16 * func_offset_higt_word g.
Definition gate_present (g : gate_desc) : bool := Z.testbit (attribute g) 7.
Definition gate_dpl (g : gate_desc) : Z := Z.land (Z.shiftr (attribute g) 5) 3.
Definition gate_type (g : gate_desc) : Z := Z.land (attribute g) 0x1f.

Lemma make_idt_desc_offset attr f : 0 ≤ f < 2 ^ 32 → gate_offset (make_idt_desc attr f) = f.
Proof.
  intros Hf. unfold gate_offset, make_idt_desc. simpl.
  rewrite (u32_small f) by done.
  change 0xffff with (Z.ones 16). rewrite Z.land_ones by lia.
  change 0xffff0000 with (Z.shiftl (Z.ones 16) 16).
  rewrite Z.shiftr_land, Z.shiftr_shiftl_l, Z.sub_diag, Z.shiftl_0_r by lia.
  rewrite Z.land_ones, Z.shiftr_div_pow2 by lia. unfold u16. zdm.
Qed.

(** The value given to lidt: limit in bits 0 to 15, base in bits 16 to 47. *)
Definition idt_operand (idt : Z) : Z :=
  Z.lor (8 * IDT_DESC_CNT - 1) (u32 (Z.shiftl (u32 idt) 16)).

Definition lidt_limit (op : Z) : Z := op mod 2 ^ 16.
Definition lidt_base (op : Z) : Z := (op / 2 ^ 16) mod 2 ^ 32.

(** * Handlers *)

(** The function pointers of [idt_table]. *)
Inductive handler := general_intr_handler | Handler (function : Z).

Record intr_tables := IntrTables {
  idt_table : list handler;
  intr_name : list string;
}.

Definition exception_names : list string :=
  [ "#DE Divide Error"; "#DB Debug Exception"; "NMI Interrupt"; "#BP Breakpoint Exception";
    "#OF Overflow Exception"; "#BR BOUND Range Exceeded Exception";
    "#UD Invalid Opcode Exception"; "#NM Device Not Available Exception";
    "#DF Double Fault Exception"; "Coprocessor Segment Overrun"; "#TS Invalid TSS Exception";
    "#NP Segment Not Present"; "#SS Stack Fault Exception"; "#GP General Protection Exception";
    "#PF Page-Fault Exception"; "unknown"; "#MF 0x87 FPU Floating-Point Error";
    "#AC Alignment Check Exception"; "#MC Machine-Check Exception";
    "#XF SIMD Floating-Point Exception" ]%string.

Definition exception_init : intr_tables :=
  let n := Z.to_nat IDT_DESC_CNT in
  IntrTables (replicate n general_intr_handler)
             (exception_names ++ replicate (n - length exception_names) "unknown"%string).

(** An index past the table overwrites what follows it. *)
Definition register_handler (T : intr_tables) (vector_no function : Z) : res intr_tables :=
  let i := Z.to_nat (u8 vector_no) in
  if (i <? length (idt_table T))%nat
  then Ok (IntrTables (<[i := Handler function]> (idt_table T)) (intr_name T))
  else Fault.

Definition PIC_M_CTRL : Z := 0x20.
Definition PIC_M_DATA : Z := 0x21.
Definition PIC_S_CTRL : Z := 0xa0.
Definition PIC_S_DATA : Z := 0xa1.

(** The port writes of [pic_init], in order. *)
Definition pic_init : list (Z * Z) :=
  [ (PIC_M_CTRL, 0x11); (PIC_M_DATA, 0x20); (PIC_M_DATA, 0x04); (PIC_M_CTRL, 0x01);
    (PIC_S_CTRL, 0x11); (PIC_S_DATA, 0x28); (PIC_S_DATA, 0x02); (PIC_S_DATA, 0x01);
    (PIC_M_DATA, 0xfc); (PIC_S_DATA, 0xff) ].

(** [idt_init] as a whole: the descriptor table, the handler tables, the port
    writes and the lidt operand. *)
Definition idt_init (intr_entry_table : Z → Z) (syscall_handler idt : Z)
    : list gate_desc * intr_tables * list (Z * Z) * Z :=
  (idt_desc_init intr_entry_table syscall_handler, exception_init, pic_init, idt_operand idt).

(** * Properties *)

(** The bracket every critical section of the kernel uses: after
    [intr_disable] interrupts are off, and handing its result to
    [intr_set_status] restores the whole eflags register, so brackets nest. *)
Theorem intr_bracket e :
  intr_get_status (intr_disable e).2 = INTR_OFF
  ∧ (intr_set_status (intr_disable e).1 (intr_disable e).2).2 = e
  ∧ ∀ s, intr_get_status (intr_set_status s e).2 = s
       ∧ (intr_set_status s e).1 = intr_get_status e
       ∧ ∀ n, 0 ≤ n → n ≠ 9 →
           Z.testbit (intr_set_status s e).2 n = Z.testbit e n.
Proof.
  split_and!; [apply intr_disable_off| |].
  - pose proof (intr_restore e). by destruct (intr_disable e).
  - intros s. split_and!; [apply intr_set_status_get| |].
    + destruct s; simpl; unfold intr_enable, intr_disable; by destruct (intr_get_status e).
    + intros n Hn H9. destruct s; simpl; unfold intr_enable, intr_disable;
        destruct (intr_get_status e); simpl; try done.
      * rewrite cli_bit by done. by destruct (Z.eqb_spec n 9).
      * rewrite sti_bit by done. by destruct (Z.eqb_spec n 9).
Qed.

(** The descriptor table.  Gates 0 to 0x7f are present 32-bit interrupt gates
    of level 0 into the kernel code segment whose offset is the entry point
    from kernel.S; gate 0x80 has level 3 and leads to [syscall_handler]. *)
Theorem idt_desc_init_gates intr_entry_table syscall_handler i :
  (∀ j, 0 ≤ intr_entry_table j < 2 ^ 32) → 0 ≤ syscall_handler < 2 ^ 32 →
  0 ≤ i < IDT_DESC_CNT →
  ∃ g, idt_desc_init intr_entry_table syscall_handler !! Z.to_nat i = Some g
    ∧ gate_present g = true ∧ gate_type g = 0xe ∧ gate_selector g = SELECTOR_K_CODE
    ∧ gate_dpl g = (if i =? 0x80 then 3 else 0)
    ∧ gate_offset g = if i =? 0x80 then syscall_handler else intr_entry_table i.
Proof.
  intros He Hs Hi. unfold idt_desc_init. change (Z.to_nat (IDT_DESC_CNT - 1)) with 128%nat.
  unfold IDT_DESC_CNT in *. destruct (Z.eqb_spec i 0x80) as [->|Hne].
  - eexists. split; [apply list_lookup_insert_eq; rewrite length_fmap, length_seqZ; lia|].
    split_and!; try reflexivity. by apply make_idt_desc_offset.
  - rewrite list_lookup_insert_ne by lia.
    rewrite list_lookup_fmap, lookup_seqZ_lt by lia. simpl.
    eexists. split; [done|]. split_and!; try reflexivity.
    rewrite make_idt_desc_offset by done. f_equal. lia.
Qed.

(** [register_handler] replaces one handler and no other: every vector not
    registered keeps the default handler, and all keep their names. *)
Theorem register_handler_updates v f :
  0 ≤ v < IDT_DESC_CNT →
  ∃ T, register_handler exception_init v f = Ok T
    ∧ (∀ w, 0 ≤ w < IDT_DESC_CNT →
         idt_table T !! Z.to_nat w
         = Some (if decide (w = v) then Handler f else general_intr_handler))
    ∧ ∀ w, 0 ≤ w < 20 → intr_name T !! Z.to_nat w = exception_names !! Z.to_nat w.
Proof.
  intros Hv. unfold register_handler. rewrite u8_small by (unfold IDT_DESC_CNT in Hv; lia).
  change (idt_table exception_init) with (replicate (Z.to_nat 0x81) general_intr_handler).
  rewrite length_replicate. unfold IDT_DESC_CNT in *.
  destruct (Nat.ltb_spec (Z.to_nat v) (Z.to_nat 0x81)) as [_|]; [|lia].
  eexists. split; [done|]. split.
  - intros w Hw. cbn [idt_table]. case_decide as E.
    + subst w. apply list_lookup_insert_eq. rewrite length_replicate. lia.
    + rewrite list_lookup_insert_ne by lia. apply lookup_replicate. split; [done|lia].
  - intros w Hw. cbn [intr_name]. unfold exception_init. cbn [intr_name].
    apply lookup_app_l. change (length exception_names) with 20%nat. lia.
Qed.

(** The operand of lidt loses the high half of the table's address: the
    shift is done in 32 bits, so the base the processor loads is the address
    modulo 64 KB, and it is the table's address only below 64 KB. *)
Theorem idt_operand_base idt :
  0 ≤ idt < 2 ^ 32 →
  lidt_limit (idt_operand idt) = 8 * IDT_DESC_CNT - 1
  ∧ lidt_base (idt_operand idt) = idt mod 2 ^ 16
  ∧ (lidt_base (idt_operand idt) = idt ↔ idt < 2 ^ 16).
Proof.
  intros Hi.
  assert (E : idt_operand idt = (8 * IDT_DESC_CNT - 1) + 2 ^ 16 * (idt mod 2 ^ 16)).
  { unfold idt_operand. rewrite (u32_small idt) by done.
    rewrite Z.shiftl_mul_pow2 by lia.
    assert (u32 (idt * 2 ^ 16) = 2 ^ 16 * (idt mod 2 ^ 16)) as -> by (unfold u32; zdm).
    rewrite Z.lor_comm, Z.add_comm. apply (lor_low _ _ 16); unfold IDT_DESC_CNT; zdm. }
  rewrite E. unfold lidt_limit, lidt_base, IDT_DESC_CNT. zdm.
Qed.

Module InterruptRuns.
Lemma idt_desc_init_gates_witness :
  ∃ g, idt_desc_init (λ i, 0xc0001500 + 16 * (i mod 0x30)) 0xc0001810 !! Z.to_nat 0x21 = Some g
    ∧ gate_offset g = 0xc0001710.
Proof.
  destruct (idt_desc_init_gates (λ i, 0xc0001500 + 16 * (i mod 0x30)) 0xc0001810 0x21)
    as (g & Hg & _ & _ & _ & _ & Ho).
  - intros j. pose proof (Z.mod_pos_bound j 0x30). lia.
  - lia.
  - unfold IDT_DESC_CNT. lia.
  - exists g. split; [exact Hg|]. rewrite Ho. reflexivity.
Defined.

Lemma register_handler_updates_witness :
  ∃ T, register_handler exception_init 0x20 0xc0002e50 = Ok T
    ∧ intr_name T !! 14%nat = Some "#PF Page-Fault Exception"%string.
Proof.
  destruct (register_handler_updates 0x20 0xc0002e50) as (T & HT & _ & Hg);
    [unfold IDT_DESC_CNT; lia|].
  exists T. split; [exact HT|]. apply (Hg 14). lia.
Defined.

Lemma idt_operand_base_witness : lidt_base (idt_operand 0xc0005680) = 0x5680.
Proof.
  destruct (idt_operand_base 0xc0005680) as (_ & H & _); [lia|].
  rewrite H. reflexivity.
Defined.
End InterruptRuns.
