(* ===== verification/DList.v ===== *)
(** lib/kernel/list.c: the doubly linked lists of the kernel.  The heap maps
    the address of every [struct list_elem] to its two fields; a
    [struct list] at address [p] has its head node at [p] and its tail node
    at [p + 8].  Nodes are shared between lists by address, as in the code:
    a thread's [general_tag] moves from list to list. *)
From S2P Require Import Prelude Interrupt.

(** * Data *)

Record list_elem := ListElem { prev : Z; next : Z }.

(** The nodes and the eflags register the operations save and restore. *)
Record lmem := LMem { l_eflags : Z; nodes : gmap Z list_elem }.

Definition head_of (plist : Z) : Z := plist.
Definition tail_of (plist : Z) : Z := plist + 8.

Definition get_elem (n : gmap Z list_elem) (a : Z) : res list_elem :=
  match n !! a with Some e => Ok e | None => Fault end.

Definition set_prev (n : gmap Z list_elem) (a v : Z) : res (gmap Z list_elem) :=
  e ← get_elem n a; Ok (<[a := ListElem v (next e)]> n).

Definition set_next (n : gmap Z list_elem) (a v : Z) : res (gmap Z list_elem) :=
  e ← get_elem n a; Ok (<[a := ListElem (prev e) v]> n).

(** * Operations *)

Definition list_init (m : lmem) (list : Z) : res lmem :=
  n ← set_prev (nodes m) (head_of list) NULL;
  n ← set_next n (head_of list) (tail_of list);
  n ← set_prev n (tail_of list) (head_of list);
  n ← set_next n (tail_of list) NULL;
  Ok (LMem (l_eflags m) n).

Definition list_insert_before (m : lmem) (before elem : Z) : res lmem :=
  let '(old_status, fl) := intr_disable (l_eflags m) in
  let n := nodes m in
  b ← get_elem n before;
  n ← set_prev n elem (prev b);
  n ← set_next n elem before;
  b ← get_elem n before;
  n ← set_next n (prev b) elem;
  n ← set_prev n before elem;
  Ok (LMem (intr_set_status old_status fl).2 n).

Definition list_push (m : lmem) (plist elem : Z) : res lmem :=
  h ← get_elem (nodes m) (head_of plist);
  list_insert_before m (next h) elem.

Definition list_append (m : lmem) (plist elem : Z) : res lmem :=
  list_insert_before m (tail_of plist) elem.

Definition list_remove (m : lmem) (pelem : Z) : res lmem :=
  let '(old_status, fl) := intr_disable (l_eflags m) in
  let n := nodes m in
  e ← get_elem n pelem;
  n ← set_prev n (next e) (prev e);
  e ← get_elem n pelem;
  n ← set_next n (prev e) (next e);
  Ok (LMem (intr_set_status old_status fl).2 n).

Definition list_pop (m : lmem) (plist : Z) : res (Z * lmem) :=
  h ← get_elem (nodes m) (head_of plist);
  let elem := next h in
  m' ← list_remove m elem;
  Ok (elem, m').

Definition elem_find_body (n : gmap Z list_elem) (plist obj_elem elem : Z) : res (Z + bool) :=
  if elem =? tail_of plist then Ok (inr false)
  else if elem =? obj_elem then Ok (inr true)
  else e ← get_elem n elem; Ok (inl (next e)).

Definition elem_find (m : lmem) (plist obj_elem : Z) : res bool :=
  h ← get_elem (nodes m) (head_of plist);
  while_ (elem_find_body (nodes m) plist obj_elem) LOOP_FUEL (next h).

Definition list_empty (m : lmem) (plist : Z) : res bool :=
  h ← get_elem (nodes m) (head_of plist);
  Ok (next h =? tail_of plist).

(** [func] is the callback: a predicate of the element and [arg]. *)
Definition traversal_body (n : gmap Z list_elem) (plist : Z) (func : Z → Z → bool) (arg elem : Z)
    : res (Z + Z) :=
  if elem =? tail_of plist then Ok (inr NULL)
  else if func elem arg then Ok (inr elem)
  else e ← get_elem n elem; Ok (inl (next e)).

Definition list_traversal (m : lmem) (plist : Z) (func : Z → Z → bool) (arg : Z) : res Z :=
  h ← get_elem (nodes m) (head_of plist);
  empty ← list_empty m plist;
  if (empty : bool) then Ok NULL
  else while_ (traversal_body (nodes m) plist func arg) LOOP_FUEL (next h).

Definition list_len_body (n : gmap Z list_elem) (plist : Z) (st : Z * Z) : res (Z * Z + Z) :=
  let '(elem, length) := st in
  if elem =? tail_of plist then Ok (inr length)
  else e ← get_elem n elem; Ok (inl (next e, u32 (length + 1))).

Definition list_len (m : lmem) (plist : Z) : res Z :=
  h ← get_elem (nodes m) (head_of plist);
  while_ (list_len_body (nodes m) plist) LOOP_FUEL (next h, 0).

(** * What a heap of lists is *)

(** The nodes of the list at [p] with elements [l], in order. *)
Definition footprint (p : Z) (l : list Z) : list Z := head_of p :: l ++ [tail_of p].

Definition nxt (n : gmap Z list_elem) (a : Z) : option Z := next <$> n !! a.
Definition prv (n : gmap Z list_elem) (a : Z) : option Z := prev <$> n !! a.

(** Neighbours of a chain point to each other. *)
Fixpoint linked (n : gmap Z list_elem) (fp : list Z) : Prop :=
  match fp with
  | a :: (b :: _) as r => nxt n a = Some b ∧ prv n b = Some a ∧ linked n r
  | _ => True
  end.

Lemma linked_cons2 n a b r :
  linked n (a :: b :: r) ↔ nxt n a = Some b ∧ prv n b = Some a ∧ linked n (b :: r).
Proof. done. Qed.

Lemma linked_app n xs a ys :
  linked n (xs ++ a :: ys) ↔ linked n (xs ++ [a]) ∧ linked n (a :: ys).
Proof.
  induction xs as [|x xs IH]; simpl; [tauto|].
  destruct xs as [|x' xs]; simpl in *; [tauto|]. rewrite IH. tauto.
Qed.

(** A chain survives changes to the outer fields of its end nodes and to
    nodes that are not part of it. *)
Lemma linked_snoc_frame n n' xs a :
  linked n (xs ++ [a]) → (∀ x, x ∈ xs → nxt n' x = nxt n x) →
  (∀ x, x ∈ xs ++ [a] → prv n' x = prv n x) → linked n' (xs ++ [a]).
Proof.
  induction xs as [|x [|y xs] IH]; simpl; [done| |]; intros Hl Hn Hp.
  - rewrite Hn, Hp by set_solver. tauto.
  - rewrite Hn, Hp by set_solver. destruct Hl as (? & ? & Hl). split_and!; auto.
    apply IH; [done|set_solver..].
Qed.

Lemma linked_cons_frame n n' b ys :
  linked n (b :: ys) → (∀ x, x ∈ b :: ys → nxt n' x = nxt n x) →
  (∀ x, x ∈ ys → prv n' x = prv n x) → linked n' (b :: ys).
Proof.
  revert b. induction ys as [|y ys IH]; intros b; [done|]. simpl. intros (? & ? & Hl) Hn Hp.
  rewrite Hn, Hp by set_solver. split_and!; auto. apply IH; [done|set_solver..].
Qed.

Lemma linked_same n n' fp : linked n fp → (∀ x, x ∈ fp → n' !! x = n !! x) → linked n' fp.
Proof.
  destruct fp as [|b ys]; [done|]. intros Hl Hs.
  apply (linked_cons_frame n); [done|..]; intros x Hx; unfold nxt, prv; rewrite Hs; set_solver.
Qed.

Definition addr_ok (a : Z) : Prop := 0 < a < 2 ^ 32.

(** All lists of the heap at once: each is a chain of distinct nodes, and no
    node belongs to two of them. *)
Record heap_lists (n : gmap Z list_elem) (qs : gmap Z (list Z)) : Prop := {
  hl_linked p l : qs !! p = Some l → linked n (footprint p l);
  hl_nodup p l : qs !! p = Some l → NoDup (footprint p l);
  hl_sep p q l l' x : qs !! p = Some l → qs !! q = Some l' →
    x ∈ footprint p l → x ∈ footprint q l' → p = q;
  hl_addr p l x : qs !! p = Some l → x ∈ footprint p l → addr_ok x;
}.

(** [e] is a node of no list. *)
Definition detached (n : gmap Z list_elem) (qs : gmap Z (list Z)) (e : Z) : Prop :=
  addr_ok e ∧ is_Some (n !! e) ∧ ∀ p l, qs !! p = Some l → e ∉ footprint p l.

Lemma nxt_some n a b : nxt n a = Some b → ∃ e, n !! a = Some e ∧ next e = b.
Proof. unfold nxt. rewrite fmap_Some. naive_solver. Qed.

Lemma prv_some n a b : prv n a = Some b → ∃ e, n !! a = Some e ∧ prev e = b.
Proof. unfold prv. rewrite fmap_Some. naive_solver. Qed.

(** ** Insertion between two neighbours *)

Definition insert_between (n : gmap Z list_elem) (a e b : Z) (ea eb : list_elem) :=
  <[b := ListElem e (next eb)]> (<[a := ListElem (prev ea) e]> (<[e := ListElem a b]> n)).

Lemma list_insert_before_eq fl n a e b ea eb :
  n !! a = Some ea → n !! b = Some eb → is_Some (n !! e) → prev eb = a →
  a ≠ b → e ≠ a → e ≠ b →
  list_insert_before (LMem fl n) b e = Ok (LMem fl (insert_between n a e b ea eb)).
Proof.
  intros Ha Hb [ee He] Hp Hab Hea Heb. unfold list_insert_before.
  pose proof (intr_restore fl) as Hr. simpl l_eflags. destruct (intr_disable fl) as [old fl'].
  simpl nodes. unfold get_elem, set_prev, set_next, get_elem.
  rewrite Hb. rb. rewrite He. rb.
  rewrite lookup_insert_eq. rb. rewrite !lookup_insert_ne, Hb by done. rb.
  rewrite Hp, !lookup_insert_ne, Ha by done. rb.
  rewrite !lookup_insert_ne, Hb by done. rb.
  rewrite Hr. unfold insert_between. by rewrite insert_insert_eq.
Qed.

Section insert.
Context (n : gmap Z list_elem) (a e b : Z) (ea eb : list_elem).
Context (Ha : n !! a = Some ea) (Hb : n !! b = Some eb).
Context (Hab : a ≠ b) (Hea : e ≠ a) (Heb : e ≠ b).

Lemma insert_between_other x : x ≠ a → x ≠ e → x ≠ b →
  insert_between n a e b ea eb !! x = n !! x.
Proof. intros. unfold insert_between. by rewrite !lookup_insert_ne. Qed.

Lemma insert_between_a : insert_between n a e b ea eb !! a = Some (ListElem (prev ea) e).
Proof. unfold insert_between. by rewrite lookup_insert_ne, lookup_insert_eq. Qed.

Lemma insert_between_b : insert_between n a e b ea eb !! b = Some (ListElem e (next eb)).
Proof. unfold insert_between. by rewrite lookup_insert_eq. Qed.

Lemma insert_between_e : insert_between n a e b ea eb !! e = Some (ListElem a b).
Proof.
  unfold insert_between. do 2 rewrite lookup_insert_ne by done. apply lookup_insert_eq.
Qed.

Lemma insert_between_nxt x : x ≠ a → x ≠ e →
  nxt (insert_between n a e b ea eb) x = nxt n x.
Proof.
  intros. unfold nxt. destruct (decide (x = b)) as [->|].
  - by rewrite insert_between_b, Hb.
  - by rewrite insert_between_other.
Qed.

Lemma insert_between_prv x : x ≠ b → x ≠ e →
  prv (insert_between n a e b ea eb) x = prv n x.
Proof.
  intros. unfold prv. destruct (decide (x = a)) as [->|].
  - by rewrite insert_between_a, Ha.
  - by rewrite insert_between_other.
Qed.

Lemma insert_between_linked xs ys :
  linked n (xs ++ a :: b :: ys) → NoDup (xs ++ a :: b :: ys) → e ∉ xs ++ a :: b :: ys →
  linked (insert_between n a e b ea eb) (xs ++ a :: e :: b :: ys).
Proof.
  intros Hl Hd He. apply linked_app in Hl as [Hl1 (_ & _ & Hl2)].
  assert (Hd1 : ∀ x, x ∈ xs → x ≠ a ∧ x ≠ b ∧ x ≠ e).
  { intros x Hx. apply NoDup_app in Hd as (_ & Hd & _). specialize (Hd x Hx). set_solver. }
  assert (Hd2 : ∀ x, x ∈ ys → x ≠ a ∧ x ≠ b ∧ x ≠ e).
  { intros x Hx. apply NoDup_app in Hd as (_ & _ & Hd).
    apply NoDup_cons in Hd as [Hd1' Hd]. apply NoDup_cons in Hd as [Hd2' _]. set_solver. }
  apply linked_app. split.
  - apply (linked_snoc_frame n); [done|..].
    + intros x Hx. destruct (Hd1 x Hx) as (? & ? & ?). by apply insert_between_nxt.
    + intros x [Hx|Hx%list_elem_of_singleton]%elem_of_app; [|subst; by apply insert_between_prv].
      destruct (Hd1 x Hx) as (? & ? & ?). by apply insert_between_prv.
  - rewrite !linked_cons2. split_and!;
      try (unfold nxt, prv; by rewrite ?insert_between_a, ?insert_between_b, ?insert_between_e).
    apply (linked_cons_frame n); [done|..].
    + intros x [->|Hx]%elem_of_cons; [by apply insert_between_nxt|].
      destruct (Hd2 x Hx) as (? & ? & ?). by apply insert_between_nxt.
    + intros x Hx. destruct (Hd2 x Hx) as (? & ? & ?). by apply insert_between_prv.
Qed.
End insert.

(** ** Removal of a node between two neighbours *)

Definition unlink (n : gmap Z list_elem) (a e b : Z) (ea eb : list_elem) :=
  <[a := ListElem (prev ea) b]> (<[b := ListElem a (next eb)]> n).

Lemma list_remove_eq fl n a e b ea ee eb :
  n !! a = Some ea → n !! e = Some ee → n !! b = Some eb → prev ee = a → next ee = b →
  a ≠ b → e ≠ a → e ≠ b →
  list_remove (LMem fl n) e = Ok (LMem fl (unlink n a e b ea eb)).
Proof.
  intros Ha He Hb Hp Hn Hab Hea Heb. unfold list_remove.
  pose proof (intr_restore fl) as Hr. simpl l_eflags. destruct (intr_disable fl) as [old fl'].
  simpl nodes. unfold get_elem, set_prev, set_next, get_elem.
  rewrite He. rb. rewrite Hn, Hp, Hb. rb.
  rewrite lookup_insert_ne, He by done. rb. rewrite Hn, Hp.
  rewrite lookup_insert_ne, Ha by done. rb. by rewrite Hr.
Qed.

Section remove.
Context (n : gmap Z list_elem) (a e b : Z) (ea eb : list_elem).
Context (Ha : n !! a = Some ea) (Hb : n !! b = Some eb) (Hab : a ≠ b).

Lemma unlink_other x : x ≠ a → x ≠ b → unlink n a e b ea eb !! x = n !! x.
Proof. intros. unfold unlink. by rewrite !lookup_insert_ne. Qed.

Lemma unlink_a : unlink n a e b ea eb !! a = Some (ListElem (prev ea) b).
Proof. unfold unlink. by rewrite lookup_insert_eq. Qed.

Lemma unlink_b : unlink n a e b ea eb !! b = Some (ListElem a (next eb)).
Proof. unfold unlink. by rewrite lookup_insert_ne, lookup_insert_eq. Qed.

Lemma unlink_nxt x : x ≠ a → nxt (unlink n a e b ea eb) x = nxt n x.
Proof.
  intros. unfold nxt. destruct (decide (x = b)) as [->|].
  - by rewrite unlink_b, Hb.
  - by rewrite unlink_other.
Qed.

Lemma unlink_prv x : x ≠ b → prv (unlink n a e b ea eb) x = prv n x.
Proof.
  intros. unfold prv. destruct (decide (x = a)) as [->|].
  - by rewrite unlink_a, Ha.
  - by rewrite unlink_other.
Qed.

Lemma unlink_linked xs ys :
  linked n (xs ++ a :: e :: b :: ys) → NoDup (xs ++ a :: e :: b :: ys) →
  linked (unlink n a e b ea eb) (xs ++ a :: b :: ys).
Proof.
  intros Hl Hd. apply linked_app in Hl as [Hl1 (_ & _ & _ & _ & Hl2)].
  apply NoDup_app in Hd as (_ & Hd1 & Hd2).
  assert (Hxs : ∀ x, x ∈ xs → x ≠ a ∧ x ≠ b) by (intros x Hx; specialize (Hd1 x Hx); set_solver).
  assert (Hys : ∀ x, x ∈ ys → x ≠ a ∧ x ≠ b).
  { intros x Hx. apply NoDup_cons in Hd2 as [? Hd2]. apply NoDup_cons in Hd2 as [_ Hd2].
    apply NoDup_cons in Hd2 as [? _]. set_solver. }
  apply linked_app. split.
  - apply (linked_snoc_frame n); [done|..].
    + intros x Hx. apply unlink_nxt. by apply Hxs.
    + intros x [Hx|Hx%list_elem_of_singleton]%elem_of_app;
        [apply unlink_prv; by apply Hxs|subst; by apply unlink_prv].
  - rewrite linked_cons2. split_and!; try (unfold nxt, prv; by rewrite ?unlink_a, ?unlink_b).
    apply (linked_cons_frame n); [done|..].
    + intros x [->|Hx]%elem_of_cons; apply unlink_nxt; [done|by apply Hys].
    + intros x Hx. apply unlink_prv. by apply Hys.
Qed.
End remove.

(** ** The operations on a heap of lists *)

(** What an operation does: [n] with lists [qs] becomes [n'] with [qs'], on
    the same set of nodes. *)
Definition relinked (n n' : gmap Z list_elem) (qs' : gmap Z (list Z)) : Prop :=
  heap_lists n' qs' ∧ ∀ x, is_Some (n' !! x) ↔ is_Some (n !! x).

Lemma chain_nodes n xs a b ys :
  linked n (xs ++ a :: b :: ys) →
  ∃ ea eb, n !! a = Some ea ∧ n !! b = Some eb ∧ next ea = b ∧ prev eb = a.
Proof.
  intros [_ (Hn & Hp & _)]%linked_app.
  apply nxt_some in Hn as (ea & Ha & Hna). apply prv_some in Hp as (eb & Hb & Hpb). eauto 10.
Qed.

(** Replacing one list: the other lists do not notice. *)
(** Every node of a list exists. *)
Lemma linked_some n a r x : linked n (a :: r) → r ≠ [] → x ∈ a :: r → is_Some (n !! x).
Proof.
  revert a. induction r as [|b r IH]; intros a Hl Hne Hx; [done|].
  destruct Hl as (Hn & Hp & Hl). apply nxt_some in Hn as (ea & Ha & _).
  apply prv_some in Hp as (eb & Hb & _).
  apply elem_of_cons in Hx as [->|Hx]; [by eexists|].
  destruct r as [|c r]; [apply list_elem_of_singleton in Hx as ->; by eexists|].
  by apply (IH b).
Qed.

Lemma heap_lists_some n qs p l x :
  heap_lists n qs → qs !! p = Some l → x ∈ footprint p l → is_Some (n !! x).
Proof.
  intros Hh Hp. apply linked_some; [by apply (hl_linked _ _ Hh p l)|]. by destruct l.
Qed.

(** A new node is detached and disturbs no list. *)
Lemma heap_lists_fresh n qs x e :
  heap_lists n qs → n !! x = None → heap_lists (<[x := e]> n) qs.
Proof.
  intros Hh Hx. split; try apply Hh. intros p l Hp.
  apply (linked_same n); [by apply (hl_linked _ _ Hh p l)|]. intros y Hy.
  apply lookup_insert_ne. intros ->. destruct (heap_lists_some n qs p l y Hh Hp Hy). congruence.
Qed.

Lemma detached_fresh n n' qs x :
  heap_lists n qs → n !! x = None → addr_ok x → is_Some (n' !! x) → detached n' qs x.
Proof.
  intros Hh Hx Ha Hs. split_and!; auto. intros p l Hp Hin.
  destruct (heap_lists_some n qs p l x Hh Hp Hin). congruence.
Qed.

Lemma detached_append n n' qs p l e x :
  detached n qs x → (∀ y, is_Some (n' !! y) ↔ is_Some (n !! y)) → qs !! p = Some l → x ≠ e →
  detached n' (<[p := l ++ [e]]> qs) x.
Proof.
  intros (Ha & Hs & Ho) Hd Hp Hne. split_and!; [done|by apply Hd|]. intros q l'.
  rewrite lookup_insert. case_decide; [|by apply Ho]. subst q. intros [= <-] Hin.
  apply (Ho p l Hp). unfold footprint in *. set_solver.
Qed.

Lemma heap_lists_replace n n' qs p l l' :
  heap_lists n qs → qs !! p = Some l →
  linked n' (footprint p l') → NoDup (footprint p l') →
  (∀ x, x ∈ footprint p l' → addr_ok x) →
  (∀ x q lq, x ∈ footprint p l' → q ≠ p → qs !! q = Some lq → x ∉ footprint q lq) →
  (∀ x, x ∉ footprint p l → x ∉ footprint p l' → n' !! x = n !! x) →
  heap_lists n' (<[p := l']> qs).
Proof.
  intros Hh Hp Hl Hd Ha Hsep Hsame.
  assert (Hother : ∀ q lq, q ≠ p → qs !! q = Some lq → linked n' (footprint q lq)).
  { intros q lq Hne Hq. apply (linked_same n); [by apply (hl_linked _ _ Hh)|].
    intros x Hx. apply Hsame.
    - intros Hx'. destruct Hne. by apply (hl_sep _ _ Hh q p lq l x).
    - intros Hx'. by apply (Hsep x q lq). }
  split.
  - intros q lq. rewrite lookup_insert. case_decide; [|by apply Hother]. naive_solver.
  - intros q lq. rewrite lookup_insert. case_decide; [|by apply (hl_nodup _ _ Hh)]. naive_solver.
  - intros q r lq lr x. rewrite !lookup_insert.
    case_decide as Eq; case_decide as Er; subst; intros Hq Hr Hxq Hxr; simplify_eq; auto.
    + exfalso. eapply (Hsep x r lr); eauto.
    + exfalso. eapply (Hsep x q lq); eauto.
    + by apply (hl_sep _ _ Hh q r lq lr x).
  - intros q lq x. rewrite lookup_insert. case_decide; [|by apply (hl_addr _ _ Hh)]. naive_solver.
Qed.

Lemma perm_second (xs : list Z) a e r : xs ++ a :: e :: r ≡ₚ e :: xs ++ a :: r.
Proof.
  trans (xs ++ e :: a :: r); [|symmetry; apply Permutation_middle].
  apply Permutation_app_head. constructor.
Qed.

Lemma insert_before_holds fl n qs p l l' xs a e b ys :
  heap_lists n qs → qs !! p = Some l → detached n qs e →
  footprint p l = xs ++ a :: b :: ys → footprint p l' = xs ++ a :: e :: b :: ys →
  ∃ n', list_insert_before (LMem fl n) b e = Ok (LMem fl n') ∧ relinked n n' (<[p := l']> qs).
Proof.
  intros Hh Hp (Hea & He & Hout) Hf Hf'.
  pose proof (hl_linked _ _ Hh p l Hp) as Hl. pose proof (hl_nodup _ _ Hh p l Hp) as Hd.
  pose proof (Hout p l Hp) as Heo. rewrite Hf in Hl, Hd, Heo.
  destruct (chain_nodes _ _ _ _ _ Hl) as (ea & eb & Ha & Hb & _ & Hpb).
  assert (a ≠ b) by (apply NoDup_app in Hd as (_ & _ & [Hd _]%NoDup_cons); set_solver).
  assert (e ≠ a ∧ e ≠ b) as [? ?] by set_solver.
  eexists. split; [by apply (list_insert_before_eq fl n a e b ea eb)|]. split.
  - assert (Hperm : footprint p l' ≡ₚ e :: footprint p l).
    { rewrite Hf, Hf'. apply perm_second. }
    apply (heap_lists_replace n _ qs p l); auto.
    + rewrite Hf'. by apply insert_between_linked.
    + rewrite Hperm. apply NoDup_cons. split; [by eapply Hout|by eapply hl_nodup].
    + intros x. rewrite Hperm, elem_of_cons. intros [->|Hx]; [done|by eapply hl_addr].
    + intros x q lq. rewrite Hperm, elem_of_cons. intros [->|Hx] Hne Hq; [by eapply Hout|].
      intros Hx'. destruct Hne. by eapply (hl_sep _ _ Hh q p).
    + intros x _ Hx. rewrite Hf', not_elem_of_app, !not_elem_of_cons in Hx.
      apply insert_between_other; tauto.
  - intros x. unfold insert_between. rewrite !lookup_insert.
    repeat case_decide; subst; naive_solver.
Qed.

Lemma remove_holds fl n qs p l l' xs a e b ys :
  heap_lists n qs → qs !! p = Some l →
  footprint p l = xs ++ a :: e :: b :: ys → footprint p l' = xs ++ a :: b :: ys →
  ∃ n', list_remove (LMem fl n) e = Ok (LMem fl n')
    ∧ relinked n n' (<[p := l']> qs) ∧ detached n' (<[p := l']> qs) e.
Proof.
  intros Hh Hp Hf Hf'.
  pose proof (hl_linked _ _ Hh p l Hp) as Hl. pose proof (hl_nodup _ _ Hh p l Hp) as Hd.
  assert (Hperm : footprint p l ≡ₚ e :: footprint p l').
  { rewrite Hf, Hf'. apply perm_second. }
  pose proof Hd as Hd'. rewrite Hperm in Hd'. apply NoDup_cons in Hd' as [Hne Hd'].
  rewrite Hf in Hl, Hd.
  destruct (chain_nodes _ _ _ _ _ Hl) as (ea & ee & Ha & He & _ & Hpe).
  assert (Hl2 : linked n ((xs ++ [a]) ++ e :: b :: ys)) by by rewrite <- app_assoc.
  destruct (chain_nodes _ _ _ _ _ Hl2) as (ee' & eb & He' & Hb & Hnx & Hpb).
  assert (ee' = ee) as -> by congruence.
  assert (a ≠ b) by (apply NoDup_app in Hd as (_ & _ & [Hd _]%NoDup_cons); set_solver).
  assert (e ≠ a ∧ e ≠ b) as [? ?] by (rewrite Hf' in Hne; set_solver).
  assert (Hdom : ∀ x, is_Some (unlink n a e b ea eb !! x) ↔ is_Some (n !! x)).
  { intros x. unfold unlink. rewrite !lookup_insert. repeat case_decide; subst; naive_solver. }
  eexists. split_and!; [by apply (list_remove_eq fl n a e b ea ee eb)| |].
  - split; [|done]. apply (heap_lists_replace n _ qs p l); auto.
    + rewrite Hf'. by apply unlink_linked.
    + intros x Hx. apply (hl_addr _ _ Hh p l); [done|]. rewrite Hperm. by right.
    + intros x q lq Hx Hnq Hq Hx'. destruct Hnq.
      apply (hl_sep _ _ Hh q p lq l x); auto. rewrite Hperm. by right.
    + intros x _ Hx. rewrite Hf', not_elem_of_app, !not_elem_of_cons in Hx.
      apply unlink_other; tauto.
  - split_and!.
    + apply (hl_addr _ _ Hh p l); [done|]. rewrite Hperm. by left.
    + apply Hdom. by eexists.
    + intros q lq. rewrite lookup_insert. case_decide; [by intros [= <-]; subst|].
      intros Hq Hx. assert (q = p); [|by subst].
      apply (hl_sep _ _ Hh q p lq l e); auto. rewrite Hperm. by left.
Qed.

(** Lists seen as sequences: [append] and [push] add at the ends, [pop] takes
    the first element, and the searches see the elements in order. *)

Lemma footprint_snoc p l : ∃ xs a, footprint p l = xs ++ a :: [tail_of p]
  ∧ ∀ e, footprint p (l ++ [e]) = xs ++ a :: e :: [tail_of p].
Proof.
  unfold footprint. destruct l as [|z l _] using rev_ind.
  - exists [], (head_of p). split; [done|]. done.
  - exists (head_of p :: l), z. simpl. split; [by rewrite <- app_assoc|].
    intros e. by rewrite <- !app_assoc.
Qed.

Lemma list_append_holds fl n qs p l e :
  heap_lists n qs → qs !! p = Some l → detached n qs e →
  ∃ n', list_append (LMem fl n) p e = Ok (LMem fl n')
    ∧ relinked n n' (<[p := l ++ [e]]> qs).
Proof.
  intros Hh Hp He. destruct (footprint_snoc p l) as (xs & a & Hf & Hf').
  by apply (insert_before_holds fl n qs p l (l ++ [e]) xs a e (tail_of p) []).
Qed.

Lemma head_elem n qs p l :
  heap_lists n qs → qs !! p = Some l →
  ∃ h, n !! head_of p = Some h ∧ next h = default (tail_of p) (head l).
Proof.
  intros Hh Hp. pose proof (hl_linked _ _ Hh p l Hp) as Hl. unfold footprint in Hl.
  destruct l as [|e l]; simpl in Hl; destruct Hl as (Hn & _); apply nxt_some in Hn; naive_solver.
Qed.

Lemma list_push_holds fl n qs p l e :
  heap_lists n qs → qs !! p = Some l → detached n qs e →
  ∃ n', list_push (LMem fl n) p e = Ok (LMem fl n')
    ∧ relinked n n' (<[p := e :: l]> qs).
Proof.
  intros Hh Hp He. destruct (head_elem n qs p l Hh Hp) as (h & Hhd & Hnx).
  unfold list_push, get_elem. simpl nodes. rewrite Hhd. rb. rewrite Hnx.
  destruct l as [|b l]; simpl.
  - by apply (insert_before_holds fl n qs p [] [e] [] (head_of p) e (tail_of p) []).
  - by apply (insert_before_holds fl n qs p (b :: l) (e :: b :: l) [] (head_of p) e b
      (l ++ [tail_of p])).
Qed.

Lemma list_pop_holds fl n qs p e l :
  heap_lists n qs → qs !! p = Some (e :: l) →
  ∃ n', list_pop (LMem fl n) p = Ok (e, LMem fl n')
    ∧ relinked n n' (<[p := l]> qs) ∧ detached n' (<[p := l]> qs) e.
Proof.
  intros Hh Hp. destruct (head_elem n qs p _ Hh Hp) as (h & Hhd & Hnx). simpl in Hnx.
  destruct (remove_holds fl n qs p (e :: l) l [] (head_of p) e
    (default (tail_of p) (head l)) (match l with [] => [] | _ :: r => r ++ [tail_of p] end))
    as (n' & Hr & ? & ?); auto; [by destruct l|by destruct l|].
  exists n'. split; [|done]. unfold list_pop, get_elem. simpl nodes.
  rewrite Hhd. rb. rewrite Hnx, Hr. done.
Qed.

(** Removing an element from the middle. *)
Lemma list_remove_holds fl n qs p l1 e l2 :
  heap_lists n qs → qs !! p = Some (l1 ++ e :: l2) →
  ∃ n', list_remove (LMem fl n) e = Ok (LMem fl n')
    ∧ relinked n n' (<[p := l1 ++ l2]> qs) ∧ detached n' (<[p := l1 ++ l2]> qs) e.
Proof.
  intros Hh Hp.
  assert (∃ xs a, ∀ r, head_of p :: l1 ++ r = xs ++ a :: r) as (xs & a & Hxs).
  { destruct l1 as [|z l1 _] using rev_ind; [by exists [], (head_of p)|].
    exists (head_of p :: l1), z. intros r. simpl. by rewrite <- app_assoc. }
  apply (remove_holds fl n qs p (l1 ++ e :: l2) (l1 ++ l2) xs a e
    (default (tail_of p) (head l2)) (match l2 with [] => [] | _ :: r => r ++ [tail_of p] end));
    auto; unfold footprint; rewrite <- app_assoc; simpl.
  - rewrite Hxs. by destruct l2.
  - rewrite Hxs. by destruct l2.
Qed.

Lemma list_empty_holds fl n qs p l :
  heap_lists n qs → qs !! p = Some l →
  list_empty (LMem fl n) p = Ok (bool_decide (l = [])).
Proof.
  intros Hh Hp. destruct (head_elem n qs p l Hh Hp) as (h & Hhd & Hnx).
  unfold list_empty, get_elem. simpl nodes. rewrite Hhd. rb. rewrite Hnx. f_equal.
  destruct l as [|e l]; simpl.
  - by rewrite Z.eqb_refl.
  - apply Z.eqb_neq. intros E.
    pose proof (hl_nodup _ _ Hh p _ Hp) as Hd. unfold footprint in Hd. simpl in Hd.
    apply NoDup_cons in Hd as [_ Hd]. apply NoDup_cons in Hd as [Hd _]. set_solver.
Qed.

(** Walking a list: from the [i]-th element on, the rest of the list lies
    ahead. *)
Lemma walk_next n qs p l1 e l2 :
  heap_lists n qs → qs !! p = Some (l1 ++ e :: l2) →
  e ≠ tail_of p ∧ get_elem n e ≫= (λ el, Ok (next el)) = Ok (default (tail_of p) (head l2)).
Proof.
  intros Hh Hp. pose proof (hl_linked _ _ Hh p _ Hp) as Hl.
  pose proof (hl_nodup _ _ Hh p _ Hp) as Hd. unfold footprint in *.
  rewrite <- app_assoc in Hl, Hd. simpl in Hd.
  apply NoDup_cons in Hd as [_ Hd]. apply NoDup_app in Hd as (_ & _ & Hd).
  apply NoDup_cons in Hd as [Hd _]. split; [set_solver|].
  change (head_of p :: l1 ++ (e :: l2) ++ [tail_of p])
    with ((head_of p :: l1) ++ e :: (l2 ++ [tail_of p])) in Hl.
  assert (∃ r, l2 ++ [tail_of p] = default (tail_of p) (head l2) :: r) as [r Hr]
    by (destruct l2; simpl; eauto).
  rewrite Hr in Hl. destruct (chain_nodes _ _ _ _ _ Hl) as (ee & eb & He & _ & Hn & _).
  unfold get_elem. rewrite He. rb. by rewrite Hn.
Qed.

(** Nodes are distinct 32-bit addresses, so no list outgrows the fuel. *)
Lemma bounded_nodup (l : list Z) (b : Z) :
  NoDup l → (∀ x, x ∈ l → 0 ≤ x < b) → Z.of_nat (length l) ≤ Z.max 0 b.
Proof.
  intros Hd Hb. assert (Hs : l ⊆+ seqZ 0 b).
  { apply NoDup_submseteq; [done|]. intros x Hx. apply elem_of_seqZ. specialize (Hb x Hx). lia. }
  apply submseteq_length in Hs. rewrite length_seqZ in Hs. lia.
Qed.

Lemma heap_lists_length n qs p l :
  heap_lists n qs → qs !! p = Some l → Z.of_nat (length l) < 2 ^ 32.
Proof.
  intros Hh Hp. pose proof (bounded_nodup (footprint p l) (2 ^ 32)) as Hb.
  unfold footprint in Hb at 2. simpl in Hb. rewrite length_app in Hb. simpl in Hb.
  assert (Z.of_nat (S (length l + 1)) ≤ Z.max 0 (2 ^ 32)); [|lia].
  apply Hb; [by apply (hl_nodup _ _ Hh)|]. intros x Hx.
  pose proof (hl_addr _ _ Hh p l x Hp Hx) as [? ?]. lia.
Qed.

(** The walking loops share one induction: a state [st] standing at an element
    is taken to the next one or stops the loop. *)
Lemma walk_loop {St R} (body : St → res (St + R)) n qs p l (at_ : St → Z) (I : list Z → St → Prop)
    (Q : R → Prop) :
  heap_lists n qs → qs !! p = Some l →
  (∀ st, at_ st = tail_of p → I l st → ∃ r, body st = Ok (inr r) ∧ Q r) →
  (∀ l1 e l2 st, l = l1 ++ e :: l2 → at_ st = e → I l1 st →
     (∃ st', body st = Ok (inl st') ∧ at_ st' = default (tail_of p) (head l2)
        ∧ I (l1 ++ [e]) st')
     ∨ (∃ r, body st = Ok (inr r) ∧ Q r)) →
  ∀ st, at_ st = default (tail_of p) (head l) → I [] st →
  ∃ r, while_ body LOOP_FUEL st = Ok r ∧ Q r.
Proof.
  intros Hh Hp Hend Hstep st Hat HI. pose proof (heap_lists_length n qs p l Hh Hp) as Hlen.
  assert (Hgo : ∀ l2 l1 st, l = l1 ++ l2 → at_ st = default (tail_of p) (head l2) → I l1 st →
    ∃ m r, (m ≤ S (length l2))%nat ∧ while_nat body m st = Ok (inr r) ∧ Q r).
  { induction l2 as [|e l2 IH]; intros l1 st0 E Ha HIl; simpl in Ha.
    - rewrite app_nil_r in E. subst l1. destruct (Hend st0 Ha HIl) as (r & Hr & HQ).
      exists 1%nat, r. simpl. rewrite Hr. split_and!; auto.
    - destruct (Hstep l1 e l2 st0 E Ha HIl) as [(st' & Hb & Ha' & HI')|(r & Hr & HQ)].
      + destruct (IH (l1 ++ [e]) st') as (m & r & Hm & Hw & HQ); auto;
          [by rewrite <- app_assoc|].
        exists (S m), r. simpl. rewrite Hb. split_and!; auto. simpl. lia.
      + exists 1%nat, r. simpl. rewrite Hr. split_and!; auto. lia. }
  destruct (Hgo l [] st eq_refl Hat HI) as (m & r & Hm & Hw & HQ). exists r. split; [|done].
  apply while_from_nat. exists m. split; [|done]. pose proof LOOP_FUEL_val. lia.
Qed.

Lemma elem_find_holds fl n qs p l obj :
  heap_lists n qs → qs !! p = Some l → obj ≠ tail_of p →
  elem_find (LMem fl n) p obj = Ok (bool_decide (obj ∈ l)).
Proof.
  intros Hh Hp Hne. destruct (head_elem n qs p l Hh Hp) as (h & Hhd & Hnx).
  unfold elem_find, get_elem. simpl nodes. rewrite Hhd. rb. rewrite Hnx.
  destruct (walk_loop (elem_find_body n p obj) n qs p l id (λ l1 _, obj ∉ l1)
    (λ r, r = bool_decide (obj ∈ l))) with (st := default (tail_of p) (head l))
    as (r & -> & ->); auto.
  - intros st Hat Hni. unfold elem_find_body. simpl in Hat. subst st.
    rewrite Z.eqb_refl. eexists. split; [done|]. by rewrite bool_decide_false.
  - intros l1 e l2 st E Hat Hni. simpl in Hat. subst st. unfold elem_find_body.
    destruct (walk_next n qs p l1 e l2 Hh) as [Ht Hw]; [by rewrite <- E|].
    destruct (Z.eqb_spec e (tail_of p)) as [|_]; [done|].
    destruct (Z.eqb_spec e obj) as [->|Hno].
    + right. eexists. split; [done|]. rewrite bool_decide_true; [done|]. rewrite E. set_solver.
    + left. apply bind_ok_inv in Hw as (el & -> & [= Hel]). rb. rewrite Hel.
      eexists. split_and!; [done..|]. set_solver.
  - set_solver.
Qed.

Lemma list_len_holds fl n qs p l :
  heap_lists n qs → qs !! p = Some l →
  list_len (LMem fl n) p = Ok (Z.of_nat (length l)).
Proof.
  intros Hh Hp. pose proof (heap_lists_length n qs p l Hh Hp) as Hlen.
  destruct (head_elem n qs p l Hh Hp) as (h & Hhd & Hnx).
  unfold list_len, get_elem. simpl nodes. rewrite Hhd. rb. rewrite Hnx.
  destruct (walk_loop (list_len_body n p) n qs p l fst (λ l1 st, st.2 = Z.of_nat (length l1))
    (λ r, r = Z.of_nat (length l))) with (st := (default (tail_of p) (head l), 0))
    as (r & -> & ->); auto.
  - intros [a c] Hat HI. simpl in *. subst. rewrite Z.eqb_refl. eauto.
  - intros l1 e l2 [a c] E Hat HI. left. simpl in *. subst a c.
    destruct (walk_next n qs p l1 e l2 Hh) as [Ht Hw]; [by rewrite <- E|].
    destruct (Z.eqb_spec e (tail_of p)) as [|_]; [done|].
    apply bind_ok_inv in Hw as (el & -> & [= Hel]). rb. rewrite Hel.
    eexists. split_and!; [done..|]. simpl. rewrite length_app. simpl.
    rewrite E, length_app in Hlen. simpl in Hlen. rewrite u32_small; lia.
Qed.

(** The first element on which the callback says yes, or NULL. *)
Lemma list_traversal_holds fl n qs p l func arg :
  heap_lists n qs → qs !! p = Some l →
  list_traversal (LMem fl n) p func arg
  = Ok (default NULL (snd <$> list_find (λ e, func e arg = true) l)).
Proof.
  intros Hh Hp. destruct (head_elem n qs p l Hh Hp) as (h & Hhd & Hnx).
  unfold list_traversal, get_elem. simpl nodes. rewrite Hhd. rb.
  rewrite (list_empty_holds fl n qs p l) by done. rb. rewrite Hnx.
  case_bool_decide as Hl; [by subst l|].
  destruct (walk_loop (traversal_body n p func arg) n qs p l id
    (λ l1 _, ∀ e, e ∈ l1 → func e arg = false)
    (λ r, r = default NULL (snd <$> list_find (λ e, func e arg = true) l)))
    with (st := default (tail_of p) (head l)) as (r & -> & ->); auto.
  - intros st Hat Hno. simpl in Hat. subst st. unfold traversal_body. rewrite Z.eqb_refl.
    eexists. split; [done|]. rewrite (proj2 (list_find_None _ _)); [done|].
    apply Forall_forall. intros x Hx. by rewrite Hno.
  - intros l1 e l2 st E Hat Hno. simpl in Hat. subst st. unfold traversal_body.
    destruct (walk_next n qs p l1 e l2 Hh) as [Ht Hw]; [by rewrite <- E|].
    destruct (Z.eqb_spec e (tail_of p)) as [|_]; [done|].
    destruct (func e arg) eqn:Hf.
    + right. eexists. split; [done|].
      rewrite (proj2 (list_find_Some _ l (length l1) e)); [done|]. rewrite E. split_and!; auto.
      * by rewrite list_lookup_middle.
      * intros j y Hj Hlt. rewrite lookup_app_l in Hj by done.
        rewrite Hno; [done|]. by eapply list_elem_of_lookup_2.
    + left. apply bind_ok_inv in Hw as (el & -> & [= Hel]). rb. rewrite Hel.
      eexists. split_and!; [done..|]. intros x. rewrite elem_of_app, list_elem_of_singleton.
      intros [?| ->]; auto.
  - intros e He. by apply not_elem_of_nil in He.
Qed.

(** [list_init] makes two fresh nodes an empty list of the heap. *)
Lemma list_init_holds fl n qs p :
  heap_lists n qs → qs !! p = None →
  detached n qs (head_of p) → detached n qs (tail_of p) →
  ∃ n', list_init (LMem fl n) p = Ok (LMem fl n') ∧ relinked n n' (<[p := []]> qs).
Proof.
  intros Hh Hp (Ha1 & [e1 Hn1] & Ho1) (Ha2 & [e2 Hn2] & Ho2).
  assert (head_of p ≠ tail_of p) by (unfold head_of, tail_of; lia).
  unfold list_init, set_prev, set_next, get_elem. simpl nodes. rewrite Hn1. rb.
  rewrite lookup_insert_eq. rb. rewrite !lookup_insert_ne, Hn2 by done. rb.
  rewrite lookup_insert_eq. rb. simpl l_eflags. eexists. split; [done|].
  set (n' := <[tail_of p := _]> _).
  assert (Ht : n' !! tail_of p = Some (ListElem (head_of p) NULL))
    by (unfold n'; rewrite lookup_insert_eq; done).
  assert (Hhd : n' !! head_of p = Some (ListElem NULL (tail_of p)))
    by (unfold n'; do 2 rewrite lookup_insert_ne by done; rewrite lookup_insert_eq; done).
  assert (Hs : ∀ x, x ≠ head_of p → x ≠ tail_of p → n' !! x = n !! x).
  { intros x H1 H2. unfold n'. by rewrite !lookup_insert_ne. }
  assert (Hfp : footprint p [] = [head_of p; tail_of p]) by done.
  split.
  - split.
    + intros q l. rewrite lookup_insert. case_decide; [intros [= <-]|intros Hq].
      * subst q. rewrite Hfp. simpl. unfold nxt, prv. by rewrite Ht, Hhd.
      * apply (linked_same n); [by apply (hl_linked _ _ Hh)|]. intros x Hx.
        apply Hs; intros ->; [by apply (Ho1 q l)|by apply (Ho2 q l)].
    + intros q l. rewrite lookup_insert. case_decide; [intros [= <-]|by apply (hl_nodup _ _ Hh)].
      subst q. rewrite Hfp. repeat constructor; set_solver.
    + intros q r lq lr x. rewrite !lookup_insert. repeat case_decide; subst; try done.
      * intros [= <-] Hr. rewrite Hfp. intros Hx Hxr. exfalso.
        rewrite !elem_of_cons, elem_of_nil in Hx.
        destruct Hx as [->|[->|[]]]; [by apply (Ho1 r lr)|by apply (Ho2 r lr)].
      * intros Hq [= <-]. rewrite Hfp. intros Hxq Hx. exfalso.
        rewrite !elem_of_cons, elem_of_nil in Hx.
        destruct Hx as [->|[->|[]]]; [by apply (Ho1 q lq)|by apply (Ho2 q lq)].
      * apply (hl_sep _ _ Hh).
    + intros q l x. rewrite lookup_insert. case_decide; [intros [= <-]|by apply (hl_addr _ _ Hh)].
      subst q. rewrite Hfp, !elem_of_cons, elem_of_nil. naive_solver.
  - intros x. destruct (decide (x = head_of p)) as [->|]; [rewrite Hhd; naive_solver|].
    destruct (decide (x = tail_of p)) as [->|]; [rewrite Ht; naive_solver|].
    by rewrite Hs.
Qed.

(** Checking a concrete heap by computation. *)

Fixpoint linkedb (n : gmap Z list_elem) (fp : list Z) : bool :=
  match fp with
  | a :: (b :: _) as r => bool_decide (nxt n a = Some b) && bool_decide (prv n b = Some a) && linkedb n r
  | _ => true
  end.

Lemma linkedb_spec n fp : linkedb n fp = true → linked n fp.
Proof.
  induction fp as [|a [|b r] IH]; simpl; auto.
  rewrite !andb_true_iff, !bool_decide_eq_true. naive_solver.
Qed.

Definition heap_check (n : gmap Z list_elem) (ps : list (Z * list Z)) : bool :=
  bool_decide (NoDup (concat ((λ q, footprint q.1 q.2) <$> ps)))
  && forallb (λ q, linkedb n (footprint q.1 q.2)
       && forallb (λ a, (0 <? a) && (a <? 2 ^ 32)) (footprint q.1 q.2)) ps.

Lemma heap_check_spec n ps : heap_check n ps = true → heap_lists n (list_to_map ps).
Proof.
  unfold heap_check. rewrite andb_true_iff, bool_decide_eq_true, forallb_forall.
  intros [Hd Hall].
  assert (Hin : ∀ p l, (list_to_map ps : gmap Z (list Z)) !! p = Some l → (p, l) ∈ ps)
    by (intros p l; apply elem_of_list_to_map_2).
  assert (Hq : ∀ p l, (p, l) ∈ ps → linked n (footprint p l)
    ∧ ∀ x, x ∈ footprint p l → addr_ok x).
  { intros p l Hpl. rewrite list_elem_of_In in Hpl.
    specialize (Hall (p, l) Hpl). rewrite andb_true_iff, forallb_forall in Hall. simpl in Hall.
    destruct Hall as [Hl Ha]. split; [by apply linkedb_spec|].
    intros x Hx. rewrite list_elem_of_In in Hx. specialize (Ha x Hx). unfold addr_ok. lia. }
  assert (Hsep : ∀ p q l l' x, (p, l) ∈ ps → (q, l') ∈ ps →
    NoDup (footprint p l) ∧ (x ∈ footprint p l → x ∈ footprint q l' → p = q)).
  { clear Hin Hq Hall. induction ps as [|[p0 l0] ps IH]; [set_solver|].
    change (NoDup (footprint p0 l0 ++ concat ((λ q, footprint q.1 q.2) <$> ps))) in Hd.
    apply NoDup_app in Hd as (Hd0 & Hx & Hd).
    assert (Hc : ∀ p l x, (p, l) ∈ ps → x ∈ footprint p l →
      x ∈ concat ((λ q, footprint q.1 q.2) <$> ps)).
    { intros p l x Hp Hxp. rewrite list_elem_of_In. apply in_concat. exists (footprint p l).
      rewrite <- !list_elem_of_In. split; [|done]. apply list_elem_of_fmap. by exists (p, l). }
    intros p q l l' x Hp Hq. rewrite elem_of_cons in Hp, Hq.
    destruct Hp as [[= -> ->]|Hp], Hq as [[= -> ->]|Hq].
    - done.
    - split; [done|]. intros H1 H2. destruct (Hx x H1). by eapply Hc.
    - split; [by apply (IH Hd p p l l x)|]. intros H1 H2. destruct (Hx x H2). by eapply Hc.
    - by apply (IH Hd). }
  split.
  - intros p l Hp. by apply Hq, Hin.
  - intros p l Hp%Hin. by apply (Hsep p p l l p).
  - intros p q l l' x Hp%Hin Hq'%Hin. by apply (Hsep p q l l' x).
  - intros p l x Hp. by apply Hq, Hin.
Qed.

(** * Properties *)

(** C29: the updates of list.c refine operations on sequences.  On a heap that
    holds the lists [qs], each operation succeeds, restores eflags, keeps the
    heap well formed and changes the contents of one list only:
    [list_append] adds at the end, [list_push] at the front, [list_pop]
    returns and removes the first element, [list_remove] takes out its
    element wherever it is, and the removed node belongs to no list. *)
Theorem list_updates_refine fl n qs p l e :
  heap_lists n qs → qs !! p = Some l →
  (detached n qs e →
     (∃ n', list_append (LMem fl n) p e = Ok (LMem fl n') ∧ heap_lists n' (<[p := l ++ [e]]> qs))
     ∧ ∃ n', list_push (LMem fl n) p e = Ok (LMem fl n') ∧ heap_lists n' (<[p := e :: l]> qs))
  ∧ (∀ x r, l = x :: r →
     ∃ n', list_pop (LMem fl n) p = Ok (x, LMem fl n') ∧ heap_lists n' (<[p := r]> qs)
       ∧ detached n' (<[p := r]> qs) x)
  ∧ ∀ l1 x l2, l = l1 ++ x :: l2 →
     ∃ n', list_remove (LMem fl n) x = Ok (LMem fl n') ∧ heap_lists n' (<[p := l1 ++ l2]> qs)
       ∧ detached n' (<[p := l1 ++ l2]> qs) x.
Proof.
  intros Hh Hp. split_and!.
  - intros He. destruct (list_append_holds fl n qs p l e Hh Hp He) as (n1 & H1 & Hr1 & _).
    destruct (list_push_holds fl n qs p l e Hh Hp He) as (n2 & H2 & Hr2 & _). eauto 10.
  - intros x r ->. destruct (list_pop_holds fl n qs p x r Hh Hp) as (n' & H & [Hr _] & Hd). eauto.
  - intros l1 x l2 ->.
    destruct (list_remove_holds fl n qs p l1 x l2 Hh Hp) as (n' & H & [Hr _] & Hd). eauto.
Qed.

(** C30: the queries of list.c read the sequence: [list_empty], [elem_find],
    [list_len] and [list_traversal] terminate and return emptiness,
    membership, length and the first element the callback accepts (NULL if
    it accepts none). *)
Theorem list_queries_refine fl n qs p l obj func arg :
  heap_lists n qs → qs !! p = Some l → obj ≠ tail_of p →
  list_empty (LMem fl n) p = Ok (bool_decide (l = []))
  ∧ elem_find (LMem fl n) p obj = Ok (bool_decide (obj ∈ l))
  ∧ list_len (LMem fl n) p = Ok (Z.of_nat (length l))
  ∧ list_traversal (LMem fl n) p func arg
    = Ok (default NULL (snd <$> list_find (λ e, func e arg = true) l)).
Proof.
  intros Hh Hp Hobj. split_and!.
  - by apply (list_empty_holds fl n qs).
  - by apply (elem_find_holds fl n qs).
  - by apply (list_len_holds fl n qs).
  - by apply (list_traversal_holds fl n qs).
Qed.

Module ListRuns.
(** One list at 0x1000 with one element, and a loose node. *)
Definition Q : Z := 0x1000.
Definition heap : gmap Z list_elem :=
  list_to_map [ (0x1000, ListElem 0 0x2000); (0x2000, ListElem 0x1000 0x1008);
                (0x1008, ListElem 0x2000 0); (0x3000, ListElem 0 0) ].

Lemma one_list : heap_lists heap {[ Q := [0x2000] ]}.
Proof. apply (heap_check_spec heap [(Q, [0x2000])]). vm_compute. reflexivity. Qed.

Lemma one_loose : detached heap {[ Q := [0x2000] ]} 0x3000.
Proof.
  split; [unfold addr_ok; lia|]. split; [vm_compute; by eexists|].
  intros p l. rewrite lookup_singleton. case_decide; [intros [= <-]|done]. subst p.
  unfold footprint, Q, head_of, tail_of. simpl. rewrite !elem_of_cons, elem_of_nil. lia.
Qed.

Lemma list_updates_refine_witness :
  ∃ n', list_append (LMem 0x202 heap) Q 0x3000 = Ok (LMem 0x202 n')
    ∧ heap_lists n' (<[Q := [0x2000; 0x3000]]> {[ Q := [0x2000] ]}).
Proof.
  destruct (list_updates_refine 0x202 heap {[ Q := [0x2000] ]} Q [0x2000] 0x3000 one_list)
    as (H & _); [apply lookup_singleton_eq|].
  destruct (H one_loose) as [H1 _]. exact H1.
Defined.

Lemma list_queries_refine_witness :
  elem_find (LMem 0x202 heap) Q 0x2000 = Ok true ∧ list_len (LMem 0x202 heap) Q = Ok 1.
Proof.
  destruct (list_queries_refine 0x202 heap {[ Q := [0x2000] ]} Q [0x2000] 0x2000
    (λ _ _, true) 0 one_list) as (_ & H1 & H2 & _); [apply lookup_singleton_eq|unfold Q, tail_of; lia|].
  split; [exact H1|exact H2].
Defined.
End ListRuns.
