(* ===== verification/Sched.v ===== *)
(** thread/thread.c and the parts of userprog/process.c and userprog/tss.c it
    calls: tasks, the scheduler, blocking and unblocking, the timer tick.

    Kernel objects live in typed stores indexed by address: list nodes as in
    DList.v, task structures by the address of their page.  The processor
    contributes esp, eflags and the paged memory of Paging.v. *)
From S2P Require Import Prelude Bitmap Paging Memory Interrupt DList.

(** * Data *)

Inductive task_status :=
| TASK_RUNNING | TASK_READY | TASK_BLOCKED | TASK_WAITING | TASK_HANGING | TASK_DIED.

#[global] Instance task_status_eq_dec : EqDecision task_status.
Proof. solve_decision. Defined.

(** [struct task_struct] without its two list nodes, which are nodes of the
    list heap at offsets 36 and 44. *)
Record task_struct := Task {
  self_kstack : Z;
  pid : Z;
  status : task_status;
  name : list Z;
  priority : Z;
  ticks : Z;
  elapsed_ticks : Z;
  pgdir : Z;
  userprog_vaddr : virtual_addr;
  stack_magic : Z;
}.

Definition general_tag (t : Z) : Z := t + 36.
Definition all_list_tag (t : Z) : Z := t + 44.

(** [elem2enyrt(struct task_struct, general_tag, e)] of lib/kernel/list.h. *)
Definition elem2enyrt (e : Z) : Z := u32 (e - 36).

Definition STACK_MAGIC : Z := 0x20040207.

(** [struct lock] without its semaphore; the semaphore of the lock at [p] is
    at [p + 4], its waiters list at [p + 8]. *)
Record lock := Lock { holder : Z; holder_repeat_nr : Z }.

(** Link-time addresses of the lists of thread.c. *)
Class Symbols := { thread_ready_list : Z; thread_all_list : Z }.

Record kernel := Kernel {
  k_esp : Z;
  k_eflags : Z;
  k_nodes : gmap Z list_elem;
  k_tasks : gmap Z task_struct;
  k_semas : gmap Z Z;           (* address of a semaphore, its value *)
  k_locks : gmap Z lock;
  k_mach : machine;
  k_esp0 : Z;                   (* [tss.esp0] *)
  k_ticks : Z;                  (* [ticks] of device/timer.c *)
  k_out : list (list Z);        (* what [schedule] and the keyboard interrupt have printed, in order *)
}.

Definition set_esp K v := Kernel v (k_eflags K) (k_nodes K) (k_tasks K) (k_semas K) (k_locks K)
  (k_mach K) (k_esp0 K) (k_ticks K) (k_out K).
Definition set_eflags K v := Kernel (k_esp K) v (k_nodes K) (k_tasks K) (k_semas K) (k_locks K)
  (k_mach K) (k_esp0 K) (k_ticks K) (k_out K).
Definition set_lists K m := Kernel (k_esp K) (l_eflags m) (nodes m) (k_tasks K) (k_semas K)
  (k_locks K) (k_mach K) (k_esp0 K) (k_ticks K) (k_out K).
Definition set_tasks K v := Kernel (k_esp K) (k_eflags K) (k_nodes K) v (k_semas K) (k_locks K)
  (k_mach K) (k_esp0 K) (k_ticks K) (k_out K).
Definition set_semas K v := Kernel (k_esp K) (k_eflags K) (k_nodes K) (k_tasks K) v (k_locks K)
  (k_mach K) (k_esp0 K) (k_ticks K) (k_out K).
Definition set_locks K v := Kernel (k_esp K) (k_eflags K) (k_nodes K) (k_tasks K) (k_semas K) v
  (k_mach K) (k_esp0 K) (k_ticks K) (k_out K).
Definition set_mach K v := Kernel (k_esp K) (k_eflags K) (k_nodes K) (k_tasks K) (k_semas K)
  (k_locks K) v (k_esp0 K) (k_ticks K) (k_out K).
Definition set_esp0 K v := Kernel (k_esp K) (k_eflags K) (k_nodes K) (k_tasks K) (k_semas K)
  (k_locks K) (k_mach K) v (k_ticks K) (k_out K).
Definition set_kticks K v := Kernel (k_esp K) (k_eflags K) (k_nodes K) (k_tasks K) (k_semas K)
  (k_locks K) (k_mach K) (k_esp0 K) v (k_out K).
Definition set_out K v := Kernel (k_esp K) (k_eflags K) (k_nodes K) (k_tasks K) (k_semas K)
  (k_locks K) (k_mach K) (k_esp0 K) (k_ticks K) v.

(** The list heap of the kernel, and running a list operation on it. *)
Definition lists_of (K : kernel) : lmem := LMem (k_eflags K) (k_nodes K).
Definition on_lists (K : kernel) (r : res lmem) : res kernel := m ← r; Ok (set_lists K m).

Definition get_task (K : kernel) (t : Z) : res task_struct :=
  match k_tasks K !! t with Some T => Ok T | None => Fault end.

Definition put_task (K : kernel) (t : Z) (T : task_struct) : kernel :=
  set_tasks K (<[t := T]> (k_tasks K)).

Definition with_status (T : task_struct) (s : task_status) : task_struct :=
  Task (self_kstack T) (pid T) s (name T) (priority T) (ticks T) (elapsed_ticks T) (pgdir T)
       (userprog_vaddr T) (stack_magic T).
Definition with_ticks (T : task_struct) (v : Z) : task_struct :=
  Task (self_kstack T) (pid T) (status T) (name T) (priority T) v (elapsed_ticks T) (pgdir T)
       (userprog_vaddr T) (stack_magic T).
Definition with_elapsed (T : task_struct) (v : Z) : task_struct :=
  Task (self_kstack T) (pid T) (status T) (name T) (priority T) (ticks T) v (pgdir T)
       (userprog_vaddr T) (stack_magic T).
Definition with_kstack (T : task_struct) (v : Z) : task_struct :=
  Task v (pid T) (status T) (name T) (priority T) (ticks T) (elapsed_ticks T) (pgdir T)
       (userprog_vaddr T) (stack_magic T).

(** * Operations *)

Definition running_thread (K : kernel) : Z := Z.land (k_esp K) 0xfffff000.

(** userprog/tss.c *)
Definition update_tss_esp (K : kernel) (pthread : Z) : kernel :=
  set_esp0 K (u32 (pthread + PG_SIZE)).

(** userprog/process.c *)
Definition process_activate (K : kernel) (p_thread : Z) : res kernel :=
  ASSERT (negb (p_thread =? NULL)) "process_activate";;
  T ← get_task K p_thread;
  M ← page_dir_activate (k_mach K) (pgdir T);
  let K := set_mach K M in
  Ok (if negb (pgdir T =? NULL) then update_tss_esp K p_thread else K).

(** thread/switch.S: esp points to the return address.  Four registers are
    pushed and esp is saved in [cur]; the four registers and the return
    address of [next] are popped. *)
Definition switch_to (K : kernel) (cur next : Z) : res kernel :=
  T ← get_task K cur;
  let K := put_task K cur (with_kstack T (k_esp K - 16)) in
  T' ← get_task K next;
  Ok (set_esp K (self_kstack T' + 20)).

Section thread.
Context `{Symbols}.

(** [put_str(next->name)] goes to [k_out]: Console.v puts it on the screen.
    The call of [switch_to] pushes two arguments and a return address; the
    arguments are dropped when it returns, which is when [cur] runs again. *)
Definition schedule (K : kernel) : res kernel :=
  ASSERT (bool_decide (intr_get_status (k_eflags K) = INTR_OFF)) "schedule";;
  let cur := running_thread K in
  C ← get_task K cur;
  K ← (if bool_decide (status C = TASK_RUNNING) then
         found ← elem_find (lists_of K) thread_ready_list (general_tag cur);
         ASSERT (negb found) "schedule";;
         K ← on_lists K (list_append (lists_of K) thread_ready_list (general_tag cur));
         Ok (put_task K cur (with_status (with_ticks C (priority C)) TASK_READY))
       else Ok K);
  empty ← list_empty (lists_of K) thread_ready_list;
  ASSERT (negb empty) "schedule";;
  '(thread_tag, m) ← list_pop (lists_of K) thread_ready_list;
  let K := set_lists K m in
  let next := elem2enyrt thread_tag in
  N ← get_task K next;
  let K := put_task K next (with_status N TASK_RUNNING) in
  let K := set_out K (k_out K ++ [name N]) in
  K ← process_activate K next;
  K ← switch_to (set_esp K (k_esp K - 12)) cur next;
  Ok (set_esp K (k_esp K + 8)).

(** [thread_block] up to the switch, with the status to restore afterwards;
    [thread_block_return] is what it does when the thread runs again. *)
Definition thread_block (K : kernel) (stat : task_status) : res (intr_status * kernel) :=
  ASSERT (bool_decide (stat = TASK_WAITING) || bool_decide (stat = TASK_BLOCKED)
          || bool_decide (stat = TASK_HANGING)) "thread_block";;
  let '(old_status, fl) := intr_disable (k_eflags K) in
  let K := set_eflags K fl in
  let cur_thread := running_thread K in
  C ← get_task K cur_thread;
  K ← schedule (put_task K cur_thread (with_status C stat));
  Ok (old_status, K).

Definition thread_block_return (K : kernel) (old_status : intr_status) : kernel :=
  set_eflags K (intr_set_status old_status (k_eflags K)).2.

Definition thread_unblock (K : kernel) (pthread : Z) : res kernel :=
  let '(old_status, fl) := intr_disable (k_eflags K) in
  let K := set_eflags K fl in
  T ← get_task K pthread;
  ASSERT (bool_decide (status T = TASK_BLOCKED) || bool_decide (status T = TASK_HANGING)
          || bool_decide (status T = TASK_WAITING)) "thread_unblock";;
  K ← (if bool_decide (status T ≠ TASK_READY) then
         found ← elem_find (lists_of K) thread_ready_list (general_tag pthread);
         ASSERT (negb found) "thread_unblock";;
         found ← elem_find (lists_of K) thread_ready_list (general_tag pthread);
         if (found : bool) then Panic "thread_unblock" else
         K ← on_lists K (list_push (lists_of K) thread_ready_list (general_tag pthread));
         T ← get_task K pthread;
         Ok (put_task K pthread (with_status T TASK_READY))
       else Ok K);
  Ok (set_eflags K (intr_set_status old_status (k_eflags K)).2).

(** device/timer.c; interrupts are off, the gate is an interrupt gate. *)
Definition intr_timer_handler (K : kernel) : res kernel :=
  let cur_thread := running_thread K in
  C ← get_task K cur_thread;
  ASSERT (stack_magic C =? STACK_MAGIC) "intr_timer_handler";;
  let K := put_task K cur_thread (with_elapsed C (u32 (elapsed_ticks C + 1))) in
  let K := set_kticks K (u32 (k_ticks K + 1)) in
  C ← get_task K cur_thread;
  if ticks C =? 0 then schedule K
  else Ok (put_task K cur_thread (with_ticks C (u8 (ticks C - 1)))).
End thread.

(** * Address spaces of tasks *)

(** The directory a task runs on. *)
Definition dir_of (M : machine) (d : Z) : Z :=
  if d =? NULL then PAGE_DIR_TABLE_POS else frame (kpte M (kpage d)).

(** A task's [pgdir] is NULL or a mapped kernel page that holds a directory
    with the kernel half in place. *)
Record pgdir_ok (M : machine) (d : Z) : Prop := {
  pd_page : d = NULL ∨
    (KBASE ≤ d < KTOP ∧ d mod 4096 = 0 ∧ present (kpte M (kpage d)) = true);
  pd_space : kspace (Machine (pm M) (dir_of M d));
}.

(** Both speak about the contents of memory, not about cr3. *)
Lemma dir_of_cr3 M c d : dir_of (Machine (pm M) c) d = dir_of M d.
Proof. done. Qed.

Lemma pgdir_ok_pm M M' d : pm M' = pm M → pgdir_ok M d → pgdir_ok M' d.
Proof. destruct M, M'. simpl. intros ->. by intros [? ?]. Qed.

Lemma page_dir_activate_ok M d :
  kspace M → pgdir_ok M d → page_dir_activate M d = Ok (Machine (pm M) (dir_of M d)).
Proof.
  intros Hk [Hp _]. unfold page_dir_activate, dir_of.
  destruct (Z.eqb_spec d NULL) as [->|Hne]; [done|]. simpl negb. cbv iota.
  destruct Hp as [?|(Hd & Hm & Hpr)]; [done|].
  erewrite addr_v2p_translate; [done|by apply Hk|unfold KBASE, KTOP in *; lia|].
  rewrite kspace_translate, Hpr by done. f_equal. change (2 ^ 12) with 4096. lia.
Qed.

(** * The scheduler's invariant *)

Section inv.
Context `{Symbols}.

(** Where the stack pointer of a task may be when it calls the scheduler:
    inside its page, above the task structure. *)
Definition stack_ok (t a : Z) : Prop := t + 100 ≤ a < t + 4096.

Record task_ok (K : kernel) (t : Z) (T : task_struct) : Prop := {
  to_addr : 0 < t ∧ t + 4096 < 2 ^ 32;
  to_page : t mod 4096 = 0;
  to_tag : is_Some (k_nodes K !! general_tag t);
  to_dir : pgdir_ok (k_mach K) (pgdir T);
  to_magic : stack_magic T = STACK_MAGIC;
}.

(** [cur] runs, [qs] are the contents of all lists.  Every queue but the list
    of all threads holds general tags of threads that do not run, the ready
    list exactly those of the ready ones. *)
Record sched_core (K : kernel) (cur : Z) (qs : gmap Z (list Z)) : Prop := {
  sc_heap : heap_lists (k_nodes K) qs;
  sc_ready : is_Some (qs !! thread_ready_list);
  sc_lists : thread_ready_list ≠ thread_all_list;
  sc_task t T : k_tasks K !! t = Some T → task_ok K t T;
  (* where a thread that does not run resumes *)
  sc_stack t T : k_tasks K !! t = Some T → t ≠ cur → stack_ok t (self_kstack T + 28);
  sc_cur : is_Some (k_tasks K !! cur);
  sc_esp : stack_ok cur (k_esp K);
  sc_running t T : k_tasks K !! t = Some T → status T = TASK_RUNNING → t = cur;
  sc_queued p l e : qs !! p = Some l → p ≠ thread_all_list → e ∈ l →
    ∃ t T, e = general_tag t ∧ k_tasks K !! t = Some T ∧ status T ≠ TASK_RUNNING
      ∧ (status T = TASK_READY ↔ p = thread_ready_list);
  sc_ready_in t T l : k_tasks K !! t = Some T → status T = TASK_READY →
    qs !! thread_ready_list = Some l → general_tag t ∈ l;
  sc_tag t T p l : k_tasks K !! t = Some T → qs !! p = Some l →
    general_tag t ≠ head_of p ∧ general_tag t ≠ tail_of p
    ∧ (p = thread_all_list → general_tag t ∉ l);
  sc_space : kspace (k_mach K);
}.

Definition sched_inv (K : kernel) (cur : Z) (qs : gmap Z (list Z)) : Prop :=
  sched_core K cur qs ∧ ∃ C, k_tasks K !! cur = Some C ∧ status C = TASK_RUNNING.

Lemma running_thread_eq K t :
  0 < t → t + 4096 ≤ 2 ^ 32 → t mod 4096 = 0 → t ≤ k_esp K < t + 4096 → running_thread K = t.
Proof.
  intros. unfold running_thread. change (Z.land (k_esp K) 0xfffff000) with (frame (k_esp K)).
  replace (k_esp K) with (t + (k_esp K - t)) by lia. apply frame_flags; lia.
Qed.

Lemma core_running K cur qs : sched_core K cur qs → running_thread K = cur.
Proof.
  intros Hc. destruct (sc_cur _ _ _ Hc) as [C HC]. destruct (sc_task _ _ _ Hc cur C HC).
  pose proof (sc_esp _ _ _ Hc) as He. unfold stack_ok in He. apply running_thread_eq; lia.
Qed.

Lemma general_tag_inj t t' : general_tag t = general_tag t' → t = t'.
Proof. unfold general_tag. lia. Qed.

Lemma elem2enyrt_tag K t T : task_ok K t T → elem2enyrt (general_tag t) = t.
Proof. intros []. unfold elem2enyrt, general_tag. rewrite u32_small; lia. Qed.

(** A thread whose status says that it is in no queue is in no list. *)
Lemma core_detached K cur qs t T :
  sched_core K cur qs → k_tasks K !! t = Some T →
  (∀ p l, qs !! p = Some l → p ≠ thread_all_list → general_tag t ∉ l) →
  detached (k_nodes K) qs (general_tag t).
Proof.
  intros Hc HT Hno. destruct (sc_task _ _ _ Hc t T HT). split_and!.
  - unfold addr_ok, general_tag. lia.
  - done.
  - intros p l Hp. destruct (sc_tag _ _ _ Hc t T p l HT Hp) as (Hh & Ht & Ha).
    unfold footprint. rewrite elem_of_cons, elem_of_app, list_elem_of_singleton.
    intros [?|[Hl|?]]; try done. destruct (decide (p = thread_all_list)); [by apply Ha|].
    by apply (Hno p l).
Qed.

Lemma running_no_queue K cur qs C p l :
  sched_core K cur qs → k_tasks K !! cur = Some C → status C = TASK_RUNNING →
  qs !! p = Some l → p ≠ thread_all_list → general_tag cur ∉ l.
Proof.
  intros Hc HC Hs Hp Hne Hin.
  destruct (sc_queued _ _ _ Hc p l _ Hp Hne Hin) as (t & T & Et & HT & Hnr & _).
  apply general_tag_inj in Et. subst t. congruence.
Qed.

(** One task [t] changes to [T'] and the queues to [qs']: what has to hold
    for the invariant to survive.  Every operation of the scheduler is one
    or two such moves. *)
Lemma core_move K cur qs K' cur' qs' t T T' :
  sched_core K cur qs → k_tasks K !! t = Some T →
  k_tasks K' = <[t := T']> (k_tasks K) →
  relinked (k_nodes K) (k_nodes K') qs' →
  pm (k_mach K') = pm (k_mach K) → kspace (k_mach K') →
  (t ≠ cur' → stack_ok t (self_kstack T' + 28)) →
  (cur' ≠ cur → t ≠ cur → ∀ C, k_tasks K !! cur = Some C → stack_ok cur (self_kstack C + 28)) →
  pgdir T' = pgdir T → stack_magic T' = stack_magic T →
  is_Some (k_tasks K' !! cur') → stack_ok cur' (k_esp K') →
  (∀ u U, k_tasks K' !! u = Some U → status U = TASK_RUNNING → u = cur') →
  (∀ p, is_Some (qs' !! p) → is_Some (qs !! p)) →
  qs' !! thread_all_list = qs !! thread_all_list → is_Some (qs' !! thread_ready_list) →
  (∀ p l' e, qs' !! p = Some l' → p ≠ thread_all_list → e ∈ l' →
     (e = general_tag t ∧ status T' ≠ TASK_RUNNING
        ∧ (status T' = TASK_READY ↔ p = thread_ready_list))
     ∨ (e ≠ general_tag t ∧ ∃ l, qs !! p = Some l ∧ e ∈ l)) →
  (∀ l l', qs !! thread_ready_list = Some l → qs' !! thread_ready_list = Some l' →
     (status T' = TASK_READY → general_tag t ∈ l')
     ∧ ∀ e, e ∈ l → e ≠ general_tag t → e ∈ l') →
  sched_core K' cur' qs'.
Proof.
  intros Hc HT Htasks [Hh Hdom] Hpm Hk Hst Hstc Hpg Hmg Hcur Hesp Hrun Hqs Hall Hrd Hq Hrin.
  assert (Hlook : ∀ u U', k_tasks K' !! u = Some U' →
    (u = t ∧ U' = T') ∨ (u ≠ t ∧ k_tasks K !! u = Some U')).
  { intros u U'. rewrite Htasks, lookup_insert. case_decide; naive_solver. }
  assert (Hdomt : ∀ u U', k_tasks K' !! u = Some U' → ∃ U, k_tasks K !! u = Some U).
  { intros u U' [[-> _]|[_ ?]]%Hlook; eauto. }
  destruct (sc_ready _ _ _ Hc) as [l Hl]. destruct Hrd as [l' Hl'].
  destruct (Hrin l l' Hl Hl') as [Hrt Hro].
  split; [done|by eexists|apply Hc| | |done|done|done| | | |done].
  - intros u U' HU. destruct (Hdomt u U' HU) as [U HU0].
    pose proof (sc_task _ _ _ Hc u U HU0) as Hok. split; try apply Hok.
    + apply Hdom, Hok.
    + apply (pgdir_ok_pm (k_mach K)); [done|].
      destruct (Hlook u U' HU) as [[-> ->]|[_ HU1]].
      * rewrite Hpg. replace T with U by congruence. apply Hok.
      * replace U' with U by congruence. apply Hok.
    + destruct (Hlook u U' HU) as [[-> ->]|[_ HU1]].
      * rewrite Hmg. replace T with U by congruence. apply Hok.
      * replace U' with U by congruence. apply Hok.
  - intros u U' HU Hu. destruct (Hlook u U' HU) as [[-> ->]|[Hut HU1]]; [by apply Hst|].
    destruct (decide (u = cur)) as [->|]; [|by apply (sc_stack _ _ _ Hc)].
    by apply (Hstc ltac:(congruence) ltac:(congruence)).
  - intros p lp e Hp Hne He. destruct (Hq p lp e Hp Hne He) as [(-> & Hnr & Hiff)|(Het & l0 & Hp0 & He0)].
    + exists t, T'. split_and!; auto. by rewrite Htasks, lookup_insert_eq.
    + destruct (sc_queued _ _ _ Hc p l0 e Hp0 Hne He0) as (u & U & -> & HU & Hnr & Hiff).
      exists u, U. split_and!; auto. rewrite Htasks, lookup_insert_ne; [done|]. by intros ->.
  - intros u U' l2 HU Hs Hl2. replace l2 with l' by congruence.
    destruct (Hlook u U' HU) as [[-> ->]|[Hne HU1]]; [by apply Hrt|].
    apply Hro; [by eapply (sc_ready_in _ _ _ Hc)|]. by intros ?%general_tag_inj.
  - intros u U' p lp HU Hp. destruct (Hdomt u U' HU) as [U HU0].
    destruct (Hqs p ltac:(by eexists)) as [l0 Hp0].
    destruct (sc_tag _ _ _ Hc u U p l0 HU0 Hp0) as (? & ? & Ha). split_and!; auto.
    intros Ep. apply Ha in Ep as Hni. subst p. congruence.
Qed.
End inv.

(** * The scheduler *)

Section schedule.
Context `{Symbols}.

Lemma tag_not_tail K cur qs t T p l :
  sched_core K cur qs → k_tasks K !! t = Some T → qs !! p = Some l → general_tag t ≠ tail_of p.
Proof. intros Hc HT Hp. by destruct (sc_tag _ _ _ Hc t T p l HT Hp) as (_ & ? & _). Qed.

(** The running thread goes to the end of the ready list. *)
Lemma requeue_holds K cur qs C l :
  sched_core K cur qs → k_tasks K !! cur = Some C → status C = TASK_RUNNING →
  qs !! thread_ready_list = Some l →
  elem_find (lists_of K) thread_ready_list (general_tag cur) = Ok false
  ∧ ∃ n', list_append (lists_of K) thread_ready_list (general_tag cur)
            = Ok (LMem (k_eflags K) n')
    ∧ sched_core (put_task (set_lists K (LMem (k_eflags K) n')) cur
                   (with_status (with_ticks C (priority C)) TASK_READY)) cur
                 (<[thread_ready_list := l ++ [general_tag cur]]> qs).
Proof.
  intros Hc HC Hs Hl. pose proof (sc_heap _ _ _ Hc) as Hh. pose proof (sc_lists _ _ _ Hc) as Hne.
  pose proof (running_no_queue K cur qs C) as Hnq.
  unfold lists_of. split.
  { rewrite (elem_find_holds (k_eflags K) (k_nodes K) qs _ l);
      [|done|done|by eapply tag_not_tail].
    rewrite bool_decide_false; [done|]. by eapply Hnq. }
  destruct (list_append_holds (k_eflags K) (k_nodes K) qs thread_ready_list l (general_tag cur))
    as (n' & Ha & Hr); [done..|eapply core_detached; eauto|].
  exists n'. split; [done|].
  apply (core_move K cur qs _ _ _ cur C (with_status (with_ticks C (priority C)) TASK_READY));
    simpl; auto; try (by intros []); try by apply Hc.
  - by rewrite lookup_insert_eq.
  - intros u U. rewrite lookup_insert. case_decide; [congruence|]. by apply Hc.
  - intros p. rewrite lookup_insert. case_decide; subst; [by eexists|done].
  - by rewrite lookup_insert_ne.
  - by rewrite lookup_insert_eq.
  - intros p l' e. rewrite lookup_insert. case_decide as Ep.
    + subst p. intros [= <-] _. rewrite elem_of_app, list_elem_of_singleton.
      intros [He|He]; [right|by left]. split; [|by eauto]. intros ->. by eapply Hnq.
    + intros Hp Hpa He. right. split; [|by eauto]. intros ->. by eapply Hnq.
  - intros l0 l'. rewrite lookup_insert_eq. intros ? [= <-]. simplify_eq. split; [set_solver|].
    intros e He _. set_solver.
Qed.

(** What a switch from [cur] to [n] leaves in the task [t]. *)
Definition sched_task (cur n esp t : Z) (T : task_struct) : task_struct :=
  let T := if bool_decide (t = n) then with_status T TASK_RUNNING else T in
  if bool_decide (t = cur) then with_kstack T (esp - 28) else T.

Record switched (K : kernel) (cur n : Z) (K' : kernel) : Prop := {
  sw_tasks t : k_tasks K' !! t = sched_task cur n (k_esp K) t <$> k_tasks K !! t;
  sw_eflags : k_eflags K' = k_eflags K;
  sw_semas : k_semas K' = k_semas K;
  sw_locks : k_locks K' = k_locks K;
  sw_kticks : k_ticks K' = k_ticks K;
  sw_pm : pm (k_mach K') = pm (k_mach K);
  sw_out N : k_tasks K !! n = Some N → k_out K' = k_out K ++ [name N];
  sw_dir N : k_tasks K !! n = Some N →
    cr3 (k_mach K') = dir_of (k_mach K) (pgdir N)
    ∧ k_esp0 K' = (if pgdir N =? NULL then k_esp0 K else n + PG_SIZE)
    ∧ k_esp K' = (if bool_decide (n = cur) then k_esp K else self_kstack N + 28);
}.

(** The second half of [schedule]: the first thread of the ready list takes
    over. *)
Definition dispatch (K : kernel) (cur : Z) : res kernel :=
  '(thread_tag, m) ← list_pop (lists_of K) thread_ready_list;
  let K := set_lists K m in
  let next := elem2enyrt thread_tag in
  N ← get_task K next;
  let K := put_task K next (with_status N TASK_RUNNING) in
  let K := set_out K (k_out K ++ [name N]) in
  K ← process_activate K next;
  K ← switch_to (set_esp K (k_esp K - 12)) cur next;
  Ok (set_esp K (k_esp K + 8)).

Lemma process_activate_ok K t T :
  k_tasks K !! t = Some T → kspace (k_mach K) → pgdir_ok (k_mach K) (pgdir T) →
  0 < t →
  process_activate K t
  = Ok (set_esp0 (set_mach K (Machine (pm (k_mach K)) (dir_of (k_mach K) (pgdir T))))
         (if pgdir T =? NULL then k_esp0 K else u32 (t + PG_SIZE))).
Proof.
  intros HT Hk Hp Ht0. unfold process_activate.
  rewrite assert_true by (unfold NULL; destruct (Z.eqb_spec t 0); [lia|done]). rb.
  unfold get_task. rewrite HT. rb. rewrite page_dir_activate_ok by done. rb.
  by destruct (pgdir T =? NULL).
Qed.

Lemma switch_to_ok K cur n C N :
  k_tasks K !! cur = Some C → k_tasks K !! n = Some N →
  switch_to K cur n
  = Ok (set_esp (put_task K cur (with_kstack C (k_esp K - 16)))
         ((if bool_decide (n = cur) then k_esp K - 16 else self_kstack N) + 20)).
Proof.
  intros HC HN. unfold switch_to, get_task. rewrite HC. rb. simpl k_tasks.
  rewrite lookup_insert. case_bool_decide as E.
  - subst n. by rewrite decide_True.
  - rewrite decide_False, HN by done. done.
Qed.

Lemma dispatch_eq K cur qs n N C l' :
  sched_core K cur qs → qs !! thread_ready_list = Some (general_tag n :: l') →
  k_tasks K !! n = Some N → k_tasks K !! cur = Some C →
  ∃ K', dispatch K cur = Ok K' ∧ switched K cur n K'
    ∧ relinked (k_nodes K) (k_nodes K') (<[thread_ready_list := l']> qs)
    ∧ k_esp K' = (if bool_decide (n = cur) then k_esp K else self_kstack N + 28).
Proof.
  intros Hc Hl HN HC. pose proof (sc_task _ _ _ Hc n N HN) as Hok.
  destruct (to_addr _ _ _ Hok) as [Hn0 Hn1].
  destruct (list_pop_holds (k_eflags K) (k_nodes K) qs thread_ready_list (general_tag n) l')
    as (n' & Hpop & Hr & _); [apply Hc|done|].
  unfold dispatch, lists_of. rewrite Hpop. rb. rewrite (elem2enyrt_tag K n N) by done.
  unfold get_task at 1. cbn [set_lists k_tasks]. rewrite HN. rb.
  rewrite (process_activate_ok _ n (with_status N TASK_RUNNING));
    [|by apply lookup_insert_eq|apply Hc|apply Hok|done..]. rb.
  set (C1 := if bool_decide (cur = n) then with_status C TASK_RUNNING else C).
  erewrite (switch_to_ok _ cur n C1 (with_status N TASK_RUNNING));
    [|simpl; rewrite lookup_insert; unfold C1; repeat case_decide; simplify_eq;
      by rewrite ?bool_decide_true, ?bool_decide_false by done
     |by simpl; rewrite lookup_insert_eq]. rb.
  eexists. split; [done|]. simpl. split_and!; [|done|].
  - split; simpl; try done.
    + intros t. rewrite !lookup_insert. unfold sched_task, C1.
      repeat (case_decide || case_bool_decide); simplify_eq; rewrite ?HN, ?HC; simpl; try done.
      all: try (do 2 f_equal; lia). by destruct (k_tasks K !! t).
    + intros N' ?. by simplify_eq.
    + intros N' ?. simplify_eq. rewrite u32_small by (unfold PG_SIZE; lia).
      split_and!; auto. case_bool_decide; lia.
  - case_bool_decide; lia.
Qed.

Lemma footprint_elem p l e : e ∈ l → e ∈ footprint p l.
Proof. unfold footprint. set_solver. Qed.

Lemma ready_head_only K cur qs n l' p l :
  sched_core K cur qs → qs !! thread_ready_list = Some (general_tag n :: l') →
  <[thread_ready_list := l']> qs !! p = Some l → general_tag n ∉ l.
Proof.
  intros Hc Hl. pose proof (sc_heap _ _ _ Hc) as Hh. rewrite lookup_insert. case_decide as E.
  - intros [= <-]. pose proof (hl_nodup _ _ Hh _ _ Hl) as Hd. unfold footprint in Hd. simpl in Hd.
    apply NoDup_cons in Hd as [_ Hd]. apply NoDup_cons in Hd as [Hd _].
    intros Hin. apply Hd, elem_of_app. by left.
  - intros Hp Hin. destruct E.
    apply (hl_sep _ _ Hh _ _ _ _ (general_tag n) Hl Hp); [|by apply footprint_elem].
    unfold footprint. simpl. right. by left.
Qed.

(** The new thread runs: first the stack pointer of the old one is saved, then
    the status, the list and the address space change. *)
Lemma dispatch_core K cur qs n N C l' K' :
  sched_core K cur qs → qs !! thread_ready_list = Some (general_tag n :: l') →
  k_tasks K !! n = Some N → k_tasks K !! cur = Some C → status C ≠ TASK_RUNNING →
  switched K cur n K' → relinked (k_nodes K) (k_nodes K') (<[thread_ready_list := l']> qs) →
  k_esp K' = (if bool_decide (n = cur) then k_esp K else self_kstack N + 28) →
  sched_core K' n (<[thread_ready_list := l']> qs).
Proof.
  intros Hc Hl HN HC Hnr Hsw Hr Hesp. pose proof (sc_lists _ _ _ Hc) as Hne.
  pose proof (sc_task _ _ _ Hc n N HN) as HokN.
  set (qs' := <[thread_ready_list := l']> qs) in *.
  set (C1 := with_kstack C (k_esp K - 28)). set (K1 := put_task K cur C1).
  set (N1 := if bool_decide (n = cur) then C1 else N).
  assert (Hdir : k_mach K' = Machine (pm (k_mach K)) (dir_of (k_mach K) (pgdir N))).
  { destruct (sw_dir _ _ _ _ Hsw N HN) as (Hd & _). pose proof (sw_pm _ _ _ _ Hsw).
    destruct (k_mach K'). simpl in *. by subst. }
  assert (Hsaved : stack_ok cur (k_esp K - 28 + 28)).
  { replace (k_esp K - 28 + 28) with (k_esp K) by lia. apply Hc. }
  assert (Hc1 : sched_core K1 cur qs).
  { apply (core_move K cur qs _ _ _ cur C C1); simpl; auto; try (by intros []); try (by apply Hc).
    - split; [apply Hc|done].
    - rewrite lookup_insert_eq. by eexists.
    - intros u U. rewrite lookup_insert. destruct (decide (cur = u)); [by intros _ _|]. by apply Hc.
    - intros p l e Hp Hpa He. destruct (decide (e = general_tag cur)) as [->|]; [left|by eauto].
      destruct (sc_queued _ _ _ Hc p l _ Hp Hpa He) as (t & T & Et & HT & Hs & Hiff).
      apply general_tag_inj in Et. subst t. by assert (T = C) as -> by congruence.
    - intros l0 l1 E0 E1. replace l1 with l0 by congruence. split; [|done].
      intros Hs. by eapply (sc_ready_in _ _ _ Hc cur C). }
  assert (HN1 : k_tasks K1 !! n = Some N1).
  { simpl. unfold N1. rewrite lookup_insert. destruct (decide (cur = n)).
    - by rewrite bool_decide_true.
    - by rewrite bool_decide_false. }
  assert (HpN : pgdir N1 = pgdir N).
  { unfold N1. case_bool_decide; [|done]. subst n. by replace N with C by congruence. }
  assert (Hq : ∀ p l e, qs' !! p = Some l → e ∈ l →
    e ≠ general_tag n ∧ ∃ l0, qs !! p = Some l0 ∧ e ∈ l0).
  { intros p l e Hp He. split; [intros ->; by eapply ready_head_only|].
    unfold qs' in Hp. rewrite lookup_insert in Hp.
    destruct (decide (thread_ready_list = p)); [|by eauto].
    injection Hp as <-. subst p. eexists. split; [done|by right]. }
  apply (core_move K1 cur qs _ _ _ n N1 (with_status N1 TASK_RUNNING)); simpl; auto.
  - apply map_eq. intros t. rewrite (sw_tasks _ _ _ _ Hsw). unfold N1, C1, sched_task.
    rewrite !lookup_insert.
    repeat (case_decide || case_bool_decide); simplify_eq; rewrite ?HN, ?HC; simpl; try done.
    all: by destruct (k_tasks K !! t).
  - by rewrite Hdir.
  - rewrite Hdir. apply HokN.
  - by intros ?.
  - intros _ _ C0. rewrite lookup_insert_eq. by intros [= <-].
  - rewrite (sw_tasks _ _ _ _ Hsw), HN. by eexists.
  - rewrite Hesp. case_bool_decide; [subst; apply Hc|]. by apply (sc_stack _ _ _ Hc).
  - intros u U. rewrite (sw_tasks _ _ _ _ Hsw). destruct (k_tasks K !! u) as [U0|] eqn:HU; simpl; [|done].
    intros [= <-]. destruct (decide (u = n)); [done|].
    unfold sched_task. rewrite (bool_decide_false (u = n)) by done. clear Hesp. intros Hs.
    assert (status U0 = TASK_RUNNING) as Hs0 by by case_bool_decide.
    assert (u = cur) as -> by by apply (sc_running _ _ _ Hc u U0). congruence.
  - intros p. unfold qs'. rewrite lookup_insert.
    destruct (decide (thread_ready_list = p)); [subst; by eexists|done].
  - unfold qs'. by rewrite lookup_insert_ne.
  - unfold qs'. by rewrite lookup_insert_eq.
  - intros p l e Hp _ He. right. by apply (Hq p l e).
  - unfold qs'. rewrite lookup_insert_eq, Hl. intros ? ? [= <-] [= <-].
    split; [done|]. intros e [->|]%elem_of_cons; done.
Qed.

(** The thread that heads the ready list. *)
Lemma ready_task K cur qs e l :
  sched_core K cur qs → qs !! thread_ready_list = Some (e :: l) →
  ∃ n N, e = general_tag n ∧ k_tasks K !! n = Some N ∧ status N = TASK_READY.
Proof.
  intros Hc Hl. destruct (sc_queued _ _ _ Hc _ _ e Hl) as (n & N & -> & HN & _ & Hs);
    [apply Hc|by left|]. exists n, N. split_and!; auto. by apply Hs.
Qed.

Lemma dispatch_holds K cur qs n l' C :
  sched_core K cur qs → qs !! thread_ready_list = Some (general_tag n :: l') →
  k_tasks K !! cur = Some C → status C ≠ TASK_RUNNING →
  ∃ K', dispatch K cur = Ok K' ∧ switched K cur n K'
    ∧ sched_inv K' n (<[thread_ready_list := l']> qs).
Proof.
  intros Hc Hl HC Hnr. destruct (ready_task K cur qs _ _ Hc Hl) as (n' & N & En & HN & _).
  apply general_tag_inj in En. subst n'.
  destruct (dispatch_eq K cur qs n N C l') as (K' & HK & Hsw & Hr & Hesp); auto.
  exists K'. split_and!; auto. split; [by eapply dispatch_core|].
  rewrite (sw_tasks _ _ _ _ Hsw), HN. simpl. eexists. split; [done|].
  unfold sched_task. rewrite (bool_decide_true (n = n)) by done. by case_bool_decide.
Qed.

Lemma get_task_ok K t T : k_tasks K !! t = Some T → get_task K t = Ok T.
Proof. intros HT. unfold get_task. by rewrite HT. Qed.

Lemma schedule_eq K cur qs C :
  sched_core K cur qs → intr_get_status (k_eflags K) = INTR_OFF → k_tasks K !! cur = Some C →
  schedule K =
    (K ← (if bool_decide (status C = TASK_RUNNING) then
            found ← elem_find (lists_of K) thread_ready_list (general_tag cur);
            ASSERT (negb found) "schedule";;
            K ← on_lists K (list_append (lists_of K) thread_ready_list (general_tag cur));
            Ok (put_task K cur (with_status (with_ticks C (priority C)) TASK_READY))
          else Ok K);
     empty ← list_empty (lists_of K) thread_ready_list;
     ASSERT (negb empty) "schedule";;
     dispatch K cur).
Proof.
  intros Hc Hif HC. unfold schedule. rewrite assert_true by by rewrite bool_decide_true.
  rb. cbv zeta. rewrite (core_running K cur qs) by done.
  by rewrite (get_task_ok K cur C HC).
Qed.

(** [schedule] called by a thread that has given up its running state. *)
Lemma schedule_blocked K cur qs C l :
  sched_core K cur qs → intr_get_status (k_eflags K) = INTR_OFF →
  k_tasks K !! cur = Some C → status C ≠ TASK_RUNNING →
  qs !! thread_ready_list = Some l →
  match l with
  | [] => schedule K = Panic "schedule"
  | e :: l' => ∃ n K', e = general_tag n ∧ schedule K = Ok K' ∧ switched K cur n K'
      ∧ sched_inv K' n (<[thread_ready_list := l']> qs)
  end.
Proof.
  intros Hc Hif HC Hs Hl. rewrite (schedule_eq K cur qs C) by done.
  rewrite bool_decide_false, bind_ok by done.
  unfold lists_of. rewrite (list_empty_holds _ _ qs _ l), bind_ok by (apply Hc || done).
  destruct l as [|e l']; [done|].
  destruct (ready_task K cur qs e l' Hc Hl) as (n & N & -> & HN & _).
  destruct (dispatch_holds K cur qs n l' C) as (K' & HK & ? & ?); auto.
  exists n, K'. split_and!; auto.
Qed.

Definition requeued (C : task_struct) : task_struct :=
  with_status (with_ticks C (priority C)) TASK_READY.

(** [schedule] called by a running thread: it queues up, so there is always a
    next thread. *)
Lemma schedule_running K cur qs C l :
  sched_inv K cur qs → intr_get_status (k_eflags K) = INTR_OFF →
  k_tasks K !! cur = Some C → qs !! thread_ready_list = Some l →
  ∃ n l' K', l ++ [general_tag cur] = general_tag n :: l' ∧ schedule K = Ok K'
    ∧ switched (put_task K cur (requeued C)) cur n K'
    ∧ sched_inv K' n (<[thread_ready_list := l']> qs).
Proof.
  intros [Hc (C' & HC' & Hs)] Hif HC Hl. assert (C' = C) as -> by congruence.
  destruct (requeue_holds K cur qs C l) as (Hfind & n' & Happ & Hc1); auto.
  fold (requeued C) in Hc1. set (K1 := put_task _ cur (requeued C)) in Hc1.
  set (qs1 := <[thread_ready_list := l ++ [general_tag cur]]> qs) in *.
  assert (Hl1 : qs1 !! thread_ready_list = Some (l ++ [general_tag cur]))
    by apply lookup_insert_eq.
  destruct (l ++ [general_tag cur]) as [|e l'] eqn:El; [by destruct l|].
  destruct (ready_task K1 cur qs1 e l' Hc1 Hl1) as (n & N & -> & HN & _).
  destruct (dispatch_holds K1 cur qs1 n l' (requeued C)) as (K' & HK & Hsw & Hinv); auto.
  { apply lookup_insert_eq. }
  exists n, l', K'. split_and!; [done| | |].
  - rewrite (schedule_eq K cur qs C) by done.
    rewrite bool_decide_true, Hfind by done. rb. rewrite assert_true by done. rb.
    unfold on_lists. rewrite Happ. rb. fold (requeued C). fold K1.
    unfold lists_of at 1. rewrite (list_empty_holds _ _ qs1 _ (general_tag n :: l'))
      by (apply Hc1 || done). rb. exact HK.
  - destruct Hsw. split; auto.
  - unfold qs1 in Hinv. by rewrite insert_insert_eq in Hinv.
Qed.
End schedule.

(** * Blocking and unblocking *)

Definition blocked_status (s : task_status) : bool :=
  bool_decide (s = TASK_WAITING) || bool_decide (s = TASK_BLOCKED) || bool_decide (s = TASK_HANGING).

Section block.
Context `{Symbols}.

Lemma thread_block_eq K cur qs C stat :
  sched_core K cur qs → k_tasks K !! cur = Some C → blocked_status stat = true →
  thread_block K stat
  = (K' ← schedule (put_task (set_eflags K (intr_disable (k_eflags K)).2) cur
                      (with_status C stat));
     Ok (intr_get_status (k_eflags K), K')).
Proof.
  intros Hc HC Hs. unfold thread_block. unfold blocked_status in Hs.
  rewrite assert_true by done. rb. rewrite <- intr_disable_old.
  destruct (intr_disable (k_eflags K)) as [old fl]. cbv zeta. cbn [fst snd].
  assert (running_thread (set_eflags K fl) = cur) as -> by exact (core_running K cur qs Hc).
  by rewrite (get_task_ok (set_eflags K fl) cur C HC).
Qed.

(** Giving up the processor without entering a queue. *)
Lemma block_core K cur qs C stat fl :
  sched_inv K cur qs → k_tasks K !! cur = Some C → blocked_status stat = true →
  sched_core (put_task (set_eflags K fl) cur (with_status C stat)) cur qs.
Proof.
  intros [Hc (C' & HC' & Hrun)] HC Hs. assert (C' = C) as -> by congruence.
  assert (stat ≠ TASK_RUNNING ∧ stat ≠ TASK_READY) as [Hn1 Hn2] by (by destruct stat).
  pose proof (running_no_queue K cur qs C) as Hnq.
  apply (core_move K cur qs _ _ _ cur C (with_status C stat)); simpl; auto; try (by intros []); try by apply Hc.
  - split; [apply Hc|done].
  - by rewrite lookup_insert_eq.
  - intros u U. rewrite lookup_insert. case_decide; [|by apply Hc]. by intros [= <-].
  - intros p l e Hp Hpa He. right. split; [|by eauto]. intros ->. by eapply Hnq.
  - intros l l' H1 H2. replace l' with l by congruence. done.
Qed.

(** [thread_block] with a ready thread: it takes over. *)
Lemma thread_block_holds K cur qs C stat n l' :
  sched_inv K cur qs → k_tasks K !! cur = Some C → blocked_status stat = true →
  qs !! thread_ready_list = Some (general_tag n :: l') →
  ∃ K', thread_block K stat = Ok (intr_get_status (k_eflags K), K') ∧ n ≠ cur
    ∧ switched (put_task (set_eflags K (intr_disable (k_eflags K)).2) cur (with_status C stat))
        cur n K'
    ∧ sched_inv K' n (<[thread_ready_list := l']> qs).
Proof.
  intros Hi HC Hs Hl. rewrite (thread_block_eq K cur qs C) by (done || apply Hi).
  set (K1 := put_task _ cur _).
  assert (Hc1 : sched_core K1 cur qs) by by apply block_core.
  assert (stat ≠ TASK_RUNNING) as Hnr by by destruct stat.
  destruct (schedule_blocked K1 cur qs (with_status C stat) _ Hc1 (intr_disable_off _)
    (lookup_insert_eq _ _ _) Hnr Hl) as (n' & K' & En & HK & Hsw & Hinv).
  apply general_tag_inj in En. subst n'. exists K'. rewrite HK. split_and!; auto.
  intros ->. destruct (ready_task K1 cur qs _ _ Hc1 Hl) as (n & N & En & HN & HsN).
  apply general_tag_inj in En. subst n. simpl in HN. rewrite lookup_insert_eq in HN.
  simplify_eq. by destruct stat.
Qed.

(** Entering the queue [w] and giving up the processor. *)
Lemma wait_core K cur qs C w l n' fl :
  sched_inv K cur qs → k_tasks K !! cur = Some C →
  qs !! w = Some l → w ≠ thread_ready_list → w ≠ thread_all_list →
  relinked (k_nodes K) n' (<[w := l ++ [general_tag cur]]> qs) →
  sched_core (put_task (set_lists K (LMem fl n')) cur (with_status C TASK_BLOCKED)) cur
    (<[w := l ++ [general_tag cur]]> qs).
Proof.
  intros [Hc (C' & HC' & Hrun)] HC Hw Hwr Hwa Hr. assert (C' = C) as -> by congruence.
  pose proof (running_no_queue K cur qs C) as Hnq.
  apply (core_move K cur qs _ _ _ cur C (with_status C TASK_BLOCKED)); simpl; auto;
    try (by intros []); try by apply Hc.
  - by rewrite lookup_insert_eq.
  - intros u U. rewrite lookup_insert. case_decide; [|by apply Hc]. by intros [= <-].
  - intros p. rewrite lookup_insert. case_decide; [subst; by eexists|done].
  - by rewrite lookup_insert_ne.
  - rewrite lookup_insert_ne by done. apply Hc.
  - intros p l' e. rewrite lookup_insert. case_decide as E.
    + subst p. intros [= <-] _. rewrite elem_of_app, list_elem_of_singleton.
      intros [He|He]; [right|left]; [|by split_and!]. split; [|by eauto]. intros ->. by eapply Hnq.
    + intros Hp Hpa He. right. split; [|by eauto]. intros ->. by eapply Hnq.
  - intros l0 l'. rewrite lookup_insert_ne by done. intros H1 H2.
    replace l' with l0 by congruence. done.
Qed.

(** Taking a waiting thread out of its queue. *)
Lemma unwait_core K cur qs w t l n' fl :
  sched_inv K cur qs → qs !! w = Some (general_tag t :: l) →
  w ≠ thread_ready_list → w ≠ thread_all_list →
  relinked (k_nodes K) n' (<[w := l]> qs) →
  sched_inv (set_lists K (LMem fl n')) cur (<[w := l]> qs).
Proof.
  intros [Hc (C & HC & Hrun)] Hw Hwr Hwa Hr. split; [|by exists C].
  destruct (sc_queued _ _ _ Hc w _ (general_tag t) Hw Hwa) as (t' & T & Et & HT & Hs1 & Hs2);
    [by left|]. apply general_tag_inj in Et. subst t'.
  apply (core_move K cur qs _ _ _ t T T); simpl; auto; try (by intros []); try by apply Hc.
  - by rewrite insert_id.
  - intros p. rewrite lookup_insert. case_decide; [subst; by eexists|done].
  - by rewrite lookup_insert_ne.
  - rewrite lookup_insert_ne by done. apply Hc.
  - intros p l' e Hp Hpa He. destruct (decide (e = general_tag t)) as [->|].
    + exfalso. rewrite lookup_insert in Hp. pose proof (sc_heap _ _ _ Hc) as Hh.
      case_decide as E.
      * injection Hp as <-. pose proof (hl_nodup _ _ Hh _ _ Hw) as Hd.
        unfold footprint in Hd. simpl in Hd. apply NoDup_cons in Hd as [_ Hd].
        apply NoDup_cons in Hd as [Hd _]. apply Hd, elem_of_app. by left.
      * destruct E. apply (hl_sep _ _ Hh _ _ _ _ (general_tag t) Hw Hp);
          apply footprint_elem; [by left|done].
    + right. split; [done|]. rewrite lookup_insert in Hp. case_decide; [|by eauto].
      subst p. injection Hp as <-. eexists. split; [done|by right].
  - intros l0 l'. rewrite lookup_insert_ne by done. intros H1 H2.
    replace l' with l0 by congruence. split; [|done]. intros Hrd. by apply Hs2 in Hrd.
Qed.

Lemma ready_core K cur qs t T l n' fl :
  sched_inv K cur qs → k_tasks K !! t = Some T → t ≠ cur →
  qs !! thread_ready_list = Some l →
  (∀ p lp, qs !! p = Some lp → p ≠ thread_all_list → general_tag t ∉ lp) →
  relinked (k_nodes K) n' (<[thread_ready_list := general_tag t :: l]> qs) →
  sched_inv (put_task (set_lists K (LMem fl n')) t (with_status T TASK_READY)) cur
    (<[thread_ready_list := general_tag t :: l]> qs).
Proof.
  intros [Hc (C & HC & Hrun)] HT Htc Hl Hno Hr. pose proof (sc_lists _ _ _ Hc) as Hne.
  split; [|exists C; split; [|done]; simpl; by rewrite lookup_insert_ne].
  apply (core_move K cur qs _ _ _ t T (with_status T TASK_READY)); simpl; auto; try (by intros []); try by apply Hc.
  - rewrite lookup_insert_ne by done. by eexists.
  - intros u U. rewrite lookup_insert. case_decide; [|by apply Hc]. by intros [= <-].
  - intros p. rewrite lookup_insert. case_decide; [subst; by eexists|done].
  - by rewrite lookup_insert_ne.
  - by rewrite lookup_insert_eq.
  - intros p lp e. rewrite lookup_insert. case_decide as E.
    + subst p. intros [= <-] _ [->|He]%elem_of_cons; [by left|right].
      split; [|by eauto]. intros ->. by eapply Hno.
    + intros Hp Hpa He. right. split; [|by eauto]. intros ->. by eapply Hno.
  - intros l0 l'. rewrite lookup_insert_eq. intros ? [= <-]. simplify_eq.
    split; [by left|]. intros e He _. by right.
Qed.

Lemma thread_unblock_holds K cur qs t T l :
  sched_inv K cur qs → k_tasks K !! t = Some T → blocked_status (status T) = true →
  qs !! thread_ready_list = Some l →
  (∀ p lp, qs !! p = Some lp → p ≠ thread_all_list → general_tag t ∉ lp) →
  ∃ n', thread_unblock K t
      = Ok (put_task (set_lists K (LMem (k_eflags K) n')) t (with_status T TASK_READY))
    ∧ sched_inv (put_task (set_lists K (LMem (k_eflags K) n')) t (with_status T TASK_READY)) cur
        (<[thread_ready_list := general_tag t :: l]> qs).
Proof.
  intros Hi HT Hs Hl Hno. pose proof Hi as [Hc (C & HC & Hrun)].
  assert (t ≠ cur) as Htc.
  { intros ->. assert (C = T) as -> by congruence. by rewrite Hrun in Hs. }
  pose proof (intr_restore (k_eflags K)) as Hfl. unfold thread_unblock.
  destruct (intr_disable (k_eflags K)) as [old fl]. cbv zeta.
  rewrite (get_task_ok (set_eflags K fl) t T HT). rb.
  rewrite assert_true by by destruct (status T). rb.
  rewrite (bool_decide_true (status T ≠ TASK_READY)) by (intros E; by rewrite E in Hs).
  unfold lists_of. cbn [set_eflags k_eflags k_nodes].
  rewrite (elem_find_holds fl (k_nodes K) qs _ l);
    [|apply Hc|done|by eapply tag_not_tail].
  rewrite bool_decide_false by (apply (Hno thread_ready_list); [done|apply Hc]).
  rb. rewrite assert_true by done. rb. cbv iota.
  destruct (list_push_holds fl (k_nodes K) qs thread_ready_list l (general_tag t))
    as (n' & Hp & Hr); [apply Hc|done|by eapply core_detached|].
  unfold on_lists. rewrite Hp. rb.
  rewrite (get_task_ok (set_lists (set_eflags K fl) (LMem fl n')) t T HT). rb.
  exists n'. cbn [set_eflags set_lists put_task set_tasks k_eflags l_eflags]. rewrite Hfl.
  split; [done|]. by apply ready_core.
Qed.
End block.

(** * The timer *)

Section timer.
Context `{Symbols}.

(** Changing the counters of a task touches no queue. *)
Lemma count_core K cur qs t T T' v :
  sched_inv K cur qs → k_tasks K !! t = Some T →
  self_kstack T' = self_kstack T → status T' = status T → pgdir T' = pgdir T →
  stack_magic T' = stack_magic T →
  sched_inv (set_kticks (put_task K t T') v) cur qs.
Proof.
  intros [Hc (C & HC & Hrun)] HT Hks Hs Hp Hm. split.
  - apply (core_move K cur qs _ _ _ t T T'); simpl; auto; try (by intros []); try by apply Hc.
    + split; [apply Hc|done].
    + rewrite Hks. by apply Hc.
    + rewrite lookup_insert. case_decide; [by eexists|apply Hc].
    + intros u U. rewrite lookup_insert. case_decide; [|by apply Hc].
      intros [= <-]. subst u. rewrite Hs. by apply Hc.
    + intros p l e Hq Hpa He. destruct (decide (e = general_tag t)) as [->|]; [left|by eauto].
      destruct (sc_queued _ _ _ Hc p l _ Hq Hpa He) as (u & U & Eu & HU & Hn & Hr).
      apply general_tag_inj in Eu. subst u. rewrite Hs.
      by assert (U = T) as -> by congruence.
    + intros l l' H1 H2. replace l' with l by congruence. split; [|done].
      rewrite Hs. intros Hr. by eapply (sc_ready_in _ _ _ Hc t T).
  - simpl. rewrite lookup_insert. case_decide; [|by exists C].
    exists T'. split; [done|]. rewrite Hs. subst t. by assert (C = T) as -> by congruence.
Qed.

(** The counters a tick changes. *)
Definition ticked (C : task_struct) : task_struct := with_elapsed C (u32 (elapsed_ticks C + 1)).

Lemma timer_eq K cur qs C :
  sched_inv K cur qs → k_tasks K !! cur = Some C →
  let K1 := set_kticks (put_task K cur (ticked C)) (u32 (k_ticks K + 1)) in
  sched_inv K1 cur qs
  ∧ intr_timer_handler K
    = if ticks C =? 0 then schedule K1
      else Ok (put_task K1 cur (with_ticks (ticked C) (u8 (ticks C - 1)))).
Proof.
  intros Hi HC K1. pose proof Hi as [Hc _]. split; [by apply (count_core K cur qs cur C)|].
  unfold intr_timer_handler. cbv zeta. rewrite (core_running K cur qs), (get_task_ok K cur C) by done.
  rb. rewrite (to_magic _ _ _ (sc_task _ _ _ Hc cur C HC)), Z.eqb_refl, assert_true by done. rb.
  fold (ticked C). change (k_ticks (put_task K cur (ticked C))) with (k_ticks K). fold K1.
  rewrite (get_task_ok K1 cur (ticked C)) by apply lookup_insert_eq. rb. done.
Qed.
End timer.
