(* ===== verification/SchedProps.v ===== *)
(** What the scheduler guarantees: round-robin order, time slices, blocking
    and unblocking; with a concrete kernel of two threads to run it on. *)
From S2P Require Import Prelude Bitmap Paging Memory MemInit MemProps Interrupt DList Sched.

Section properties.
Context `{Symbols}.

(** [i] calls in a row of an operation on the kernel. *)
Fixpoint repeat_ (f : kernel → res kernel) (i : nat) (K : kernel) : res kernel :=
  match i with O => Ok K | S i' => K' ← f K; repeat_ f i' K' end.

Lemma switched_eflags K C cur n K' :
  switched (put_task K cur (requeued C)) cur n K' → k_eflags K' = k_eflags K.
Proof. intros Hsw. apply (sw_eflags _ _ _ _ Hsw). Qed.

Lemma rotation K cur qs ts i :
  sched_inv K cur qs → intr_get_status (k_eflags K) = INTR_OFF →
  qs !! thread_ready_list = Some (general_tag <$> ts) → (i ≤ length ts)%nat →
  ∃ K' c' ts', repeat_ schedule i K = Ok K'
    ∧ drop i (cur :: ts) ++ take i (cur :: ts) = c' :: ts'
    ∧ sched_inv K' c' (<[thread_ready_list := general_tag <$> ts']> qs).
Proof.
  revert K cur qs ts. induction i as [|i IH]; intros K cur qs ts Hi Hif Hl Hle.
  - exists K, cur, ts. simpl. split_and!; auto; [by rewrite app_nil_r|]. by rewrite insert_id.
  - pose proof Hi as [Hc (C & HC & _)].
    destruct (schedule_running K cur qs C (general_tag <$> ts))
      as (n & l' & K1 & El & HK & Hsw & Hinv); auto.
    destruct ts as [|t ts]; [simpl in Hle; lia|]. simpl in El. injection El as En El.
    apply general_tag_inj in En. subst n.
    assert (Hl1 : general_tag <$> ts ++ [cur] = l') by by rewrite fmap_app.
    rewrite <- Hl1 in Hinv.
    destruct (IH K1 t _ (ts ++ [cur]) Hinv) as (K' & c' & ts' & HK' & E & Hinv').
    { by rewrite (switched_eflags K C cur t). }
    { apply lookup_insert_eq. }
    { rewrite length_app. simpl in *. lia. }
    exists K', c', ts'. rewrite insert_insert_eq in Hinv'. split_and!; [|..]; auto.
    + simpl. rewrite HK. rb. exact HK'.
    + rewrite <- E. change (t :: ts ++ [cur]) with ((t :: ts) ++ [cur]).
      rewrite drop_app_le, take_app_le by (simpl in *; lia).
      simpl. by rewrite <- app_assoc.
Qed.

(** C19: round robin.  With ready threads [t1 ... tk] behind the running one,
    [i <= k] calls of [schedule] rotate the line [i] places: the thread at
    place [i] runs, the threads before it have queued up behind the rest in
    their order, and the scheduler's invariant holds.  So every ready thread
    gets the processor within as many switches as its place in the list. *)
Theorem schedule_round_robin K cur qs ts i :
  sched_inv K cur qs → intr_get_status (k_eflags K) = INTR_OFF →
  qs !! thread_ready_list = Some (general_tag <$> ts) → (i ≤ length ts)%nat →
  ∃ K' c' ts', repeat_ schedule i K = Ok K'
    ∧ drop i (cur :: ts) ++ take i (cur :: ts) = c' :: ts'
    ∧ running_thread K' = c'
    ∧ sched_inv K' c' (<[thread_ready_list := general_tag <$> ts']> qs).
Proof.
  intros Hi Hif Hl Hle. destruct (rotation K cur qs ts i) as (K' & c' & ts' & HK & E & Hi'); auto.
  exists K', c', ts'. split_and!; auto. eapply core_running, Hi'.
Qed.

(** C20: one switch in detail.  [schedule], called by the running thread with
    interrupts off, hands over to the first ready thread: the old thread is
    READY with a full time slice and its stack pointer saved, the new one is
    RUNNING, its page directory is in cr3, its kernel stack in the TSS if it
    is a user process, its name is printed, and nobody else changes. *)
Theorem schedule_switches K cur qs C n l :
  sched_inv K cur qs → intr_get_status (k_eflags K) = INTR_OFF →
  k_tasks K !! cur = Some C → qs !! thread_ready_list = Some (general_tag n :: l) → n ≠ cur →
  ∃ K' N, schedule K = Ok K' ∧ running_thread K' = n ∧ k_tasks K !! n = Some N
    ∧ k_tasks K' !! cur = Some (with_kstack (requeued C) (k_esp K - 28))
    ∧ k_tasks K' !! n = Some (with_status N TASK_RUNNING)
    ∧ (∀ t, t ≠ cur → t ≠ n → k_tasks K' !! t = k_tasks K !! t)
    ∧ k_esp K' = self_kstack N + 28
    ∧ cr3 (k_mach K') = dir_of (k_mach K) (pgdir N)
    ∧ (pgdir N ≠ NULL → k_esp0 K' = n + PG_SIZE)
    ∧ k_out K' = k_out K ++ [name N]
    ∧ sched_inv K' n (<[thread_ready_list := l ++ [general_tag cur]]> qs).
Proof.
  intros Hi Hif HC Hl Hne.
  destruct (schedule_running K cur qs C (general_tag n :: l))
    as (n' & l' & K' & El & HK & Hsw & Hinv); auto.
  simpl in El. injection El as En El. apply general_tag_inj in En. subst n' l'.
  destruct (ready_task K cur qs _ _ (proj1 Hi) Hl) as (n' & N & En & HN & _).
  apply general_tag_inj in En. subst n'.
  assert (HN' : k_tasks (put_task K cur (requeued C)) !! n = Some N)
    by (simpl; by rewrite lookup_insert_ne).
  pose proof (sw_tasks _ _ _ _ Hsw) as Ht. destruct (sw_dir _ _ _ _ Hsw N HN') as (Hcr & Hesp0 & Hesp).
  exists K', N. split_and!; auto.
  - eapply core_running, Hinv.
  - rewrite Ht. simpl. rewrite lookup_insert_eq. simpl. unfold sched_task.
    by rewrite (bool_decide_false (cur = n)), (bool_decide_true (cur = cur)) by done.
  - rewrite Ht, HN'. simpl. unfold sched_task.
    by rewrite (bool_decide_true (n = n)), (bool_decide_false (n = cur)) by done.
  - intros t H1 H2. rewrite Ht. simpl. rewrite lookup_insert_ne by done. unfold sched_task.
    rewrite (bool_decide_false (t = n)), (bool_decide_false (t = cur)) by done.
    by destruct (k_tasks K !! t).
  - rewrite Hesp. by rewrite bool_decide_false.
  - intros Hp. rewrite Hesp0. by destruct (Z.eqb_spec (pgdir N) NULL).
  - apply (sw_out _ _ _ _ Hsw N HN').
Qed.

(** One tick with time left. *)
Lemma tick_holds K cur qs C :
  sched_inv K cur qs → k_tasks K !! cur = Some C → 0 < ticks C < 256 →
  ∃ K', intr_timer_handler K = Ok K' ∧ sched_inv K' cur qs ∧ k_eflags K' = k_eflags K
    ∧ k_ticks K' = u32 (k_ticks K + 1)
    ∧ k_tasks K' !! cur = Some (with_ticks (ticked C) (ticks C - 1)).
Proof.
  intros Hi HC Ht. destruct (timer_eq K cur qs C Hi HC) as [Hi1 ->].
  destruct (Z.eqb_spec (ticks C) 0); [lia|]. rewrite u8_small by lia.
  eexists. split; [done|]. set (K1 := set_kticks _ _) in *.
  split_and!; [|done|done|apply lookup_insert_eq].
  apply (count_core K1 cur qs cur (ticked C) (with_ticks (ticked C) (ticks C - 1)) (k_ticks K1));
    try done. apply lookup_insert_eq.
Qed.

Lemma ticks_hold n : ∀ K cur qs C,
  sched_inv K cur qs → k_tasks K !! cur = Some C → ticks C = Z.of_nat n → ticks C < 256 →
  ∃ K' C', repeat_ intr_timer_handler n K = Ok K' ∧ sched_inv K' cur qs
    ∧ k_eflags K' = k_eflags K ∧ k_tasks K' !! cur = Some C'
    ∧ ticks C' = 0 ∧ priority C' = priority C
    ∧ u32 (elapsed_ticks C') = u32 (elapsed_ticks C + Z.of_nat n)
    ∧ u32 (k_ticks K') = u32 (k_ticks K + Z.of_nat n).
Proof.
  induction n as [|n IH]; intros K cur qs C Hi HC Ht Hmax.
  - exists K, C. simpl. rewrite !Z.add_0_r. split_and!; auto.
  - destruct (tick_holds K cur qs C) as (K1 & HK1 & Hi1 & Hf1 & Hk1 & HC1); auto; [lia|].
    destruct (IH K1 cur qs _ Hi1 HC1) as (K' & C' & HK' & Hi' & Hf' & HC' & H0 & Hp & He & Hk);
      [simpl; lia..|].
    exists K', C'. split_and!; auto.
    + simpl. rewrite HK1. rb. exact HK'.
    + congruence.
    + rewrite He. simpl. rewrite u32_add_l. f_equal. lia.
    + rewrite Hk, Hk1, u32_add_l. f_equal. lia.
Qed.

(** C31: time slices.  A thread with [n] ticks left survives [n] timer interrupts
    (each is counted in its [elapsed_ticks] and in the global [ticks]); the
    next one switches to the head of the ready list. *)
Theorem time_slice K cur qs C n l :
  sched_inv K cur qs → intr_get_status (k_eflags K) = INTR_OFF →
  k_tasks K !! cur = Some C → ticks C = Z.of_nat n → ticks C < 256 →
  qs !! thread_ready_list = Some l →
  ∃ K1 C1, repeat_ intr_timer_handler n K = Ok K1 ∧ running_thread K1 = cur
    ∧ k_tasks K1 !! cur = Some C1
    ∧ u32 (elapsed_ticks C1) = u32 (elapsed_ticks C + Z.of_nat n)
    ∧ ∃ K2 t l', intr_timer_handler K1 = Ok K2
        ∧ l ++ [general_tag cur] = general_tag t :: l' ∧ running_thread K2 = t
        ∧ sched_inv K2 t (<[thread_ready_list := l']> qs).
Proof.
  intros Hi Hif HC Hn Hmax Hl.
  destruct (ticks_hold n K cur qs C) as (K1 & C1 & HK1 & Hi1 & Hf1 & HC1 & H0 & _ & He & _); auto.
  exists K1, C1. split_and!; auto; [eapply core_running, Hi1|].
  destruct (timer_eq K1 cur qs C1 Hi1 HC1) as [Hi2 Ht].
  rewrite H0, Z.eqb_refl in Ht. rewrite Ht.
  destruct (schedule_running _ cur qs (ticked C1) l Hi2) as (t & l' & K2 & El & HK2 & _ & Hinv);
    [simpl; congruence|apply lookup_insert_eq|done|].
  exists K2, t, l'. split_and!; auto. eapply core_running, Hinv.
Qed.

(** Blocking.  [thread_block] with a blocking status takes the running thread
    off the processor: the first ready thread runs, the blocked one is in no
    list and keeps its status until somebody unblocks it; without a ready
    thread the kernel stops in [schedule].  Any other status is refused. *)
Theorem thread_block_blocks K cur qs C stat l :
  sched_inv K cur qs → k_tasks K !! cur = Some C → qs !! thread_ready_list = Some l →
  (blocked_status stat = false → thread_block K stat = Panic "thread_block")
  ∧ (blocked_status stat = true →
     match l with
     | [] => thread_block K stat = Panic "schedule"
     | e :: l' => ∃ n K', e = general_tag n
         ∧ thread_block K stat = Ok (intr_get_status (k_eflags K), K')
         ∧ running_thread K' = n
         ∧ intr_get_status (k_eflags K') = INTR_OFF
         ∧ k_tasks K' !! cur = Some (with_kstack (with_status C stat) (k_esp K - 28))
         ∧ sched_inv K' n (<[thread_ready_list := l']> qs)
     end).
Proof.
  intros Hi HC Hl. split.
  { intros Hs. unfold thread_block. unfold blocked_status in Hs. by rewrite Hs. }
  intros Hs. destruct l as [|e l'].
  { rewrite (thread_block_eq K cur qs C) by (done || apply Hi).
    erewrite (schedule_blocked _ cur qs (with_status C stat) []); [done|by apply block_core|..].
    - apply intr_disable_off.
    - apply lookup_insert_eq.
    - by destruct stat.
    - done. }
  destruct (ready_task K cur qs e l' (proj1 Hi) Hl) as (n & N & -> & _).
  destruct (thread_block_holds K cur qs C stat n l') as (K' & HK & Hne & Hsw & Hinv); auto.
  exists n, K'. split_and!; auto.
  - eapply core_running, Hinv.
  - rewrite (sw_eflags _ _ _ _ Hsw). apply intr_disable_off.
  - rewrite (sw_tasks _ _ _ _ Hsw). simpl. rewrite lookup_insert_eq. simpl. unfold sched_task.
    by rewrite (bool_decide_false (cur = n)), (bool_decide_true (cur = cur)) by done.
Qed.

(** Unblocking.  [thread_unblock] puts a blocked thread that is in no queue at
    the front of the ready list and restores eflags; a thread that is not
    blocked makes the kernel stop. *)
Theorem thread_unblock_front K cur qs t T l :
  sched_inv K cur qs → k_tasks K !! t = Some T → qs !! thread_ready_list = Some l →
  (∀ p lp, qs !! p = Some lp → p ≠ thread_all_list → general_tag t ∉ lp) →
  if blocked_status (status T) then
    ∃ K', thread_unblock K t = Ok K' ∧ k_eflags K' = k_eflags K
      ∧ k_tasks K' !! t = Some (with_status T TASK_READY)
      ∧ sched_inv K' cur (<[thread_ready_list := general_tag t :: l]> qs)
  else thread_unblock K t = Panic "thread_unblock".
Proof.
  intros Hi HT Hl Hno. destruct (blocked_status (status T)) eqn:Hs.
  - destruct (thread_unblock_holds K cur qs t T l) as (n' & -> & Hinv); auto.
    eexists. split_and!; [done..|apply lookup_insert_eq|done].
  - unfold thread_unblock. destruct (intr_disable (k_eflags K)) as [old fl]. cbv zeta.
    rewrite (get_task_ok (set_eflags K fl) t T HT). rb. by destruct (status T).
Qed.
End properties.

(** * A concrete kernel *)

Module SchedRuns.
#[global] Instance symbols : Symbols :=
  {| thread_ready_list := 0xc0007000; thread_all_list := 0xc0007010 |}.

(** Three kernel threads: main runs, B is ready, C is blocked. *)
Definition main_ : Z := 0xc009e000.
Definition B : Z := 0xc0100000.
Definition C : Z := 0xc0101000.

Definition task (t : Z) (s : task_status) (prio tk : Z) : task_struct :=
  Task (t + 3664) 1 s (0x74 :: replicate 15 0) prio tk 0 NULL (VirtualAddr (Bitmap 0 0) 0) STACK_MAGIC.

Definition tasks_ : list (Z * task_struct) :=
  [ (main_, task main_ TASK_RUNNING 31 2); (B, task B TASK_READY 8 8);
    (C, task C TASK_BLOCKED 31 31) ].

Definition lists_ : list (Z * list Z) :=
  [ (thread_ready_list, [general_tag B]);
    (thread_all_list, [all_list_tag main_; all_list_tag B; all_list_tag C]) ].

(** The nodes of a heap with these lists, and loose nodes for the rest. *)
Fixpoint chain (before : Z) (fp : list Z) : list (Z * list_elem) :=
  match fp with
  | [] => []
  | a :: r => (a, ListElem before (default NULL (head r))) :: chain a r
  end.

Definition nodes_of (ps : list (Z * list Z)) (loose : list Z) : gmap Z list_elem :=
  list_to_map (mjoin ((λ q, chain NULL (footprint q.1 q.2)) <$> ps)
               ++ ((λ a, (a, ListElem 0 0)) <$> loose)).

Definition kernel_on (M : machine) : kernel :=
  Kernel (main_ + 4000) 2 (nodes_of lists_ [general_tag main_; general_tag C])
    (list_to_map tasks_) ∅ ∅ M 0 0 [].

Definition qs0 : gmap Z (list Z) := list_to_map lists_.

Lemma tasks_inv M t T : k_tasks (kernel_on M) !! t = Some T → (t, T) ∈ tasks_.
Proof. apply elem_of_list_to_map_2. Qed.

Lemma lists_inv p l : qs0 !! p = Some l → (p, l) ∈ lists_.
Proof. apply elem_of_list_to_map_2. Qed.

Ltac members H :=
  unfold tasks_, lists_ in H; rewrite !elem_of_cons, elem_of_nil in H;
  destruct_or? H; try done; injection H as -> ->.

Lemma kernel_on_inv M : kspace M → pgdir_ok M NULL → sched_inv (kernel_on M) main_ qs0.
Proof.
  intros Hk Hp. split; [|eexists; split; [vm_compute; reflexivity|reflexivity]]. split.
  - apply (heap_check_spec (k_nodes (kernel_on M)) lists_). vm_compute. reflexivity.
  - by eexists.
  - done.
  - intros t T HT%tasks_inv. members HT; split; simpl; try done;
      try (vm_compute; by eexists); unfold main_, B, C; lia.
  - intros t T HT%tasks_inv _. members HT; unfold stack_ok; simpl; unfold main_, B, C; lia.
  - by eexists.
  - unfold stack_ok. simpl. unfold main_. lia.
  - intros t T HT%tasks_inv. by members HT.
  - intros p l e Hl%lists_inv Hpa He. members Hl; [|by destruct Hpa].
    apply list_elem_of_singleton in He. subst e. exists B, (task B TASK_READY 8 8).
    split_and!; done.
  - intros t T l HT%tasks_inv Hs Hl. members HT; simpl in Hs; try done.
    injection Hl as <-. by left.
  - intros t T p l HT%tasks_inv Hl%lists_inv.
    members HT; members Hl; unfold general_tag, all_list_tag, head_of, tail_of, main_, B, C;
      simpl; rewrite ?elem_of_cons, ?elem_of_nil; lia.
  - done.
Qed.

(** On the page tables of the loader. *)
Definition K0 : kernel := kernel_on boot_machine.

Lemma K0_inv : sched_inv K0 main_ qs0.
Proof.
  apply kernel_on_inv; [exact (fm_space _ boot_fresh)|].
  split; [by left|]. exact (fm_space _ boot_fresh).
Qed.

Lemma schedule_round_robin_witness :
  ∃ K', repeat_ schedule 1 K0 = Ok K' ∧ running_thread K' = B.
Proof.
  destruct (schedule_round_robin K0 main_ qs0 [B] 1 K0_inv)
    as (K' & c' & ts' & HK & E & Hr & _).
  - reflexivity.
  - reflexivity.
  - simpl. lia.
  - exists K'. split; [exact HK|]. rewrite Hr. injection E as <- _. reflexivity.
Defined.

Lemma schedule_switches_witness :
  ∃ K', schedule K0 = Ok K'
    ∧ k_tasks K' !! main_
      = Some (with_kstack (task main_ TASK_READY 31 31) (main_ + 3972)).
Proof.
  destruct (schedule_switches K0 main_ qs0 (task main_ TASK_RUNNING 31 2) B [] K0_inv)
    as (K' & N & HK & _ & _ & Hm & _).
  - reflexivity.
  - reflexivity.
  - reflexivity.
  - unfold main_, B. lia.
  - exists K'. split; [exact HK|]. rewrite Hm. reflexivity.
Defined.

Lemma time_slice_witness :
  ∃ K1 K2, repeat_ intr_timer_handler 2 K0 = Ok K1 ∧ running_thread K1 = main_
    ∧ intr_timer_handler K1 = Ok K2 ∧ running_thread K2 = B.
Proof.
  destruct (time_slice K0 main_ qs0 (task main_ TASK_RUNNING 31 2) 2 [general_tag B] K0_inv)
    as (K1 & C1 & H1 & Hr1 & _ & _ & K2 & t & l' & H2 & E & Hr2 & _).
  - reflexivity.
  - reflexivity.
  - reflexivity.
  - simpl. lia.
  - reflexivity.
  - exists K1, K2. split; [exact H1|]. split; [exact Hr1|]. split; [exact H2|].
    injection E as E _. apply (general_tag_inj B t) in E. rewrite Hr2. symmetry. exact E.
Defined.

Lemma thread_block_blocks_witness :
  ∃ K', thread_block K0 TASK_BLOCKED = Ok (INTR_OFF, K') ∧ running_thread K' = B.
Proof.
  destruct (thread_block_blocks K0 main_ qs0 (task main_ TASK_RUNNING 31 2) TASK_BLOCKED
    [general_tag B] K0_inv) as [_ H].
  - reflexivity.
  - reflexivity.
  - destruct (H eq_refl) as (n & K' & E & HK & Hr & _).
    exists K'. split; [exact HK|].
    apply (general_tag_inj B n) in E. rewrite Hr. symmetry. exact E.
Defined.

Lemma thread_unblock_front_witness :
  ∃ K', thread_unblock K0 C = Ok K'
    ∧ sched_inv K' main_ (<[thread_ready_list := [general_tag C; general_tag B]]> qs0).
Proof.
  pose proof (thread_unblock_front K0 main_ qs0 C (task C TASK_BLOCKED 31 31) [general_tag B]
    K0_inv) as H.
  destruct H as (K' & HK & _ & _ & Hi).
  - reflexivity.
  - reflexivity.
  - intros p l Hl Hpa Hin. apply lists_inv in Hl. members Hl.
    + apply list_elem_of_singleton in Hin. unfold general_tag, B, C in Hin. lia.
    + destruct Hpa. reflexivity.
  - exists K'. split; [exact HK|exact Hi].
Defined.
End SchedRuns.
