(* ===== verification/Sync.v ===== *)
(** thread/sync.c: semaphores and locks, with the control flow that makes them
    hard.  A thread can lose the processor inside [lock_acquire] (a timer
    interrupt, or [thread_block] under [sema_down]) and resume much later, so
    every thread carries the list of the program points it still has to run,
    innermost first; [exec] runs one, and the step relation interleaves the
    threads through the scheduler of Sched.v and the timer interrupt. *)
From S2P Require Import Prelude Bitmap Paging Memory Interrupt DList Sched.

(** * Operations *)

(** [struct semaphore] at [p]: the value at [p], the waiters list at [p + 4]. *)
Definition waiters (psema : Z) : Z := psema + 4.
(** [struct lock] at [p]: the semaphore at [p + 4]. *)
Definition semaphore (plock : Z) : Z := plock + 4.

Definition get_sema (K : kernel) (psema : Z) : res Z :=
  match k_semas K !! psema with Some v => Ok v | None => Fault end.
Definition put_sema (K : kernel) (psema v : Z) : kernel :=
  set_semas K (<[psema := v]> (k_semas K)).

Definition get_lock (K : kernel) (plock : Z) : res lock :=
  match k_locks K !! plock with Some l => Ok l | None => Fault end.
Definition put_lock (K : kernel) (plock : Z) (l : lock) : kernel :=
  set_locks K (<[plock := l]> (k_locks K)).

Definition sema_init (K : kernel) (psema value : Z) : res kernel :=
  let K := put_sema K psema (u8 value) in
  on_lists K (list_init (lists_of K) (waiters psema)).

Definition lock_init (K : kernel) (plock : Z) : res kernel :=
  let K := put_lock K plock (Lock NULL 0) in
  sema_init K (semaphore plock) 1.

(** Program points: a call still to be made, or the point a call returns to. *)
Inductive point :=
| KernelThread                                   (* first run: [kernel_thread] *)
| TimerReturn (eflags : Z)                       (* [intr_exit] *)
| BlockReturn (old_status : intr_status)         (* [thread_block] after [schedule] *)
| SemaDown (psema : Z)                           (* [sema_down] *)
| SemaDownLoop (psema : Z) (old_status : intr_status)  (* its loop test *)
| SemaUp (psema : Z)                             (* [sema_up] *)
| LockAcquire (plock : Z)                        (* [lock_acquire] *)
| LockAcquired (plock : Z)                       (* ... after [sema_down] *)
| LockCount (plock : Z)                          (* ... after [holder] is set *)
| LockRelease (plock : Z)                        (* [lock_release] *)
| LockClear (plock : Z).                         (* ... after [holder] is cleared *)

#[global] Instance point_eq_dec : EqDecision point.
Proof. solve_decision. Defined.

Section sync.
Context `{Symbols}.

Definition sema_down (K : kernel) (psema : Z) : res (kernel * list point) :=
  let '(old_status, fl) := intr_disable (k_eflags K) in
  Ok (set_eflags K fl, [SemaDownLoop psema old_status]).

Definition sema_down_loop (K : kernel) (psema : Z) (old_status : intr_status)
    : res (kernel * list point) :=
  v ← get_sema K psema;
  if v =? 0 then
    let tag := general_tag (running_thread K) in
    found ← elem_find (lists_of K) (waiters psema) tag;
    ASSERT (negb found) "sema_down";;
    found ← elem_find (lists_of K) (waiters psema) tag;
    if (found : bool) then Panic "sema_down" else
    K ← on_lists K (list_append (lists_of K) (waiters psema) tag);
    '(old, K) ← thread_block K TASK_BLOCKED;
    Ok (K, [BlockReturn old; SemaDownLoop psema old_status])
  else
    let v := u8 (v - 1) in
    let K := put_sema K psema v in
    ASSERT (v =? 0) "sema_down";;
    Ok (set_eflags K (intr_set_status old_status (k_eflags K)).2, []).

Definition sema_up (K : kernel) (psema : Z) : res kernel :=
  let '(old_status, fl) := intr_disable (k_eflags K) in
  let K := set_eflags K fl in
  v ← get_sema K psema;
  ASSERT (v =? 0) "sema_up";;
  empty ← list_empty (lists_of K) (waiters psema);
  K ← (if negb empty then
         '(e, m) ← list_pop (lists_of K) (waiters psema);
         thread_unblock (set_lists K m) (elem2enyrt e)
       else Ok K);
  let K := put_sema K psema (u8 (v + 1)) in
  ASSERT (u8 (v + 1) =? 1) "sema_up";;
  Ok (set_eflags K (intr_set_status old_status (k_eflags K)).2).

Definition lock_acquire (K : kernel) (plock : Z) : res (kernel * list point) :=
  l ← get_lock K plock;
  if negb (holder l =? running_thread K)
  then Ok (K, [SemaDown (semaphore plock); LockAcquired plock])
  else Ok (put_lock K plock (Lock (holder l) (u32 (holder_repeat_nr l + 1))), []).

Definition lock_acquired (K : kernel) (plock : Z) : res (kernel * list point) :=
  l ← get_lock K plock;
  Ok (put_lock K plock (Lock (running_thread K) (holder_repeat_nr l)), [LockCount plock]).

Definition lock_count (K : kernel) (plock : Z) : res (kernel * list point) :=
  l ← get_lock K plock;
  ASSERT (holder_repeat_nr l =? 0) "lock_acquire";;
  Ok (put_lock K plock (Lock (holder l) 1), []).

Definition lock_release (K : kernel) (plock : Z) : res (kernel * list point) :=
  l ← get_lock K plock;
  ASSERT (holder l =? running_thread K) "lock_release";;
  if holder_repeat_nr l >? 1
  then Ok (put_lock K plock (Lock (holder l) (u32 (holder_repeat_nr l - 1))), [])
  else
    ASSERT (holder_repeat_nr l =? 1) "lock_release";;
    Ok (put_lock K plock (Lock NULL (holder_repeat_nr l)), [LockClear plock]).

Definition lock_clear (K : kernel) (plock : Z) : res (kernel * list point) :=
  l ← get_lock K plock;
  Ok (put_lock K plock (Lock (holder l) 0), [SemaUp (semaphore plock)]).

(** Running one program point of the current thread: the new kernel and the
    points that replace it on that thread's list. *)
Definition exec (K : kernel) (f : point) : res (kernel * list point) :=
  match f with
  | KernelThread => Ok (set_eflags K (intr_enable (k_eflags K)).2, [])
  | TimerReturn fl => Ok (set_eflags K fl, [])
  | BlockReturn old => Ok (thread_block_return K old, [])
  | SemaDown s => sema_down K s
  | SemaDownLoop s old => sema_down_loop K s old
  | SemaUp s => K ← sema_up K s; Ok (K, [])
  | LockAcquire p => lock_acquire K p
  | LockAcquired p => lock_acquired K p
  | LockCount p => lock_count K p
  | LockRelease p => lock_release K p
  | LockClear p => lock_clear K p
  end.
End sync.

(** * Interleaving *)

(** The kernel, the program points of every thread, and who is between the
    return of its outermost [lock_acquire] of a lock and the call of
    [lock_release] that gives the lock up. *)
Record config := Config {
  ker : kernel;
  conts : gmap Z (list point);
  held : gset (Z * Z);
}.

Definition held_after (K : kernel) (f : point) (h : gset (Z * Z)) : gset (Z * Z) :=
  match f with
  | LockCount p => h ∪ {[ (running_thread K, p) ]}
  | LockRelease p =>
      match k_locks K !! p with
      | Some l => if holder_repeat_nr l >? 1 then h else h ∖ {[ (running_thread K, p) ]}
      | None => h
      end
  | _ => h
  end.

Section step.
Context `{Symbols} (Ls : gset Z).

Inductive step : config → config → Prop :=
(* the running thread executes its next program point *)
| step_exec K cs h f r K' fs :
    cs !! running_thread K = Some (f :: r) → exec K f = Ok (K', fs) →
    step (Config K cs h)
         (Config K' (<[running_thread K := fs ++ r]> cs) (held_after K f h))
(* a timer interrupt: the gate clears IF, [intr_exit] will restore eflags *)
| step_timer K cs h st K' :
    intr_get_status (k_eflags K) = INTR_ON → cs !! running_thread K = Some st →
    intr_timer_handler (set_eflags K (cli (k_eflags K))) = Ok K' →
    step (Config K cs h)
         (Config K' (<[running_thread K := TimerReturn (k_eflags K) :: st]> cs) h)
(* client code calls [lock_acquire], with room left in the counter *)
| step_acquire K cs h L l :
    L ∈ Ls → cs !! running_thread K = Some [] → k_locks K !! L = Some l →
    holder_repeat_nr l < 2 ^ 32 - 1 →
    step (Config K cs h) (Config K (<[running_thread K := [LockAcquire L]]> cs) h)
(* client code calls [lock_release] on a lock it holds *)
| step_release K cs h L :
    L ∈ Ls → cs !! running_thread K = Some [] → (running_thread K, L) ∈ h →
    step (Config K cs h) (Config K (<[running_thread K := [LockRelease L]]> cs) h)
(* client code switches interrupts on or off *)
| step_intr K cs h s :
    cs !! running_thread K = Some [] →
    step (Config K cs h) (Config (set_eflags K (intr_set_status s (k_eflags K)).2) cs h)
(* the stack pointer moves within the running thread's stack *)
| step_stack K cs h a :
    stack_ok (running_thread K) a → step (Config K cs h) (Config (set_esp K a) cs h).

Inductive reachable (c0 : config) : config → Prop :=
| reach_refl : reachable c0 c0
| reach_step c c' : reachable c0 c → step c c' → reachable c0 c'.
End step.
