(* ===== verification/Uncontended.v ===== *)
(** Runs of a thread that keeps the processor, and what an uncontended lock of
    thread/sync.c does in such a run.  Thread creation, the console and the
    page allocator take locks nobody else holds; the contended case is
    SyncProps.v. *)
From S2P Require Import Prelude Bitmap Paging Memory Interrupt DList Sched Sync.

(** * Runs

    [exec] runs one program point and replaces it by others, [here] is the
    thread that runs.  A run executes a list of points to its end on one
    thread; it is finite by definition, so proving that a run exists proves
    that the calls return. *)

Section runs.
Context {St P : Type} (exec : St → P → res (St * list P)) (here : St → Z).

Inductive runs : St → list P → St → Prop :=
| runs_nil s : runs s [] s
| runs_cons s f r s' fs s'' :
    exec s f = Ok (s', fs) → here s' = here s → runs s' (fs ++ r) s'' → runs s (f :: r) s''.

Lemma runs_app s fs s' gs s'' : runs s fs s' → runs s' gs s'' → runs s (fs ++ gs) s''.
Proof.
  induction 1 as [s|s f r s' fs s1 He Hh _ IH]; intros Hg; [done|].
  simpl. eapply runs_cons; [done|done|]. rewrite app_assoc. by apply IH.
Qed.

Lemma runs_one s f s' : exec s f = Ok (s', []) → here s' = here s → runs s [f] s'.
Proof. intros. eapply runs_cons; [done|done|apply runs_nil]. Qed.

(** One point, then the points it leaves, then the rest. *)
Lemma runs_bind s f r s1 fs s2 s3 :
  exec s f = Ok (s1, fs) → here s1 = here s → runs s1 fs s2 → runs s2 r s3 →
  runs s (f :: r) s3.
Proof. intros He Hh H1 H2. eapply runs_cons; [done|done|]. by eapply runs_app. Qed.

Lemma runs_here s fs s' : runs s fs s' → here s' = here s.
Proof. induction 1; congruence. Qed.

(** A run has one outcome. *)
Lemma runs_det s fs s1 s2 : runs s fs s1 → runs s fs s2 → s1 = s2.
Proof.
  intros H1. revert s2. induction H1 as [s|s f r s' fs s1 He Hh _ IH]; intros s2 H2;
    inversion H2 as [|? ? ? s3 fs3 ? He3 Hh3 H3]; subst; [done|].
  rewrite He in He3. injection He3 as <- <-. by apply IH.
Qed.
End runs.

(** A machine that embeds another one runs its points as the other does. *)
Lemma runs_lift {St P St' P'} (exec : St → P → res (St * list P)) here
    (exec' : St' → P' → res (St' * list P')) here' (emb : St → St') (pt : P → P') s fs s' :
  (∀ s f s1 fs, exec s f = Ok (s1, fs) → exec' (emb s) (pt f) = Ok (emb s1, map pt fs)) →
  (∀ s, here' (emb s) = here s) →
  runs exec here s fs s' → runs exec' here' (emb s) (map pt fs) (emb s').
Proof.
  intros He Hh. induction 1 as [s|s f r s1 fs s2 H1 H2 _ IH]; [apply runs_nil|].
  simpl. eapply runs_cons; [by apply He|by rewrite !Hh|]. by rewrite map_app in IH.
Qed.

(** * Taking and giving back a free lock *)

(** The lock at [p] is free and nobody waits for it. *)
Record lock_free (K : kernel) (p : Z) : Prop := {
  lf_lock : k_locks K !! p = Some (Lock NULL 0);
  lf_sema : k_semas K !! semaphore p = Some 1;
  lf_empty : list_empty (lists_of K) (waiters (semaphore p)) = Ok true;
}.

(** The state between [lock_acquire] and [lock_release]. *)
Definition locked (K : kernel) (p : Z) : kernel :=
  put_lock (put_sema K (semaphore p) 0) p (Lock (running_thread K) 1).

(** What a bracket does not depend on. *)
Definition unlocked (K K' : kernel) (p : Z) : Prop :=
  k_locks K' = k_locks K ∧ k_semas K' = k_semas K ∧ running_thread K' = running_thread K
  ∧ list_empty (lists_of K') (waiters (semaphore p)) = Ok true.

Section lock.
Context `{Symbols}.

Abbreviation lruns := (runs exec running_thread).

Lemma put_sema_twice K s v v' : put_sema (put_sema K s v) s v' = put_sema K s v'.
Proof. unfold put_sema. simpl. by rewrite insert_insert_eq. Qed.

Lemma put_lock_twice K p l l' : put_lock (put_lock K p l) p l' = put_lock K p l'.
Proof. unfold put_lock. simpl. by rewrite insert_insert_eq. Qed.

Lemma get_lock_put K p l : get_lock (put_lock K p l) p = Ok l.
Proof. unfold get_lock, put_lock. simpl. by rewrite lookup_insert_eq. Qed.

Lemma get_sema_put K s v : get_sema (put_sema K s v) s = Ok v.
Proof. unfold get_sema, put_sema. simpl. by rewrite lookup_insert_eq. Qed.

Lemma lock_acquire_free K p :
  lock_free K p → running_thread K ≠ NULL → lruns K [LockAcquire p] (locked K p).
Proof.
  intros [Hl Hs _] Hcur. pose proof (intr_restore (k_eflags K)) as Hfl.
  assert (Hg : get_lock K p = Ok (Lock NULL 0)) by (unfold get_lock; by rewrite Hl).
  eapply runs_cons; [|done|].
  { simpl. unfold lock_acquire. rewrite Hg. rb. cbn [holder].
    by rewrite (proj2 (Z.eqb_neq NULL (running_thread K))) by done. }
  destruct (intr_disable (k_eflags K)) as [old fl] eqn:Ei. cbn [fst snd] in Hfl.
  eapply runs_cons; [simpl; unfold sema_down; by rewrite Ei|done|].
  eapply runs_cons.
  { simpl. unfold sema_down_loop, get_sema. simpl. rewrite Hs. rb. done. }
  { done. }
  simpl. rewrite Hfl. eapply runs_cons; [simpl; unfold lock_acquired, get_lock; simpl; by rewrite Hl|done|].
  eapply runs_cons; [simpl; unfold lock_count, get_lock; simpl; by rewrite lookup_insert_eq|done|].
  simpl. match goal with |- runs _ _ ?a [] ?b => assert (a = b) as ->; [|apply runs_nil] end.
  rewrite put_lock_twice. by destruct K.
Qed.

(** A bracket around work that leaves the lock alone. *)
Lemma lock_release_free K K' p :
  lock_free K p → running_thread K ≠ NULL → unlocked (locked K p) K' p →
  lruns K' [LockRelease p] (set_locks (set_semas K' (k_semas K)) (k_locks K)).
Proof.
  intros [Hl Hs _] Hcur (El & Es & Er & Hemp). pose proof (intr_restore (k_eflags K')) as Hfl.
  assert (Er' : running_thread K' = running_thread K) by done. clear Er.
  simpl in El, Es.
  assert (Hg : get_lock K' p = Ok (Lock (running_thread K) 1))
    by (unfold get_lock; by rewrite El, lookup_insert_eq).
  eapply runs_cons.
  { simpl. unfold lock_release. rewrite Hg. rb. cbn [holder holder_repeat_nr].
    rewrite Er', (assert_true (running_thread K =? running_thread K)) by apply Z.eqb_refl.
    rb. reflexivity. }
  { done. }
  eapply runs_cons; [simpl; unfold lock_clear; by rewrite get_lock_put|done|].
  simpl. rewrite put_lock_twice. eapply runs_one; [|done]. simpl. unfold sema_up.
  cbn [put_lock set_locks k_eflags].
  destruct (intr_disable (k_eflags K')) as [old fl] eqn:Ei. cbv zeta.
  unfold get_sema. cbn [set_eflags put_lock set_locks k_semas]. rewrite Es, lookup_insert_eq. rb.
  rewrite assert_true by done. rb.
  unfold lists_of in Hemp |- *. cbn [set_eflags put_lock set_locks k_eflags k_nodes].
  unfold list_empty in Hemp |- *. cbn [nodes] in Hemp |- *. rewrite Hemp. rb. simpl negb. cbv iota. rb.
  rewrite assert_true by done. rb. cbn [put_sema set_semas set_eflags k_eflags put_lock set_locks].
  rewrite Hfl. do 2 f_equal. unfold put_lock, put_sema, set_locks, set_semas, set_eflags. simpl.
  f_equal; rewrite ?Es, ?El, insert_insert_eq; by apply insert_id.
Qed.
End lock.

(** * What the scheduler prints

    [schedule] is the only function that adds to [k_out]. *)

Section says.
Context `{Symbols}.

Lemma on_lists_out K r K' : on_lists K r = Ok K' → k_out K' = k_out K.
Proof. by intros (m & _ & [= <-])%bind_ok_inv. Qed.

Lemma lock_init_out K p K' : lock_init K p = Ok K' → k_out K' = k_out K.
Proof. by intros E%on_lists_out. Qed.

Lemma process_activate_out K t K' : process_activate K t = Ok K' → k_out K' = k_out K.
Proof. intros (? & _ & (T & _ & (M & _ & [= <-])%bind_ok_inv)%bind_ok_inv)%bind_ok_inv. by case_match. Qed.

Lemma switch_to_out K a b K' : switch_to K a b = Ok K' → k_out K' = k_out K.
Proof. by intros (T & _ & (T' & _ & [= <-])%bind_ok_inv)%bind_ok_inv. Qed.

Lemma schedule_out K K' : schedule K = Ok K' → ∃ nm, k_out K' = k_out K ++ [nm].
Proof.
  unfold schedule. intros (? & _ & (C & _ & (K1 & Hq & Hr)%bind_ok_inv)%bind_ok_inv)%bind_ok_inv.
  assert (E1 : k_out K1 = k_out K).
  { case_bool_decide; [|by injection Hq as <-].
    apply bind_ok_inv in Hq as (? & _ & Hq). apply bind_ok_inv in Hq as (? & _ & Hq).
    apply bind_ok_inv in Hq as (K2 & Ha%on_lists_out & [= <-]). done. }
  apply bind_ok_inv in Hr as (? & _ & Hr). apply bind_ok_inv in Hr as (? & _ & Hr).
  apply bind_ok_inv in Hr as ([e m] & _ & Hr). apply bind_ok_inv in Hr as (N & _ & Hr).
  apply bind_ok_inv in Hr as (K2 & Ha%process_activate_out & Hr).
  apply bind_ok_inv in Hr as (K3 & Hs%switch_to_out & [= <-]). exists (name N). simpl in *. congruence.
Qed.

Lemma thread_block_out K st old K' :
  thread_block K st = Ok (old, K') → ∃ nm, k_out K' = k_out K ++ [nm].
Proof.
  unfold thread_block. destruct (intr_disable _) as [o fl].
  intros (? & _ & (C & _ & (K1 & Hs%schedule_out & [= <- <-])%bind_ok_inv)%bind_ok_inv)%bind_ok_inv. done.
Qed.

Lemma thread_unblock_out K t K' : thread_unblock K t = Ok K' → k_out K' = k_out K.
Proof.
  unfold thread_unblock. destruct (intr_disable _) as [o fl].
  intros (T & _ & (? & _ & (K1 & Hq & [= <-])%bind_ok_inv)%bind_ok_inv)%bind_ok_inv. simpl.
  case_bool_decide; [|by injection Hq as <-].
  apply bind_ok_inv in Hq as (? & _ & Hq). apply bind_ok_inv in Hq as (? & _ & Hq).
  apply bind_ok_inv in Hq as ([|] & _ & Hq); [done|].
  apply bind_ok_inv in Hq as (K2 & Ha%on_lists_out & Hq). by apply bind_ok_inv in Hq as (? & _ & [= <-]).
Qed.

Lemma sema_up_out K p K' : sema_up K p = Ok K' → k_out K' = k_out K.
Proof.
  unfold sema_up. destruct (intr_disable _) as [o fl].
  intros (v & _ & (? & _ & (em & _ & (K1 & Hq & Hr)%bind_ok_inv)%bind_ok_inv)%bind_ok_inv)%bind_ok_inv.
  apply bind_ok_inv in Hr as (? & _ & [= <-]). simpl. destruct (negb em); [|by injection Hq as <-].
  by apply bind_ok_inv in Hq as ([e m] & _ & Hq%thread_unblock_out).
Qed.

Lemma exec_out K f K' fs : exec K f = Ok (K', fs) → k_out K `prefix_of` k_out K'.
Proof.
  destruct f; simpl exec.
  - by intros [= <- _].
  - by intros [= <- _].
  - by intros [= <- _].
  - unfold sema_down. destruct (intr_disable _). by intros [= <- _].
  - intros (v & _ & Hr)%bind_ok_inv. destruct (v =? 0); [|by apply bind_ok_inv in Hr as (? & _ & [= <- _])].
    apply bind_ok_inv in Hr as (? & _ & Hr). apply bind_ok_inv in Hr as (? & _ & Hr).
    apply bind_ok_inv in Hr as ([|] & _ & Hr); [done|].
    apply bind_ok_inv in Hr as (K1 & Ha%on_lists_out & Hr).
    apply bind_ok_inv in Hr as ([old K2] & [nm Hb]%thread_block_out & [= <- _]).
    rewrite Hb, Ha. by apply prefix_app_r.
  - by intros (K1 & Hu%sema_up_out & [= <- _])%bind_ok_inv; rewrite Hu.
  - intros (l & _ & Hr)%bind_ok_inv. by destruct (negb _); injection Hr as <- _.
  - by intros (l & _ & [= <- _])%bind_ok_inv.
  - by intros (l & _ & (? & _ & [= <- _])%bind_ok_inv)%bind_ok_inv.
  - intros (l & _ & (? & _ & Hr)%bind_ok_inv)%bind_ok_inv.
    destruct (_ >? _); [by injection Hr as <- _|]. by apply bind_ok_inv in Hr as (? & _ & [= <- _]).
  - by intros (l & _ & [= <- _])%bind_ok_inv.
Qed.

Lemma timer_out K K' : intr_timer_handler K = Ok K' → k_out K `prefix_of` k_out K'.
Proof.
  intros (C & _ & (? & _ & (C' & _ & Hr)%bind_ok_inv)%bind_ok_inv)%bind_ok_inv. cbv zeta in Hr.
  destruct (ticks C' =? 0); [|by injection Hr as <-]. apply schedule_out in Hr as [nm ->]. by apply prefix_app_r.
Qed.

(** A run that ends with what it began with has printed nothing on the way. *)
Lemma runs_out K fs K' : runs exec running_thread K fs K' → k_out K `prefix_of` k_out K'.
Proof. induction 1 as [|K f r K1 fs K2 He%exec_out _ _ IH]; [done|]. by etrans. Qed.
End says.
