(* ===== verification/SyncInv.v ===== *)
(** The invariant of thread/sync.c under every interleaving: where each thread
    is, what each lock's fields say about it, and that every step keeps the
    two in agreement. *)
From S2P Require Import Prelude Bitmap Paging Memory Interrupt DList Sched Sync.

(** * Where a thread is *)

Inductive pos :=
| Out                 (* in client code *)
| Calling (L : Z)     (* about to enter [lock_acquire] *)
| Want (L : Z)        (* not the holder, about to call [sema_down] *)
| Trying (L : Z)      (* at the loop test of [sema_down] *)
| Waiting (L : Z)     (* in [thread_block] under [sema_down] *)
| Got (L : Z)         (* back from [sema_down], [holder] not yet set *)
| Counting (L : Z)    (* [holder] set, counter not yet *)
| Releasing (L : Z)   (* about to enter [lock_release] *)
| Clearing (L : Z)    (* [holder] cleared, counter not yet *)
| Upping (L : Z).     (* about to call [sema_up] *)

#[global] Instance pos_eq_dec : EqDecision pos.
Proof. solve_decision. Defined.

(** The program points a thread has left, read as a position; timer returns on
    top do not matter. *)
Inductive at_pos : list point → pos → Prop :=
| ap_timer fl st p : at_pos st p → at_pos (TimerReturn fl :: st) p
| ap_out : at_pos [] Out
| ap_start : at_pos [KernelThread] Out
| ap_call L : at_pos [LockAcquire L] (Calling L)
| ap_down L : at_pos [SemaDown (semaphore L); LockAcquired L] (Want L)
| ap_loop L o : at_pos [SemaDownLoop (semaphore L) o; LockAcquired L] (Trying L)
| ap_wait L o o' :
    at_pos [BlockReturn o'; SemaDownLoop (semaphore L) o; LockAcquired L] (Waiting L)
| ap_got L : at_pos [LockAcquired L] (Got L)
| ap_count L : at_pos [LockCount L] (Counting L)
| ap_release L : at_pos [LockRelease L] (Releasing L)
| ap_clear L : at_pos [LockClear L] (Clearing L)
| ap_up L : at_pos [SemaUp (semaphore L)] (Upping L).

Definition lock_of (p : pos) : option Z :=
  match p with
  | Out => None
  | Calling L | Want L | Trying L | Waiting L | Got L | Counting L | Releasing L
  | Clearing L | Upping L => Some L
  end.

(** * What holds of one lock *)

(** [t] is past [sema_down] and before [sema_up]. *)
Definition in_cs (P : gmap Z pos) (l : lock) (L t : Z) : Prop :=
  (holder l = t ∧ t ≠ NULL)
  ∨ P !! t = Some (Got L) ∨ P !! t = Some (Clearing L) ∨ P !! t = Some (Upping L).

Record lock_inv (P : gmap Z pos) (h : gset (Z * Z)) (L v : Z) (l : lock) (ws : list Z) : Prop := {
  li_bin : v = 0 ∨ v = 1;
  li_free t : v = 1 → ¬ in_cs P l L t;
  li_one t t' : in_cs P l L t → in_cs P l L t' → t = t';
  li_taken : v = 0 → ∃ t, in_cs P l L t;
  li_idle : holder l = NULL → (∀ t, P !! t ≠ Some (Clearing L)) → holder_repeat_nr l = 0;
  li_reset t : P !! t = Some (Got L) ∨ P !! t = Some (Clearing L) ∨ P !! t = Some (Upping L) →
    holder l = NULL;
  li_clear t : P !! t = Some (Clearing L) → holder_repeat_nr l = 1;
  li_count t : P !! t = Some (Counting L) → holder l = t ∧ holder_repeat_nr l = 0;
  li_release t : P !! t = Some (Releasing L) → holder l = t;
  li_call t : P !! t = Some (Calling L) → holder l = t → holder_repeat_nr l < 2 ^ 32 - 1;
  li_held : holder l ≠ NULL → is_Some (P !! holder l) ∧ 0 ≤ holder_repeat_nr l < 2 ^ 32
    ∧ (holder_repeat_nr l = 0 → P !! holder l = Some (Counting L));
  li_ghost t : (t, L) ∈ h ↔ t ≠ NULL ∧ holder l = t ∧ P !! t ≠ Some (Counting L);
  li_wait t : t ∈ ws → P !! t = Some (Waiting L);
  li_wake : ws ≠ [] → v = 0 ∨ ∃ t, P !! t = Some (Trying L) ∨ (P !! t = Some (Waiting L) ∧ t ∉ ws);
}.

(** A thread that moves between positions that do not concern [L], with the
    ghost set unchanged at [L], leaves the lock alone. *)
Lemma lock_inv_frame P h h' L v l ws t p p' :
  lock_inv P h L v l ws → P !! t = Some p → lock_of p ≠ Some L → lock_of p' ≠ Some L →
  (∀ u, (u, L) ∈ h' ↔ (u, L) ∈ h) →
  lock_inv (<[t := p']> P) h' L v l ws.
Proof.
  intros Hi Hp Hl Hl' Hh.
  assert (Hsame : ∀ u q, lock_of q = Some L → <[t := p']> P !! u = Some q ↔ P !! u = Some q).
  { intros u q Hq. rewrite lookup_insert. case_decide as E; [|done]. subst u.
    split; intros; simplify_eq; done. }
  assert (Hcs : ∀ u, in_cs (<[t := p']> P) l L u ↔ in_cs P l L u).
  { intros u. unfold in_cs. by rewrite !Hsame. }
  split.
  - apply Hi.
  - intros u. rewrite Hcs. apply Hi.
  - intros u u'. rewrite !Hcs. apply Hi.
  - intros Hv. destruct (li_taken _ _ _ _ _ _ Hi Hv) as [u Hu]. exists u. by apply Hcs.
  - intros Hn Hc. apply (li_idle _ _ _ _ _ _ Hi); [done|]. intros u. by rewrite <- Hsame.
  - intros u. rewrite !Hsame by done. apply Hi.
  - intros u. rewrite Hsame by done. apply Hi.
  - intros u. rewrite Hsame by done. apply Hi.
  - intros u. rewrite Hsame by done. apply Hi.
  - intros u. rewrite Hsame by done. apply Hi.
  - intros Hn. destruct (li_held _ _ _ _ _ _ Hi Hn) as (Hs & Hr & Hc). rewrite Hsame by done.
    split_and!; try done; try lia. rewrite lookup_insert. case_decide; [by eexists|done].
  - intros u. rewrite Hh, (li_ghost _ _ _ _ _ _ Hi), Hsame by done. done.
  - intros u. rewrite Hsame by done. apply Hi.
  - intros Hw. destruct (li_wake _ _ _ _ _ _ Hi Hw) as [?|[u Hu]]; [by left|right].
    exists u. by rewrite !Hsame by done.
Qed.

(** * The moves of one thread, as the lock sees them *)

Lemma lookup_move (P : gmap Z pos) t p' u q :
  <[t := p']> P !! u = Some q ↔ (u = t ∧ q = p') ∨ (u ≠ t ∧ P !! u = Some q).
Proof. rewrite lookup_insert. case_decide; naive_solver. Qed.

(** Positions outside the critical section that do not bind the holder. *)
Definition quiet (p : pos) : bool :=
  match p with
  | Out | Calling _ | Want _ | Trying _ | Waiting _ | Releasing _ => true
  | _ => false
  end.

Definition waking (p : pos) (L : Z) (t : Z) (ws : list Z) : Prop :=
  p = Trying L ∨ (p = Waiting L ∧ t ∉ ws).

Lemma lock_inv_quiet P h L v l ws t p p' :
  lock_inv P h L v l ws → P !! t = Some p → quiet p = true → quiet p' = true →
  (p' = Calling L → holder_repeat_nr l < 2 ^ 32 - 1) →
  (p' = Releasing L → holder l = t) →
  t ∉ ws → (waking p L t ws → waking p' L t ws) →
  lock_inv (<[t := p']> P) h L v l ws.
Proof.
  intros Hi Hp Hq Hq' Hcall Hrel Hnw Hwk.
  assert (Hsame : ∀ u q, quiet q = false → <[t := p']> P !! u = Some q ↔ P !! u = Some q).
  { intros u q Hqq. rewrite lookup_move. split; [intros [[-> ->]|[_ ?]]; [congruence|done]|].
    intros Hu. right. split; [|done]. intros ->. simplify_eq. congruence. }
  assert (Hcs : ∀ u, in_cs (<[t := p']> P) l L u ↔ in_cs P l L u).
  { intros u. unfold in_cs. by rewrite !Hsame. }
  split.
  - apply Hi.
  - intros u. rewrite Hcs. apply Hi.
  - intros u u'. rewrite !Hcs. apply Hi.
  - intros Hv. destruct (li_taken _ _ _ _ _ _ Hi Hv) as [u Hu]. exists u. by apply Hcs.
  - intros Hn Hc. apply (li_idle _ _ _ _ _ _ Hi); [done|]. intros u. by rewrite <- Hsame.
  - intros u. rewrite !Hsame by done. apply Hi.
  - intros u. rewrite Hsame by done. apply Hi.
  - intros u. rewrite Hsame by done. apply Hi.
  - intros u. rewrite lookup_move. intros [[-> E]|[_ Hu]]; [by apply Hrel|by apply (li_release _ _ _ _ _ _ Hi)].
  - intros u. rewrite lookup_move. intros [[-> E]|[_ Hu]]; [by intros; apply Hcall|by apply (li_call _ _ _ _ _ _ Hi)].
  - intros Hn. destruct (li_held _ _ _ _ _ _ Hi Hn) as (Hs & Hr & Hc). rewrite Hsame by done.
    split_and!; try done; try lia. rewrite lookup_insert. case_decide; [by eexists|done].
  - intros u. rewrite (li_ghost _ _ _ _ _ _ Hi), Hsame by done. done.
  - intros u Hu. rewrite lookup_insert_ne by (by intros ->). by apply Hi.
  - intros Hw. destruct (li_wake _ _ _ _ _ _ Hi Hw) as [?|[u Hu]]; [by left|right].
    destruct (decide (u = t)) as [->|Hne].
    + exists t. rewrite lookup_insert_eq. unfold waking in Hwk. naive_solver.
    + exists u. by rewrite lookup_insert_ne by done.
Qed.

Ltac lk_moves :=
  repeat match goal with
  | H : context [<[_ := _]> _ !! _ = Some _] |- _ => rewrite lookup_move in H
  | |- context [<[_ := _]> _ !! _ = Some _] => rewrite lookup_move
  end.

(** Trying to Got: [value] goes from 1 to 0. *)
Lemma lock_inv_take P h L l ws t :
  lock_inv P h L 1 l ws → P !! t = Some (Trying L) → t ∉ ws →
  lock_inv (<[t := Got L]> P) h L 0 l ws.
Proof.
  intros Hi Hp Hnw. pose proof (li_free _ _ _ _ _ _ Hi) as Hfree. specialize (fun u => Hfree u eq_refl).
  assert (Hnil : holder l = NULL).
  { destruct (decide (holder l = NULL)); [done|]. destruct (Hfree (holder l)). by left. }
  assert (Hnc : ∀ u, P !! u ≠ Some (Clearing L)).
  { intros u Hu. apply (Hfree u). unfold in_cs. auto. }
  assert (Hr0 : holder_repeat_nr l = 0) by by apply (li_idle _ _ _ _ _ _ Hi).
  assert (Hcs : ∀ u, in_cs (<[t := Got L]> P) l L u → u = t).
  { intros u. unfold in_cs. lk_moves. specialize (Hfree u). unfold in_cs in Hfree. naive_solver. }
  split.
  - by left.
  - lia.
  - intros u u' ->%Hcs ->%Hcs. done.
  - intros _. exists t. unfold in_cs. lk_moves. naive_solver.
  - done.
  - done.
  - intros u. lk_moves. naive_solver.
  - intros u. lk_moves. intros [[_ ?]|[_ Hu]]; [done|]. by apply (li_count _ _ _ _ _ _ Hi).
  - intros u. lk_moves. intros [[_ ?]|[_ Hu]]; [done|]. by apply (li_release _ _ _ _ _ _ Hi).
  - intros u. lk_moves. intros [[_ ?]|[_ Hu]]; [done|]. by apply (li_call _ _ _ _ _ _ Hi).
  - done.
  - intros u. rewrite (li_ghost _ _ _ _ _ _ Hi). split; [|naive_solver].
    intros (? & ? & _). congruence.
  - intros u Hu. rewrite lookup_insert_ne by (by intros ->). by apply Hi.
  - intros _. by left.
Qed.

(** The lock's fields while [t] owns it at position [p]. *)
Record owner_ok (L : Z) (p : pos) (l : lock) (t : Z) : Prop := {
  oo_null : p = Got L ∨ p = Clearing L ∨ p = Upping L → holder l = NULL;
  oo_self : p ≠ Got L → p ≠ Clearing L → p ≠ Upping L → holder l = t;
  oo_idle : holder l = NULL → p ≠ Clearing L → holder_repeat_nr l = 0;
  oo_clear : p = Clearing L → holder_repeat_nr l = 1;
  oo_count : p = Counting L → holder_repeat_nr l = 0;
  oo_range : 0 ≤ holder_repeat_nr l < 2 ^ 32;
  oo_zero : holder_repeat_nr l = 0 → holder l ≠ NULL → p = Counting L;
  oo_call : p = Calling L → holder_repeat_nr l < 2 ^ 32 - 1;
}.

Lemma others_out P h L v l ws t u :
  lock_inv P h L v l ws → in_cs P l L t → u ≠ t →
  ¬ in_cs P l L u ∧ P !! u ≠ Some (Got L) ∧ P !! u ≠ Some (Clearing L) ∧ P !! u ≠ Some (Upping L)
  ∧ (u ≠ NULL → holder l ≠ u).
Proof.
  intros Hi Hcs Hne.
  assert (¬ in_cs P l L u) as Hn by (intros Hu; by apply Hne, (li_one _ _ _ _ _ _ Hi)).
  unfold in_cs in Hn. naive_solver.
Qed.

(** The owner moves on: only its own position and the lock's fields change. *)
Lemma lock_inv_owner P h h' L v l l' ws t p p' :
  lock_inv P h L v l ws → P !! t = Some p → in_cs P l L t → t ≠ NULL → p ≠ Waiting L →
  (∀ u, P !! u = Some (Counting L) ∨ P !! u = Some (Releasing L) → u ≠ NULL) →
  p' ≠ Waiting L → owner_ok L p' l' t →
  (∀ u, u ≠ t → (u, L) ∈ h' ↔ (u, L) ∈ h) →
  ((t, L) ∈ h' ↔ holder l' = t ∧ p' ≠ Counting L) →
  lock_inv (<[t := p']> P) h' L v l' ws.
Proof.
  intros Hi Hp Hcs Ht Hpw HnN Hpw' Hok Hh Hht.
  assert (Hv : v = 0).
  { destruct (li_bin _ _ _ _ _ _ Hi) as [?|E]; [done|].
    by destruct (li_free _ _ _ _ _ _ Hi t E). }
  pose proof (λ u, others_out P h L v l ws t u Hi Hcs) as Hoth.
  assert (Hdec : (p' = Got L ∨ p' = Clearing L ∨ p' = Upping L)
    ∨ (p' ≠ Got L ∧ p' ≠ Clearing L ∧ p' ≠ Upping L)).
  { destruct (decide (p' = Got L)), (decide (p' = Clearing L)), (decide (p' = Upping L)); tauto. }
  assert (Hhold : holder l' = NULL ∨ holder l' = t).
  { destruct Hdec as [Hd|(? & ? & ?)]; [left; by apply Hok|right; by apply (oo_self _ _ _ _ Hok)]. }
  assert (Hcs' : ∀ u, in_cs (<[t := p']> P) l' L u → u = t).
  { intros u Hu. destruct (decide (u = t)) as [|Hne]; [done|].
    destruct (Hoth u Hne) as (_ & ? & ? & ? & _). unfold in_cs in Hu.
    rewrite !lookup_insert_ne in Hu by done. destruct Hu as [[Hu1 Hu2]|Hu]; [|tauto].
    destruct Hhold; congruence. }
  assert (Hin : in_cs (<[t := p']> P) l' L t).
  { unfold in_cs. rewrite lookup_insert_eq.
    destruct Hdec as [Hd|(? & ? & ?)]; [right; intuition congruence|].
    left. split; [by apply (oo_self _ _ _ _ Hok)|done]. }
  assert (Hnb : ∀ u, u ≠ t → P !! u ≠ Some (Counting L) ∧ P !! u ≠ Some (Releasing L)).
  { intros u Hne. destruct (Hoth u Hne) as (_ & _ & _ & _ & Hnh).
    split; intros Hu; (apply Hnh; [apply HnN; tauto|]).
    - by apply (li_count _ _ _ _ _ _ Hi).
    - by apply (li_release _ _ _ _ _ _ Hi). }
  assert (Hat : ∀ u q, <[t := p']> P !! u = Some q → u ≠ t →
    q ≠ Got L ∧ q ≠ Clearing L ∧ q ≠ Upping L ∧ q ≠ Counting L ∧ q ≠ Releasing L).
  { intros u q. intros Hu Hne. rewrite lookup_insert_ne in Hu by done.
    destruct (Hoth u Hne) as (_ & ? & ? & ? & _), (Hnb u Hne).
    split_and!; intros ->; contradiction. }
  assert (Hself : ∀ u q, <[t := p']> P !! u = Some q →
    q = Got L ∨ q = Clearing L ∨ q = Upping L ∨ q = Counting L ∨ q = Releasing L →
    u = t ∧ q = p').
  { intros u q Hu Hq. destruct (decide (u = t)) as [->|Hne].
    - rewrite lookup_insert_eq in Hu. split; congruence.
    - destruct (Hat u q Hu Hne) as (? & ? & ? & ? & ?). intuition congruence. }
  split.
  - by left.
  - lia.
  - intros u u' ->%Hcs' ->%Hcs'. done.
  - eauto.
  - intros Hn Hc. apply (oo_idle _ _ _ _ Hok); [done|]. intros ->. apply (Hc t).
    by rewrite lookup_insert_eq.
  - intros u [Hu|[Hu|Hu]]; apply Hself in Hu as [-> <-]; auto; apply (oo_null _ _ _ _ Hok); auto.
  - intros u Hu. apply Hself in Hu as [-> <-]; auto. by apply (oo_clear _ _ _ _ Hok).
  - intros u Hu. apply Hself in Hu as [-> <-]; auto. split; [|by apply (oo_count _ _ _ _ Hok)].
    by apply (oo_self _ _ _ _ Hok).
  - intros u Hu. apply Hself in Hu as [-> <-]; auto 10. by apply (oo_self _ _ _ _ Hok).
  - intros u Hu Hhu. destruct (decide (u = t)) as [->|Hne].
    + rewrite lookup_insert_eq in Hu. injection Hu as ->. by apply (oo_call _ _ _ _ Hok).
    + destruct Hhold as [E|E]; [|congruence].
      destruct (decide (p' = Clearing L)) as [Ec|Ec].
      * rewrite (oo_clear _ _ _ _ Hok Ec). lia.
      * rewrite (oo_idle _ _ _ _ Hok E Ec). lia.
  - intros Hn. assert (holder l' = t) as E by tauto.
    split_and!; [rewrite E, lookup_insert_eq; by eexists|apply Hok..|].
    intros Hr. rewrite E, lookup_insert_eq. f_equal. by apply (oo_zero _ _ _ _ Hok).
  - intros u. destruct (decide (u = t)) as [->|Hne].
    + rewrite Hht, lookup_insert_eq. split; [intros [? ?]; split_and!; auto; congruence|].
      intros (_ & ? & Hq). split; [done|]. intros ->. done.
    + rewrite Hh, (li_ghost _ _ _ _ _ _ Hi), lookup_insert_ne by done.
      destruct (Hoth u Hne) as (_ & _ & _ & _ & Hnh). destruct Hhold; intuition congruence.
  - intros u Hu. pose proof (li_wait _ _ _ _ _ _ Hi u Hu) as Hw.
    rewrite lookup_insert_ne; [done|]. intros ->. congruence.
  - intros _. by left.
Qed.

(** Trying to Waiting: the thread joins the waiters. *)
Lemma lock_inv_wait P h L l ws t :
  lock_inv P h L 0 l ws → P !! t = Some (Trying L) → t ∉ ws →
  lock_inv (<[t := Waiting L]> P) h L 0 l (ws ++ [t]).
Proof.
  intros Hi Hp Hnw.
  assert (Hsame : ∀ u q, q ≠ Trying L → q ≠ Waiting L →
    <[t := Waiting L]> P !! u = Some q ↔ P !! u = Some q).
  { intros u q H1 H2. rewrite lookup_move. split; [intros [[-> ->]|[_ ?]]; done|].
    intros Hu. right. split; [|done]. intros ->. congruence. }
  assert (Hcs : ∀ u, in_cs (<[t := Waiting L]> P) l L u ↔ in_cs P l L u).
  { intros u. unfold in_cs. by rewrite !Hsame. }
  split.
  - by left.
  - lia.
  - intros u u'. rewrite !Hcs. apply Hi.
  - intros Hv. destruct (li_taken _ _ _ _ _ _ Hi Hv) as [u Hu]. exists u. by apply Hcs.
  - intros Hn Hc. apply (li_idle _ _ _ _ _ _ Hi); [done|]. intros u. by rewrite <- Hsame.
  - intros u. rewrite !Hsame by done. apply Hi.
  - intros u. rewrite Hsame by done. apply Hi.
  - intros u. rewrite Hsame by done. apply Hi.
  - intros u. rewrite Hsame by done. apply Hi.
  - intros u. rewrite Hsame by done. apply Hi.
  - intros Hn. destruct (li_held _ _ _ _ _ _ Hi Hn) as (Hs & Hr & Hc). rewrite Hsame by done.
    split_and!; try done; try lia. rewrite lookup_insert. case_decide; [by eexists|done].
  - intros u. rewrite (li_ghost _ _ _ _ _ _ Hi), Hsame by done. done.
  - intros u. rewrite elem_of_app, list_elem_of_singleton. intros [Hu|Hu].
    + rewrite lookup_insert_ne by (by intros ->). by apply Hi.
    + subst u. apply lookup_insert_eq.
  - intros _. by left.
Qed.

(** Upping to Out: [value] goes from 0 to 1 and the first waiter leaves the
    queue. *)
Lemma lock_inv_up P h L l ws t :
  lock_inv P h L 0 l ws → P !! t = Some (Upping L) → t ≠ NULL → NoDup ws →
  lock_inv (<[t := Out]> P) h L 1 l (tail ws).
Proof.
  intros Hi Hp Ht Hd. assert (Hcs : in_cs P l L t) by (unfold in_cs; auto).
  assert (Hnil : holder l = NULL) by (apply (li_reset _ _ _ _ _ _ Hi t); auto).
  pose proof (λ u, others_out P h L 0 l ws t u Hi Hcs) as Hoth.
  assert (Hsame : ∀ u q, lock_of q = Some L → q ≠ Upping L →
    <[t := Out]> P !! u = Some q ↔ P !! u = Some q).
  { intros u q H1 H2. rewrite lookup_move. split; [intros [[-> ->]|[_ ?]]; done|].
    intros Hu. right. split; [|done]. intros ->. congruence. }
  assert (Hnone : ∀ u, ¬ in_cs (<[t := Out]> P) l L u).
  { intros u Hu. unfold in_cs in Hu. rewrite Hnil in Hu.
    destruct (decide (u = t)) as [->|Hne].
    - rewrite lookup_insert_eq in Hu. intuition congruence.
    - destruct (Hoth u Hne) as (_ & ? & ? & ? & _). rewrite lookup_insert_ne in Hu by done.
      intuition congruence. }
  split.
  - by right.
  - intros u _. apply Hnone.
  - intros u u' Hu. by destruct (Hnone u).
  - lia.
  - intros Hn Hc. apply (li_idle _ _ _ _ _ _ Hi); [done|]. intros u. by rewrite <- Hsame.
  - done.
  - intros u. rewrite Hsame by done. apply Hi.
  - intros u. rewrite Hsame by done. apply Hi.
  - intros u. rewrite Hsame by done. apply Hi.
  - intros u. rewrite Hsame by done. apply Hi.
  - done.
  - intros u. rewrite (li_ghost _ _ _ _ _ _ Hi), Hsame by done. done.
  - intros u Hu. rewrite Hsame by done. apply Hi. destruct ws; [by apply not_elem_of_nil in Hu|].
    by right.
  - intros Hw. right. destruct ws as [|w ws]; [done|]. simpl in *.
    exists w. right. rewrite Hsame by done. apply NoDup_cons in Hd as [Hd _].
    split; [|done]. apply Hi. by left.
Qed.
