(* ===== verification/SyncSafe.v ===== *)
(** Every step of Sync.v preserves the invariant of SyncInv.v, and no
    assertion of thread.c or sync.c can fail on the way. *)
From S2P Require Import Prelude Bitmap Paging Memory Interrupt DList Sched Sync SyncInv.

Ltac owner_fields :=
  split; simpl; intros; try done; try lia; try (exfalso; lia); intuition congruence.

#[local] Hint Constructors at_pos : core.

Section safe.
Context `{Symbols} (Ls : gset Z).

Definition wlist (L : Z) : Z := waiters (semaphore L).

(** What the kernel stores for the lock [L]. *)
Definition lock_data (K : kernel) (qs : gmap Z (list Z)) (L v : Z) (l : lock) (ws : list Z) : Prop :=
  k_semas K !! semaphore L = Some v ∧ k_locks K !! L = Some l
  ∧ qs !! wlist L = Some (general_tag <$> ws).

Record sync_inv (c : config) (qs : gmap Z (list Z)) (P : gmap Z pos) : Prop := {
  sy_sched : sched_inv (ker c) (running_thread (ker c)) qs;
  sy_pos t : is_Some (k_tasks (ker c) !! t) →
    ∃ st p, conts c !! t = Some st ∧ P !! t = Some p ∧ at_pos st p
      ∧ ∀ L, lock_of p = Some L → L ∈ Ls;
  sy_dom t : is_Some (P !! t) → is_Some (k_tasks (ker c) !! t);
  sy_sep L : L ∈ Ls → wlist L ≠ thread_ready_list ∧ wlist L ≠ thread_all_list;
  sy_lock L : L ∈ Ls → ∃ v l ws, lock_data (ker c) qs L v l ws ∧ lock_inv P (held c) L v l ws;
  sy_blocked t T : k_tasks (ker c) !! t = Some T →
    status T ≠ TASK_RUNNING → status T ≠ TASK_READY →
    status T = TASK_BLOCKED
    ∧ ∃ L ws, L ∈ Ls ∧ qs !! wlist L = Some (general_tag <$> ws) ∧ t ∈ ws;
}.

Lemma sync_task_pos K cs h qs P t :
  sync_inv (Config K cs h) qs P → is_Some (P !! t) → 0 < t.
Proof.
  intros Hi Hp. destruct (sy_dom _ _ _ Hi t Hp) as [T HT].
  destruct (sy_sched _ _ _ Hi) as [Hc _]. apply (sc_task _ _ _ Hc t T HT).
Qed.

Lemma cur_task K cs h qs P :
  sync_inv (Config K cs h) qs P →
  ∃ C, k_tasks K !! running_thread K = Some C ∧ status C = TASK_RUNNING.
Proof. intros Hi. by destruct (sy_sched _ _ _ Hi) as [_ ?]. Qed.

#[local] Instance general_tag_Inj : Inj (=) (=) general_tag.
Proof. intros t t'. apply general_tag_inj. Qed.

Lemma tags_inj (ws ws' : list Z) : general_tag <$> ws = general_tag <$> ws' → ws = ws'.
Proof. apply (inj (fmap general_tag)). Qed.

Lemma tag_elem t (ws : list Z) : general_tag t ∈ general_tag <$> ws ↔ t ∈ ws.
Proof.
  rewrite list_elem_of_fmap. split.
  - intros (u & E%general_tag_inj & Hu). by subst.
  - intros Ht. by exists t.
Qed.

(** The running thread waits nowhere. *)
Lemma cur_not_waiting K cs h qs P L ws :
  sync_inv (Config K cs h) qs P → L ∈ Ls → qs !! wlist L = Some (general_tag <$> ws) →
  running_thread K ∉ ws.
Proof.
  intros Hi HL Hw. destruct (sy_sched _ _ _ Hi) as [Hc (C & HC & Hs)].
  rewrite <- tag_elem. eapply running_no_queue; eauto. by apply (sy_sep _ _ _ Hi).
Qed.

(** One step: the thread that was running moves to [p'], somebody runs, and
    every lock is again in agreement. *)
Lemma sync_move K cs h qs P p' K' st' h' qs' n :
  sync_inv (Config K cs h) qs P →
  at_pos st' p' → (∀ L, lock_of p' = Some L → L ∈ Ls) →
  sched_inv K' n qs' →
  (∀ t, is_Some (k_tasks K' !! t) ↔ is_Some (k_tasks K !! t)) →
  (∀ L v l ws, L ∈ Ls → lock_data K qs L v l ws → lock_inv P h L v l ws →
     ∃ v' l' ws', lock_data K' qs' L v' l' ws'
       ∧ lock_inv (<[running_thread K := p']> P) h' L v' l' ws') →
  (∀ t T, k_tasks K' !! t = Some T → status T ≠ TASK_RUNNING → status T ≠ TASK_READY →
     status T = TASK_BLOCKED
     ∧ ∃ L ws, L ∈ Ls ∧ qs' !! wlist L = Some (general_tag <$> ws) ∧ t ∈ ws) →
  sync_inv (Config K' (<[running_thread K := st']> cs) h') qs' (<[running_thread K := p']> P).
Proof.
  intros Hi Hat Hlp Hs Hdom Hlk Hbl. split.
  - simpl. by rewrite (core_running K' n qs') by apply Hs.
  - simpl. intros t Ht. rewrite Hdom in Ht. destruct (sy_pos _ _ _ Hi t Ht) as (st & p & Hst & Hp & Ha & HL).
    rewrite !lookup_insert. case_decide; [|by eauto 10]. eauto 10.
  - simpl. intros t. rewrite Hdom, lookup_insert. case_decide as E; [|by apply (sy_dom _ _ _ Hi)].
    intros _. subst t. destruct (cur_task _ _ _ _ _ Hi) as (C & HC & _). by eexists.
  - apply (sy_sep _ _ _ Hi).
  - intros L HL. destruct (sy_lock _ _ _ Hi L HL) as (v & l & ws & Hd & Hl).
    by apply (Hlk L v l ws).
  - exact Hbl.
Qed.

(** The fields the scheduler looks at. *)
Definition same_sched (K K' : kernel) : Prop :=
  k_esp K' = k_esp K ∧ k_nodes K' = k_nodes K ∧ k_tasks K' = k_tasks K ∧ k_mach K' = k_mach K.

Lemma sched_inv_same K K' cur qs : same_sched K K' → sched_inv K cur qs → sched_inv K' cur qs.
Proof.
  intros (He & Hn & Ht & Hm) [Hc HC]. unfold sched_inv. rewrite Ht. split; [|done].
  destruct Hc as [? ? ? Htask]. split; rewrite ?He, ?Hn, ?Ht, ?Hm; auto.
  intros t T HT. destruct (Htask t T HT). split; rewrite ?Hn, ?Hm; auto.
Qed.

(** Steps that stay on the processor and change at most the fields of the
    lock [L0]. *)
Lemma sync_local K cs h qs P p p' K' st' h' L0 :
  sync_inv (Config K cs h) qs P → same_sched K K' →
  P !! running_thread K = Some p → at_pos st' p' → (∀ L, lock_of p' = Some L → L ∈ Ls) →
  (∀ L, L ≠ L0 → lock_of p ≠ Some L ∧ lock_of p' ≠ Some L
     ∧ k_semas K' !! semaphore L = k_semas K !! semaphore L
     ∧ k_locks K' !! L = k_locks K !! L ∧ ∀ u, (u, L) ∈ h' ↔ (u, L) ∈ h) →
  (∀ v l ws, L0 ∈ Ls → lock_data K qs L0 v l ws → lock_inv P h L0 v l ws →
     running_thread K ∉ ws →
     ∃ v' l', k_semas K' !! semaphore L0 = Some v' ∧ k_locks K' !! L0 = Some l'
       ∧ lock_inv (<[running_thread K := p']> P) h' L0 v' l' ws) →
  sync_inv (Config K' (<[running_thread K := st']> cs) h') qs (<[running_thread K := p']> P).
Proof.
  intros Hi Hss Hp Hat HL Hoff Hon. pose proof Hss as (_ & _ & Ht & _).
  apply (sync_move K cs h qs P p' K' st' h' qs (running_thread K)); auto.
  - apply (sched_inv_same K); [done|apply Hi].
  - intros t. by rewrite Ht.
  - intros L v l ws HLs Hd Hl. destruct (decide (L = L0)) as [->|Hne].
    + destruct (Hon v l ws) as (v' & l' & ? & ? & ?); auto.
      { by apply (cur_not_waiting _ _ _ _ _ L0 ws Hi); [|apply Hd]. }
      exists v', l', ws. split; [|done]. split_and!; auto. apply Hd.
    + destruct (Hoff L Hne) as (H1 & H2 & H3 & H4 & H5).
      exists v, l, ws. split; [|by eapply lock_inv_frame].
      destruct Hd as (? & ? & ?). split_and!; congruence.
  - intros t T. rewrite Ht. apply (sy_blocked _ _ _ Hi).
Qed.

(** Steps that change neither the position nor a lock. *)
Lemma sync_stay K cs h qs P p K' st' :
  sync_inv (Config K cs h) qs P → same_sched K K' →
  k_semas K' = k_semas K → k_locks K' = k_locks K →
  P !! running_thread K = Some p → at_pos st' p →
  sync_inv (Config K' (<[running_thread K := st']> cs) h) qs P.
Proof.
  intros Hi Hss Hse Hlo Hp Hat. pose proof Hss as (_ & _ & Ht & _).
  rewrite <- (insert_id P (running_thread K) p) by done.
  apply (sync_move K cs h qs P p K' st' h qs (running_thread K)); auto.
  - destruct (cur_task _ _ _ _ _ Hi) as (C & HC & _).
    destruct (sy_pos _ _ _ Hi (running_thread K)) as (st & q & _ & Hq & _ & HL); [by eexists|].
    by assert (q = p) as -> by congruence.
  - apply (sched_inv_same K); [done|apply Hi].
  - intros t. by rewrite Ht.
  - intros L v l ws HL Hd Hl. exists v, l, ws. rewrite insert_id by done. split; [|done].
    unfold lock_data. by rewrite Hse, Hlo.
  - intros t T. rewrite Ht. apply (sy_blocked _ _ _ Hi).
Qed.

(** Where the running thread is. *)
Lemma cur_pos K cs h qs P st :
  sync_inv (Config K cs h) qs P → cs !! running_thread K = Some st →
  ∃ p, P !! running_thread K = Some p ∧ at_pos st p ∧ ∀ L, lock_of p = Some L → L ∈ Ls.
Proof.
  intros Hi Hst. destruct (cur_task _ _ _ _ _ Hi) as (C & HC & _).
  destruct (sy_pos _ _ _ Hi (running_thread K)) as (st' & p & Hst' & Hp & Hat & HL);
    [by eexists|]. simpl in Hst'. assert (st' = st) as -> by congruence. eauto.
Qed.

Lemma cur_nonnull K cs h qs P : sync_inv (Config K cs h) qs P → running_thread K ≠ NULL.
Proof.
  intros Hi. destruct (cur_task _ _ _ _ _ Hi) as (C & HC & _).
  destruct (sy_sched _ _ _ Hi) as [Hc _]. pose proof (sc_task _ _ _ Hc _ C HC) as [[? _] _ _ _ _].
  unfold NULL. lia.
Qed.

(** Bound positions belong to threads, so not to NULL. *)
Lemma bound_nonnull K cs h qs P u :
  sync_inv (Config K cs h) qs P → is_Some (P !! u) → u ≠ NULL.
Proof. intros Hi Hu. pose proof (sync_task_pos _ _ _ _ _ u Hi Hu). unfold NULL. lia. Qed.

Lemma same_sched_refl K : same_sched K K.
Proof. by split_and!. Qed.

Definition sync_next (K : kernel) (cs : gmap Z (list point)) (h : gset (Z * Z)) (f : point)
    (r : list point) : Prop :=
  ∃ K' fs qs' P', exec K f = Ok (K', fs)
    ∧ sync_inv (Config K' (<[running_thread K := fs ++ r]> cs) (held_after K f h)) qs' P'.

Section exec.
Context (K : kernel) (cs : gmap Z (list point)) (h : gset (Z * Z)).
Context (qs : gmap Z (list Z)) (P : gmap Z pos).
Context (Hi : sync_inv (Config K cs h) qs P).

(** Steps outside the critical section that leave the lock's fields alone. *)
Lemma quiet_next K' p p' st' L :
  same_sched K K' → k_semas K' = k_semas K → k_locks K' = k_locks K →
  P !! running_thread K = Some p → at_pos st' p' → L ∈ Ls →
  quiet p = true → quiet p' = true →
  (lock_of p = None ∨ lock_of p = Some L) → (lock_of p' = None ∨ lock_of p' = Some L) →
  p' ≠ Calling L → p' ≠ Releasing L →
  (∀ ws, running_thread K ∉ ws → waking p L (running_thread K) ws →
     waking p' L (running_thread K) ws) →
  sync_inv (Config K' (<[running_thread K := st']> cs) h) qs (<[running_thread K := p']> P).
Proof.
  intros Hss Hse Hlo Hp Hat HL Hq Hq' Hlp Hlp' Hnc Hnr Hwk.
  apply (sync_local K cs h qs P p p' K' st' h L); auto.
  - intros L' E. destruct Hlp'; congruence.
  - intros L' Hne. rewrite Hse, Hlo.
    split_and!; auto; [destruct Hlp|destruct Hlp']; congruence.
  - intros v l ws _ (Hv & Hl & Hw) Hlk Hnw. exists v, l. rewrite Hse, Hlo. split_and!; auto.
    apply (lock_inv_quiet P h L v l ws (running_thread K) p p'); auto; try done.
Qed.

Lemma next_start r :
  cs !! running_thread K = Some (KernelThread :: r) → sync_next K cs h KernelThread r.
Proof.
  intros Hst. destruct (cur_pos K cs h qs P _ Hi Hst) as (p & Hp & Hat & HL). inversion Hat; subst.
  eexists _, [], qs, P. split; [done|]. simpl. apply (sync_stay K cs h qs P Out); auto; by split_and!.
Qed.

Lemma next_timer fl r :
  cs !! running_thread K = Some (TimerReturn fl :: r) → sync_next K cs h (TimerReturn fl) r.
Proof.
  intros Hst. destruct (cur_pos K cs h qs P _ Hi Hst) as (p & Hp & Hat & HL). inversion Hat; subst.
  eexists _, [], qs, P. split; [done|]. simpl. by apply (sync_stay K cs h qs P p).
Qed.

Lemma next_block_return o r :
  cs !! running_thread K = Some (BlockReturn o :: r) → sync_next K cs h (BlockReturn o) r.
Proof.
  intros Hst. destruct (cur_pos K cs h qs P _ Hi Hst) as (p & Hp & Hat & HL).
  inversion Hat as [| | | | | |L o1 o2| | | | |]; subst.
  eexists _, [], qs, _. split; [done|]. simpl.
  apply (quiet_next _ (Waiting L) (Trying L) _ L); auto; try done.
  intros ws Hw _. by left.
Qed.

Lemma next_sema_down s r :
  cs !! running_thread K = Some (SemaDown s :: r) → sync_next K cs h (SemaDown s) r.
Proof.
  intros Hst. destruct (cur_pos K cs h qs P _ Hi Hst) as (p & Hp & Hat & HL).
  inversion Hat as [| | | |L| | | | | | |]; subst. unfold sync_next. simpl exec. unfold sema_down.
  destruct (intr_disable (k_eflags K)) as [old fl]. eexists _, _, qs, _. split; [done|]. simpl.
  apply (quiet_next _ (Want L) (Trying L) _ L); auto; try done.
  intros ws Hw _. by left.
Qed.

Lemma get_lock_ok L l : k_locks K !! L = Some l → get_lock K L = Ok l.
Proof. intros Hl. unfold get_lock. by rewrite Hl. Qed.

(** The owner of [L] moves from [p] to [p'], storing [l']. *)
Lemma owner_next p p' st' L v l l' ws h' :
  L ∈ Ls → P !! running_thread K = Some p → at_pos st' p' →
  lock_data K qs L v l ws → lock_inv P h L v l ws → in_cs P l L (running_thread K) →
  (lock_of p = None ∨ lock_of p = Some L) → (lock_of p' = None ∨ lock_of p' = Some L) →
  p ≠ Waiting L → p' ≠ Waiting L → owner_ok L p' l' (running_thread K) →
  (∀ u L', (u, L') ≠ (running_thread K, L) → (u, L') ∈ h' ↔ (u, L') ∈ h) →
  ((running_thread K, L) ∈ h' ↔ holder l' = running_thread K ∧ p' ≠ Counting L) →
  sync_inv (Config (put_lock K L l') (<[running_thread K := st']> cs) h') qs
    (<[running_thread K := p']> P).
Proof.
  intros HL Hp Hat Hd Hlk Hcs Hlp Hlp' Hw Hw' Hok Hh Hhc.
  pose proof (cur_nonnull K cs h qs P Hi) as Hnn.
  apply (sync_local K cs h qs P p p' (put_lock K L l') st' h' L); auto.
  - by split_and!.
  - intros L' E. destruct Hlp'; congruence.
  - intros L' Hne. simpl. rewrite lookup_insert_ne by done.
    split_and!; auto; [destruct Hlp; congruence|destruct Hlp'; congruence|].
    intros u. apply Hh. congruence.
  - intros v0 l0 ws0 _ (Hv0 & Hl0 & Hw0) Hlk0 _. destruct Hd as (Hv1 & Hl1 & _).
    assert (v0 = v) as -> by congruence. assert (l0 = l) as -> by congruence.
    exists v, l'. simpl. rewrite lookup_insert_eq. split_and!; auto.
    apply (lock_inv_owner P h h' L v l l' ws0 (running_thread K) p p'); auto.
    + intros u [Hu|Hu]; apply (bound_nonnull K cs h qs P u Hi); by eexists.
    + intros u Hu. apply Hh. congruence.
Qed.

(** The position decides the lock's data. *)
Lemma cur_lock L : L ∈ Ls → ∃ v l ws, lock_data K qs L v l ws ∧ lock_inv P h L v l ws
  ∧ running_thread K ∉ ws.
Proof.
  intros HL. destruct (sy_lock _ _ _ Hi L HL) as (v & l & ws & Hd & Hl).
  exists v, l, ws. split_and!; auto. by apply (cur_not_waiting K cs h qs P L ws Hi); [|apply Hd].
Qed.

Lemma held_lock L v l ws p :
  lock_inv P h L v l ws → P !! running_thread K = Some p → holder l = running_thread K →
  p ≠ Counting L →
  in_cs P l L (running_thread K) ∧ 1 ≤ holder_repeat_nr l < 2 ^ 32 ∧ (running_thread K, L) ∈ h.
Proof.
  intros Hlk Hp Hh Hnc. pose proof (cur_nonnull K cs h qs P Hi) as Hnn.
  split; [by left|]. destruct (li_held _ _ _ _ _ _ Hlk) as (_ & Hr & Hz); [congruence|].
  rewrite Hh in Hz. split.
  - assert (holder_repeat_nr l ≠ 0); [|lia]. intros E. specialize (Hz E). congruence.
  - apply (li_ghost _ _ _ _ _ _ Hlk). split_and!; auto. congruence.
Qed.

Lemma next_lock_acquire L r :
  cs !! running_thread K = Some (LockAcquire L :: r) → sync_next K cs h (LockAcquire L) r.
Proof.
  intros Hst. destruct (cur_pos K cs h qs P _ Hi Hst) as (p & Hp & Hat & HL).
  inversion Hat; subst. specialize (HL L eq_refl).
  destruct (cur_lock L HL) as (v & l & ws & Hd & Hlk & Hnw). pose proof Hd as (_ & Hl & _).
  unfold sync_next. simpl exec. unfold lock_acquire. rewrite (get_lock_ok L l Hl). rb.
  destruct (Z.eqb_spec (holder l) (running_thread K)) as [Hh|Hh]; simpl negb; cbv iota.
  - pose proof (cur_nonnull K cs h qs P Hi) as Hnn.
    destruct (held_lock L v l ws (Calling L)) as (Hcs & Hr & Hg); auto; try done.
    pose proof (li_call _ _ _ _ _ _ Hlk _ Hp Hh) as Hmax.
    rewrite u32_small by lia. eexists _, [], qs, _. split; [done|]. simpl.
    eapply (owner_next (Calling L) Out _ L v l _ ws h); eauto; try done.
    owner_fields.
  - eexists _, _, qs, _. split; [done|]. simpl.
    apply (quiet_next K (Calling L) (Want L) _ L); auto using same_sched_refl; try done.
    intros ws' _ [?|[? _]]; done.
Qed.

Lemma next_lock_acquired L r :
  cs !! running_thread K = Some (LockAcquired L :: r) → sync_next K cs h (LockAcquired L) r.
Proof.
  intros Hst. destruct (cur_pos K cs h qs P _ Hi Hst) as (p & Hp & Hat & HL).
  inversion Hat; subst. specialize (HL L eq_refl).
  destruct (cur_lock L HL) as (v & l & ws & Hd & Hlk & Hnw). pose proof Hd as (_ & Hl & _).
  pose proof (cur_nonnull K cs h qs P Hi) as Hnn.
  assert (Hnil : holder l = NULL) by (apply (li_reset _ _ _ _ _ _ Hlk (running_thread K)); auto).
  assert (Hcs : in_cs P l L (running_thread K)) by (unfold in_cs; auto).
  assert (Hz : holder_repeat_nr l = 0).
  { apply (li_idle _ _ _ _ _ _ Hlk Hnil). intros t Ht.
    assert (t = running_thread K) as ->; [|congruence].
    apply (li_one _ _ _ _ _ _ Hlk); [|done]. unfold in_cs. auto. }
  unfold sync_next. simpl exec. unfold lock_acquired. rewrite (get_lock_ok L l Hl). rb.
  eexists _, _, qs, _. split; [done|]. simpl.
  eapply (owner_next (Got L) (Counting L) _ L v l _ ws h); eauto; try done.
  - owner_fields.
  - split; [|by intros [_ ?]]. intros Hg. apply (li_ghost _ _ _ _ _ _ Hlk) in Hg as (_ & ? & _).
    congruence.
Qed.

Lemma next_lock_count L r :
  cs !! running_thread K = Some (LockCount L :: r) → sync_next K cs h (LockCount L) r.
Proof.
  intros Hst. destruct (cur_pos K cs h qs P _ Hi Hst) as (p & Hp & Hat & HL).
  inversion Hat; subst. specialize (HL L eq_refl).
  destruct (cur_lock L HL) as (v & l & ws & Hd & Hlk & Hnw). pose proof Hd as (_ & Hl & _).
  pose proof (cur_nonnull K cs h qs P Hi) as Hnn.
  destruct (li_count _ _ _ _ _ _ Hlk _ Hp) as [Hh Hz].
  unfold sync_next. simpl exec. unfold lock_count. rewrite (get_lock_ok L l Hl). rb.
  rewrite Hz, assert_true by done. rb. eexists _, [], qs, _. split; [done|]. simpl.
  eapply (owner_next (Counting L) Out _ L v l _ ws); eauto; try done.
  - by left.
  - owner_fields.
  - intros u L' Hne. set_solver.
  - simpl. split; [done|]. intros _. set_solver.
Qed.

Lemma next_lock_release L r :
  cs !! running_thread K = Some (LockRelease L :: r) → sync_next K cs h (LockRelease L) r.
Proof.
  intros Hst. destruct (cur_pos K cs h qs P _ Hi Hst) as (p & Hp & Hat & HL).
  inversion Hat; subst. specialize (HL L eq_refl).
  destruct (cur_lock L HL) as (v & l & ws & Hd & Hlk & Hnw). pose proof Hd as (_ & Hl & _).
  pose proof (cur_nonnull K cs h qs P Hi) as Hnn.
  pose proof (li_release _ _ _ _ _ _ Hlk _ Hp) as Hh.
  destruct (held_lock L v l ws (Releasing L)) as (Hcs & Hr & Hg); auto; try done.
  unfold sync_next. simpl exec. unfold lock_release. rewrite (get_lock_ok L l Hl). rb.
  rewrite Hh, Z.eqb_refl, (assert_true true) by done. rb. simpl held_after. rewrite Hl.
  destruct (Z.gtb_spec (holder_repeat_nr l) 1) as [Hgt|Hle].
  - rewrite u32_small by lia. eexists _, [], qs, _. split; [done|]. simpl.
    eapply (owner_next (Releasing L) Out _ L v l _ ws h); eauto; try done.
    owner_fields.
  - assert (holder_repeat_nr l = 1) as E by lia. rewrite E, assert_true by done. rb.
    eexists _, _, qs, _. split; [done|]. simpl.
    eapply (owner_next (Releasing L) (Clearing L) _ L v l _ ws); eauto; try done.
    + intros u L' Hne. set_solver.
    + simpl. split; [set_solver|]. intros [? _]. congruence.
Qed.

Lemma next_lock_clear L r :
  cs !! running_thread K = Some (LockClear L :: r) → sync_next K cs h (LockClear L) r.
Proof.
  intros Hst. destruct (cur_pos K cs h qs P _ Hi Hst) as (p & Hp & Hat & HL).
  inversion Hat; subst. specialize (HL L eq_refl).
  destruct (cur_lock L HL) as (v & l & ws & Hd & Hlk & Hnw). pose proof Hd as (_ & Hl & _).
  pose proof (cur_nonnull K cs h qs P Hi) as Hnn.
  assert (Hnil : holder l = NULL) by (apply (li_reset _ _ _ _ _ _ Hlk (running_thread K)); auto).
  unfold sync_next. simpl exec. unfold lock_clear. rewrite (get_lock_ok L l Hl). rb.
  eexists _, _, qs, _. split; [done|]. simpl.
  eapply (owner_next (Clearing L) (Upping L) _ L v l _ ws h); eauto; try done.
  - unfold in_cs. auto.
  - simpl. rewrite Hnil. split; [|by intros [? _]]. intros Hg.
    apply (li_ghost _ _ _ _ _ _ Hlk) in Hg as (_ & ? & _). congruence.
Qed.

Lemma get_sema_ok s v : k_semas K !! s = Some v → get_sema K s = Ok v.
Proof. intros Hv. unfold get_sema. by rewrite Hv. Qed.

(** The semaphore is free: the thread takes it. *)
Lemma take_next L o l ws :
  L ∈ Ls → P !! running_thread K = Some (Trying L) →
  lock_data K qs L 1 l ws → lock_inv P h L 1 l ws → running_thread K ∉ ws →
  ∃ K', sema_down_loop K (semaphore L) o = Ok (K', [])
    ∧ sync_inv (Config K' (<[running_thread K := [LockAcquired L]]> cs) h) qs
        (<[running_thread K := Got L]> P).
Proof.
  intros HL Hp Hd Hlk Hnw. pose proof Hd as (Hv & Hl & Hw).
  unfold sema_down_loop. rewrite (get_sema_ok _ 1 Hv). rb.
  change (1 =? 0) with false. cbv iota zeta. change (u8 (1 - 1)) with 0.
  rewrite assert_true by done. rb. eexists. split; [done|].
  apply (sync_local K cs h qs P (Trying L) (Got L) _ _ h L); auto.
  - by split_and!.
  - intros L' [= <-]. done.
  - intros L' Hne. simpl. rewrite lookup_insert_ne by (unfold semaphore; lia).
    split_and!; auto; congruence.
  - intros v0 l0 ws0 _ (Hv0 & Hl0 & Hw0) Hlk0 Hnw0. assert (v0 = 1) as -> by congruence.
    exists 0, l0. simpl. rewrite lookup_insert_eq. split_and!; auto.
    by apply lock_inv_take.
Qed.

(** The semaphore is taken: the thread joins the waiters and blocks. *)
Lemma wait_next L o l ws ready :
  L ∈ Ls → P !! running_thread K = Some (Trying L) →
  lock_data K qs L 0 l ws → lock_inv P h L 0 l ws → running_thread K ∉ ws →
  qs !! thread_ready_list = Some ready →
  match ready with
  | [] => sema_down_loop K (semaphore L) o = Panic "schedule"
  | _ :: _ => ∃ K' old qs', sema_down_loop K (semaphore L) o
        = Ok (K', [BlockReturn old; SemaDownLoop (semaphore L) o])
      ∧ sync_inv (Config K' (<[running_thread K :=
          [BlockReturn old; SemaDownLoop (semaphore L) o; LockAcquired L]]> cs) h) qs'
          (<[running_thread K := Waiting L]> P)
  end.
Proof.
  intros HL Hp Hd Hlk Hnw Hrd. pose proof Hd as (Hv & Hl & Hw).
  destruct (sy_sched _ _ _ Hi) as [Hc HC]. simpl in Hc, HC. pose proof HC as (C & HC' & Hrun).
  destruct (sy_sep _ _ _ Hi L HL) as [Hs1 Hs2]. set (cur := running_thread K) in *.
  set (qs1 := <[wlist L := (general_tag <$> ws) ++ [general_tag cur]]> qs).
  destruct (list_append_holds (k_eflags K) (k_nodes K) qs (wlist L) (general_tag <$> ws)
    (general_tag cur)) as (n' & Happ & Hr); [apply Hc|done| |].
  { eapply core_detached; eauto. intros p l0 Hp0 Hpa. by eapply running_no_queue. }
  set (K1 := put_task (set_lists K (LMem (intr_disable (k_eflags K)).2 n')) cur
    (with_status C TASK_BLOCKED)).
  assert (Hc1 : sched_core K1 cur qs1) by (apply wait_core; auto; by split).
  assert (Heq : sema_down_loop K (semaphore L) o
    = (K' ← schedule K1; Ok (K', [BlockReturn (intr_get_status (k_eflags K));
                                   SemaDownLoop (semaphore L) o]))).
  { unfold sema_down_loop. rewrite (get_sema_ok _ 0 Hv). rb. change (0 =? 0) with true.
    cbv iota zeta. fold cur. unfold lists_of. fold (wlist L).
    rewrite (elem_find_holds _ _ qs _ (general_tag <$> ws));
      [|apply Hc|done|by apply (tag_not_tail K cur qs cur C (wlist L) (general_tag <$> ws))].
    rewrite bool_decide_false by by rewrite tag_elem. rb. rewrite (assert_true (negb false)) by done.
    rb. cbv iota. unfold on_lists. rewrite Happ. rb.
    unfold thread_block. rewrite assert_true by done. rb. cbn [set_lists k_eflags l_eflags].
    rewrite <- intr_disable_old. unfold K1. destruct (intr_disable (k_eflags K)) as [old fl].
    cbv zeta. cbn [fst snd].
    change (running_thread (set_eflags (set_lists K {| l_eflags := k_eflags K; nodes := n' |}) fl))
      with cur.
    rewrite (get_task_ok (set_eflags (set_lists K {| l_eflags := k_eflags K; nodes := n' |}) fl)
      cur C HC'). rb.
    change (put_task (set_eflags (set_lists K {| l_eflags := k_eflags K; nodes := n' |}) fl) cur
      (with_status C TASK_BLOCKED))
      with (put_task (set_lists K {| l_eflags := fl; nodes := n' |}) cur
        (with_status C TASK_BLOCKED)).
    by destruct (schedule (put_task _ _ _)). }
  rewrite Heq. clear Heq.
  assert (Hrd1 : qs1 !! thread_ready_list = Some ready)
    by (unfold qs1; by rewrite lookup_insert_ne).
  pose proof (schedule_blocked K1 cur qs1 (with_status C TASK_BLOCKED) ready Hc1
    (intr_disable_off _) (lookup_insert_eq _ _ _)) as Hsch.
  specialize (Hsch ltac:(done) Hrd1). destruct ready as [|e ready]; [by rewrite Hsch|].
  destruct Hsch as (n & K' & -> & -> & Hsw & Hinv). rb.
  eexists K', _, (<[thread_ready_list := ready]> qs1). split; [done|]. fold cur.
  apply (sync_move K cs h qs P (Waiting L) K' _ h _ n); auto.
  - intros L' [= <-]. done.
  - intros t. rewrite (sw_tasks _ _ _ _ Hsw). rewrite fmap_is_Some. simpl.
    rewrite lookup_insert. case_decide as E; [|done]. subst t. by split; intros; eexists.
  - intros L' v0 l0 ws0 HL' (Hv0 & Hl0 & Hw0) Hlk0.
    assert (Hdata : k_semas K' !! semaphore L' = Some v0 ∧ k_locks K' !! L' = Some l0).
    { by rewrite (sw_semas _ _ _ _ Hsw), (sw_locks _ _ _ _ Hsw). }
    assert (Hnr : wlist L' ≠ thread_ready_list) by by apply (sy_sep _ _ _ Hi).
    destruct (decide (L' = L)) as [->|Hne].
    + assert (v0 = 0) as -> by congruence. assert (ws0 = ws) as -> by (apply tags_inj; congruence).
      exists 0, l0, (ws ++ [cur]). split; [|by apply lock_inv_wait].
      destruct Hdata. split_and!; auto. rewrite lookup_insert_ne by done. unfold qs1.
      by rewrite lookup_insert_eq, fmap_app.
    + exists v0, l0, ws0. destruct Hdata. split.
      * split_and!; auto. rewrite lookup_insert_ne by done. unfold qs1.
        rewrite lookup_insert_ne by (unfold wlist, waiters, semaphore; lia). done.
      * eapply lock_inv_frame; eauto; simpl; congruence.
  - intros t T HT Hn1 Hn2. rewrite (sw_tasks _ _ _ _ Hsw) in HT. simpl in HT.
    apply fmap_Some in HT as (T0 & HT0 & ->). rewrite lookup_insert in HT0.
    assert (Hst : status (sched_task cur n (k_esp K) t T0) = status T0).
    { revert Hn1. unfold sched_task. repeat case_bool_decide; done. }
    rewrite Hst in Hn1, Hn2 |- *. case_decide as E.
    + subst t. injection HT0 as <-. split; [done|]. exists L, (ws ++ [cur]).
      split_and!; [done| |set_solver]. rewrite lookup_insert_ne by done. unfold qs1.
      by rewrite lookup_insert_eq, fmap_app.
    + destruct (sy_blocked _ _ _ Hi t T0 HT0 Hn1 Hn2) as (Hb & L' & ws' & HL' & Hw' & Ht).
      split; [done|]. destruct (decide (L' = L)) as [->|Hne].
      * exists L, (ws ++ [cur]). assert (ws' = ws) as -> by (apply tags_inj; congruence).
        split_and!; [done| |set_solver]. rewrite lookup_insert_ne by done. unfold qs1.
        by rewrite lookup_insert_eq, fmap_app.
      * exists L', ws'. split_and!; [done| |done].
        rewrite lookup_insert_ne by (apply not_eq_sym; by apply (sy_sep _ _ _ Hi)).
        unfold qs1. by rewrite lookup_insert_ne by (unfold wlist, waiters, semaphore; lia).
Qed.

Lemma ws_nodup L ws : qs !! wlist L = Some (general_tag <$> ws) → NoDup ws.
Proof.
  intros Hw. destruct (sy_sched _ _ _ Hi) as [Hc _].
  pose proof (hl_nodup _ _ (sc_heap _ _ _ Hc) _ _ Hw) as Hd. unfold footprint in Hd.
  apply NoDup_cons in Hd as [_ Hd]. apply NoDup_app in Hd as (Hd & _ & _).
  by apply NoDup_fmap_1 in Hd.
Qed.

Lemma waiter_blocked L w ws :
  L ∈ Ls → qs !! wlist L = Some (general_tag <$> ws) → w ∈ ws →
  ∃ T, k_tasks K !! w = Some T ∧ status T = TASK_BLOCKED.
Proof.
  intros HL Hw Hin. destruct (sy_sched _ _ _ Hi) as [Hc _].
  destruct (sy_sep _ _ _ Hi L HL) as [Hs1 Hs2].
  destruct (sc_queued _ _ _ Hc _ _ (general_tag w) Hw) as (t & T & Et & HT & Hn & Hr);
    [done|by rewrite tag_elem|]. apply general_tag_inj in Et. subst t.
  exists T. split; [done|]. apply (sy_blocked _ _ _ Hi w T HT Hn). intros E. by apply Hr in E.
Qed.

(** The scheduling part of [sema_up]: the first waiter becomes ready. *)
Lemma wake_first fl L w ws ready :
  L ∈ Ls → qs !! wlist L = Some (general_tag <$> w :: ws) →
  qs !! thread_ready_list = Some ready →
  ∃ n1 n2 T, list_pop (LMem fl (k_nodes K)) (wlist L) = Ok (general_tag w, LMem fl n1)
    ∧ k_tasks K !! w = Some T ∧ status T = TASK_BLOCKED
    ∧ thread_unblock (set_lists K (LMem fl n1)) (elem2enyrt (general_tag w))
      = Ok (put_task (set_lists K (LMem fl n2)) w (with_status T TASK_READY))
    ∧ sched_inv (put_task (set_lists K (LMem fl n2)) w (with_status T TASK_READY))
        (running_thread K)
        (<[thread_ready_list := general_tag w :: ready]> (<[wlist L := general_tag <$> ws]> qs)).
Proof.
  intros HL Hw Hrd. pose proof (sy_sched _ _ _ Hi) as Hs. simpl in Hs. pose proof Hs as [Hc _].
  destruct (sy_sep _ _ _ Hi L HL) as [Hs1 Hs2].
  destruct (list_pop_holds fl (k_nodes K) qs (wlist L) (general_tag w) (general_tag <$> ws))
    as (n1 & Hpop & Hr & Hdet); [apply Hc|done|].
  destruct (waiter_blocked L w (w :: ws)) as (T & HT & HsT); [done..|by left|].
  pose proof (unwait_core K (running_thread K) qs (wlist L) w (general_tag <$> ws) n1 fl
    Hs Hw Hs1 Hs2 Hr) as Hs'.
  destruct (thread_unblock_holds (set_lists K (LMem fl n1)) (running_thread K)
    (<[wlist L := general_tag <$> ws]> qs) w T ready) as (n2 & Hu & Hinv); auto.
  - by rewrite HsT.
  - by rewrite lookup_insert_ne.
  - intros p l Hp _ Hin. destruct Hdet as (_ & _ & Hout). apply (Hout p l Hp).
    by apply footprint_elem.
  - exists n1, n2, T. split; [exact Hpop|]. split; [exact HT|]. split; [exact HsT|].
    rewrite (elem2enyrt_tag K w T) by by apply (sc_task _ _ _ Hc).
    split; [exact Hu|exact Hinv].
Qed.

(** Raising the semaphore of [L] after the queue has been served. *)
Lemma up_next L l ws K2 qs2 :
  L ∈ Ls → P !! running_thread K = Some (Upping L) →
  lock_data K qs L 0 l ws → lock_inv P h L 0 l ws →
  sched_inv K2 (running_thread K) qs2 → k_semas K2 = k_semas K → k_locks K2 = k_locks K →
  (∀ t, is_Some (k_tasks K2 !! t) ↔ is_Some (k_tasks K !! t)) →
  (∀ L', L' ∈ Ls → L' ≠ L → qs2 !! wlist L' = qs !! wlist L') →
  qs2 !! wlist L = Some (general_tag <$> tail ws) →
  (∀ t T, k_tasks K2 !! t = Some T → status T ≠ TASK_RUNNING → status T ≠ TASK_READY →
     k_tasks K !! t = Some T ∧ head ws ≠ Some t) →
  ∀ fl, sync_inv (Config (set_eflags (put_sema K2 (semaphore L) 1) fl)
          (<[running_thread K := []]> cs) h) qs2 (<[running_thread K := Out]> P).
Proof.
  intros HL Hp Hd Hlk Hs2 Hse Hlo Hdom Hoth Hw2 Hbl fl. pose proof Hd as (Hv & Hl & Hw).
  apply (sync_move K cs h qs P Out _ [] h qs2 (running_thread K)); auto.
  - done.
  - apply (sched_inv_same K2); [by split_and!|done].
  - intros L' v0 l0 ws0 HL' (Hv0 & Hl0 & Hw0) Hlk0. destruct (decide (L' = L)) as [->|Hne].
    + assert (v0 = 0) as -> by congruence. assert (l0 = l) as -> by congruence.
      exists 1, l, (tail ws). split.
      * split_and!; simpl; [apply lookup_insert_eq|congruence|done].
      * apply lock_inv_up; auto; [by apply (cur_nonnull K cs h qs P)|by eapply ws_nodup].
    + exists v0, l0, ws0. split; [|eapply lock_inv_frame; eauto; simpl; congruence].
      split_and!; simpl; [|congruence|by rewrite Hoth].
      rewrite lookup_insert_ne by (unfold semaphore; lia). congruence.
  - simpl. intros t T HT Hn1 Hn2. destruct (Hbl t T HT Hn1 Hn2) as [HT0 Hhd].
    destruct (sy_blocked _ _ _ Hi t T HT0 Hn1 Hn2) as (Hb & L' & ws' & HL' & Hw' & Hin).
    split; [done|]. destruct (decide (L' = L)) as [->|Hne].
    + assert (ws' = ws) as -> by (apply tags_inj; congruence).
      exists L, (tail ws). split_and!; auto. destruct ws as [|w ws]; [done|]. simpl in *.
      apply elem_of_cons in Hin as [->|]; done.
    + exists L', ws'. split_and!; auto. by rewrite Hoth.
Qed.

Lemma next_sema_up s r :
  cs !! running_thread K = Some (SemaUp s :: r) → sync_next K cs h (SemaUp s) r.
Proof.
  intros Hst. destruct (cur_pos K cs h qs P _ Hi Hst) as (p & Hp & Hat & HL).
  inversion Hat as [| | | | | | | | | | |L]; subst. specialize (HL L eq_refl).
  destruct (cur_lock L HL) as (v & l & ws & Hd & Hlk & Hnw). pose proof Hd as (Hv & Hl & Hw).
  pose proof (sy_sched _ _ _ Hi) as Hs. simpl in Hs. pose proof Hs as [Hc _].
  destruct (sc_ready _ _ _ Hc) as [ready Hrd]. destruct (sy_sep _ _ _ Hi L HL) as [Hs1 Hs2].
  assert (v = 0) as ->.
  { destruct (li_bin _ _ _ _ _ _ Hlk) as [?|E]; [done|].
    destruct (li_free _ _ _ _ _ _ Hlk (running_thread K) E). unfold in_cs. auto. }
  unfold sync_next. simpl exec. unfold sema_up.
  destruct (intr_disable (k_eflags K)) as [old fl]. cbv zeta.
  unfold get_sema. cbn [set_eflags k_semas]. rewrite Hv. rb. change (0 =? 0) with true.
  rewrite (assert_true true) by done. rb. unfold lists_of. cbn [set_eflags k_nodes k_eflags].
  fold (wlist L). rewrite (list_empty_holds fl (k_nodes K) qs _ (general_tag <$> ws))
    by (apply Hc || done). rb. change (u8 (0 + 1)) with 1.
  destruct ws as [|w ws].
  - rewrite bool_decide_true by done. simpl negb. cbv iota. rb. rewrite assert_true by done. rb.
    eexists _, [], qs, _. split; [done|]. simpl.
    apply (up_next L l [] (set_eflags K fl) qs); auto.
    apply (sched_inv_same K); [by split_and!|done].
  - rewrite bool_decide_false by done. simpl negb. cbv iota.
    destruct (wake_first fl L w ws ready HL Hw Hrd) as (n1 & n2 & T & -> & HT & HsT & Hu & Hinv).
    rb. change (set_lists (set_eflags K fl) {| l_eflags := fl; nodes := n1 |})
      with (set_lists K {| l_eflags := fl; nodes := n1 |}). rewrite Hu. rb.
    rewrite assert_true by done. rb. eexists _, [], _, _. split; [done|]. simpl.
    apply (up_next L l (w :: ws) _ _ HL Hp Hd Hlk Hinv); auto.
    + intros t. simpl. rewrite lookup_insert. case_decide as E; [|done]. subst t.
      by split; intros; eexists.
    + intros L' HL' Hne. destruct (sy_sep _ _ _ Hi L' HL').
      rewrite lookup_insert_ne by done.
      by rewrite lookup_insert_ne by (unfold wlist, waiters, semaphore; lia).
    + rewrite lookup_insert_ne by done. by rewrite lookup_insert_eq.
    + simpl. intros t T'. rewrite lookup_insert. case_decide as E; [by intros [= <-]|].
      intros HT' _ _. split; [done|]. congruence.
Qed.
End exec.

(** ** All program points *)

Lemma next_sema_down_loop K cs h qs P s o r :
  sync_inv (Config K cs h) qs P → cs !! running_thread K = Some (SemaDownLoop s o :: r) →
  sync_next K cs h (SemaDownLoop s o) r
  ∨ (exec K (SemaDownLoop s o) = Panic "schedule" ∧ qs !! thread_ready_list = Some []).
Proof.
  intros Hi Hst. destruct (cur_pos K cs h qs P _ Hi Hst) as (p & Hp & Hat & HL).
  inversion Hat as [| | | | |L o1| | | | | |]; subst. specialize (HL L eq_refl).
  destruct (cur_lock K cs h qs P Hi L HL) as (v & l & ws & Hd & Hlk & Hnw).
  destruct (sc_ready _ _ _ (proj1 (sy_sched _ _ _ Hi))) as [ready Hrd].
  destruct (li_bin _ _ _ _ _ _ Hlk) as [-> | ->].
  - pose proof (wait_next K cs h qs P Hi L o l ws ready HL Hp Hd Hlk Hnw Hrd) as Hw.
    destruct ready as [|e ready]; [by right|left].
    destruct Hw as (K' & old & qs' & Hex & Hinv). eexists K', _, qs', _. split; [exact Hex|done].
  - left. destruct (take_next K cs h qs P Hi L o l ws HL Hp Hd Hlk Hnw) as (K' & Hex & Hinv).
    eexists K', [], qs, _. split; [exact Hex|done].
Qed.

Lemma exec_safe K cs h qs P f r :
  sync_inv (Config K cs h) qs P → cs !! running_thread K = Some (f :: r) →
  sync_next K cs h f r
  ∨ (exec K f = Panic "schedule" ∧ qs !! thread_ready_list = Some []
     ∧ ∃ s o, f = SemaDownLoop s o).
Proof.
  intros Hi Hst.
  destruct f; try (left; first
    [ by eapply next_start | by eapply next_timer | by eapply next_block_return
    | by eapply next_sema_down | by eapply next_sema_up | by eapply next_lock_acquire
    | by eapply next_lock_acquired | by eapply next_lock_count | by eapply next_lock_release
    | by eapply next_lock_clear ]).
  destruct (next_sema_down_loop K cs h qs P psema old_status r Hi Hst) as [?|[? ?]]; [by left|right].
  eauto.
Qed.

(** ** The timer *)

Lemma timer_safe K cs h qs P st :
  sync_inv (Config K cs h) qs P → cs !! running_thread K = Some st →
  ∃ K' qs', intr_timer_handler (set_eflags K (cli (k_eflags K))) = Ok K'
    ∧ sync_inv (Config K' (<[running_thread K := TimerReturn (k_eflags K) :: st]> cs) h) qs' P.
Proof.
  intros Hi Hst. destruct (cur_pos K cs h qs P st Hi Hst) as (p & Hp & Hat & HL).
  destruct (cur_task K cs h qs P Hi) as (C & HC & Hrun). set (cur := running_thread K) in *.
  assert (Hs : sched_inv (set_eflags K (cli (k_eflags K))) cur qs)
    by (apply (sched_inv_same K); [by split_and!|apply Hi]).
  destruct (timer_eq _ cur qs C Hs HC) as [Hs1 ->]. set (K1 := set_kticks _ _) in *.
  assert (Hmove : ∀ K' qs' n,
    sched_inv K' n qs' → k_semas K' = k_semas K → k_locks K' = k_locks K →
    (∀ t, is_Some (k_tasks K' !! t) ↔ is_Some (k_tasks K !! t)) →
    (∀ p0, p0 ≠ thread_ready_list → qs' !! p0 = qs !! p0) →
    (∀ t T', k_tasks K' !! t = Some T' → status T' ≠ TASK_RUNNING → status T' ≠ TASK_READY →
       ∃ T, k_tasks K !! t = Some T ∧ status T' = status T) →
    sync_inv (Config K' (<[cur := TimerReturn (k_eflags K) :: st]> cs) h) qs' P).
  { intros K' qs' n Hs' Hse Hlo Hdom Hqs Hbl. rewrite <- (insert_id P cur p) by done.
    apply (sync_move K cs h qs P p K' _ h qs' n); auto.
    - intros L v l ws HLs (Hv & Hl & Hw) Hlk. destruct (sy_sep _ _ _ Hi L HLs).
      exists v, l, ws. rewrite insert_id by done. split; [|done].
      split_and!; [congruence..|by rewrite Hqs].
    - intros t T' HT' Hn1 Hn2. destruct (Hbl t T' HT' Hn1 Hn2) as (T & HT & Est).
      rewrite Est in Hn1, Hn2 |- *.
      destruct (sy_blocked _ _ _ Hi t T HT Hn1 Hn2) as (Hb & L & ws & HLs & Hw & Hin).
      split; [done|]. exists L, ws. split_and!; auto. rewrite Hqs; [done|].
      by apply (sy_sep _ _ _ Hi). }
  destruct (ticks C =? 0).
  - destruct (sc_ready _ _ _ (proj1 Hs1)) as [l Hl].
    destruct (schedule_running K1 cur qs (ticked C) l Hs1)
      as (n & l' & K' & _ & HK' & Hsw & Hinv);
      [apply intr_get_status_cli|apply lookup_insert_eq|done|].
    exists K', (<[thread_ready_list := l']> qs). split; [done|].
    apply (Hmove K' _ n); auto; [apply Hsw..| | |].
    + intros t. rewrite (sw_tasks _ _ _ _ Hsw), fmap_is_Some. simpl.
      rewrite !lookup_insert. case_decide; [subst; by split; intros; eexists|done].
    + intros p0 Hp0. by rewrite lookup_insert_ne.
    + intros t T'. rewrite (sw_tasks _ _ _ _ Hsw). simpl. rewrite !lookup_insert.
      intros (T & HT & ->)%fmap_Some Hn1 Hn2. revert Hn1 Hn2. unfold sched_task.
      destruct (decide (cur = t)) as [E|E].
      * injection HT as <-. repeat case_bool_decide; done.
      * intros Hn1 Hn2. exists T. split; [done|]. revert Hn1. repeat case_bool_decide; done.
  - eexists _, qs. split; [done|]. apply (Hmove _ _ cur); auto.
    + apply (count_core K1 cur qs cur (ticked C) (with_ticks (ticked C) (u8 (ticks C - 1)))
        (k_ticks K1)); try done. apply lookup_insert_eq.
    + intros t. simpl. rewrite !lookup_insert. case_decide; [subst; by split; intros; eexists|].
      done.
    + intros t T'. simpl. rewrite !lookup_insert. destruct (decide (cur = t)) as [->|].
      * intros [= <-]. eauto.
      * eauto.
Qed.

(** ** The step relation *)

Lemma step_preserves c c' qs P :
  sync_inv c qs P → step Ls c c' → ∃ qs' P', sync_inv c' qs' P'.
Proof.
  intros Hi Hstep. destruct Hstep as
    [K cs h f r K' fs Hst Hex|K cs h st K' Hif Hst Hex|K cs h L l HL Hst Hl Hmax
    |K cs h L HL Hst Hh|K cs h s Hst|K cs h a Ha].
  - destruct (exec_safe K cs h qs P f r Hi Hst) as [(K1 & fs1 & qs' & P' & E & Hinv)|[E _]];
      [|congruence]. rewrite Hex in E. injection E as <- <-. eauto.
  - destruct (timer_safe K cs h qs P st Hi Hst) as (K1 & qs' & E & Hinv).
    rewrite Hex in E. injection E as <-. eauto.
  - destruct (cur_pos K cs h qs P _ Hi Hst) as (p & Hp & Hat & _). inversion Hat; subst.
    exists qs, (<[running_thread K := Calling L]> P).
    apply (sync_local K cs h qs P Out (Calling L) K _ h L); auto using same_sched_refl.
    + intros L' [= <-]. done.
    + intros L' Hne. split_and!; auto; simpl; congruence.
    + intros v l0 ws _ (Hv & Hl0 & Hw) Hlk Hnw. exists v, l0. split_and!; auto.
      apply (lock_inv_quiet P h L v l0 ws (running_thread K) Out (Calling L)); auto; try done.
      * intros _. congruence.
      * intros [?|[? _]]; done.
  - destruct (cur_pos K cs h qs P _ Hi Hst) as (p & Hp & Hat & _). inversion Hat; subst.
    exists qs, (<[running_thread K := Releasing L]> P).
    apply (sync_local K cs h qs P Out (Releasing L) K _ h L); auto using same_sched_refl.
    + intros L' [= <-]. done.
    + intros L' Hne. split_and!; auto; simpl; congruence.
    + intros v l0 ws _ (Hv & Hl0 & Hw) Hlk Hnw. exists v, l0. split_and!; auto.
      apply (lock_inv_quiet P h L v l0 ws (running_thread K) Out (Releasing L)); auto; try done.
      * intros _. by apply (li_ghost _ _ _ _ _ _ Hlk) in Hh as (_ & ? & _).
      * intros [?|[? _]]; done.
  - destruct (cur_pos K cs h qs P _ Hi Hst) as (p & Hp & Hat & _). exists qs, P.
    rewrite <- (insert_id cs (running_thread K) []) by done.
    apply (sync_stay K cs h qs P p); auto. by split_and!.
  - exists qs, P. pose proof Hi as [Hs Hpos Hdom Hsep Hlk Hbl]. simpl in *.
    destruct Hs as [Hc HC].
    assert (Hr : running_thread (set_esp K a) = running_thread K).
    { destruct HC as (C & HC & _). destruct (sc_task _ _ _ Hc _ C HC) as [[? ?] ? _ _ _ _].
      unfold stack_ok in Ha. apply running_thread_eq; simpl; lia. }
    split; simpl; auto. rewrite Hr. split; [|done]. destruct Hc. split; auto.
    intros t T HT. destruct (sc_task t T HT). by split.
Qed.

Lemma reachable_inv c0 c qs P :
  sync_inv c0 qs P → reachable Ls c0 c → ∃ qs' P', sync_inv c qs' P'.
Proof.
  intros Hi Hr. induction Hr as [|c c' Hr (qs' & P' & IH) Hstep]; [eauto|].
  by eapply step_preserves.
Qed.
End safe.
