(* ===== verification/SyncProps.v ===== *)
(** What locks guarantee under every interleaving, from any initial state in
    which they have just been initialised, and a contended run of two threads
    on one lock. *)
From S2P Require Import Prelude Bitmap Paging Memory MemInit MemProps.
From S2P Require Import Interrupt DList Sched SchedProps Sync SyncInv SyncSafe.

(** * Initial states *)

Section init.
Context `{Symbols} (Ls : gset Z).

(** All threads are in client code or have not started, none is blocked, and
    every lock of [Ls] is as [lock_init] leaves it. *)
Record init_config (c : config) (qs : gmap Z (list Z)) : Prop := {
  in_sched : sched_inv (ker c) (running_thread (ker c)) qs;
  in_conts t : is_Some (k_tasks (ker c) !! t) →
    conts c !! t = Some [] ∨ conts c !! t = Some [KernelThread];
  in_status t T : k_tasks (ker c) !! t = Some T →
    status T = TASK_RUNNING ∨ status T = TASK_READY;
  in_sep L : L ∈ Ls → wlist L ≠ thread_ready_list ∧ wlist L ≠ thread_all_list;
  in_lock L : L ∈ Ls → lock_data (ker c) qs L 1 (Lock NULL 0) [];
  in_held : held c = ∅;
}.

Lemma init_inv c qs :
  init_config c qs → sync_inv Ls c qs ((λ _, Out) <$> k_tasks (ker c)).
Proof.
  intros [Hs Hc Hst Hsep Hlk Hh]. split.
  - done.
  - intros t Ht. destruct Ht as [T HT].
    destruct (Hc t) as [E|E]; [by eexists|exists [], Out|exists [KernelThread], Out];
      rewrite lookup_fmap, HT; split_and!; auto using at_pos; done.
  - intros t. rewrite lookup_fmap. by rewrite fmap_is_Some.
  - done.
  - intros L HL. exists 1, (Lock NULL 0), []. split; [by apply Hlk|].
    assert (HP : ∀ t p, ((λ _, Out) <$> k_tasks (ker c)) !! t = Some p → p = Out).
    { intros t p. rewrite lookup_fmap. by intros (? & _ & ->)%fmap_Some. }
    assert (Hcs : ∀ t, ¬ in_cs ((λ _, Out) <$> k_tasks (ker c)) (Lock NULL 0) L t).
    { intros t [[E1 E2]|[E|[E|E]]]; [simpl in E1; congruence|by apply HP in E..]. }
    split; simpl; auto; try (intros t E; by apply HP in E).
    + intros t t' E. by destruct (Hcs t).
    + done.
    + done.
    + intros t. rewrite Hh. split; [set_solver|]. intros (? & ? & _). congruence.
    + intros t E. by apply not_elem_of_nil in E.
    + done.
  - intros t T HT Hn1 Hn2. by destruct (Hst t T HT).
Qed.

Lemma init_reachable c0 qs c :
  init_config c0 qs → reachable Ls c0 c → ∃ qs' P', sync_inv Ls c qs' P'.
Proof. intros Hi. by apply (reachable_inv Ls c0 c qs _ (init_inv c0 qs Hi)). Qed.
End init.

(** [t] owns the lock [L]: it is the holder, or between [sema_down] and setting
    [holder], or between clearing [holder] and [sema_up]. *)
Definition owns (c : config) (L t : Z) : Prop :=
  (t ≠ NULL ∧ ∃ l, k_locks (ker c) !! L = Some l ∧ holder l = t)
  ∨ (is_Some (k_tasks (ker c) !! t) ∧ ∃ st, conts c !! t = Some st
       ∧ (at_pos st (Got L) ∨ at_pos st (Clearing L) ∨ at_pos st (Upping L))).

Lemma semaphore_inj L L' : semaphore L = semaphore L' → L = L'.
Proof. unfold semaphore. lia. Qed.

(** A list of program points is at one position only. *)
Lemma at_pos_unique st p p' : at_pos st p → at_pos st p' → p = p'.
Proof.
  intros H1. revert p'. induction H1; intros p' H2; inversion H2; subst; auto;
    try (match goal with E : semaphore _ = semaphore _ |- _ => apply semaphore_inj in E end;
         by subst).
Qed.

Section properties.
Context `{Symbols} (Ls : gset Z).

Lemma owns_in_cs c qs P L v l ws t :
  sync_inv Ls c qs P → lock_data (ker c) qs L v l ws → owns c L t ↔ in_cs P l L t.
Proof.
  intros Hi (_ & Hl & _). unfold owns, in_cs. split.
  - intros [(Hn & l' & Hl' & <-)|(Ht & st & Hst & Hat)].
    + left. assert (l' = l) as -> by congruence. done.
    + right. destruct (sy_pos _ _ _ _ Hi t Ht) as (st' & p & Hst' & Hp & Hat' & _).
      assert (st' = st) as -> by congruence.
      destruct Hat as [Ha|[Ha|Ha]]; rewrite (at_pos_unique _ _ _ Ha Hat'); auto.
  - intros [[<- Hn]|Hp]; [left; eauto|right].
    assert (Ht : is_Some (k_tasks (ker c) !! t))
      by (apply (sy_dom _ _ _ _ Hi); destruct Hp as [->|[->| ->]]; by eexists).
    split; [done|]. destruct (sy_pos _ _ _ _ Hi t Ht) as (st & p & Hst & Hp' & Hat & _).
    exists st. split; [done|]. destruct Hp as [E|[E|E]]; rewrite E in Hp'; injection Hp' as <-; auto.
Qed.

(** C2: the semaphore of a lock always tells the truth about its owner.  In
    every reachable state its value is 0 or 1; it is 1 exactly when no
    thread owns the lock, and 0 exactly when one thread does, and never two,
    also while the owner is between the semaphore and the [holder] field. *)
Theorem lock_value_counts_owner c0 qs c L :
  init_config Ls c0 qs → reachable Ls c0 c → L ∈ Ls →
  ∃ v, k_semas (ker c) !! semaphore L = Some v
    ∧ ((v = 1 ∧ ∀ t, ¬ owns c L t)
       ∨ (v = 0 ∧ ∃ t, owns c L t ∧ ∀ t', owns c L t' → t' = t)).
Proof.
  intros Hin Hr HL. destruct (init_reachable Ls c0 qs c Hin Hr) as (qs' & P & Hi).
  destruct (sy_lock _ _ _ _ Hi L HL) as (v & l & ws & Hd & Hlk).
  pose proof (λ t, owns_in_cs c qs' P L v l ws t Hi Hd) as Ho.
  exists v. split; [apply Hd|]. destruct (li_bin _ _ _ _ _ _ Hlk) as [-> | ->]; [right|left].
  - split; [done|]. destruct (li_taken _ _ _ _ _ _ Hlk eq_refl) as [t Ht].
    exists t. split; [by apply Ho|]. intros t' Ht'%Ho. by apply (li_one _ _ _ _ _ _ Hlk).
  - split; [done|]. intros t Ht%Ho. by eapply (li_free _ _ _ _ _ _ Hlk).
Qed.

(** C1: mutual exclusion.  Two threads are never both between the return of
    [lock_acquire] and the call of [lock_release] on the same lock; the one
    that is there is the [holder], with a positive count. *)
Theorem lock_mutual_exclusion c0 qs c L t1 t2 :
  init_config Ls c0 qs → reachable Ls c0 c → L ∈ Ls →
  (t1, L) ∈ held c → (t2, L) ∈ held c →
  t1 = t2 ∧ ∃ l, k_locks (ker c) !! L = Some l ∧ holder l = t1 ∧ 1 ≤ holder_repeat_nr l.
Proof.
  intros Hin Hr HL H1 H2. destruct (init_reachable Ls c0 qs c Hin Hr) as (qs' & P & Hi).
  destruct (sy_lock _ _ _ _ Hi L HL) as (v & l & ws & Hd & Hlk).
  apply (li_ghost _ _ _ _ _ _ Hlk) in H1 as (Hn1 & E1 & Hc1).
  apply (li_ghost _ _ _ _ _ _ Hlk) in H2 as (_ & E2 & _). split; [congruence|].
  exists l. split_and!; [apply Hd|done|].
  destruct (li_held _ _ _ _ _ _ Hlk) as (_ & Hrn & Hz); [congruence|].
  assert (holder_repeat_nr l ≠ 0); [|lia]. intros E. apply Hz in E. congruence.
Qed.

(** C3: no assertion fails.  In every reachable state the next program point of
    the running thread executes: none of the assertions of [schedule],
    [thread_block], [thread_unblock], [sema_down], [sema_up], [lock_acquire]
    and [lock_release] fails and no memory is missing, except that
    [schedule] stops the kernel when a thread has to wait and no other is
    ready; and a timer interrupt is always handled. *)
Theorem sync_never_asserts c0 qs c st :
  init_config Ls c0 qs → reachable Ls c0 c →
  conts c !! running_thread (ker c) = Some st →
  (∃ K', intr_timer_handler (set_eflags (ker c) (cli (k_eflags (ker c)))) = Ok K')
  ∧ ∀ f r, st = f :: r →
      (∃ K' fs, exec (ker c) f = Ok (K', fs))
      ∨ (exec (ker c) f = Panic "schedule"
         ∧ list_empty (lists_of (ker c)) thread_ready_list = Ok true
         ∧ ∃ s o, f = SemaDownLoop s o).
Proof.
  intros Hin Hr Hst. destruct (init_reachable Ls c0 qs c Hin Hr) as (qs' & P & Hi).
  destruct c as [K cs h]. simpl in *. split.
  - destruct (timer_safe Ls K cs h qs' P st Hi Hst) as (K' & _ & E & _). eauto.
  - intros f r ->. destruct (exec_safe Ls K cs h qs' P f r Hi Hst)
      as [(K' & fs & _ & _ & E & _)|(E & Hrd & Hf)]; [left; eauto|right].
    split_and!; auto. unfold lists_of.
    rewrite (list_empty_holds _ _ qs' _ []); [done| |done].
    destruct (sy_sched _ _ _ _ Hi) as [Hc _]. apply Hc.
Qed.

(** C4: no lost wake-up.  In every reachable state, when a thread waits for the
    lock [L], then the lock is owned (its owner will call [sema_up]) or a
    thread that is ready or running is on its way back to the test of
    [sema_down] of [L]. *)
Theorem no_lost_wakeup c0 qs c L :
  init_config Ls c0 qs → reachable Ls c0 c → L ∈ Ls →
  list_empty (lists_of (ker c)) (wlist L) = Ok false →
  (∃ t, owns c L t)
  ∨ ∃ t T st p, k_tasks (ker c) !! t = Some T
      ∧ (status T = TASK_READY ∨ status T = TASK_RUNNING)
      ∧ conts c !! t = Some st ∧ at_pos st p ∧ (p = Trying L ∨ p = Waiting L).
Proof.
  intros Hin Hr HL He. destruct (init_reachable Ls c0 qs c Hin Hr) as (qs' & P & Hi).
  destruct (sy_lock _ _ _ _ Hi L HL) as (v & l & ws & Hd & Hlk). pose proof Hd as (_ & _ & Hw).
  unfold lists_of in He. rewrite (list_empty_holds _ _ qs' _ (general_tag <$> ws)) in He;
    [|apply (sy_sched _ _ _ _ Hi)|done].
  assert (Hne : ws ≠ []) by (intros ->; discriminate He).
  destruct (li_wake _ _ _ _ _ _ Hlk Hne) as [-> | [t Ht]].
  - left. destruct (li_taken _ _ _ _ _ _ Hlk eq_refl) as [t Ht]. exists t.
    by apply (owns_in_cs c qs' P L 0 l ws t Hi Hd).
  - right. assert (HT : is_Some (k_tasks (ker c) !! t))
      by (apply (sy_dom _ _ _ _ Hi); destruct Ht as [->|[-> _]]; by eexists).
    destruct (sy_pos _ _ _ _ Hi t HT) as (st & p & Hst & Hp & Hat & _). destruct HT as [T HT].
    exists t, T, st, p. split_and!; auto; [|destruct Ht as [Ht|[Ht _]]; rewrite Ht in Hp;
      injection Hp as <-; auto].
    destruct (decide (status T = TASK_READY)) as [|Hn2]; [by left|].
    destruct (decide (status T = TASK_RUNNING)) as [|Hn1]; [by right|]. exfalso.
    destruct (sy_blocked _ _ _ _ Hi t T HT Hn1 Hn2) as (_ & L' & ws' & HL' & Hw' & Hin').
    destruct (sy_lock _ _ _ _ Hi L' HL') as (v2 & l2 & ws2 & (_ & _ & Hw2) & Hlk2).
    assert (ws2 = ws') as -> by (apply tags_inj; congruence).
    pose proof (li_wait _ _ _ _ _ _ Hlk2 t Hin') as HPw.
    destruct Ht as [Ht|[Ht Hni]]; [congruence|].
    assert (L' = L) as -> by congruence. apply Hni.
    by assert (ws = ws') as -> by (apply tags_inj; congruence).
Qed.
End properties.

(** * Runs *)

(** A schedule as a list of moves, run by computation. *)
Inductive move := MExec | MTimer | MAcquire (L : Z) | MRelease (L : Z).

Section run.
Context `{Symbols} (Ls : gset Z).

Definition run_move (m : move) (c : config) : option config :=
  let K := ker c in let cur := running_thread K in
  st ← conts c !! cur;
  match m, st with
  | MExec, f :: r =>
      match exec K f with
      | Ok (K', fs) => Some (Config K' (<[cur := fs ++ r]> (conts c)) (held_after K f (held c)))
      | _ => None
      end
  | MTimer, _ =>
      if decide (intr_get_status (k_eflags K) = INTR_ON) then
        match intr_timer_handler (set_eflags K (cli (k_eflags K))) with
        | Ok K' => Some (Config K' (<[cur := TimerReturn (k_eflags K) :: st]> (conts c)) (held c))
        | _ => None
        end
      else None
  | MAcquire L, [] =>
      l ← k_locks K !! L;
      if decide (L ∈ Ls ∧ holder_repeat_nr l < 2 ^ 32 - 1)
      then Some (Config K (<[cur := [LockAcquire L]]> (conts c)) (held c)) else None
  | MRelease L, [] =>
      if decide (L ∈ Ls ∧ (cur, L) ∈ held c)
      then Some (Config K (<[cur := [LockRelease L]]> (conts c)) (held c)) else None
  | _, _ => None
  end.

Fixpoint run (ms : list move) (c : config) : option config :=
  match ms with [] => Some c | m :: ms => c' ← run_move m c; run ms c' end.

Lemma run_move_step m c c' : run_move m c = Some c' → step Ls c c'.
Proof.
  destruct c as [K cs h]. unfold run_move. simpl.
  destruct (cs !! running_thread K) as [st|] eqn:Hst; [simpl|done].
  destruct m; destruct st as [|f r]; try done.
  - destruct (exec K f) as [[K' fs]| | |] eqn:E; try done. intros [= <-]. by apply step_exec.
  - case_decide; [|done]. destruct (intr_timer_handler _) eqn:E; try done.
    intros [= <-]. by apply step_timer.
  - case_decide; [|done]. destruct (intr_timer_handler _) eqn:E; try done.
    intros [= <-]. by apply step_timer.
  - destruct (k_locks K !! L) as [l|] eqn:El; [simpl|done]. case_decide as Hd; [|done].
    intros [= <-]. destruct Hd. by eapply step_acquire.
  - case_decide as Hd; [|done]. intros [= <-]. destruct Hd. by apply step_release.
Qed.

Lemma run_reachable ms c0 c c' :
  reachable Ls c0 c → run ms c = Some c' → reachable Ls c0 c'.
Proof.
  revert c. induction ms as [|m ms IH]; simpl; intros c Hr; [by intros [= <-]|].
  destruct (run_move m c) as [c1|] eqn:E; [simpl|done].
  apply IH. eapply reach_step; [done|]. by eapply run_move_step.
Qed.
End run.

Module SyncRuns.
Import SchedRuns.

(** main runs and B is ready; one lock. *)
Definition L : Z := 0xc0008000.
Definition Ls : gset Z := {[ L ]}.

Definition s_tasks : list (Z * task_struct) :=
  [ (main_, task main_ TASK_RUNNING 0 0); (B, task B TASK_READY 0 0) ].
Definition s_lists : list (Z * list Z) :=
  [ (thread_ready_list, [general_tag B]);
    (thread_all_list, [all_list_tag main_; all_list_tag B]); (wlist L, []) ].
Definition qs1 : gmap Z (list Z) := list_to_map s_lists.

Definition config_on (M : machine) : config :=
  Config (Kernel (main_ + 4000) 0x202 (nodes_of s_lists [general_tag main_])
            (list_to_map s_tasks) {[ semaphore L := 1 ]} {[ L := Lock NULL 0 ]} M 0 0 [])
         {[ main_ := []; B := [KernelThread] ]} ∅.

Lemma s_tasks_inv M t T : k_tasks (ker (config_on M)) !! t = Some T → (t, T) ∈ s_tasks.
Proof. apply elem_of_list_to_map_2. Qed.

Lemma s_lists_inv p l : qs1 !! p = Some l → (p, l) ∈ s_lists.
Proof. apply elem_of_list_to_map_2. Qed.

Ltac s_members H :=
  unfold s_tasks, s_lists in H; rewrite !elem_of_cons, elem_of_nil in H;
  destruct_or? H; try done; injection H as -> ->.

Lemma config_on_init M : kspace M → pgdir_ok M NULL → init_config Ls (config_on M) qs1.
Proof.
  intros Hk Hp.
  assert (Hrun : running_thread (ker (config_on M)) = main_) by (vm_compute; reflexivity).
  split.
  - rewrite Hrun. split; [|eexists; split; [vm_compute; reflexivity|reflexivity]]. split.
    + apply (heap_check_spec (k_nodes (ker (config_on M))) s_lists). vm_compute. reflexivity.
    + by eexists.
    + done.
    + intros t T HT%s_tasks_inv. s_members HT; split; simpl; try done;
        try (vm_compute; by eexists); unfold main_, B; lia.
    + intros t T HT%s_tasks_inv _. s_members HT; unfold stack_ok; simpl; unfold main_, B; lia.
    + by eexists.
    + unfold stack_ok. simpl. unfold main_. lia.
    + intros t T HT%s_tasks_inv. by s_members HT.
    + intros p l e Hl%s_lists_inv Hpa He. s_members Hl; [|by destruct Hpa|].
      * apply list_elem_of_singleton in He. subst e. exists B, (task B TASK_READY 0 0).
        split_and!; done.
      * by apply not_elem_of_nil in He.
    + intros t T l HT%s_tasks_inv Hs Hl. s_members HT; simpl in Hs; try done.
      injection Hl as <-. by left.
    + intros t T p l HT%s_tasks_inv Hl%s_lists_inv.
      s_members HT; s_members Hl;
        unfold general_tag, all_list_tag, head_of, tail_of, wlist, waiters, semaphore, L, main_, B;
        simpl; rewrite ?elem_of_cons, ?elem_of_nil; lia.
    + done.
  - intros t [T HT%s_tasks_inv]. s_members HT; [by left|by right].
  - intros t T HT%s_tasks_inv. s_members HT; [by left|by right].
  - intros L' ->%elem_of_singleton. done.
  - intros L' ->%elem_of_singleton. by split_and!.
  - done.
Qed.

Definition c0 : config := config_on boot_machine.

Lemma c0_init : init_config Ls c0 qs1.
Proof.
  apply config_on_init; [exact (fm_space _ boot_fresh)|].
  split; [by left|]. exact (fm_space _ boot_fresh).
Qed.

(** main acquires the lock and is preempted; B tries to acquire it and has to
    wait; main runs again. *)
Definition contended : list move :=
  [ MAcquire L; MExec; MExec; MExec; MExec; MExec;     (* main holds the lock *)
    MTimer; MExec;                                     (* switch to B, which starts *)
    MAcquire L; MExec; MExec; MExec;                   (* B blocks *)
    MExec ].                                           (* main returns from the timer *)

(** main releases it; B is woken, runs when main's slice is over and gets it. *)
Definition handover : list move :=
  [ MRelease L; MExec; MExec; MExec; MTimer; MExec; MExec; MExec; MExec ].

(** What the two runs end in. *)
Definition summary (c : config) : Z * option lock * option Z * bool :=
  (running_thread (ker c), k_locks (ker c) !! L, k_semas (ker c) !! semaphore L,
   bool_decide (conts c !! B = Some [BlockReturn INTR_OFF; SemaDownLoop (semaphore L) INTR_ON;
                                     LockAcquired L])).

Lemma contended_run :
  summary <$> run Ls contended c0 = Some (main_, Some (Lock main_ 1), Some 0, true).
Proof. vm_compute. reflexivity. Qed.

Lemma handover_run :
  summary <$> run Ls (contended ++ handover) c0 = Some (B, Some (Lock B 1), Some 0, false).
Proof. vm_compute. reflexivity. Qed.

(** The facts about the contended state the witnesses use. *)
Definition contended_facts (c : config) : bool :=
  bool_decide (k_semas (ker c) !! semaphore L = Some 0)
  && bool_decide ((main_, L) ∈ held c)
  && bool_decide (conts c !! running_thread (ker c) = Some [])
  && match list_empty (lists_of (ker c)) (wlist L) with Ok false => true | _ => false end.

Lemma contended_end : ∃ c, reachable Ls c0 c
  ∧ k_semas (ker c) !! semaphore L = Some 0 ∧ (main_, L) ∈ held c
  ∧ conts c !! running_thread (ker c) = Some []
  ∧ list_empty (lists_of (ker c)) (wlist L) = Ok false.
Proof.
  assert (E : contended_facts <$> run Ls contended c0 = Some true)
    by (vm_compute; reflexivity).
  destruct (run Ls contended c0) as [c|] eqn:Hc; [|discriminate]. exists c.
  simpl in E. injection E as E. unfold contended_facts in E.
  rewrite !andb_true_iff, !bool_decide_eq_true in E. destruct E as (((E1 & E2) & E3) & E4).
  split_and!; auto; [|by destruct (list_empty _ _) as [[]| | |]].
  apply (run_reachable Ls contended c0 c0 c); [apply reach_refl|done].
Qed.

Lemma L_in : L ∈ Ls.
Proof. by apply elem_of_singleton. Qed.

Lemma lock_value_counts_owner_witness :
  ∃ c, reachable Ls c0 c ∧ ∃ t, owns c L t ∧ ∀ t', owns c L t' → t' = t.
Proof.
  destruct contended_end as (c & Hr & Hs & _). exists c. split; [exact Hr|].
  destruct (lock_value_counts_owner Ls c0 qs1 c L c0_init Hr L_in) as (v & Hv & Hc).
  rewrite Hs in Hv. injection Hv as <-.
  destruct Hc as [[Hc _]|[_ Hc]]; [discriminate Hc|exact Hc].
Defined.

Lemma lock_mutual_exclusion_witness :
  ∃ c, reachable Ls c0 c ∧ ∃ l, k_locks (ker c) !! L = Some l ∧ holder l = main_.
Proof.
  destruct contended_end as (c & Hr & _ & Hh & _). exists c. split; [exact Hr|].
  destruct (lock_mutual_exclusion Ls c0 qs1 c L main_ main_ c0_init Hr L_in Hh Hh)
    as (_ & l & Hl & Hm & _).
  exists l. split; [exact Hl|exact Hm].
Defined.

Lemma sync_never_asserts_witness :
  ∃ c K', reachable Ls c0 c
    ∧ intr_timer_handler (set_eflags (ker c) (cli (k_eflags (ker c)))) = Ok K'.
Proof.
  destruct contended_end as (c & Hr & _ & _ & Hst & _). exists c.
  destruct (sync_never_asserts Ls c0 qs1 c [] c0_init Hr Hst) as [[K' H] _].
  exists K'. split; [exact Hr|exact H].
Defined.

Lemma no_lost_wakeup_witness :
  ∃ c, list_empty (lists_of (ker c)) (wlist L) = Ok false
    ∧ ((∃ t, owns c L t)
       ∨ ∃ t T st p, k_tasks (ker c) !! t = Some T
           ∧ (status T = TASK_READY ∨ status T = TASK_RUNNING)
           ∧ conts c !! t = Some st ∧ at_pos st p ∧ (p = Trying L ∨ p = Waiting L)).
Proof.
  destruct contended_end as (c & Hr & _ & _ & _ & Hw). exists c. split; [exact Hw|].
  apply (no_lost_wakeup Ls c0 qs1 c L c0_init Hr L_in Hw).
Defined.
End SyncRuns.
