(* ===== verification/Tss.v ===== *)
(** userprog/tss.c: segment descriptors, the task state segment and the
    descriptor table entries that [tss_init] writes; over any memory. *)
From S2P Require Import Prelude ByteMem CString.

(** * Data (kernel/global.h) *)

Definition RPL0 : Z := 0.
Definition RPL3 : Z := 3.
Definition TI_GDT : Z := 0.
Definition DESC_G_4K : Z := 1.
Definition DESC_D_32 : Z := 1.
Definition DESC_L : Z := 0.
Definition DESC_AVL : Z := 0.
Definition DESC_P : Z := 1.
Definition DESC_DPL_0 : Z := 0.
Definition DESC_DPL_3 : Z := 3.
Definition DESC_S_CODE : Z := 1.
Definition DESC_S_DATA : Z := DESC_S_CODE.
Definition DESC_S_SYS : Z := 0.
Definition DESC_TYPE_CODE : Z := 8.
Definition DESC_TYPE_DATA : Z := 2.
Definition DESC_TYPE_TSS : Z := 9.
Definition TSS_DESC_D : Z := 0.

Definition selector (index ti rpl : Z) : Z := Z.shiftl index 3 + Z.shiftl ti 2 + rpl.
Definition SELECTOR_K_STACK : Z := selector 2 TI_GDT RPL0.
Definition SELECTOR_TSS : Z := selector 4 TI_GDT RPL0.
Definition SELECTOR_U_CODE : Z := selector 5 TI_GDT RPL3.
Definition SELECTOR_U_DATA : Z := selector 6 TI_GDT RPL3.

Definition attr_high (g d : Z) : Z :=
  Z.shiftl g 7 + Z.shiftl d 6 + Z.shiftl DESC_L 5 + Z.shiftl DESC_AVL 4.
Definition attr_low (dpl s type : Z) : Z :=
  Z.shiftl DESC_P 7 + Z.shiftl dpl 5 + Z.shiftl s 4 + type.
Definition GDT_ATTR_HIGH : Z := attr_high DESC_G_4K DESC_D_32.
Definition TSS_ATTR_HIGH : Z := attr_high DESC_G_4K TSS_DESC_D + 0.
Definition GDT_CODE_ATTR_LOW_DPL3 : Z := attr_low DESC_DPL_3 DESC_S_CODE DESC_TYPE_CODE.
Definition GDT_DATA_ATTR_LOW_DPL3 : Z := attr_low DESC_DPL_3 DESC_S_DATA DESC_TYPE_DATA.
Definition TSS_ATTR_LOW : Z := attr_low DESC_DPL_0 DESC_S_SYS DESC_TYPE_TSS.

Record gdt_desc := GdtDesc {
  limit_low_word : Z;
  base_low_word : Z;
  base_mid_byte : Z;
  attr_low_byte : Z;
  limit_high_attr_high : Z;
  base_high_byte : Z;
}.

(** The layout of [struct gdt_desc], and of a [uint32_t], in memory. *)
Definition le32 (v : Z) : list Z :=
  [v mod 256; (v / 2 ^ 8) mod 256; (v / 2 ^ 16) mod 256; (v / 2 ^ 24) mod 256].
Definition desc_bytes (d : gdt_desc) : list Z :=
  [limit_low_word d mod 256; limit_low_word d / 256; base_low_word d mod 256;
   base_low_word d / 256; base_mid_byte d; attr_low_byte d; limit_high_attr_high d;
   base_high_byte d].

(** [sizeof(struct tss)] and the offsets of [ss0] and [io_base]. *)
Definition TSS_SIZE : Z := 108.
Definition TSS_SS0 : Z := 8.
Definition TSS_IO_BASE : Z := 104.

(** * Operations *)

Definition make_gdt_desc (desc_addr limit attr_low attr_high : Z) : gdt_desc :=
  let desc_base := u32 desc_addr in
  GdtDesc (u16 (Z.land limit 0x0000ffff)) (u16 (Z.land desc_base 0x0000ffff))
    (u8 (Z.shiftr (Z.land desc_base 0x00ff0000) 16)) (u8 attr_low)
    (u8 (Z.shiftr (Z.land limit 0x000f0000) 16 + u8 attr_high)) (u8 (Z.shiftr desc_base 24)).

(** The operand of lgdt; here the shift is done in 64 bits. *)
Definition gdt_operand : Z := Z.lor (8 * 7 - 1) (Z.shiftl (u32 0xc0000903) 16).

Section tss.
Context {M : Type} `{!ByteMem M}.

(** An assignment to an object of several bytes. *)
Fixpoint store_bytes (m : M) (a : Z) (bs : list Z) : res M :=
  match bs with
  | [] => Ok m
  | b :: r => m ← store8 m a b; store_bytes m (a + 1) r
  end.

(** [tss] is the address of the segment; the result has the memory, the
    operand of lgdt and the selector given to ltr. *)
Definition tss_init (m : M) (tss : Z) : res (M * Z * Z) :=
  let tss_size := TSS_SIZE in
  m ← memset m tss 0 tss_size;
  m ← store_bytes m (tss + TSS_SS0) (le32 SELECTOR_K_STACK);
  m ← store_bytes m (tss + TSS_IO_BASE) (le32 tss_size);
  m ← store_bytes m 0xc0000923
        (desc_bytes (make_gdt_desc tss (tss_size - 1) TSS_ATTR_LOW TSS_ATTR_HIGH));
  m ← store_bytes m 0xc000092b
        (desc_bytes (make_gdt_desc 0 0xfffff GDT_CODE_ATTR_LOW_DPL3 GDT_ATTR_HIGH));
  m ← store_bytes m 0xc0000933
        (desc_bytes (make_gdt_desc 0 0xfffff GDT_DATA_ATTR_LOW_DPL3 GDT_ATTR_HIGH));
  Ok (m, gdt_operand, SELECTOR_TSS).
End tss.

(** * What the processor reads *)

Record segment := Segment {
  seg_base : Z;
  seg_limit : Z;
  seg_dpl : Z;
  seg_type : Z;          (* type with the S bit *)
  seg_present : bool;
}.

Definition decode_desc (bs : list Z) : option segment :=
  match bs with
  | [l0; l1; b0; b1; b2; al; lh; b3] =>
      let unit_ := if Z.testbit lh 7 then 4096 else 1 in
      Some (Segment (b0 + 2 ^ 8 * b1 + 2 ^ 16 * b2 + 2 ^ 24 * b3)
        ((l0 + 2 ^ 8 * l1 + 2 ^ 16 * (lh mod 16) + 1) * unit_ - 1)
        ((al / 2 ^ 5) mod 4) (al mod 32) (Z.testbit al 7))
  | _ => None
  end.

Definition lgdt_limit (op : Z) : Z := op mod 2 ^ 16.
Definition lgdt_base (op : Z) : Z := (op / 2 ^ 16) mod 2 ^ 32.

(** The descriptor that a selector names in the table of [op]. *)
Definition desc_addr (op sel : Z) : Z := lgdt_base op + 8 * (sel / 8).

(** * Lemmas *)

Lemma make_gdt_desc_fields base limit al ah :
  0 ≤ base < 2 ^ 32 → 0 ≤ limit < 2 ^ 20 → 0 ≤ al < 256 → 0 ≤ ah < 256 → ah mod 16 = 0 →
  make_gdt_desc base limit al ah
  = GdtDesc (limit mod 2 ^ 16) (base mod 2 ^ 16) ((base / 2 ^ 16) mod 2 ^ 8) al
      (limit / 2 ^ 16 + ah) (base / 2 ^ 24).
Proof.
  intros Hb Hl Hal Hah Hm. unfold make_gdt_desc. cbv zeta. rewrite (u32_small base) by done.
  change 0x0000ffff with (2 ^ 16 - 1). rewrite !land_low by lia.
  assert (Hsh : ∀ x, Z.shiftr (Z.land x 0x00ff0000) 16 = (x / 2 ^ 16) mod 2 ^ 8).
  { intros x. rewrite Z.shiftr_land. change (Z.shiftr 0x00ff0000 16) with (2 ^ 8 - 1).
    by rewrite land_low, Z.shiftr_div_pow2 by lia. }
  assert (Hsl : Z.shiftr (Z.land limit 0x000f0000) 16 = (limit / 2 ^ 16) mod 2 ^ 4).
  { rewrite Z.shiftr_land. change (Z.shiftr 0x000f0000 16) with (2 ^ 4 - 1).
    by rewrite land_low, Z.shiftr_div_pow2 by lia. }
  rewrite Hsh, Hsl, Z.shiftr_div_pow2 by lia.
  f_equal; first [apply u16_small|rewrite u8_small; [|zdm]|idtac]; try zdm.
  rewrite (u8_small ah) by done. rewrite u8_small by zdm. f_equal. apply Z.mod_small. zdm.
Qed.

Lemma decode_make base limit al ah :
  0 ≤ base < 2 ^ 32 → 0 ≤ limit < 2 ^ 20 → 0 ≤ al < 256 → 0 ≤ ah < 256 → ah mod 16 = 0 →
  decode_desc (desc_bytes (make_gdt_desc base limit al ah))
  = Some (Segment base ((limit + 1) * (if Z.testbit ah 7 then 4096 else 1) - 1)
      ((al / 2 ^ 5) mod 4) (al mod 32) (Z.testbit al 7)).
Proof.
  intros Hb Hl Hal Hah Hm. rewrite make_gdt_desc_fields by done. cbn -[Z.pow Z.testbit Z.div Z.modulo].
  assert (Z.testbit (limit / 2 ^ 16 + ah) 7 = Z.testbit ah 7) as ->.
  { rewrite Z.add_comm, <- (lor_low ah (limit / 2 ^ 16) 4) by (done || zdm).
    rewrite Z.lor_spec, (bits_above (limit / 2 ^ 16) 4 7), orb_false_r by zdm. done. }
  do 2 f_equal; [zdm|]. f_equal. f_equal. zdm.
Qed.

Lemma desc_bytes_range base limit al ah :
  0 ≤ base < 2 ^ 32 → 0 ≤ limit < 2 ^ 20 → 0 ≤ al < 256 → 0 ≤ ah < 256 → ah mod 16 = 0 →
  Forall (λ b, 0 ≤ b < 256) (desc_bytes (make_gdt_desc base limit al ah)).
Proof.
  intros. rewrite make_gdt_desc_fields by done. unfold desc_bytes. cbn -[Z.pow Z.div Z.modulo].
  repeat constructor; zdm.
Qed.

Lemma le32_range v : Forall (λ b, 0 ≤ b < 256) (le32 v).
Proof. unfold le32. repeat constructor; zdm. Qed.

Lemma owned_write_bytes g a n b bs : owned g a n → owned (write_bytes g b bs) a n.
Proof.
  revert g b. induction bs as [|x bs IH]; intros g b Ho; simpl; [done|].
  by apply IH, owned_insert.
Qed.

Section holds.
Context {M : Type} `{!ByteMem M, !ByteMemSpec M}.

Lemma store_bytes_holds bs :
  Forall (λ b, 0 ≤ b < 256) bs → ∀ m g a, holds m g → owned g a (Z.of_nat (length bs)) →
  ∃ m', store_bytes m a bs = Ok m' ∧ holds m' (write_bytes g a bs).
Proof.
  induction 1 as [|b bs Hb _ IH]; intros m g a Hm Ho; [by exists m|].
  destruct (store8_holds m g a b) as (m1 & H1 & Hm1); auto.
  { rewrite <- (Z.add_0_r a). apply Ho. simpl. lia. }
  destruct (IH m1 (<[a := b]> g) (a + 1)) as (m' & H' & Hm'); auto.
  { apply owned_insert. apply owned_tail in Ho. simpl in Ho.
    by replace (Z.of_nat (S (length bs)) - 1) with (Z.of_nat (length bs)) in Ho by lia. }
  exists m'. split; [|done]. cbn [store_bytes]. rewrite H1. by rb.
Qed.

(** Several assignments in a row, and the bytes they leave. *)
Fixpoint stores (m : M) (ws : list (Z * list Z)) : res M :=
  match ws with
  | [] => Ok m
  | w :: r => m ← store_bytes m w.1 w.2; stores m r
  end.

Definition written (g : gmap Z Z) (ws : list (Z * list Z)) : gmap Z Z :=
  foldl (λ g w, write_bytes g w.1 w.2) g ws.

Lemma stores_holds ws m g :
  holds m g →
  Forall (λ w : Z * list Z, Forall (λ b, 0 ≤ b < 256) w.2 ∧ owned g w.1 (Z.of_nat (length w.2))) ws →
  ∃ m', stores m ws = Ok m' ∧ holds m' (written g ws).
Proof.
  revert m g. induction ws as [|[a bs] ws IH]; intros m g Hm Hws; [by exists m|].
  apply Forall_cons in Hws as [[Hb Ho] Hws]. simpl in Hb, Ho.
  destruct (store_bytes_holds bs Hb m g a) as (m1 & H1 & Hm1); auto.
  destruct (IH m1 (write_bytes g a bs)) as (m' & H' & Hm'); auto.
  { eapply Forall_impl; [exact Hws|]. intros [c cs] [? ?]. split; [done|].
    by apply owned_write_bytes. }
  exists m'. split; [|done]. cbn [stores fst snd]. rewrite H1. by rb.
Qed.

Lemma owned_sub g a n b k : owned g a n → a ≤ b → b + k ≤ a + n → owned g b k.
Proof.
  intros Ho Hab Hbk i Hi. replace (b + i) with (a + (b - a + i)) by lia. apply Ho. lia.
Qed.

Definition tss_stores (tss : Z) : list (Z * list Z) :=
  [ (tss + TSS_SS0, le32 SELECTOR_K_STACK); (tss + TSS_IO_BASE, le32 TSS_SIZE);
    (0xc0000923, desc_bytes (make_gdt_desc tss (TSS_SIZE - 1) TSS_ATTR_LOW TSS_ATTR_HIGH));
    (0xc000092b, desc_bytes (make_gdt_desc 0 0xfffff GDT_CODE_ATTR_LOW_DPL3 GDT_ATTR_HIGH));
    (0xc0000933, desc_bytes (make_gdt_desc 0 0xfffff GDT_DATA_ATTR_LOW_DPL3 GDT_ATTR_HIGH)) ].

Lemma tss_init_eq m tss :
  tss_init m tss
  = (m ← memset m tss 0 TSS_SIZE; m ← stores m (tss_stores tss); Ok (m, gdt_operand, SELECTOR_TSS)).
Proof.
  unfold tss_init, tss_stores. cbv zeta. cbn [stores fst snd].
  destruct (memset m tss 0 TSS_SIZE); [rb|done..].
  do 5 (destruct (store_bytes _ _ _); [rb|done..]). done.
Qed.

Lemma tss_stores_owned g tss :
  owned g tss TSS_SIZE → owned g 0xc0000923 24 → 0 < tss → tss + TSS_SIZE ≤ 2 ^ 32 →
  Forall (λ w : Z * list Z, Forall (λ b, 0 ≤ b < 256) w.2 ∧ owned g w.1 (Z.of_nat (length w.2)))
    (tss_stores tss).
Proof.
  intros Ho Hg H0 Htop. unfold TSS_SIZE in *.
  unfold tss_stores. rewrite !Forall_cons, Forall_nil. split_and!; cbn [fst snd];
    try apply le32_range; try done;
    try (apply desc_bytes_range; done || (unfold TSS_SIZE; lia));
    unfold TSS_SS0, TSS_IO_BASE; simpl;
    first [apply (owned_sub _ tss 108); [done|lia|lia]
          |apply (owned_sub _ 0xc0000923 24); [done|lia|lia]].
Qed.

Lemma tss_init_holds m g tss :
  holds m g → owned g tss TSS_SIZE → owned g 0xc0000923 24 → 0 < tss → tss + TSS_SIZE ≤ 2 ^ 32 →
  ∃ m', tss_init m tss = Ok (m', gdt_operand, SELECTOR_TSS)
    ∧ holds m' (written (write_bytes g tss (replicate (Z.to_nat TSS_SIZE) 0)) (tss_stores tss)).
Proof.
  intros Hm Ho Hg H0 Htop.
  destruct (memset_holds m g tss 0 TSS_SIZE) as (m1 & H1 & Hm1); auto; [done|].
  set (g1 := write_bytes g tss _) in Hm1.
  destruct (stores_holds (tss_stores tss) m1 g1 Hm1) as (m2 & H2 & Hm2).
  { by apply tss_stores_owned; try apply owned_write_bytes. }
  exists m2. split; [|exact Hm2].
  rewrite tss_init_eq. unfold TSS_SIZE in *. rewrite H1. rb. rewrite H2. by rb.
Qed.

(** C39: [tss_init] fills the task state segment and three descriptors, which the
    processor finds where the operand of lgdt and the selectors say: the
    segment itself at the address of [tss] for [SELECTOR_TSS], and flat user
    code and data segments of privilege 3 for the two user selectors.  The
    limit of the task state segment is 108 pages, not the 108 bytes of the
    structure whose last offset the code passes, because its attributes set the
    granularity bit. *)
Theorem tss_init_descriptors m g tss :
  holds m g → owned g tss TSS_SIZE → owned g 0xc0000923 24 →
  0 < tss → tss + TSS_SIZE ≤ 2 ^ 32 →
  tss + TSS_SIZE ≤ 0xc0000923 ∨ 0xc000093b ≤ tss →
  ∃ m' g' op sel bt bc bd,
    tss_init m tss = Ok (m', op, sel) ∧ holds m' g'
    ∧ lgdt_limit op = 55 ∧ sel = SELECTOR_TSS
    ∧ bytes_at g' (desc_addr op sel) bt
    ∧ decode_desc bt = Some (Segment tss (TSS_SIZE * 4096 - 1) 0 9 true)
    ∧ bytes_at g' (desc_addr op SELECTOR_U_CODE) bc
    ∧ decode_desc bc = Some (Segment 0 (2 ^ 32 - 1) 3 0x18 true)
    ∧ bytes_at g' (desc_addr op SELECTOR_U_DATA) bd
    ∧ decode_desc bd = Some (Segment 0 (2 ^ 32 - 1) 3 0x12 true)
    ∧ bytes_at g' (tss + TSS_SS0) (le32 SELECTOR_K_STACK)
    ∧ bytes_at g' (tss + TSS_IO_BASE) (le32 TSS_SIZE).
Proof.
  intros Hm Ho Hg H0 Htop Hd.
  destruct (tss_init_holds m g tss) as (m2 & H2 & Hm2); auto.
  set (g1 := write_bytes g tss _) in Hm2.
  exists m2, (written g1 (tss_stores tss)), gdt_operand, SELECTOR_TSS,
    (desc_bytes (make_gdt_desc tss (TSS_SIZE - 1) TSS_ATTR_LOW TSS_ATTR_HIGH)),
    (desc_bytes (make_gdt_desc 0 0xfffff GDT_CODE_ATTR_LOW_DPL3 GDT_ATTR_HIGH)),
    (desc_bytes (make_gdt_desc 0 0xfffff GDT_DATA_ATTR_LOW_DPL3 GDT_ATTR_HIGH)).
  unfold TSS_SIZE in *. unfold written, tss_stores. cbn [foldl fst snd].
  split_and!; try done.
  - change (desc_addr gdt_operand SELECTOR_TSS) with 0xc0000923.
    do 2 (apply bytes_at_write_other; [|simpl; lia]). apply bytes_at_write_bytes.
  - by rewrite decode_make by (done || (unfold TSS_SIZE; lia)).
  - change (desc_addr gdt_operand SELECTOR_U_CODE) with 0xc000092b.
    apply bytes_at_write_other; [|simpl; lia]. apply bytes_at_write_bytes.
  - change (desc_addr gdt_operand SELECTOR_U_DATA) with 0xc0000933. apply bytes_at_write_bytes.
  - unfold TSS_SS0, TSS_IO_BASE.
    do 4 (apply bytes_at_write_other; [|simpl; lia]). apply bytes_at_write_bytes.
  - unfold TSS_IO_BASE. do 3 (apply bytes_at_write_other; [|simpl; lia]). apply bytes_at_write_bytes.
Qed.
End holds.

Module TssRuns.
(** A flat memory with the segment at 0xc0007000 and the table's upper half. *)
Definition mem : gmap Z Z :=
  write_bytes (write_bytes ∅ 0xc0007000 (replicate 108 85)) 0xc0000923 (replicate 24 170).

Lemma tss_init_descriptors_witness :
  ∃ m' g' op sel bt, tss_init mem 0xc0007000 = Ok (m', op, sel) ∧ lgdt_limit op = 55
    ∧ bytes_at g' (desc_addr op sel) bt ∧ decode_desc bt = Some (Segment 0xc0007000 0x6bfff 0 9 true).
Proof.
  destruct (tss_init_descriptors (M := gmap Z Z) mem mem 0xc0007000)
    as (m' & g' & op & sel & bt & bc & bd & H1 & _ & H2 & _ & H3 & H4 & _).
  - apply flat_holds. vm_compute. reflexivity.
  - apply ownedb_ok. vm_compute. reflexivity.
  - apply ownedb_ok. vm_compute. reflexivity.
  - lia.
  - unfold TSS_SIZE. lia.
  - right. lia.
  - exists m', g', op, sel, bt. split; [exact H1|]. split; [exact H2|]. split; [exact H3|exact H4].
Defined.
End TssRuns.
