(* ===== verification/Elf.v ===== *)
(** [kernel_init] and [mem_cpy] of boot/loader.S: the segments of the kernel's
    ELF file go from the copy of the file to the addresses they are linked
    for.  Over any memory, against a reading of the program headers. *)
From S2P Require Import Prelude ByteMem CString Tss.

(** * Data (include/boot.inc) *)

Definition KERNEL_BIN_BASE_ADDR : Z := 0x70000.
Definition PT_NULL : Z := 0.

(** Return addresses of the loader's calls, which the assembler fixes. *)
Class LoaderSyms := { ret_rd_disk : Z; ret_setup_page : Z; ret_kernel_init : Z; ret_mem_cpy : Z }.

(** * Operations *)

Section elf.
Context `{!LoaderSyms} {M : Type} `{!ByteMem M}.

Definition ld16 (m : M) (a : Z) : res Z :=
  b0 ← load8 m a; b1 ← load8 m (a + 1); Ok (b0 + 2 ^ 8 * b1).

Definition ld32 (m : M) (a : Z) : res Z :=
  lo ← ld16 m a; hi ← ld16 m (a + 2); Ok (lo + 2 ^ 16 * hi).

Definition push (m : M) (esp v : Z) : res (M * Z) :=
  let esp := u32 (esp - 4) in m ← store_bytes m esp (le32 v); Ok (m, esp).

Definition pop (m : M) (esp : Z) : res (Z * Z) :=
  v ← ld32 m esp; Ok (v, u32 (esp + 4)).

(** [rep movsb] copies as the loop of [memcpy] does, forward and byte by
    byte. *)
Definition rep_movsb (m : M) (edi esi ecx : Z) : res M := memcpy_loop m edi esi (Z.to_nat ecx).

(** From the return address on top of the stack to the [ret] that takes it. *)
Definition mem_cpy (m : M) (esp ebp ecx : Z) : res (M * Z * Z * Z * Z) :=
  '(m, esp) ← push m esp ebp;
  let ebp := esp in
  '(m, esp) ← push m esp ecx;
  edi ← ld32 m (u32 (ebp + 8));
  esi ← ld32 m (u32 (ebp + 12));
  ecx ← ld32 m (u32 (ebp + 16));
  m ← rep_movsb m edi esi ecx;
  '(ecx, esp) ← pop m esp;
  '(ebp, esp) ← pop m esp;
  '(eip, esp) ← pop m esp;
  Ok (m, esp, ebp, ecx, eip).

(** The call for the program header at [ebx]; a return to another address is
    lost. *)
Definition copy_segment (m : M) (ebx ecx esp ebp : Z) : res (M * Z * Z * Z) :=
  size ← ld32 m (u32 (ebx + 16));
  '(m, esp) ← push m esp size;
  eax ← ld32 m (u32 (ebx + 4));
  let eax := u32 (eax + KERNEL_BIN_BASE_ADDR) in
  '(m, esp) ← push m esp eax;
  dst ← ld32 m (u32 (ebx + 8));
  '(m, esp) ← push m esp dst;
  '(m, esp) ← push m esp ret_mem_cpy;
  '(m, esp, ebp, ecx, eip) ← mem_cpy m esp ebp ecx;
  if eip =? ret_mem_cpy then Ok (m, ecx, u32 (esp + 12), ebp) else Fault.

Definition each_segment (edx : Z) (st : M * Z * Z * Z * Z)
    : res (M * Z * Z * Z * Z + M * Z * Z) :=
  let '(m, ebx, ecx, esp, ebp) := st in
  type ← load8 m ebx;
  '(m, ecx, esp, ebp) ←
    (if type =? PT_NULL then Ok (m, ecx, esp, ebp) else copy_segment m ebx ecx esp ebp);
  let ebx := u32 (ebx + edx) in
  let ecx := u32 (ecx - 1) in
  Ok (if ecx =? 0 then inr (m, esp, ebp) else inl (m, ebx, ecx, esp, ebp)).

(** The memory, the stack pointer after [ret] and the address it returns to. *)
Definition kernel_init (m : M) (esp ebp : Z) : res (M * Z * Z) :=
  edx ← ld16 m (KERNEL_BIN_BASE_ADDR + 42);
  ebx ← ld32 m (KERNEL_BIN_BASE_ADDR + 28);
  let ebx := u32 (ebx + KERNEL_BIN_BASE_ADDR) in
  ecx ← ld16 m (KERNEL_BIN_BASE_ADDR + 44);
  '(m, esp, ebp) ← while_ (each_segment edx) LOOP_FUEL (m, ebx, ecx, esp, ebp);
  '(eip, esp) ← pop m esp;
  Ok (m, esp, eip).
End elf.

(** * The file format *)

(** Little-endian numbers in a file. *)
Definition byte_at (img : list Z) (off : Z) : Z := default 0 (img !! Z.to_nat off).
Definition half_at (img : list Z) (off : Z) : Z := byte_at img off + 2 ^ 8 * byte_at img (off + 1).
Definition word_at (img : list Z) (off : Z) : Z := half_at img off + 2 ^ 16 * half_at img (off + 2).

Definition e_entry (img : list Z) : Z := word_at img 24.
Definition e_phoff (img : list Z) : Z := word_at img 28.
Definition e_phentsize (img : list Z) : Z := half_at img 42.
Definition e_phnum (img : list Z) : Z := half_at img 44.

Record phdr := Phdr {
  p_type : Z; p_offset : Z; p_vaddr : Z; p_paddr : Z; p_filesz : Z; p_memsz : Z;
}.

Definition phdr_at (img : list Z) (off : Z) : phdr :=
  Phdr (word_at img off) (word_at img (off + 4)) (word_at img (off + 8)) (word_at img (off + 12))
       (word_at img (off + 16)) (word_at img (off + 20)).

Definition phdr_off (img : list Z) (i : Z) : Z := e_phoff img + i * e_phentsize img.
Definition phdrs (img : list Z) : list phdr :=
  (λ i, phdr_at img (phdr_off img i)) <$> seqZ 0 (e_phnum img).

Definition segment_bytes (img : list Z) (ph : phdr) : list Z :=
  take (Z.to_nat (p_filesz ph)) (drop (Z.to_nat (p_offset ph)) img).

(** The code looks at one byte of the type, and loads every kind but null. *)
Definition is_loaded (ph : phdr) : bool := negb (p_type ph mod 256 =? PT_NULL).

Definition load_segment (img : list Z) (g : gmap Z Z) (ph : phdr) : gmap Z Z :=
  if is_loaded ph then write_bytes g (p_vaddr ph) (segment_bytes img ph) else g.

Definition load_segments (img : list Z) (g : gmap Z Z) (phs : list phdr) : gmap Z Z :=
  foldl (load_segment img) g phs.

(** A file whose headers and segments lie inside it. *)
Definition elf_file (img : list Z) : bool :=
  forallb (λ b, (0 <=? b) && (b <? 256)) img
  && (52 <=? Z.of_nat (length img)) && (Z.of_nat (length img) <? 2 ^ 31)
  && (1 <=? e_phnum img)
  && (phdr_off img (e_phnum img - 1) + 32 <=? Z.of_nat (length img))
  && forallb (λ ph, p_offset ph + p_filesz ph <=? Z.of_nat (length img)) (phdrs img).

(** Where a loaded segment may go: clear of the area [[lo, hi)]. *)
Definition clear_of (lo hi : Z) (ph : phdr) : bool :=
  negb (is_loaded ph)
  || ((p_vaddr ph + p_filesz ph <=? lo) || (hi <=? p_vaddr ph)) && (p_vaddr ph + p_filesz ph <=? 2 ^ 32).

(** * Proofs *)

Section image.
Context {M : Type} `{!ByteMem M, !ByteMemSpec M}.

Lemma byte_at_lookup img off :
  0 ≤ off < Z.of_nat (length img) → img !! Z.to_nat off = Some (byte_at img off).
Proof.
  intros Ho. unfold byte_at. destruct (lookup_lt_is_Some_2 img (Z.to_nat off)) as [b ->]; [lia|done].
Qed.

Lemma load8_image (m : M) g base img off :
  holds m g → bytes_at g base img → 0 ≤ off < Z.of_nat (length img) →
  load8 m (base + off) = Ok (byte_at img off).
Proof.
  intros Hm Hb Ho. pose proof (Hb _ _ (byte_at_lookup img off Ho)) as Hg.
  rewrite Z2Nat.id in Hg by lia. by apply (load8_holds m g).
Qed.

Lemma ld16_image (m : M) g base img off :
  holds m g → bytes_at g base img → 0 ≤ off → off + 2 ≤ Z.of_nat (length img) →
  ld16 m (base + off) = Ok (half_at img off).
Proof.
  intros Hm Hb Ho Hl. unfold ld16, half_at. rewrite (load8_image m g base img) by (done || lia). rb.
  rewrite <- Z.add_assoc. by rewrite (load8_image m g base img) by (done || lia).
Qed.

Lemma ld32_image (m : M) g base img off :
  holds m g → bytes_at g base img → 0 ≤ off → off + 4 ≤ Z.of_nat (length img) →
  ld32 m (base + off) = Ok (word_at img off).
Proof.
  intros Hm Hb Ho Hl. unfold ld32, word_at. rewrite (ld16_image m g base img) by (done || lia). rb.
  rewrite <- Z.add_assoc. by rewrite (ld16_image m g base img) by (done || lia).
Qed.

Lemma word_at_le32 v r : 0 ≤ v < 2 ^ 32 → word_at (le32 v ++ r) 0 = v.
Proof. intros Hv. unfold word_at, half_at, byte_at. simpl. zdm. Qed.

(** A word on top of the stack. *)
Lemma ld32_top (m : M) g a v r :
  holds m g → bytes_at g a (le32 v ++ r) → 0 ≤ v < 2 ^ 32 → ld32 m a = Ok v.
Proof.
  intros Hm Hb Hv. rewrite <- (Z.add_0_r a), (ld32_image m g a (le32 v ++ r)), word_at_le32; try done.
  rewrite length_app. simpl. lia.
Qed.

(** * The stack

    [stacked lo hi g0 g esp st]: [g] is [g0] outside the stack's area
    [[lo, hi)], with the bytes [st] on the stack. *)

Definition stacked (lo hi : Z) (g0 g : gmap Z Z) (esp : Z) (st : list Z) : Prop :=
  (lo ≤ esp ∧ esp + Z.of_nat (length st) ≤ hi) ∧ owned g lo (hi - lo) ∧ bytes_at g esp st
  ∧ ∀ a, ¬ lo ≤ a < hi → g !! a = g0 !! a.

Lemma stacked_image lo hi g0 g esp st base img :
  stacked lo hi g0 g esp st → base + Z.of_nat (length img) ≤ lo ∨ hi ≤ base →
  bytes_at g0 base img → bytes_at g base img.
Proof.
  intros (_ & _ & _ & Heq) Hd Hb i v Hi. pose proof (lookup_lt_Some _ _ _ Hi).
  rewrite Heq by lia. by apply Hb.
Qed.

Lemma bytes_at_write_same g a bs b cs :
  bytes_at g b cs → b = a + Z.of_nat (length bs) → bytes_at (write_bytes g a bs) a (bs ++ cs).
Proof.
  intros Hc ->. apply bytes_at_app. split; [apply bytes_at_write_bytes|].
  apply bytes_at_write_other; [done|lia].
Qed.

Lemma push_holds lo hi g0 (m : M) g esp st v :
  holds m g → stacked lo hi g0 g esp st → 0 ≤ lo → hi < 2 ^ 32 → lo + 4 ≤ esp →
  ∃ m' g', push m esp v = Ok (m', esp - 4) ∧ holds m' g'
    ∧ stacked lo hi g0 g' (esp - 4) (le32 v ++ st).
Proof.
  intros Hm (He & Ho & Hb & Heq) Hlo Hhi Hroom. unfold push. rewrite u32_small by lia. cbv zeta.
  destruct (store_bytes_holds (le32 v) (le32_range v) m g (esp - 4) Hm) as (m' & -> & Hm').
  { apply (owned_sub _ lo (hi - lo)); [done|lia|simpl; lia]. }
  rb. eexists m', _. split; [done|]. split; [exact Hm'|].
  split; [rewrite length_app; simpl; lia|]. split_and!.
  - by apply owned_write_bytes.
  - apply (bytes_at_write_same _ _ _ esp); [done|simpl; lia].
  - intros a Ha. rewrite <- Heq by done. destruct (decide (a < esp - 4)).
    + by apply lookup_write_bytes_lt.
    + apply lookup_write_bytes_ge. simpl. lia.
Qed.

Lemma pop_holds lo hi g0 (m : M) g esp st v :
  holds m g → stacked lo hi g0 g esp (le32 v ++ st) → 0 ≤ v < 2 ^ 32 →
  0 ≤ lo → hi < 2 ^ 32 →
  pop m esp = Ok (v, esp + 4) ∧ stacked lo hi g0 g (esp + 4) st.
Proof.
  intros Hm (He & Ho & Hb & Heq) Hv Hlo Hhi. rewrite length_app in He. simpl in He. unfold pop.
  rewrite (ld32_top m g esp v st) by done. rb. rewrite u32_small by lia. split; [done|].
  split; [lia|]. split_and!; [done| |done]. by apply bytes_at_app in Hb as [_ Hb].
Qed.

(** A word further down the stack. *)
Lemma stacked_word lo hi g0 (m : M) g esp st v r off :
  holds m g → stacked lo hi g0 g esp (st ++ le32 v ++ r) → 0 ≤ v < 2 ^ 32 →
  off = Z.of_nat (length st) → ld32 m (esp + off) = Ok v.
Proof.
  intros Hm (_ & _ & Hb & _) Hv ->. apply bytes_at_app in Hb as [_ Hb]. by apply (ld32_top m g _ v r).
Qed.
End image.

(** * One segment *)

Section segment.
Context `{!LoaderSyms} {M : Type} `{!ByteMem M, !ByteMemSpec M}.
Context (img : list Z) (lo hi : Z).
Context (Hbytes : Forall (λ b, 0 ≤ b < 256) img) (Hlen : Z.of_nat (length img) < 2 ^ 31).
Context (Hlo : 0 ≤ lo) (Hhi : hi < 2 ^ 32).
Context (Hapart : KERNEL_BIN_BASE_ADDR + Z.of_nat (length img) ≤ lo ∨ hi ≤ KERNEL_BIN_BASE_ADDR).
Context (Hret : 0 ≤ ret_mem_cpy < 2 ^ 32).

Lemma byte_at_range off : 0 ≤ byte_at img off < 256.
Proof.
  unfold byte_at. destruct (img !! _) as [b|] eqn:E; simpl; [|lia].
  by apply (Forall_lookup_1 _ _ _ _ Hbytes E).
Qed.

Lemma half_at_range off : 0 ≤ half_at img off < 2 ^ 16.
Proof.
  unfold half_at. pose proof (byte_at_range off). pose proof (byte_at_range (off + 1)). lia.
Qed.

Lemma word_at_range off : 0 ≤ word_at img off < 2 ^ 32.
Proof.
  unfold word_at. pose proof (half_at_range off). pose proof (half_at_range (off + 2)). lia.
Qed.

Lemma phdrs_range q : q ∈ phdrs img → 0 ≤ p_offset q ∧ 0 ≤ p_filesz q.
Proof.
  intros [j [-> _]]%list_elem_of_fmap. pose proof (word_at_range (phdr_off img j + 4)).
  pose proof (word_at_range (phdr_off img j + 16)). simpl. lia.
Qed.

Lemma length_segment ph :
  0 ≤ p_offset ph → 0 ≤ p_filesz ph → p_offset ph + p_filesz ph ≤ Z.of_nat (length img) →
  length (segment_bytes img ph) = Z.to_nat (p_filesz ph).
Proof. intros. unfold segment_bytes. rewrite length_take, length_drop. lia. Qed.

Lemma segment_at g base ph :
  bytes_at g base img → 0 ≤ p_offset ph → bytes_at g (base + p_offset ph) (segment_bytes img ph).
Proof.
  intros Hb Ho i v Hi. unfold segment_bytes in Hi. apply lookup_take_Some in Hi as [Hi _].
  rewrite lookup_drop in Hi. apply Hb in Hi. rewrite <- Hi. f_equal. lia.
Qed.

(** Writing a segment clear of the stack's area. *)
Lemma stacked_write g0 g esp st a bs :
  stacked lo hi g0 g esp st → a + Z.of_nat (length bs) ≤ lo ∨ hi ≤ a →
  stacked lo hi (write_bytes g0 a bs) (write_bytes g a bs) esp st.
Proof.
  intros (He & Ho & Hb & Heq) Hd. split; [done|]. split_and!.
  - by apply owned_write_bytes.
  - apply bytes_at_write_other; [done|lia].
  - intros b Hb'. destruct (decide (b < a)); [rewrite !lookup_write_bytes_lt by done; auto|].
    destruct (decide (a + Z.of_nat (length bs) ≤ b));
      [rewrite !lookup_write_bytes_ge by done; auto|].
    destruct (lookup_lt_is_Some_2 bs (Z.to_nat (b - a))) as [v Hv]; [lia|].
    replace b with (a + Z.of_nat (Z.to_nat (b - a))) by lia.
    by rewrite !(lookup_write_bytes_in _ _ _ _ v).
Qed.

Lemma owned_same g g' a n : (∀ i, 0 ≤ i < n → g' !! (a + i) = g !! (a + i)) → owned g a n → owned g' a n.
Proof. intros He Ho i Hi. rewrite He by done. by apply Ho. Qed.

(** The copy itself, with the arguments on the stack. *)
Lemma mem_cpy_holds (m : M) g0 g esp st ebp ecx ph :
  let seg := segment_bytes img ph in
  holds m g →
  stacked lo hi g0 g esp (le32 ret_mem_cpy ++ le32 (p_vaddr ph)
    ++ le32 (KERNEL_BIN_BASE_ADDR + p_offset ph) ++ le32 (p_filesz ph) ++ st) →
  0 ≤ p_offset ph < 2 ^ 31 → 0 ≤ p_vaddr ph < 2 ^ 32 → 0 ≤ p_filesz ph < 2 ^ 32 →
  0 ≤ ebp < 2 ^ 32 → 0 ≤ ecx < 2 ^ 32 → lo + 8 ≤ esp →
  p_offset ph + p_filesz ph ≤ Z.of_nat (length img) → bytes_at g0 KERNEL_BIN_BASE_ADDR img →
  owned g0 (p_vaddr ph) (p_filesz ph) → p_vaddr ph + p_filesz ph ≤ 2 ^ 32 →
  p_vaddr ph + p_filesz ph ≤ lo ∨ hi ≤ p_vaddr ph →
  p_vaddr ph + p_filesz ph ≤ KERNEL_BIN_BASE_ADDR
    ∨ KERNEL_BIN_BASE_ADDR + Z.of_nat (length img) ≤ p_vaddr ph →
  ∃ m' g', mem_cpy m esp ebp ecx = Ok (m', esp + 4, ebp, ecx, ret_mem_cpy) ∧ holds m' g'
    ∧ stacked lo hi (write_bytes g0 (p_vaddr ph) seg) g' (esp + 4)
        (le32 (p_vaddr ph) ++ le32 (KERNEL_BIN_BASE_ADDR + p_offset ph) ++ le32 (p_filesz ph) ++ st).
Proof.
  intros seg Hm Hst Hoff Hva Hsz Hebp Hecx Hroom Hin Himg Hown Htop Hd1 Hd2.
  pose proof (length_segment ph) as Hls. fold seg in Hls.
  pose proof Hst as ((Hesp & Hesp') & _). rewrite !length_app in Hesp'. simpl in Hesp'.
  unfold mem_cpy. destruct (push_holds lo hi g0 m g esp _ ebp Hm Hst) as (m1 & g1 & -> & Hm1 & Hs1); [lia..|].
  rb. destruct (push_holds lo hi g0 m1 g1 (esp - 4) _ ecx Hm1 Hs1) as (m2 & g2 & -> & Hm2 & Hs2); [lia..|].
  rb. rewrite !u32_small by lia.
  replace (esp - 4 + 8) with (esp - 4 - 4 + 12) by lia.
  rewrite (stacked_word lo hi g0 m2 g2 (esp - 4 - 4) (le32 ecx ++ le32 ebp ++ le32 ret_mem_cpy) (p_vaddr ph)
    (le32 (KERNEL_BIN_BASE_ADDR + p_offset ph) ++ le32 (p_filesz ph) ++ st) 12) by (exact Hs2 || done). rb.
  replace (esp - 4 + 12) with (esp - 4 - 4 + 16) by lia.
  rewrite (stacked_word lo hi g0 m2 g2 (esp - 4 - 4)
    (le32 ecx ++ le32 ebp ++ le32 ret_mem_cpy ++ le32 (p_vaddr ph))
    (KERNEL_BIN_BASE_ADDR + p_offset ph) (le32 (p_filesz ph) ++ st) 16)
    by (exact Hs2 || done || unfold KERNEL_BIN_BASE_ADDR; lia). rb.
  replace (esp - 4 + 16) with (esp - 4 - 4 + 20) by lia.
  rewrite (stacked_word lo hi g0 m2 g2 (esp - 4 - 4) (le32 ecx ++ le32 ebp ++ le32 ret_mem_cpy
    ++ le32 (p_vaddr ph) ++ le32 (KERNEL_BIN_BASE_ADDR + p_offset ph)) (p_filesz ph) st 20) by (exact Hs2 || done). rb.
  unfold rep_movsb. rewrite <- Hls by lia.
  assert (Hsrc : bytes_at g2 (KERNEL_BIN_BASE_ADDR + p_offset ph) seg).
  { apply segment_at; [|lia]. by apply (stacked_image lo hi g0 g2 _ _ _ _ Hs2). }
  destruct (memcpy_loop_holds m2 g2 (p_vaddr ph) (KERNEL_BIN_BASE_ADDR + p_offset ph) seg)
    as (m3 & E3 & Hm3); [done| |done|unfold KERNEL_BIN_BASE_ADDR in *; lia..|].
  { apply (owned_same g0); [|rewrite Hls, Z2Nat.id by lia; done].
    intros i Hi. pose proof Hs2 as (_ & _ & _ & Heq). apply Heq. lia. }
  rewrite E3. rb. apply (stacked_write _ _ _ _ (p_vaddr ph) seg) in Hs2; [|lia].
  destruct (pop_holds lo hi _ m3 _ _ _ ecx Hm3 Hs2) as [-> Hs4]; [done|lia|lia|]. rb.
  destruct (pop_holds lo hi _ m3 _ _ _ ebp Hm3 Hs4) as [-> Hs5]; [done|lia|lia|]. rb.
  destruct (pop_holds lo hi _ m3 _ _ _ ret_mem_cpy Hm3 Hs5) as [-> Hs6]; [done|lia|lia|]. rb.
  replace (esp - 4 - 4 + 4 + 4 + 4) with (esp + 4) in * by lia. by eexists m3, _.
Qed.

(** A segment that may be loaded into [g0]. *)
Record loadable (g0 : gmap Z Z) (ph : phdr) : Prop := {
  lo_inside : p_offset ph + p_filesz ph ≤ Z.of_nat (length img);
  lo_owned : owned g0 (p_vaddr ph) (p_filesz ph);
  lo_top : p_vaddr ph + p_filesz ph ≤ 2 ^ 32;
  lo_stack : p_vaddr ph + p_filesz ph ≤ lo ∨ hi ≤ p_vaddr ph;
  lo_image : p_vaddr ph + p_filesz ph ≤ KERNEL_BIN_BASE_ADDR
    ∨ KERNEL_BIN_BASE_ADDR + Z.of_nat (length img) ≤ p_vaddr ph;
}.

Lemma copy_segment_holds (m : M) g0 g esp st ebp ecx off :
  let ph := phdr_at img off in
  holds m g → stacked lo hi g0 g esp st → bytes_at g0 KERNEL_BIN_BASE_ADDR img → loadable g0 ph →
  0 ≤ off → off + 32 ≤ Z.of_nat (length img) →
  0 ≤ ebp < 2 ^ 32 → 0 ≤ ecx < 2 ^ 32 → lo + 24 ≤ esp →
  ∃ m' g', copy_segment m (KERNEL_BIN_BASE_ADDR + off) ecx esp ebp = Ok (m', ecx, esp, ebp)
    ∧ holds m' g'
    ∧ stacked lo hi (write_bytes g0 (p_vaddr ph) (segment_bytes img ph)) g' esp st.
Proof.
  intros ph Hm Hst Himg Hl Hoff Hoff' Hebp Hecx Hroom.
  pose proof (word_at_range (off + 4)) as Ho. pose proof (word_at_range (off + 8)) as Hv.
  pose proof (word_at_range (off + 16)) as Hs. pose proof (lo_inside _ _ Hl) as Hin. simpl in Hin.
  pose proof Hst as ((Hesp & Hesp') & _).
  assert (Hrd : ∀ m1 g1 e1 st1 o, holds m1 g1 → stacked lo hi g0 g1 e1 st1 → 0 ≤ o ≤ 28 →
    ld32 m1 (u32 (KERNEL_BIN_BASE_ADDR + off + o)) = Ok (word_at img (off + o))).
  { intros m1 g1 e1 st1 o Hm1 Hs1 Ho1. rewrite u32_small by (unfold KERNEL_BIN_BASE_ADDR; lia).
    rewrite <- Z.add_assoc. apply (ld32_image m1 g1); [done| |lia..].
    by apply (stacked_image lo hi g0 g1 e1 st1). }
  unfold copy_segment. rewrite (Hrd m g esp st 16 Hm Hst) by lia. rb.
  destruct (push_holds lo hi g0 m g esp st (p_filesz ph) Hm Hst) as (m1 & g1 & E1 & Hm1 & Hs1); [lia..|].
  unfold ph in E1. simpl in E1. rewrite E1. rb. rewrite (Hrd m1 g1 _ _ 4 Hm1 Hs1) by lia.
  rb. rewrite (u32_small (_ + KERNEL_BIN_BASE_ADDR)) by (unfold KERNEL_BIN_BASE_ADDR; lia).
  rewrite (Z.add_comm _ KERNEL_BIN_BASE_ADDR).
  destruct (push_holds lo hi g0 m1 g1 (esp - 4) _ (KERNEL_BIN_BASE_ADDR + p_offset ph) Hm1 Hs1)
    as (m2 & g2 & E2 & Hm2 & Hs2); [lia..|]. unfold ph in E2. simpl in E2. rewrite E2. rb.
  rewrite (Hrd m2 g2 _ _ 8 Hm2 Hs2) by lia. rb.
  destruct (push_holds lo hi g0 m2 g2 (esp - 4 - 4) _ (p_vaddr ph) Hm2 Hs2)
    as (m3 & g3 & E3 & Hm3 & Hs3); [lia..|]. unfold ph in E3. simpl in E3. rewrite E3. rb.
  destruct (push_holds lo hi g0 m3 g3 (esp - 4 - 4 - 4) _ ret_mem_cpy Hm3 Hs3)
    as (m4 & g4 & E4 & Hm4 & Hs4); [lia..|]. rewrite E4. rb.
  destruct (mem_cpy_holds m4 g0 g4 (esp - 4 - 4 - 4 - 4) st ebp ecx ph) as (m5 & g5 & E5 & Hm5 & Hs5);
    try (by apply Hl); try (simpl; lia); try done.
  rewrite E5. rb. rewrite Z.eqb_refl, (u32_small (esp - 4 - 4 - 4 - 4 + 4 + 12)) by lia.
  exists m5, g5. split; [do 3 f_equal; lia|]. split; [done|].
  destruct Hs5 as (_ & Ho5 & Hb5 & Heq5). split; [lia|]. split_and!; [done| |done].
  rewrite !bytes_at_app in Hb5. destruct Hb5 as (_ & _ & _ & Hb5).
  intros i v Hi. rewrite <- (Hb5 i v Hi). f_equal. simpl length. lia.
Qed.

(** * All segments *)

Lemma loadable_write g0 ph a bs : loadable g0 ph → loadable (write_bytes g0 a bs) ph.
Proof. intros []. split; auto. by apply owned_write_bytes. Qed.

Lemma loadable_load g0 ph phs : loadable g0 ph → loadable (load_segments img g0 phs) ph.
Proof.
  unfold load_segments. revert g0. induction phs as [|q phs IH]; intros g0 Hl; [done|]. simpl.
  apply IH. unfold load_segment. case_match; [by apply loadable_write|done].
Qed.

Lemma image_load g0 phs :
  bytes_at g0 KERNEL_BIN_BASE_ADDR img →
  (∀ ph, ph ∈ phs → is_loaded ph = true → 0 ≤ p_offset ph ∧ 0 ≤ p_filesz ph ∧ loadable g0 ph) →
  bytes_at (load_segments img g0 phs) KERNEL_BIN_BASE_ADDR img.
Proof.
  unfold load_segments. revert g0. induction phs as [|q phs IH]; intros g0 Hb Hl; [done|]. simpl.
  apply IH.
  - unfold load_segment. destruct (is_loaded q) eqn:Eq; [|done].
    destruct (Hl q) as (Hq1 & Hq2 & Hq); [by left|done|]. apply bytes_at_write_other; [done|].
    rewrite (length_segment q), Z2Nat.id by (apply Hq || lia). destruct (lo_image _ _ Hq); lia.
  - intros ph Hin Hld. destruct (Hl ph) as (? & ? & Hq); [by right|done|]. split_and!; [done..|].
    unfold load_segment. case_match; [by apply loadable_write|done].
Qed.

Section loop.
Context (g0 : gmap Z Z) (esp ebp : Z) (st : list Z).
Context (Himg : bytes_at g0 KERNEL_BIN_BASE_ADDR img) (Hebp : 0 ≤ ebp < 2 ^ 32) (Hroom : lo + 24 ≤ esp).
Context (Hnum : 1 ≤ e_phnum img) (Hend : phdr_off img (e_phnum img - 1) + 32 ≤ Z.of_nat (length img)).
Context (Hload : ∀ ph, ph ∈ phdrs img → is_loaded ph = true → loadable g0 ph).

Lemma phdrs_lookup i : 0 ≤ i < e_phnum img → phdrs img !! Z.to_nat i = Some (phdr_at img (phdr_off img i)).
Proof.
  intros Hi. unfold phdrs. rewrite list_lookup_fmap, lookup_seqZ_lt by lia. simpl.
  by rewrite Z2Nat.id by lia.
Qed.

Lemma phdr_off_range i : 0 ≤ i < e_phnum img → 0 ≤ phdr_off img i ∧ phdr_off img i + 32 ≤ Z.of_nat (length img).
Proof.
  intros Hi. unfold phdr_off in *. pose proof (word_at_range 28). pose proof (half_at_range 42).
  unfold e_phoff, e_phentsize in *. nia.
Qed.

Definition loading (i : Z) (s : M * Z * Z * Z * Z) : Prop :=
  ∃ (m : M) g, s = (m, KERNEL_BIN_BASE_ADDR + phdr_off img i, e_phnum img - i, esp, ebp)
    ∧ 0 ≤ i < e_phnum img ∧ holds m g
    ∧ stacked lo hi (load_segments img g0 (take (Z.to_nat i) (phdrs img))) g esp st.

Lemma each_segment_holds i s :
  loading i s →
  (∃ s', each_segment (e_phentsize img) s = Ok (inl s') ∧ loading (i + 1) s')
  ∨ (∃ (m : M) g, each_segment (e_phentsize img) s = Ok (inr (m, esp, ebp)) ∧ holds m g
       ∧ stacked lo hi (load_segments img g0 (phdrs img)) g esp st).
Proof.
  intros (m & g & -> & Hi & Hm & Hst). set (off := phdr_off img i). set (ph := phdr_at img off).
  destruct (phdr_off_range i Hi) as [Hoff Hoff']. fold off in Hoff, Hoff'.
  pose proof (half_at_range 44) as Hn. fold (e_phnum img) in Hn.
  pose proof (phdrs_lookup i Hi) as Hlk. fold off ph in Hlk.
  set (gi := load_segments img g0 (take (Z.to_nat i) (phdrs img))) in Hst.
  assert (Hrng : ∀ q, q ∈ phdrs img → 0 ≤ p_offset q ∧ 0 ≤ p_filesz q).
  { apply phdrs_range. }
  assert (Hbi : bytes_at gi KERNEL_BIN_BASE_ADDR img).
  { apply image_load; [done|]. intros q Hq Hld. apply (subseteq_take (Z.to_nat i)) in Hq.
    destruct (Hrng q Hq). auto. }
  assert (Ety : load8 m (KERNEL_BIN_BASE_ADDR + off) = Ok (p_type ph mod 256)).
  { rewrite (load8_image m g _ img) by (lia || done || by apply (stacked_image lo hi gi g esp st)).
    unfold ph, phdr_at, word_at, half_at. cbn [p_type]. pose proof (byte_at_range off). f_equal. zdm. }
  assert (Hstep : ∃ m' g', (if p_type ph mod 256 =? PT_NULL then Ok (m, e_phnum img - i, esp, ebp)
      else copy_segment m (KERNEL_BIN_BASE_ADDR + off) (e_phnum img - i) esp ebp)
      = Ok (m', e_phnum img - i, esp, ebp) ∧ holds m' g'
      ∧ stacked lo hi (load_segment img gi ph) g' esp st).
  { unfold load_segment, is_loaded. destruct (Z.eqb_spec (p_type ph mod 256) PT_NULL) as [E|E]; simpl.
    - by exists m, g.
    - apply copy_segment_holds with (g := g); auto with lia. apply loadable_load, Hload.
      + by eapply list_elem_of_lookup_2.
      + unfold is_loaded. apply negb_true_iff, Z.eqb_neq, E. }
  destruct Hstep as (m' & g' & E & Hm' & Hst').
  assert (El : load_segments img g0 (take (Z.to_nat (i + 1)) (phdrs img)) = load_segment img gi ph).
  { replace (Z.to_nat (i + 1)) with (S (Z.to_nat i)) by lia.
    rewrite (take_S_r _ _ ph) by done. unfold load_segments. by rewrite foldl_app. }
  unfold each_segment. rewrite Ety. rb. rewrite E. rb. rewrite (u32_small (e_phnum img - i - 1)) by lia.
  destruct (Z.eqb_spec (e_phnum img - i - 1) 0) as [E0|E0].
  - right. exists m', g'. split_and!; [done|done|]. rewrite <- El in Hst'.
    rewrite take_ge in Hst'; [done|]. unfold phdrs. rewrite length_fmap, length_seqZ. lia.
  - left. eexists. split; [done|]. exists m', g'. rewrite El. split_and!; try done; [|lia..].
    destruct (phdr_off_range (i + 1)) as [? ?]; [lia|]. unfold off, phdr_off in *.
    rewrite u32_small by (unfold KERNEL_BIN_BASE_ADDR; lia).
    replace (e_phnum img - i - 1) with (e_phnum img - (i + 1)) by lia.
    by replace (KERNEL_BIN_BASE_ADDR + (e_phoff img + i * e_phentsize img) + e_phentsize img)
      with (KERNEL_BIN_BASE_ADDR + (e_phoff img + (i + 1) * e_phentsize img)) by lia.
Qed.

(** The whole loop. *)
Lemma segments_hold (m : M) g :
  holds m g → stacked lo hi g0 g esp st →
  ∃ (m' : M) g', while_ (each_segment (e_phentsize img)) LOOP_FUEL
      (m, KERNEL_BIN_BASE_ADDR + e_phoff img, e_phnum img, esp, ebp) = Ok (m', esp, ebp)
    ∧ holds m' g' ∧ stacked lo hi (load_segments img g0 (phdrs img)) g' esp st.
Proof.
  intros Hm Hst. pose proof (half_at_range 44) as Hn. fold (e_phnum img) in Hn.
  destruct (while_total (each_segment (e_phentsize img)) (λ s, ∃ i, loading i s)
    (λ s, s.1.1.2) (λ r, ∃ m' g', r = (m', esp, ebp) ∧ holds m' g'
      ∧ stacked lo hi (load_segments img g0 (phdrs img)) g' esp st) LOOP_FUEL
    (m, KERNEL_BIN_BASE_ADDR + e_phoff img, e_phnum img, esp, ebp)) as (r & Hr & m' & g' & -> & Hm' & Hs').
  - intros s (i & Hl). pose proof Hl as (m1 & g1 & Es & Hi & _). split; [rewrite Es; simpl; lia|].
    destruct (each_segment_holds i s Hl) as [(s' & E & Hl')|(m2 & g2 & E & Hm2 & Hs2)]; [left|right].
    + exists s'. split_and!; [done|by eexists|]. destruct Hl' as (m2 & g2 & Es' & _).
      rewrite Es, Es'. simpl. lia.
    + eexists. split; [done|]. by exists m2, g2.
  - exists 0, m, g. split_and!; [|lia..|done|done]. unfold phdr_off. by rewrite Z.sub_0_r, Z.mul_0_l, Z.add_0_r.
  - rewrite LOOP_FUEL_val. simpl. lia.
  - by exists m', g'.
Qed.
End loop.
End segment.

(** * Properties *)

Section properties.
Context `{!LoaderSyms} {M : Type} `{!ByteMem M, !ByteMemSpec M}.

(** Segments clear of the stack of [kernel_init] at [esp] and of the file. *)
Definition segments_clear (img : list Z) (esp : Z) : bool :=
  forallb (λ ph, clear_of (esp - 24) (esp + 4) ph
    && clear_of KERNEL_BIN_BASE_ADDR (KERNEL_BIN_BASE_ADDR + Z.of_nat (length img)) ph) (phdrs img).

(** Two segments that do not overlap. *)
Definition disjoint_segments (p q : phdr) : Prop :=
  p_vaddr p + p_filesz p ≤ p_vaddr q ∨ p_vaddr q + p_filesz q ≤ p_vaddr p.

Lemma load_segments_at img phs : ∀ g i ph,
  phs !! i = Some ph → is_loaded ph = true →
  (∀ q, q ∈ phs → 0 ≤ p_offset q ∧ 0 ≤ p_filesz q ∧ p_offset q + p_filesz q ≤ Z.of_nat (length img)) →
  (∀ j q, (i < j)%nat → phs !! j = Some q → is_loaded q = true → disjoint_segments ph q) →
  bytes_at (load_segments img g phs) (p_vaddr ph) (segment_bytes img ph).
Proof.
  assert (Hlater : ∀ ph phs g,
    (∀ q, q ∈ ph :: phs → 0 ≤ p_offset q ∧ 0 ≤ p_filesz q ∧ p_offset q + p_filesz q ≤ Z.of_nat (length img)) →
    (∀ q, q ∈ phs → is_loaded q = true → disjoint_segments ph q) →
    bytes_at g (p_vaddr ph) (segment_bytes img ph) →
    bytes_at (load_segments img g phs) (p_vaddr ph) (segment_bytes img ph)).
  { intros ph phs'. induction phs' as [|q qs IH]; intros g Hr Hd Hb; [done|]. unfold load_segments. simpl.
    apply IH.
    { intros p Hp. apply Hr. apply elem_of_cons in Hp as [->|Hp]; [left|by do 2 right]. }
    { intros p Hp. apply Hd. by right. }
    unfold load_segment. destruct (is_loaded q) eqn:Eq; [|done].
    destruct (Hr q) as (? & ? & ?); [right; left|]. destruct (Hr ph) as (? & ? & ?); [left|].
    apply bytes_at_write_other; [done|]. rewrite !length_segment by lia.
    destruct (Hd q) as [?|?]; [left|done|lia..]. }
  induction phs as [|q qs IH]; intros g i ph Hi Hld Hr Hd; [done|].
  destruct i as [|i]; simpl in Hi.
  - injection Hi as ->. unfold load_segments. simpl. apply Hlater; [done| |].
    + intros q' [j Hj]%list_elem_of_lookup. apply (Hd (S j) q'); [lia|done].
    + unfold load_segment. rewrite Hld. apply bytes_at_write_bytes.
  - unfold load_segments. simpl. apply (IH _ i ph); [done|done|intros p Hp; apply Hr; by right|].
    intros j q' Hj. apply (Hd (S j) q'). lia.
Qed.

(** An address that no segment covers. *)
Lemma load_segments_other img a phs : ∀ g,
  (∀ q, q ∈ phs → is_loaded q = true →
     length (segment_bytes img q) = Z.to_nat (p_filesz q) ∧ 0 ≤ p_filesz q
     ∧ (a < p_vaddr q ∨ p_vaddr q + p_filesz q ≤ a)) →
  load_segments img g phs !! a = g !! a.
Proof.
  unfold load_segments. induction phs as [|q qs IH]; intros g Hq; [done|]. simpl.
  rewrite IH by (intros p Hp; apply Hq; by right). unfold load_segment.
  destruct (is_loaded q) eqn:Eq; [|done]. destruct (Hq q) as (Hl & Hf & [Ha|Ha]); [left|done|..].
  - by apply lookup_write_bytes_lt.
  - apply lookup_write_bytes_ge. lia.
Qed.

(** What the two checks say. *)
Lemma elf_file_spec img :
  elf_file img = true →
  Forall (λ b, 0 ≤ b < 256) img ∧ 52 ≤ Z.of_nat (length img) < 2 ^ 31 ∧ 1 ≤ e_phnum img
  ∧ phdr_off img (e_phnum img - 1) + 32 ≤ Z.of_nat (length img)
  ∧ ∀ q, q ∈ phdrs img → 0 ≤ p_offset q ∧ 0 ≤ p_filesz q ∧ p_offset q + p_filesz q ≤ Z.of_nat (length img).
Proof.
  unfold elf_file. rewrite !andb_true_iff, !forallb_forall. intros (((((Hb & ?) & ?) & ?) & ?) & Hin).
  assert (Hbytes : Forall (λ b, 0 ≤ b < 256) img).
  { apply Forall_forall. intros b Hb'%list_elem_of_In. specialize (Hb b Hb'). lia. }
  split_and!; [done|lia..|]. intros q Hq. pose proof (Hin q (proj1 (list_elem_of_In _ _) Hq)).
  pose proof (phdrs_range img Hbytes q Hq). lia.
Qed.

Lemma segments_clear_spec img esp ph :
  segments_clear img esp = true → ph ∈ phdrs img → is_loaded ph = true →
  p_vaddr ph + p_filesz ph ≤ 2 ^ 32
  ∧ (p_vaddr ph + p_filesz ph ≤ esp - 24 ∨ esp + 4 ≤ p_vaddr ph)
  ∧ (p_vaddr ph + p_filesz ph ≤ KERNEL_BIN_BASE_ADDR
     ∨ KERNEL_BIN_BASE_ADDR + Z.of_nat (length img) ≤ p_vaddr ph).
Proof.
  unfold segments_clear. rewrite forallb_forall. intros Hcl Hph Hld.
  specialize (Hcl ph (proj1 (list_elem_of_In _ _) Hph)). unfold clear_of in Hcl.
  rewrite Hld in Hcl. simpl in Hcl. lia.
Qed.

Lemma kernel_init_holds (m : M) g img esp ebp ret :
  holds m g → bytes_at g KERNEL_BIN_BASE_ADDR img → elf_file img = true →
  owned g (esp - 24) 28 → bytes_at g esp (le32 ret) → 24 ≤ esp → esp + 4 < 2 ^ 32 →
  Forall (λ v, 0 ≤ v < 2 ^ 32) [ret; ebp; ret_mem_cpy] →
  KERNEL_BIN_BASE_ADDR + Z.of_nat (length img) ≤ esp - 24 ∨ esp + 4 ≤ KERNEL_BIN_BASE_ADDR →
  segments_clear img esp = true →
  (∀ ph, ph ∈ phdrs img → is_loaded ph = true → owned g (p_vaddr ph) (p_filesz ph)) →
  ∃ m' g', kernel_init m esp ebp = Ok (m', esp + 4, ret) ∧ holds m' g'
    ∧ (∀ a, ¬ esp - 24 ≤ a < esp + 4 → g' !! a = load_segments img g (phdrs img) !! a).
Proof.
  intros Hm Himg Helf Hown Hret He He' Hw Hap Hcl Hdst.
  destruct (elf_file_spec img Helf) as (Hbytes & Hlen & Hnum & Hend & Hrng).
  rewrite !Forall_cons in Hw. destruct Hw as (Hwr & Hwe & Hwm & _).
  assert (Hload : ∀ ph, ph ∈ phdrs img → is_loaded ph = true → loadable img (esp - 24) (esp + 4) g ph).
  { intros ph Hph Hld. destruct (Hrng ph Hph) as (? & ? & ?).
    destruct (segments_clear_spec img esp ph Hcl Hph Hld) as (? & ? & ?). split; auto with lia. }
  assert (Hst : stacked (esp - 24) (esp + 4) g g esp (le32 ret)).
  { split; [simpl; lia|]. split_and!; [|done..]. by replace (esp + 4 - (esp - 24)) with 28 by lia. }
  destruct (segments_hold img (esp - 24) (esp + 4)) with (g0 := g) (esp := esp) (ebp := ebp)
    (st := le32 ret) (m := m) (g := g) as (m' & g' & Hr & Hm' & Hst'); auto with lia.
  exists m', g'. split_and!; [|done|apply Hst'].
  unfold kernel_init. rewrite (ld16_image m g _ img) by (done || lia). rb.
  rewrite (ld32_image m g _ img) by (done || lia). rb.
  rewrite (ld16_image m g _ img) by (done || lia). rb. fold (e_phnum img) (e_phoff img) (e_phentsize img).
  pose proof (phdr_off_range img Hbytes ltac:(lia) 0 ltac:(lia)) as [H0 H0'].
  unfold phdr_off in H0, H0'. rewrite Z.mul_0_l, Z.add_0_r in H0, H0'.
  rewrite (Z.add_comm (e_phoff img)), u32_small by (unfold KERNEL_BIN_BASE_ADDR; lia).
  rewrite Hr. rb. destruct (pop_holds (esp - 24) (esp + 4) _ m' g' esp [] ret Hm' Hst') as [-> _];
    [done|lia|lia|]. done.
Qed.

(** The bytes of a segment that no later one overlaps. *)
Lemma kernel_init_segment img g g' esp i ph :
  elf_file img = true → segments_clear img esp = true →
  (∀ a, ¬ esp - 24 ≤ a < esp + 4 → g' !! a = load_segments img g (phdrs img) !! a) →
  phdrs img !! i = Some ph → is_loaded ph = true →
  (∀ j q, (i < j)%nat → phdrs img !! j = Some q → is_loaded q = true → disjoint_segments ph q) →
  bytes_at g' (p_vaddr ph) (segment_bytes img ph).
Proof.
  intros Helf Hcl Heq Hi Hld Hd k v Hk. destruct (elf_file_spec img Helf) as (_ & _ & _ & _ & Hrng).
  pose proof (lookup_lt_Some _ _ _ Hk) as Hkl. pose proof (list_elem_of_lookup_2 _ _ _ Hi) as Hph.
  destruct (Hrng ph Hph) as (? & ? & ?). rewrite length_segment in Hkl by lia.
  destruct (segments_clear_spec img esp ph Hcl Hph Hld) as (_ & [?|?] & _); rewrite Heq by lia;
    by apply (load_segments_at img (phdrs img) g i ph).
Qed.

(** C11: [kernel_init] loads the kernel.  With a well-formed ELF file at
    0x70000 whose segments lie clear of the file and of the stack, it returns
    to its caller with the stack pointer restored, and memory is, outside the
    24 bytes of stack it used and the return address, what loading the
    segments one after the other gives: the file's bytes of each segment stand
    at its virtual address (unless a later one overlaps it), everything else is
    untouched.  In particular the bytes of a segment beyond those in the file,
    up to [p_memsz], are not cleared. *)
Theorem kernel_init_loads (m : M) g img esp ebp ret :
  holds m g → bytes_at g KERNEL_BIN_BASE_ADDR img → elf_file img = true →
  owned g (esp - 24) 28 → bytes_at g esp (le32 ret) → 24 ≤ esp → esp + 4 < 2 ^ 32 →
  Forall (λ v, 0 ≤ v < 2 ^ 32) [ret; ebp; ret_mem_cpy] →
  KERNEL_BIN_BASE_ADDR + Z.of_nat (length img) ≤ esp - 24 ∨ esp + 4 ≤ KERNEL_BIN_BASE_ADDR →
  segments_clear img esp = true →
  (∀ ph, ph ∈ phdrs img → is_loaded ph = true → owned g (p_vaddr ph) (p_filesz ph)) →
  ∃ m' g', kernel_init m esp ebp = Ok (m', esp + 4, ret) ∧ holds m' g'
    ∧ (∀ a, ¬ esp - 24 ≤ a < esp + 4 → g' !! a = load_segments img g (phdrs img) !! a)
    ∧ (∀ i ph, phdrs img !! i = Some ph → is_loaded ph = true →
         (∀ j q, (i < j)%nat → phdrs img !! j = Some q → is_loaded q = true → disjoint_segments ph q) →
         bytes_at g' (p_vaddr ph) (segment_bytes img ph)).
Proof.
  intros Hm Himg Helf Hown Hret He He' Hw Hap Hcl Hdst.
  destruct (kernel_init_holds m g img esp ebp ret) as (m' & g' & E & Hm' & Heq); auto.
  exists m', g'. split_and!; [done|done|done|]. intros i ph. by apply (kernel_init_segment img g g' esp).
Qed.
End properties.

(** * A small kernel file *)

Module ElfRuns.
#[local] Instance syms : LoaderSyms :=
  {| ret_rd_disk := 0xd01; ret_setup_page := 0xd06; ret_kernel_init := 0xd41; ret_mem_cpy := 0xe6c |}.

(** The headers of a kernel linked at 0xc0001500 with a text and a data
    segment, and eight bytes of data. *)
Definition elf_ident : list Z := [0x7f; 0x45; 0x4c; 0x46; 1; 1; 1; 0; 0; 0; 0; 0; 0; 0; 0; 0].
Definition small_kernel : list Z :=
  elf_ident ++ [2; 0; 3; 0] ++ le32 1 ++ le32 0xc0001500 ++ le32 0x34 ++ le32 0 ++ le32 0
  ++ [0x34; 0; 0x20; 0; 2; 0; 0x28; 0; 0; 0; 0; 0]
  ++ le32 1 ++ le32 0 ++ le32 0xc0001000 ++ le32 0xc0001000 ++ le32 116 ++ le32 116 ++ le32 5 ++ le32 0x1000
  ++ le32 1 ++ le32 116 ++ le32 0xc0006560 ++ le32 0xc0006560 ++ le32 8 ++ le32 0x1000 ++ le32 6 ++ le32 0x1000
  ++ [11; 12; 13; 14; 15; 16; 17; 18].

Definition mem : gmap Z Z :=
  write_bytes (write_bytes (write_bytes (write_bytes ∅ KERNEL_BIN_BASE_ADDR small_kernel)
    0xc00008d0 (replicate 44 0 ++ le32 0xd41)) 0xc0001000 (replicate 116 0)) 0xc0006560 (replicate 16 7).

Lemma kernel_init_loads_witness :
  ∃ m' g', kernel_init (M := gmap Z Z) mem 0xc00008fc 0 = Ok (m', 0xc0000900, 0xd41) ∧ holds m' g'
    ∧ bytes_at g' 0xc0006560 [11; 12; 13; 14; 15; 16; 17; 18]
    ∧ g' !! 0xc0006568 = Some 7.
Proof.
  destruct (kernel_init_loads (M := gmap Z Z) mem mem small_kernel 0xc00008fc 0 0xd41)
    as (m' & g' & E & Hh & Hg & Hs).
  - by apply flat_holds.
  - by apply bytes_atb_ok.
  - vm_compute. reflexivity.
  - apply ownedb_ok. vm_compute. reflexivity.
  - apply bytes_atb_ok. vm_compute. reflexivity.
  - lia.
  - lia.
  - rewrite !Forall_cons, Forall_nil. cbn. lia.
  - left. vm_compute. discriminate.
  - vm_compute. reflexivity.
  - assert (Ho : forallb (λ ph, ownedb mem (p_vaddr ph) (p_filesz ph)) (phdrs small_kernel) = true)
      by (vm_compute; reflexivity).
    rewrite forallb_forall in Ho. intros ph Hph _. apply ownedb_ok, Ho. by apply list_elem_of_In.
  - exists m', g'. split; [exact E|]. split; [exact Hh|]. split.
    + apply (Hs 1%nat (phdr_at small_kernel 84)); [vm_compute; reflexivity|vm_compute; reflexivity|].
      intros j q Hj Hq. apply lookup_lt_Some in Hq. change (j < 2)%nat in Hq. lia.
    + rewrite Hg by lia. vm_compute. reflexivity.
Defined.
End ElfRuns.
