(* ===== verification/MemSize.v ===== *)
(** boot/loader.S, the first part: asking the BIOS for the size of memory.
    The BIOS is a parameter; the three methods are modelled with their
    registers, and what each leaves in [total_mem_bytes] is proved from what
    the BIOS documents about its answers. *)
From S2P Require Import Prelude ByteMem Paging Ports Disk Tss.

(** * Data *)

(** include/boot.inc. *)
Definition LOADER_BASE_ADDR : Z := 0x900.

(** The data between the jump over it, which is three bytes long, and
    [loader_start]. *)
Definition GDT_BASE : Z := LOADER_BASE_ADDR + 3.
Definition GDT_SIZE : Z := 4 * 8.
Definition total_mem_bytes : Z := GDT_BASE + GDT_SIZE + 59 * 8 + 5.
Definition gdt_ptr : Z := total_mem_bytes + 4.
Definition ards_buf : Z := gdt_ptr + 6.
Definition ards_nr : Z := ards_buf + 244.
Definition loader_start : Z := ards_nr + 2.

Definition SMAP : Z := 0x534d4150.

(** The registers of a BIOS call and the carry flag it returns. *)
Record regs := Regs {
  r_eax : Z; r_ebx : Z; r_ecx : Z; r_edx : Z; r_di : Z; r_cf : bool;
}.

(** [int 0x15] may use every register and write to memory. *)
Class Bios := { int15 : regs → gmap Z Z → regs * gmap Z Z }.

Definition rd16 (m : gmap Z Z) (a : Z) : Z := rd8 m a + 2 ^ 8 * rd8 m (a + 1).

(** [v] in the low half of a register. *)
Definition set_low (r v : Z) : Z := r - r mod 2 ^ 16 + v.

(** * Operations *)

Section mem_get.
Context `{BI : Bios}.

(** One call of method 0xe820; [inr] with the carry flag set is the jump to
    the next method. *)
Definition e820_mem_get (st : regs * gmap Z Z) : res (regs * gmap Z Z + regs * gmap Z Z) :=
  let '(r, m) := st in
  let '(r, m) := int15 (Regs 0xe820 (r_ebx r) 20 (r_edx r) (r_di r) (r_cf r)) m in
  if r_cf r then Ok (inr (r, m)) else
  let r := Regs (r_eax r) (r_ebx r) (r_ecx r) (r_edx r) (u16 (r_di r + u16 (r_ecx r))) (r_cf r) in
  let m := wr16 m ards_nr (u16 (rd16 m ards_nr + 1)) in
  Ok (if r_ebx r =? 0 then inr (r, m) else inl (r, m)).

(** One record: [jge] compares signed.  In real mode an offset beyond 64 KB
    faults. *)
Definition find_max_mem_area (m : gmap Z Z) (st : Z * Z * Z) : res (Z * Z * Z + Z) :=
  let '(edx, ebx, cx) := st in
  if 0x10000 <? ebx + 12 then Fault else
  let eax := rd32 m ebx in
  let eax := u32 (eax + rd32 m (ebx + 8)) in
  let ebx := u32 (ebx + 20) in
  let edx := if s32 eax <=? s32 edx then edx else eax in
  let cx := u16 (cx - 1) in
  Ok (if cx =? 0 then inr edx else inl (edx, ebx, cx)).

(** [jmp $]: an instruction that jumps to itself. *)
Definition error_hlt {A} : res A := while_ (λ u : unit, Ok (inl u)) LOOP_FUEL ().

(** Method 0x88.  The size is computed, and then control runs into
    [.error_hlt]. *)
Definition e801_failed_so_try88 (r : regs) (m : gmap Z Z) : res (Z * gmap Z Z) :=
  let '(r, m) := int15 (Regs (r_eax r - r_eax r mod 2 ^ 16 + 0x8800 + r_eax r mod 2 ^ 8)
                             (r_ebx r) (r_ecx r) (r_edx r) (r_di r) (r_cf r)) m in
  if r_cf r then error_hlt else
  let eax := Z.land (r_eax r) 0x0000ffff in
  let p := u16 eax * 0x400 in
  let eax := set_low eax (u16 p) in
  let edx := u32 (Z.shiftl (set_low (r_edx r) (p / 2 ^ 16)) 16) in
  let edx := u32 (Z.lor edx eax + 0x100000) in
  error_hlt.

(** Method 0xe801: [ax] counts KB below 16 MB, [bx] blocks of 64 KB above. *)
Definition e820_failed_so_try_e801 (r : regs) (m : gmap Z Z) : res (Z * gmap Z Z) :=
  let '(r, m) := int15 (Regs (set_low (r_eax r) 0xe801) (r_ebx r) (r_ecx r) (r_edx r) (r_di r) (r_cf r)) m in
  if r_cf r then e801_failed_so_try88 r m else
  let p := u16 (r_eax r) * 0x400 in
  let edx := u32 (Z.shiftl (set_low (r_edx r) (p / 2 ^ 16)) 16) in
  let eax := Z.land (set_low (r_eax r) (u16 p)) 0x0000FFFF in
  let edx := u32 (Z.lor edx eax + 0x100000) in
  let esi := edx in
  let eax := u32 (u16 (r_ebx r) * 0x10000) in
  Ok (u32 (esi + eax), m).

(** From [loader_start] to [mov [total_mem_bytes], edx].  [mov ebx, ards_buf]
    is followed by [xor ebx, ebx], and [edx] still holds the signature. *)
Definition mem_get (r : regs) (m : gmap Z Z) : res (Z * gmap Z Z) :=
  let r := Regs (r_eax r) 0 (r_ecx r) SMAP ards_buf (r_cf r) in
  '(r, m) ← while_ e820_mem_get LOOP_FUEL (r, m);
  '(edx, m) ←
    (if r_cf r then e820_failed_so_try_e801 r m
     else
       let cx := rd16 m ards_nr in
       let ebx := 0 in
       edx ← while_ (find_max_mem_area m) LOOP_FUEL (r_edx r, ebx, cx);
       Ok (edx, m));
  Ok (edx, wr32 m total_mem_bytes edx).
End mem_get.

(** * What the BIOS documents *)

(** An address range descriptor. *)
Record ards := Ards { base_low : Z; base_high : Z; length_low : Z; length_high : Z; ards_type : Z }.

Definition ards_bytes (a : ards) : list Z :=
  le32 (base_low a) ++ le32 (base_high a) ++ le32 (length_low a) ++ le32 (length_high a)
  ++ le32 (ards_type a).

(** Function 0xe820 returns the descriptors of [l] one by one, led by the
    continuation value in [ebx], which is 0 at the start and after the last;
    registers that are not results keep their values. *)
Record e820_bios `{BI : Bios} (l : list ards) (cont : nat → Z) : Prop := {
  eb_first : cont O = 0;
  eb_last : cont (length l) = 0;
  eb_next i : (0 < i < length l)%nat → cont i ≠ 0;
  eb_call i a r m : l !! i = Some a →
    r_eax r = 0xe820 → r_ebx r = cont i → r_ecx r = 20 → r_edx r = SMAP →
    int15 r m = (Regs SMAP (cont (S i)) 20 SMAP (r_di r) false, write_bytes m (r_di r) (ards_bytes a));
}.

(** A BIOS without function 0xe820 returns with the carry flag, one with
    0xe801 gives [kb] KB between 1 and 16 MB and [blocks] blocks of 64 KB above;
    neither writes to memory. *)
Definition no_e820 `{BI : Bios} : Prop :=
  ∀ r m, r_eax r = 0xe820 → ∃ r', int15 r m = (r', m) ∧ r_cf r' = true.
Definition e801_bios `{BI : Bios} (kb blocks : Z) : Prop :=
  ∀ r m, u16 (r_eax r) = 0xe801 →
    ∃ r', int15 r m = (r', m) ∧ r_cf r' = false ∧ u16 (r_eax r') = kb ∧ u16 (r_ebx r') = blocks.
Definition no_e801 `{BI : Bios} : Prop :=
  ∀ r m, u16 (r_eax r) = 0xe801 → ∃ r', int15 r m = (r', m) ∧ r_cf r' = true.

(** The signed maximum that the loop keeps. *)
Definition smax (x y : Z) : Z := if s32 y <=? s32 x then x else y.

(** What the loop computes: the records it reads are the bytes from address 0
    on, and it starts from the signature. *)
Definition e820_total (m : gmap Z Z) (n : nat) : Z :=
  foldl (λ edx i, smax edx (u32 (rd32 m (20 * i) + rd32 m (20 * i + 8)))) SMAP (seqZ 0 (Z.of_nat n)).

(** * Proofs *)

Lemma rd8_write_bytes_other m a bs x :
  x < a ∨ a + Z.of_nat (length bs) ≤ x → rd8 (write_bytes m a bs) x = rd8 m x.
Proof.
  intros [Hx|Hx]; unfold rd8;
    [by rewrite lookup_write_bytes_lt|by rewrite lookup_write_bytes_ge].
Qed.

Lemma rd8_write_bytes_in m a bs i b :
  bs !! i = Some b → rd8 (write_bytes m a bs) (a + Z.of_nat i) = u8 b.
Proof. intros Hi. unfold rd8. by rewrite (lookup_write_bytes_in _ _ _ _ b). Qed.

Lemma rd16_wr16 m a v : 0 ≤ v < 2 ^ 16 → rd16 (wr16 m a v) a = v.
Proof.
  intros Hv. unfold rd16, wr16. pose proof (rd8_write_bytes_in m a (le16 v) 0 (v mod 256) eq_refl) as H0.
  pose proof (rd8_write_bytes_in m a (le16 v) 1 ((v / 2 ^ 8) mod 256) eq_refl) as H1.
  change (Z.of_nat 0) with 0 in H0. change (Z.of_nat 1) with 1 in H1. rewrite Z.add_0_r in H0. rewrite H0, H1. unfold u8. zdm.
Qed.

Lemma rd8_wr16_other m a v x : x < a ∨ a + 2 ≤ x → rd8 (wr16 m a v) x = rd8 m x.
Proof. intros Hx. by apply rd8_write_bytes_other. Qed.

Lemma length_ards_bytes a : length (ards_bytes a) = 20%nat.
Proof. done. Qed.

(** The bytes the detection may change before it stores its result. *)
Definition ards_area (x : Z) : Prop := ards_buf ≤ x < ards_buf + 240 ∨ ards_nr ≤ x < ards_nr + 2.

Section e820.
Context `{BI : Bios} (l : list ards) (cont : nat → Z) (Hbios : e820_bios l cont).
Context (Hlen : (1 ≤ length l ≤ 12)%nat) (m : gmap Z Z) (Hnr : rd16 m ards_nr = 0).

(** After [i] calls. *)
Definition asked (i : nat) (s : regs * gmap Z Z) : Prop :=
  r_ebx s.1 = cont i ∧ r_edx s.1 = SMAP ∧ r_di s.1 = ards_buf + 20 * Z.of_nat i
  ∧ rd16 s.2 ards_nr = Z.of_nat i ∧ ∀ x, ¬ ards_area x → rd8 s.2 x = rd8 m x.

Lemma e820_step i s :
  asked i s → (i < length l)%nat →
  ∃ s', e820_mem_get s = Ok (if bool_decide (S i = length l) then inr s' else inl s')
    ∧ asked (S i) s' ∧ r_cf s'.1 = false.
Proof.
  intros (Eb & Ed & Edi & En & Hf) Hi. destruct s as [r m1]. simpl in Eb, Ed, Edi, En, Hf.
  destruct (lookup_lt_is_Some_2 l i Hi) as [a Ha].
  unfold e820_mem_get. rewrite (eb_call l cont Hbios i a) by done. cbn [r_cf r_ecx r_di r_ebx].
  rewrite Edi. set (m2 := write_bytes m1 (ards_buf + 20 * Z.of_nat i) (ards_bytes a)).
  assert (E2 : rd16 m2 ards_nr = Z.of_nat i).
  { unfold rd16, m2. unfold ards_nr at 1 2.
    rewrite !rd8_write_bytes_other by (rewrite ?length_ards_bytes; lia). exact En. }
  rewrite E2, (u16_small (Z.of_nat i + 1)), (u16_small 20) by lia.
  rewrite (u16_small (ards_buf + 20 * Z.of_nat i + 20)).
  2: { unfold ards_buf, gdt_ptr, total_mem_bytes, GDT_BASE, LOADER_BASE_ADDR, GDT_SIZE. lia. }
  assert (Hc : (cont (S i) =? 0) = bool_decide (S i = length l)).
  { case_bool_decide as E; [by rewrite E, (eb_last _ _ Hbios)|].
    apply Z.eqb_neq, (eb_next _ _ Hbios). lia. }
  eexists. split; [rewrite Hc; done|]. split; [|done]. unfold asked. cbn [fst snd r_ebx r_edx r_di].
  split_and!; auto.
  - lia.
  - rewrite rd16_wr16 by lia. lia.
  - intros x Hx. rewrite rd8_wr16_other.
    + unfold m2. rewrite rd8_write_bytes_other; [by apply Hf|]. rewrite length_ards_bytes.
      unfold ards_area in Hx. lia.
    + unfold ards_area in Hx. lia.
Qed.

Lemma e820_loop s :
  asked O s → ∃ s', while_ e820_mem_get LOOP_FUEL s = Ok s' ∧ asked (length l) s' ∧ r_cf s'.1 = false.
Proof.
  intros Hs. cut (∀ k i s, (i + k = length l)%nat → (0 < k)%nat → asked i s →
    ∃ s', while_nat e820_mem_get k s = Ok (inr s') ∧ asked (length l) s' ∧ r_cf s'.1 = false).
  { intros Hk. destruct (Hk (length l) O s) as (s' & E & Hs'); [lia|lia|done|]. exists s'. split; [|done].
    apply while_from_nat. exists (length l). split; [|done]. apply Nat2Z.inj_le.
    rewrite positive_nat_Z, LOOP_FUEL_val. lia. }
  clear s Hs. induction k as [|k IH]; intros i s Hik Hk Hs; [lia|].
  destruct (e820_step i s Hs) as (s' & E & Hs' & Hcf); [lia|]. cbn [while_nat]. rewrite E. rb.
  case_bool_decide as Ei; cbn [then_].
  - exists s'. by rewrite <- Ei.
  - apply (IH (S i)); [lia|lia|done].
Qed.
End e820.

(** The search for the maximum, [k] records from number [i] on. *)
Lemma find_max_loop m k : ∀ i edx,
  0 ≤ i → 20 * (i + Z.of_nat (S k)) ≤ 0x10000 →
  while_ (find_max_mem_area m) LOOP_FUEL (edx, 20 * i, Z.of_nat (S k))
  = Ok (foldl (λ edx i, smax edx (u32 (rd32 m (20 * i) + rd32 m (20 * i + 8)))) edx
          (seqZ i (Z.of_nat (S k)))).
Proof.
  intros i edx Hi Hb. apply while_from_nat. exists (S k). split.
  { apply Nat2Z.inj_le. rewrite positive_nat_Z, LOOP_FUEL_val. lia. }
  revert i edx Hi Hb. induction k as [|k IH]; intros i edx Hi Hb.
  - cbn [while_nat]. unfold find_max_mem_area. destruct (Z.ltb_spec 0x10000 (20 * i + 12)); [lia|].
    cbv zeta. rewrite u16_small by lia. done.
  - change (while_nat (find_max_mem_area m) (S (S k)) (edx, 20 * i, Z.of_nat (S (S k))))
      with (find_max_mem_area m (edx, 20 * i, Z.of_nat (S (S k)))
            ≫= then_ (while_nat (find_max_mem_area m) (S k))).
    assert (find_max_mem_area m (edx, 20 * i, Z.of_nat (S (S k)))
      = Ok (inl (smax edx (u32 (rd32 m (20 * i) + rd32 m (20 * i + 8))), 20 * (i + 1), Z.of_nat (S k)))) as ->.
    { unfold find_max_mem_area. destruct (Z.ltb_spec 0x10000 (20 * i + 12)); [lia|]. cbv zeta.
      rewrite (u16_small (_ - 1)), (u32_small (20 * i + 20)) by lia.
      replace (Z.of_nat (S (S k)) - 1) with (Z.of_nat (S k)) by lia.
      replace (20 * i + 20) with (20 * (i + 1)) by lia.
      by destruct (Z.eqb_spec (Z.of_nat (S k)) 0); [lia|]. }
    rb. cbn [then_]. rewrite IH by lia. rewrite (seqZ_cons i) by lia. simpl foldl.
    replace (Z.succ i) with (i + 1) by lia. replace (Z.pred (Z.of_nat (S (S k)))) with (Z.of_nat (S k)) by lia.
    done.
Qed.

Lemma s32_word v : 0 ≤ v < 2 ^ 32 → 0 ≤ s32 v → s32 v = v ∧ v < 2 ^ 31.
Proof. intros Hv. unfold s32. destruct (Z.ltb_spec (v mod 2 ^ 32) (2 ^ 31)); zdm. Qed.

(** It never falls below the signature. *)
Lemma e820_total_range m n : SMAP ≤ e820_total m n < 2 ^ 31.
Proof.
  unfold e820_total. cut (∀ l x, SMAP ≤ x < 2 ^ 31 →
    SMAP ≤ foldl (λ edx i, smax edx (u32 (rd32 m (20 * i) + rd32 m (20 * i + 8)))) x l < 2 ^ 31).
  { intros H. apply H. unfold SMAP. lia. }
  induction l as [|i l IH]; intros x Hx; [done|]. simpl. apply IH. unfold smax.
  pose proof (u32_range (rd32 m (20 * i) + rd32 m (20 * i + 8))) as Hr. set (y := u32 _) in *.
  rewrite (s32_small x) by (unfold SMAP in *; lia).
  destruct (Z.leb_spec (s32 y) x); [done|]. destruct (s32_word y Hr); [unfold SMAP in *; lia|lia].
Qed.

Lemma e820_total_same m m' n :
  (n ≤ 12)%nat → (∀ x, 0 ≤ x < 240 → rd8 m' x = rd8 m x) → e820_total m' n = e820_total m n.
Proof.
  intros Hn Hsame. unfold e820_total.
  assert (Hl : ∀ i, i ∈ seqZ 0 (Z.of_nat n) → 0 ≤ i < 12) by (intros i Hi%elem_of_seqZ; lia).
  revert Hl. generalize SMAP. generalize (seqZ 0 (Z.of_nat n)).
  induction l as [|i l IH]; intros x Hl; [done|]. simpl. specialize (Hl i (list_elem_of_here _ _)) as Hi.
  rewrite !(rd32_same m m') by (intros x' Hx'; apply Hsame; lia).
  apply IH. intros j Hj. apply Hl. by right.
Qed.

(** A 16-bit product put together from [dx] and [ax]. *)
Lemma product_joined edx eax p :
  0 ≤ p < 2 ^ 32 →
  Z.lor (u32 (Z.shiftl (set_low edx (p / 2 ^ 16)) 16)) (Z.land (set_low eax (u16 p)) 0xffff) = p.
Proof.
  intros Hp. change 0xffff with (2 ^ 16 - 1). rewrite land_low by lia.
  assert ((set_low eax (u16 p)) mod 2 ^ 16 = p mod 2 ^ 16) as ->.
  { unfold set_low, u16. zdm. }
  rewrite Z.shiftl_mul_pow2 by lia.
  assert (u32 (set_low edx (p / 2 ^ 16) * 2 ^ 16) = p / 2 ^ 16 * 2 ^ 16) as ->.
  { unfold set_low, u32. rewrite Z.mul_comm. change (2 ^ 32) with (2 ^ 16 * 2 ^ 16).
    rewrite Zmult_mod_distr_l, (Z.mul_comm (p / 2 ^ 16)). f_equal.
    assert (0 ≤ p / 2 ^ 16 < 2 ^ 16) by zdm. set (q := p / 2 ^ 16) in *. zdm. }
  rewrite (lor_low _ _ 16); zdm.
Qed.

Lemma u16_set_low r v : 0 ≤ v < 2 ^ 16 → u16 (set_low r v) = v.
Proof. intros Hv. unfold u16, set_low. zdm. Qed.

Lemma error_hlt_spins {A} : @error_hlt A = OutOfFuel.
Proof. apply (while_diverges _ (λ _, True)); eauto. Qed.

Lemma try88_spins `{BI : Bios} r m : e801_failed_so_try88 r m = OutOfFuel.
Proof.
  unfold e801_failed_so_try88. destruct (int15 _ m) as [r' m'].
  destruct (r_cf r'); exact error_hlt_spins.
Qed.

Lemma mem_get_e820_holds `{BI : Bios} l cont r m :
  e820_bios l cont → (1 ≤ length l ≤ 12)%nat → rd16 m ards_nr = 0 →
  ∃ m', mem_get r m = Ok (e820_total m (length l), m')
    ∧ rd32 m' total_mem_bytes = e820_total m (length l)
    ∧ (∀ x, ¬ ards_area x → ¬ total_mem_bytes ≤ x < total_mem_bytes + 4 → rd8 m' x = rd8 m x).
Proof.
  intros Hb Hl Hnr. pose proof (e820_total_range m (length l)) as Hr.
  destruct (e820_loop l cont Hb Hl m (Regs (r_eax r) 0 (r_ecx r) SMAP ards_buf (r_cf r), m))
    as ([r1 m1] & E & (_ & Ed & _ & En & Hf) & Hcf).
  { unfold asked. simpl. rewrite (eb_first _ _ Hb). by split_and!. }
  simpl in Ed, En, Hf, Hcf. exists (wr32 m1 total_mem_bytes (e820_total m (length l))). split_and!.
  - unfold mem_get. rewrite E. rb. rewrite Hcf, En, Ed. cbv zeta.
    destruct (length l) as [|k] eqn:El; [lia|]. change 0 with (20 * 0) at 1.
    rewrite find_max_loop by lia. rb. unfold e820_total at 1 2.
    pose proof (e820_total_same m m1 (S k)) as Es. unfold e820_total in Es. rewrite Es; [done|lia|].
    intros x Hx. apply Hf. unfold ards_area, ards_nr, ards_buf, gdt_ptr, total_mem_bytes, GDT_BASE,
      LOADER_BASE_ADDR, GDT_SIZE. lia.
  - apply rd32_wr32_same. unfold SMAP in Hr. lia.
  - intros x Hx Hx'. rewrite rd8_wr32_other by lia. by apply Hf.
Qed.


(** The first call of a BIOS without function 0xe820. *)
Lemma no_e820_loop `{BI : Bios} r m :
  no_e820 → ∃ r2, r_cf r2 = true
    ∧ while_ e820_mem_get LOOP_FUEL (Regs (r_eax r) 0 (r_ecx r) SMAP ards_buf (r_cf r), m) = Ok (r2, m).
Proof.
  intros H0. set (r1 := Regs _ _ _ _ _ _).
  destruct (H0 (Regs 0xe820 (r_ebx r1) 20 (r_edx r1) (r_di r1) (r_cf r1)) m eq_refl) as (r2 & E2 & C2).
  exists r2. split; [done|]. apply while_from_nat. exists 1%nat. split; [lia|]. cbn [while_nat].
  unfold e820_mem_get. rewrite E2, C2. done.
Qed.

Lemma mem_get_e801_holds `{BI : Bios} r m kb blocks :
  no_e820 → e801_bios kb blocks → 0x100000 + kb * 1024 + blocks * 0x10000 < 2 ^ 32 →
  let total := 0x100000 + kb * 1024 + blocks * 0x10000 in
  mem_get r m = Ok (total, wr32 m total_mem_bytes total).
Proof.
  intros H0 H1 Hsz. cbv zeta. destruct (no_e820_loop r m H0) as (r2 & C2 & Hw).
  unfold mem_get. cbv zeta. rewrite Hw. rb. rewrite C2. unfold e820_failed_so_try_e801.
  edestruct (H1 (Regs (set_low (r_eax r2) 0xe801) (r_ebx r2) (r_ecx r2) (r_edx r2) (r_di r2) (r_cf r2)) m)
    as (r3 & E3 & C3 & Ek & Eb); [apply u16_set_low; lia|]. rewrite E3, C3. cbv zeta.
  pose proof (u16_range (r_eax r3)) as Hk. pose proof (u16_range (r_ebx r3)) as Hbl.
  rewrite Ek, Eb in *. change 0x0000FFFF with 0xffff. rewrite product_joined by lia. rb.
  rewrite (u32_small (kb * 0x400 + 0x100000)), (u32_small (blocks * 0x10000)) by lia.
  rewrite (u32_small (_ + blocks * 0x10000)) by lia.
  by replace (kb * 0x400 + 0x100000 + blocks * 0x10000)
    with (0x100000 + kb * 1024 + blocks * 0x10000) by lia.
Qed.

(** * Properties *)

(** C33: what method 0xe820 finds.  On a BIOS that describes memory by up to 12
    records the detection ends and stores a size, and changes nothing but its
    buffer, its counter and the size.  The size is the signed maximum of the
    signature SMAP and of sums of words from address 0 on, where the interrupt
    vectors are: it does not depend on what the records say, only on how many
    there are, and it is never below 0x534d4150, about 1.3 GB. *)
Theorem mem_get_e820 `{BI : Bios} l cont r m :
  e820_bios l cont → (1 ≤ length l ≤ 12)%nat → rd16 m ards_nr = 0 →
  ∃ m', mem_get r m = Ok (e820_total m (length l), m')
    ∧ rd32 m' total_mem_bytes = e820_total m (length l)
    ∧ SMAP ≤ e820_total m (length l) < 2 ^ 31
    ∧ (∀ x, ¬ ards_area x → ¬ total_mem_bytes ≤ x < total_mem_bytes + 4 → rd8 m' x = rd8 m x).
Proof.
  intros Hb Hl Hnr. destruct (mem_get_e820_holds l cont r m Hb Hl Hnr) as (m' & E & Et & Hf).
  exists m'. split; [exact E|]. split; [exact Et|]. split; [apply e820_total_range|exact Hf].
Qed.

(** C34: the other two methods.  Without function 0xe820, function 0xe801 gives
    the true size, 1 MB plus its two counts; without both the loader never
    gets past the detection, even when function 0x88 answers, because the code
    for it runs into the endless loop of the error case. *)
Theorem mem_get_fallbacks `{BI : Bios} r m kb blocks :
  no_e820 →
  (e801_bios kb blocks → 0x100000 + kb * 1024 + blocks * 0x10000 < 2 ^ 32 →
     let total := 0x100000 + kb * 1024 + blocks * 0x10000 in
     mem_get r m = Ok (total, wr32 m total_mem_bytes total))
  ∧ (no_e801 → mem_get r m = OutOfFuel).
Proof.
  intros H0. split; [by apply mem_get_e801_holds|]. intros H1.
  destruct (no_e820_loop r m H0) as (r2 & C2 & Hw).
  unfold mem_get. cbv zeta. rewrite Hw. rb. rewrite C2. unfold e820_failed_so_try_e801.
  edestruct (H1 (Regs (set_low (r_eax r2) 0xe801) (r_ebx r2) (r_ecx r2) (r_edx r2) (r_di r2) (r_cf r2)) m)
    as (r3 & E3 & C3); [apply u16_set_low; lia|]. rewrite E3, C3.
  rewrite (try88_spins r3 m). reflexivity.
Qed.

(** * Two machines *)

Module SizeRuns.

(** 640 KB, and 31 MB above the first. *)
Definition map32 : list ards := [Ards 0 0 0xa0000 0 1; Ards 0x100000 0 0x1f00000 0 1].

Definition bios32 : Bios := {| int15 r m :=
  let i := Z.to_nat (r_ebx r) in
  match map32 !! i with
  | Some a => (Regs SMAP (if (i =? 1)%nat then 0 else r_ebx r + 1) 20 (r_edx r) (r_di r) false,
               write_bytes m (r_di r) (ards_bytes a))
  | None => (Regs (r_eax r) (r_ebx r) (r_ecx r) (r_edx r) (r_di r) true, m)
  end |}.

Lemma bios32_e820 : e820_bios (BI := bios32) map32 (λ i, if (i =? 1)%nat then 1 else 0).
Proof.
  split; [done|done| |].
  - intros i Hi. simpl in Hi. by replace i with 1%nat by lia.
  - intros i a r m Ha _ Hb _ Hd. unfold int15, bios32. pose proof (lookup_lt_Some _ _ _ Ha) as Hi.
    simpl in Hi. rewrite Hb. destruct i as [|[|i]]; [..|lia].
    + injection Ha as <-. cbn [Nat.eqb]. rewrite Hd. reflexivity.
    + injection Ha as <-. cbn [Nat.eqb]. rewrite Hd. reflexivity.
Qed.

(** On a machine with 32 MB the loader finds 1.3 GB. *)
Lemma mem_get_e820_witness :
  ∃ m', mem_get (BI := bios32) (Regs 0 0 0 0 0 false) ∅ = Ok (0x534d4150, m').
Proof.
  destruct (mem_get_e820 (BI := bios32) map32 _ (Regs 0 0 0 0 0 false) ∅ bios32_e820)
    as (m' & E & _).
  - simpl. lia.
  - vm_compute. reflexivity.
  - exists m'. assert (e820_total ∅ (length map32) = 0x534d4150) as Et by (vm_compute; reflexivity).
    rewrite Et in E. exact E.
Defined.

(** The same machine without function 0xe820. *)
Definition bios801 : Bios := {| int15 r m :=
  if r_eax r =? 0xe820 then (Regs (r_eax r) (r_ebx r) (r_ecx r) (r_edx r) (r_di r) true, m)
  else (Regs 0x3c00 0x100 0x3c00 0x100 (r_di r) false, m) |}.

Lemma mem_get_fallbacks_witness :
  mem_get (BI := bios801) (Regs 0 0 0 0 0 false) ∅
  = Ok (0x2000000, wr32 ∅ total_mem_bytes 0x2000000).
Proof.
  destruct (mem_get_fallbacks (BI := bios801) (Regs 0 0 0 0 0 false) ∅ 0x3c00 0x100) as [H _].
  - intros r m E. eexists. simpl. rewrite E. split; reflexivity.
  - apply H; [|lia]. intros r m E. eexists. simpl. destruct (Z.eqb_spec (r_eax r) 0xe820) as [E'|E'].
    + rewrite E' in E. discriminate E.
    + split; [reflexivity|]. split; [reflexivity|]. split; reflexivity.
Defined.
End SizeRuns.
