(* ===== verification/Loader.v ===== *)
(** boot/mbr.S and boot/loader.S as a whole: from the boot sector to the jump
    into the kernel.  The routines they call are in Disk.v, MemSize.v, Elf.v
    and, for [setup_page], Memory.v. *)
From S2P Require Import Prelude ByteMem CString Ports Paging Disk Memory Tss Elf MemSize.

(** * Data *)

(** Descriptor attributes of include/boot.inc, at their places in the upper
    word of a descriptor. *)
Module Inc.
Definition DESC_G_4K : Z := Z.shiftl 1 23.
Definition DESC_D_32 : Z := Z.shiftl 1 22.
Definition DESC_L : Z := Z.shiftl 0 21.
Definition DESC_AVL : Z := Z.shiftl 0 20.
Definition DESC_LIMIT_CODE2 : Z := Z.shiftl 15 16.
Definition DESC_LIMIT_DATA2 : Z := DESC_LIMIT_CODE2.
Definition DESC_LIMIT_VIDEO2 : Z := Z.shiftl 0 16.
Definition DESC_P : Z := Z.shiftl 1 15.
Definition DESC_DPL_0 : Z := Z.shiftl 0 13.
Definition DESC_S_CODE : Z := Z.shiftl 1 12.
Definition DESC_S_DATA : Z := DESC_S_CODE.
Definition DESC_TYPE_CODE : Z := Z.shiftl 8 8.
Definition DESC_TYPE_DATA : Z := Z.shiftl 2 8.
Definition DESC_CODE_HIGH4 : Z :=
  Z.shiftl 0x00 24 + DESC_G_4K + DESC_D_32 + DESC_L + DESC_AVL + DESC_LIMIT_CODE2
  + DESC_P + DESC_DPL_0 + DESC_S_CODE + DESC_TYPE_CODE + 0x00.
Definition DESC_DATA_HIGH4 : Z :=
  Z.shiftl 0x00 24 + DESC_G_4K + DESC_D_32 + DESC_L + DESC_AVL + DESC_LIMIT_DATA2
  + DESC_P + DESC_DPL_0 + DESC_S_DATA + DESC_TYPE_DATA + 0x00.
Definition DESC_VIDEO_HIGH4 : Z :=
  Z.shiftl 0x00 24 + DESC_G_4K + DESC_D_32 + DESC_L + DESC_AVL + DESC_LIMIT_VIDEO2
  + DESC_P + DESC_DPL_0 + DESC_S_DATA + DESC_TYPE_DATA + 0x0b.
End Inc.

Definition LOADER_START_SECTOR : Z := 2.
Definition LOADER_STACK_TOP : Z := LOADER_BASE_ADDR.
Definition KERNEL_START_SECTOR : Z := 9.
Definition KERNEL_ENTRY_POINT : Z := 0xc0001500.

Definition SELECTOR_CODE : Z := selector 1 TI_GDT RPL0.
Definition SELECTOR_DATA : Z := selector 2 TI_GDT RPL0.
Definition SELECTOR_VIDEO : Z := selector 3 TI_GDT RPL0.

(** The data of the loader, from [GDT_BASE] to [loader_start]. *)
Definition loader_data : list Z :=
  le32 0 ++ le32 0
  ++ le32 0x0000FFFF ++ le32 Inc.DESC_CODE_HIGH4
  ++ le32 0x0000FFFF ++ le32 Inc.DESC_DATA_HIGH4
  ++ le32 0x80000007 ++ le32 Inc.DESC_VIDEO_HIGH4
  ++ replicate (59 * 8) 0 ++ replicate 5 0
  ++ le32 0
  ++ le16 (GDT_SIZE - 1) ++ le32 GDT_BASE
  ++ replicate 244 0 ++ le16 0.

(** What the boot sector writes to the screen, with its attribute. *)
Definition mbr_text : list Z :=
  [0x4c; 0xa4; 0x4f; 0xa4; 0x56; 0xa4; 0x45; 0xa4; 0x36; 0xa4; 0x20; 0xa4; 0x4f; 0xa4; 0x53; 0xa4].

(** The state at the jump to the kernel. *)
Record handover := Handover {
  h_mach : machine;
  h_esp : Z;
  h_eip : Z;
  h_gdtr : Z;
}.

(** * Operations *)

(** [int 0x10] with function 6 clears the screen. *)
Class VideoBios := { int10 : gmap Z Z → gmap Z Z }.

Section mbr.
Context `{VB : VideoBios} {D : Type} `{!Ports D}.

(** The memory and the address jumped to; [ret] is what the call of
    [rd_disk_m_16] pushes. *)
Definition mbr (d : D) (m : gmap Z Z) (ret : Z) : res (D * gmap Z Z * Z) :=
  let m := int10 m in
  let m := write_bytes m 0xb8000 mbr_text in
  let m := wr16 m (0x7c00 - 2) ret in
  '(d, m) ← rd_disk_m_16 d m LOADER_START_SECTOR LOADER_BASE_ADDR 4;
  Ok (d, m, LOADER_BASE_ADDR).
End mbr.

(** [n] bytes, read as the processor reads them at the moment. *)
Fixpoint read_n (rd : Z → res Z) (a : Z) (n : nat) : res (list Z) :=
  match n with
  | O => Ok []
  | S n => b ← rd a; bs ← read_n rd (a + 1) n; Ok (b :: bs)
  end.

Definition number (bs : list Z) : Z := foldr (λ b n, b + 2 ^ 8 * n) 0 bs.

(** [lgdt [a]] *)
Definition lgdt (rd : Z → res Z) (a : Z) : res Z := bs ← read_n rd a 6; Ok (number bs).

(** Loading a segment register: the base the processor finds. *)
Definition load_base (rd : Z → res Z) (gdtr sel : Z) : res Z :=
  bs ← read_n rd (desc_addr gdtr sel) 8;
  match decode_desc bs with
  | Some s => if seg_present s then Ok (seg_base s) else Fault
  | None => Fault
  end.

(** Loading a segment through which the rest of the code addresses memory: the
    model goes on only with base 0. *)
Definition load_flat (rd : Z → res Z) (gdtr sel : Z) : res unit :=
  base ← load_base rd gdtr sel; if base =? 0 then Ok () else Fault.

Definition phys (m : gmap Z Z) (a : Z) : res Z := Ok (rd8 m a).

Section loader.
Context `{BI : Bios, !LoaderSyms} {D : Type} `{!Ports D}.

(** From the A20 gate to the letter P: the memory and the loaded table.  [cs] is
    loaded by the far jump, [ds], [es] and [ss] by the moves. *)
Definition p_mode_start (d : D) (m : gmap Z Z) : res (D * gmap Z Z * Z) :=
  let '(al, d) := p_in8 d 0x92 in
  let d := p_out8 d 0x92 (Z.lor al 2) in
  gdtr ← lgdt (phys m) gdt_ptr;
  _ ← load_flat (phys m) gdtr SELECTOR_CODE;
  _ ← load_flat (phys m) gdtr SELECTOR_DATA;
  gs ← load_base (phys m) gdtr SELECTOR_VIDEO;
  Ok (d, <[gs + 160 := 0x50]> m, gdtr).

(** The call of [setup_page] and the moves to the upper addresses: the machine
    with paging on, the stack pointer and the table loaded again. *)
Definition enable_paging (m : gmap Z Z) (gdtr : Z) : res (machine * Z * Z) :=
  let esp := LOADER_STACK_TOP in
  let m := wr32 m (esp - 4) ret_setup_page in
  let m := setup_page m in
  let m := wr16 m gdt_ptr (lgdt_limit gdtr) in
  let m := wr32 m (gdt_ptr + 2) (lgdt_base gdtr) in
  let ebx := rd32 m (gdt_ptr + 2) in
  let m := wr32 m (ebx + 0x18 + 4) (Z.lor (rd32 m (ebx + 0x18 + 4)) 0xc0000000) in
  let m := wr32 m (gdt_ptr + 2) (u32 (rd32 m (gdt_ptr + 2) + 0xc0000000)) in
  let esp := u32 (esp + 0xc0000000) in
  let M := Machine m PAGE_DIR_TABLE_POS in
  gdtr ← lgdt (load8 M) gdt_ptr;
  gs ← load_base (load8 M) gdtr SELECTOR_VIDEO;
  M ← store8 M (gs + 320) 0x56;
  _ ← load_flat (load8 M) gdtr SELECTOR_CODE;
  Ok (M, esp, gdtr).

(** [enter_kernel] *)
Definition enter_kernel (M : machine) (esp ebp gdtr : Z) : res handover :=
  '(M, esp) ← push M esp ret_kernel_init;
  '(M, esp, eip) ← kernel_init M esp ebp;
  if eip =? ret_kernel_init then Ok (Handover M 0xc009f000 KERNEL_ENTRY_POINT gdtr) else Fault.

(** The loader, with the registers the boot sector leaves. *)
Definition loader (d : D) (m : gmap Z Z) (r : regs) (ebp : Z) : res (D * handover) :=
  '(_, m) ← mem_get r m;
  '(d, m, gdtr) ← p_mode_start d m;
  let m := wr32 m (LOADER_STACK_TOP - 4) ret_rd_disk in
  '(d, m) ← rd_disk_m_32 d m KERNEL_START_SECTOR KERNEL_BIN_BASE_ADDR 200;
  '(M, esp, gdtr) ← enable_paging m gdtr;
  h ← enter_kernel M esp ebp gdtr;
  Ok (d, h).
End loader.
