(* ===== verification/LoaderProps.v ===== *)
(** What boot/loader.S hands to the kernel: page tables, descriptors, the size
    of memory and the loaded segments. *)
From S2P Require Import Prelude ByteMem CString Ports Paging Disk Memory MemInit MemProps Tss Elf.
From S2P Require Import MemSize Loader.

(** * [setup_page] on any memory *)

Lemma rd8_clear_bytes n : ∀ m a x,
  rd8 (clear_bytes m a n) x = if decide (a ≤ x < a + Z.of_nat n) then 0 else rd8 m x.
Proof.
  induction n as [|n IH]; intros m a x; simpl clear_bytes; [by rewrite decide_False by lia|].
  rewrite IH. destruct (decide (x = a)) as [->|Hx].
  - rewrite decide_False, decide_True by lia. by rewrite rd8_insert_eq.
  - rewrite rd8_insert_ne by done. repeat case_decide; try done; lia.
Qed.

Lemma rd8_wr32_in m m' a v x : a ≤ x < a + 4 → rd8 (wr32 m a v) x = rd8 (wr32 m' a v) x.
Proof.
  intros Hx. unfold wr32, rd8. rewrite !lookup_insert. repeat case_decide; try done. lia.
Qed.

(** Two memories that agree on an area still do after the same stores, and on
    what was stored too. *)
Definition agree_on (P : Z → Prop) (m m' : gmap Z Z) : Prop := ∀ x, P x → rd8 m x = rd8 m' x.

Lemma agree_wr32 P m m' a v :
  agree_on P m m' → agree_on (λ x, P x ∨ a ≤ x < a + 4) (wr32 m a v) (wr32 m' a v).
Proof.
  intros Hm x Hx. destruct (decide (a ≤ x < a + 4)); [by apply rd8_wr32_in|].
  rewrite !rd8_wr32_other by lia. apply Hm. tauto.
Qed.

Lemma agree_fill n : ∀ P m m' a e,
  agree_on P m m' →
  agree_on (λ x, P x ∨ a ≤ x < a + 4 * Z.of_nat n) (fill_entries m a e n) (fill_entries m' a e n).
Proof.
  induction n as [|n IH]; intros P m m' a e Hm.
  - intros x [Hx|Hx]; [by apply Hm|lia].
  - simpl fill_entries. apply (agree_wr32 _ _ _ a e) in Hm.
    apply (IH _ _ _ (a + 4) (e + 0x1000)) in Hm. intros x Hx. apply Hm. simpl.
    destruct Hx as [Hx|Hx]; [tauto|]. destruct (decide (x < a + 4)); [left; right|right]; lia.
Qed.

Lemma rd8_fill_other n : ∀ m a e x,
  x < a ∨ a + 4 * Z.of_nat n ≤ x → rd8 (fill_entries m a e n) x = rd8 m x.
Proof.
  induction n as [|n IH]; intros m a e x Hx; [done|]. simpl fill_entries.
  rewrite IH by lia. apply rd8_wr32_other. lia.
Qed.

(** The directory and the first 256 entries of the first table. *)
Definition tables (x : Z) : Prop := 0x100000 ≤ x < 0x101400.

Lemma setup_page_other m x : ¬ tables x → rd8 (setup_page m) x = rd8 m x.
Proof.
  intros Hx. unfold tables in Hx. unfold setup_page. cbv zeta.
  change PAGE_DIR_TABLE_POS with 0x100000. rewrite !rd8_fill_other by lia.
  rewrite !rd8_wr32_other by lia. rewrite rd8_clear_bytes, decide_False by lia. done.
Qed.

Lemma setup_page_tables m m' : agree_on tables (setup_page m) (setup_page m').
Proof.
  unfold setup_page. cbv zeta. change PAGE_DIR_TABLE_POS with 0x100000.
  assert (H0 : agree_on (λ x, 0x100000 ≤ x < 0x101000) (clear_bytes m 0x100000 4096)
    (clear_bytes m' 0x100000 4096)).
  { intros x Hx. by rewrite !rd8_clear_bytes, !decide_True by lia. }
  intros x Hx. unfold tables in Hx.
  eapply agree_fill; [apply agree_fill, agree_wr32, agree_wr32, agree_wr32, H0|]. simpl. lia.
Qed.

(** The tables [setup_page] writes: the directory and the entries for the first
    megabyte.  It does not touch the other entries. *)
Record built (M : machine) : Prop := {
  bu_cr3 : cr3 M = PAGE_DIR_TABLE_POS;
  bu_tables x : tables x → rd8 (pm M) x = rd8 (pm boot_machine) x;
}.

(** No entry that [setup_page] leaves alone is taken for a mapping. *)
Definition no_stale (m : gmap Z Z) : Prop :=
  ∀ i, 256 ≤ i < 255 * 1024 → present (rd32 m (KTABLES + 4 * i)) = false.

Lemma setup_page_built m M :
  cr3 M = PAGE_DIR_TABLE_POS → (∀ x, tables x → rd8 (pm M) x = rd8 (setup_page m) x) → built M.
Proof.
  intros Hc Hm. split; [done|]. intros x Hx. rewrite Hm by done. symmetry. by apply setup_page_tables.
Qed.

(** Two machines with the same directory and the same low entries. *)
Section agree.
Context (B M : machine) (Ec : cr3 M = cr3 B) (Ed : frame (cr3 B) = PAGE_DIR_TABLE_POS).
Context (Ht : ∀ x, tables x → rd8 (pm M) x = rd8 (pm B) x).

Lemma agree_entry i : 0 ≤ i < 1024 → dir_entry M i = dir_entry B i.
Proof.
  intros Hi. unfold dir_entry. rewrite Ec. apply rd32_same. intros x Hx. apply Ht.
  rewrite Ed in Hx. unfold tables, PAGE_DIR_TABLE_POS in *. lia.
Qed.

Lemma agree_space : kspace B → kspace M.
Proof.
  intros [Hs Hd Hp Hl Hu].
  assert (He : ∀ i, 0 ≤ i < 1024 → rd32 (pm M) (frame (cr3 B) + 4 * i) = rd32 (pm B) (frame (cr3 B) + 4 * i)).
  { intros i Hi. pose proof (agree_entry i Hi) as E. unfold dir_entry in E. by rewrite Ec in E. }
  split; rewrite ?Ec.
  - unfold selfmap in *. pose proof (He 1023 ltac:(lia)) as E. change (4 * 1023) with 4092 in E.
    by rewrite Ec, E.
  - exact Hd.
  - intros i Hi. rewrite ?Ec, He by lia. by apply Hp.
  - intros i Hi. assert (kpte M i = kpte B i) as ->; [|by apply Hl].
    apply rd32_same. intros x Hx. apply Ht. unfold tables, KTABLES in *. lia.
  - intros i Hi. rewrite ?Ec, He by lia. by apply Hu.
Qed.
End agree.

Lemma built_entry M i : built M → 0 ≤ i < 1024 → dir_entry M i = dir_entry boot_machine i.
Proof. intros [Hc Ht] Hi. by apply agree_entry; [|apply (fm_dir _ boot_fresh)| |]. Qed.

Lemma built_space M : built M → kspace M.
Proof.
  intros [Hc Ht]. apply (agree_space boot_machine);
    [done|apply (fm_dir _ boot_fresh)|done|apply (fm_space _ boot_fresh)].
Qed.

Lemma built_ident M : built M → present (dir_entry M 0) = true ∧ frame (dir_entry M 0) = KTABLES.
Proof. intros Hb. rewrite (built_entry M 0 Hb) by lia. apply (fm_ident _ boot_fresh). Qed.

Lemma built_fresh M : built M → no_stale (pm M) → fresh_machine M.
Proof.
  intros Hb Hn. split; [by apply built_space|by rewrite (bu_cr3 M Hb)|exact Hn| |by apply built_ident].
  intros i Hi. rewrite (built_entry M i Hb) by lia. by apply (fm_user _ boot_fresh).
Qed.

(** The first megabyte, seen twice. *)
Definition low_phys (va : Z) : Z := if va <? KBASE then va else va - KBASE.
Definition low_va (va : Z) : Prop := 0 ≤ va < 0x100000 ∨ KBASE ≤ va < K_HEAP_START.

Lemma boot_translate M va :
  built M → low_va va → translate M va = Some (low_phys va).
Proof.
  intros Hs Hva. unfold low_phys.
  destruct Hva as [Hva|Hva]; destruct (Z.ltb_spec va KBASE); unfold KBASE, K_HEAP_START in *; try lia.
  - destruct (built_ident M Hs). apply ident_translate; [by apply built_space|done..].
  - apply kspace_translate_low; [by apply built_space|]. unfold KBASE, K_HEAP_START. lia.
Qed.

Lemma boot_walk M va x : built M → low_va va → walk_byte M va x → 0x100000 ≤ x.
Proof.
  intros Hs Hva. assert (Hd : frame (cr3 M) = PAGE_DIR_TABLE_POS) by by rewrite (bu_cr3 M Hs).
  destruct Hva as [Hva|Hva].
  - destruct (built_ident M Hs) as [_ E0]. unfold dir_entry in E0.
    unfold walk_byte, pte_addr, pde_at, pde_addr. replace (va / 2 ^ 22) with 0 by zdm. rewrite E0, Hd.
    unfold PAGE_DIR_TABLE_POS, KTABLES. zdm.
  - intros Hw. apply kspace_walk in Hw; [|by apply built_space|unfold KBASE, KTOP, K_HEAP_START in *; lia].
    pose proof (kpage_range va). unfold KTABLES, KBASE, KTOP, K_HEAP_START, PAGE_DIR_TABLE_POS in *. lia.
Qed.

(** * Protected mode *)

Definition has_bytes (m : gmap Z Z) (a : Z) (bs : list Z) : Prop :=
  ∀ i v, bs !! i = Some v → rd8 m (a + Z.of_nat i) = v.

Lemma read_n_bytes rd bs : ∀ a,
  (∀ i v, bs !! i = Some v → rd (a + Z.of_nat i) = Ok v) → read_n rd a (length bs) = Ok bs.
Proof.
  induction bs as [|b bs IH]; intros a Hb; [done|]. simpl read_n.
  pose proof (Hb O b eq_refl) as H0. rewrite Z.add_0_r in H0. rewrite H0. rb. rewrite IH; [done|].
  intros i v Hi. rewrite <- (Hb (S i) v Hi). f_equal. lia.
Qed.

Lemma has_bytes_same m m' a bs :
  (∀ x, a ≤ x < a + Z.of_nat (length bs) → rd8 m' x = rd8 m x) → has_bytes m a bs → has_bytes m' a bs.
Proof.
  intros Hs Hb i v Hi. rewrite Hs; [by apply Hb|]. apply lookup_lt_Some in Hi. lia.
Qed.

Lemma has_bytes_sub m a bs k n :
  has_bytes m a bs → has_bytes m (a + Z.of_nat k) (take n (drop k bs)).
Proof.
  intros Hb i v Hi. apply lookup_take_Some in Hi as [Hi _]. rewrite lookup_drop in Hi.
  apply Hb in Hi. rewrite <- Hi. f_equal. lia.
Qed.

Lemma has_bytes_wr32 m a v : has_bytes (wr32 m a v) a (le32 v).
Proof.
  intros i b Hi. unfold wr32, rd8.
  do 4 (destruct i as [|i]; [injection Hi as <-; rewrite ?Z.add_0_r, !lookup_insert;
    repeat (case_decide; [lia|] || rewrite decide_True by done || rewrite decide_False by lia); simpl;
    apply u8_small; zdm|]). done.
Qed.

Definition gdt_bytes : list Z := Eval vm_compute in take 32 loader_data.
Definition gdtr_bytes (base : Z) : list Z := le16 31 ++ le32 base.
Definition gdtr_of (base : Z) : Z := 31 + 2 ^ 16 * base.

Lemma number_gdtr base : 0 ≤ base < 2 ^ 32 → number (gdtr_bytes base) = gdtr_of base.
Proof. intros Hb. unfold number, gdtr_bytes, gdtr_of. simpl. zdm. Qed.

Lemma lgdt_bytes rd a base :
  0 ≤ base < 2 ^ 32 → (∀ i v, gdtr_bytes base !! i = Some v → rd (a + Z.of_nat i) = Ok v) →
  lgdt rd a = Ok (gdtr_of base).
Proof.
  intros Hb Hrd. unfold lgdt. change 6%nat with (length (gdtr_bytes base)).
  rewrite read_n_bytes by done. rb. by rewrite number_gdtr.
Qed.

Lemma gdtr_parts base : 0 ≤ base < 2 ^ 32 → lgdt_limit (gdtr_of base) = 31 ∧ lgdt_base (gdtr_of base) = base.
Proof. intros Hb. unfold lgdt_limit, lgdt_base, gdtr_of. zdm. Qed.

(** Loading a selector of a table whose bytes can be read. *)
Definition selects (gdt : list Z) (sel b : Z) : bool :=
  match decode_desc (take 8 (drop (Z.to_nat (8 * (sel / 8))) gdt)) with
  | Some s => seg_present s && (seg_base s =? b)
  | None => false
  end.

Lemma load_base_selects rd base gdt sel b :
  0 ≤ base < 2 ^ 32 → 0 ≤ 8 * (sel / 8) ∧ 8 * (sel / 8) + 8 ≤ Z.of_nat (length gdt) →
  (∀ i v, gdt !! i = Some v → rd (base + Z.of_nat i) = Ok v) →
  selects gdt sel b = true → load_base rd (gdtr_of base) sel = Ok b.
Proof.
  intros Hb Hk Hrd. unfold selects, load_base, desc_addr. destruct (gdtr_parts base Hb) as [_ ->].
  set (k := 8 * (sel / 8)) in *. set (bs := take 8 (drop (Z.to_nat k) gdt)).
  assert (Hl : length bs = 8%nat) by (unfold bs; rewrite length_take, length_drop; lia).
  rewrite <- Hl, read_n_bytes.
  - rb. destruct (decode_desc bs) as [s|]; [|done]. intros [-> ->%Z.eqb_eq]%andb_prop. done.
  - intros i v Hi. apply lookup_take_Some in Hi as [Hi _]. rewrite lookup_drop in Hi.
    rewrite <- (Hrd _ _ Hi). f_equal. lia.
Qed.

Lemma load_flat_selects rd base gdt sel :
  0 ≤ base < 2 ^ 32 → 0 ≤ 8 * (sel / 8) ∧ 8 * (sel / 8) + 8 ≤ Z.of_nat (length gdt) →
  (∀ i v, gdt !! i = Some v → rd (base + Z.of_nat i) = Ok v) →
  selects gdt sel 0 = true → load_flat rd (gdtr_of base) sel = Ok ().
Proof. intros Hb Hk Hrd Hs. unfold load_flat. by rewrite (load_base_selects rd base gdt sel 0). Qed.

Section protected.
Context {D : Type} `{!Ports D}.

Lemma p_mode_start_holds (d : D) m :
  has_bytes m GDT_BASE gdt_bytes → has_bytes m gdt_ptr (gdtr_bytes GDT_BASE) →
  p_mode_start d m = Ok (p_out8 (p_in8 d 0x92).2 0x92 (Z.lor (p_in8 d 0x92).1 2),
                         <[0xb80a0 := 0x50]> m, gdtr_of GDT_BASE).
Proof.
  intros Hg Hp. unfold p_mode_start. destruct (p_in8 d 0x92) as [al d1].
  rewrite (lgdt_bytes _ gdt_ptr GDT_BASE).
  - assert (Hrd : ∀ i v, gdt_bytes !! i = Some v → phys m (GDT_BASE + Z.of_nat i) = Ok v)
      by (intros i v Hi; unfold phys; f_equal; by apply Hg).
    rb. rewrite !(load_flat_selects _ GDT_BASE gdt_bytes); [|done..]. rb.
    by rewrite (load_base_selects _ GDT_BASE gdt_bytes _ 0xb8000).
  - by vm_compute.
  - intros i v Hi. unfold phys. f_equal. by apply Hp.
Qed.
End protected.

(** * Paging *)

(** What the code around [setup_page] stores below the first megabyte. *)
Definition paging_stores (x : Z) : Prop :=
  0x8fc ≤ x < 0x900 ∨ 0x91f ≤ x < 0x923 ∨ 0xb04 ≤ x < 0xb0a ∨ x = 0xb8140.

Definition high_gdt_bytes : list Z :=
  Eval vm_compute in take 28 loader_data ++ le32 (Z.lor Inc.DESC_VIDEO_HIGH4 0xc0000000).

Lemma rd32_le32 m a v : 0 ≤ v < 2 ^ 32 → has_bytes m a (le32 v) → rd32 m a = v.
Proof.
  intros Hv Hb. unfold rd32. pose proof (Hb O _ eq_refl) as H0. rewrite Z.add_0_r in H0.
  pose proof (Hb 1%nat _ eq_refl) as H1. pose proof (Hb 2%nat _ eq_refl) as H2.
  pose proof (Hb 3%nat _ eq_refl) as H3. change (Z.of_nat 1) with 1 in H1.
  change (Z.of_nat 2) with 2 in H2. change (Z.of_nat 3) with 3 in H3. rewrite H0, H1, H2, H3. zdm.
Qed.

(** Reading low memory through the tables. *)
Lemma boot_load8 M va :
  built M → low_va va → load8 M va = Ok (rd8 (pm M) (low_phys va)).
Proof. intros Hs Hva. simpl. by rewrite (boot_translate M va Hs Hva). Qed.

Lemma load8_low M x : built M → 0 ≤ x < 0x100000 → load8 M x = Ok (rd8 (pm M) x).
Proof.
  intros Hs Hx. rewrite boot_load8 by (done || by left). unfold low_phys, KBASE.
  by destruct (Z.ltb_spec x 0xc0000000); [|lia].
Qed.

Lemma load8_high M x :
  built M → 0 ≤ x < 0x100000 → load8 M (KBASE + x) = Ok (rd8 (pm M) x).
Proof.
  intros Hs Hx. rewrite boot_load8 by (done || right; unfold KBASE, K_HEAP_START; lia).
  unfold low_phys, KBASE. destruct (Z.ltb_spec (0xc0000000 + x) 0xc0000000); [lia|]. do 2 f_equal. lia.
Qed.

Lemma built_low M m :
  built M → (∀ x, 0x100000 ≤ x → rd8 m x = rd8 (pm M) x) → built (Machine m (cr3 M)).
Proof.
  intros [Hc Hs] Hm. split; [done|]. intros x Hx. rewrite <- (Hs x Hx). apply Hm. unfold tables in Hx. lia.
Qed.

Section paging.
Context `{!LoaderSyms}.

(** The memory when paging goes on. *)
Definition paging_memory (m : gmap Z Z) : gmap Z Z :=
  wr32 (wr32 (wr32 (wr16 (setup_page (wr32 m 0x8fc ret_setup_page)) 0xb04 31) 0xb06 0x903)
    0x91f (Z.lor Inc.DESC_VIDEO_HIGH4 0xc0000000)) 0xb06 0xc0000903.

Lemma paging_memory_other m x :
  0 ≤ x < 0x100000 → ¬ paging_stores x → rd8 (paging_memory m) x = rd8 m x.
Proof.
  intros Hx Hn. unfold paging_stores in Hn. unfold paging_memory.
  rewrite !rd8_wr32_other by lia. rewrite rd8_wr16_other by lia.
  rewrite setup_page_other by (unfold tables; lia). rewrite rd8_wr32_other by lia. done.
Qed.

Lemma paging_memory_boot m : built (Machine (paging_memory m) PAGE_DIR_TABLE_POS).
Proof.
  apply (setup_page_built (wr32 m 0x8fc ret_setup_page)); [done|]. intros x Hx. unfold tables in Hx. simpl.
  unfold paging_memory. rewrite !rd8_wr32_other by lia. by rewrite rd8_wr16_other by lia.
Qed.

Lemma paging_memory_high m x : 0x101400 ≤ x → rd8 (paging_memory m) x = rd8 m x.
Proof.
  intros Hx. unfold paging_memory. rewrite !rd8_wr32_other by lia. rewrite rd8_wr16_other by lia.
  rewrite setup_page_other by (unfold tables; lia). by rewrite rd8_wr32_other by lia.
Qed.

Lemma paging_memory_gdt m :
  has_bytes m GDT_BASE gdt_bytes →
  has_bytes (paging_memory m) GDT_BASE high_gdt_bytes
  ∧ has_bytes (paging_memory m) 0xb04 (gdtr_bytes 0xc0000903).
Proof.
  intros Hg. unfold paging_memory. set (m1 := wr16 _ _ _). change GDT_BASE with 0x903 in *. split.
  - intros i v Hi. pose proof (lookup_lt_Some _ _ _ Hi) as Hl. change (i < 32)%nat in Hl.
    rewrite rd8_wr32_other by lia. destruct (decide (i < 28)%nat).
    + rewrite !rd8_wr32_other by lia. unfold m1. rewrite rd8_wr16_other by lia.
      rewrite setup_page_other by (unfold tables; lia). rewrite rd8_wr32_other by lia. apply Hg.
      change high_gdt_bytes with (take 28 gdt_bytes ++ drop 28 high_gdt_bytes) in Hi.
      rewrite lookup_app_l in Hi by done. by apply lookup_take_Some in Hi as [Hi _].
    + replace (0x903 + Z.of_nat i) with (0x91f + Z.of_nat (i - 28)) by lia.
      apply (has_bytes_wr32 _ 0x91f (Z.lor Inc.DESC_VIDEO_HIGH4 0xc0000000)).
      change high_gdt_bytes with (take 28 high_gdt_bytes
        ++ le32 (Z.lor Inc.DESC_VIDEO_HIGH4 0xc0000000)) in Hi.
      by rewrite lookup_app_r in Hi by (simpl; lia).
  - intros i v Hi. unfold gdtr_bytes in Hi. destruct (decide (i < 2)%nat).
    + rewrite !rd8_wr32_other by lia. unfold m1, wr16. rewrite lookup_app_l in Hi by done.
      rewrite (rd8_write_bytes_in _ _ _ _ _ Hi). apply u8_small.
      do 2 (destruct i as [|i]; [injection Hi as <-; by vm_compute|]). lia.
    + rewrite lookup_app_r in Hi by (simpl; lia).
      replace (0xb04 + Z.of_nat i) with (0xb06 + Z.of_nat (i - 2)) by lia. by apply has_bytes_wr32.
Qed.

(** The table seen through its high address. *)
Lemma high_gdt_read M :
  built M → has_bytes (pm M) GDT_BASE high_gdt_bytes →
  ∀ i v, high_gdt_bytes !! i = Some v → load8 M (0xc0000903 + Z.of_nat i) = Ok v.
Proof.
  intros Hs Hg i v Hi. pose proof (lookup_lt_Some _ _ _ Hi) as Hl. change (i < 32)%nat in Hl.
  replace (0xc0000903 + Z.of_nat i) with (KBASE + (0x903 + Z.of_nat i)) by (unfold KBASE; lia).
  rewrite load8_high by (done || lia). f_equal. by apply Hg.
Qed.

Lemma high_gdt_loads M :
  built M → has_bytes (pm M) GDT_BASE high_gdt_bytes →
  load_base (load8 M) (gdtr_of 0xc0000903) SELECTOR_VIDEO = Ok 0xc00b8000
  ∧ load_flat (load8 M) (gdtr_of 0xc0000903) SELECTOR_CODE = Ok ()
  ∧ load_flat (load8 M) (gdtr_of 0xc0000903) SELECTOR_DATA = Ok ().
Proof.
  intros Hs Hg. pose proof (high_gdt_read M Hs Hg) as Hrd. split_and!.
  - by apply (load_base_selects _ _ high_gdt_bytes).
  - by apply (load_flat_selects _ _ high_gdt_bytes).
  - by apply (load_flat_selects _ _ high_gdt_bytes).
Qed.

(** The moves of the descriptor table, on any memory. *)
Lemma gdt_moves m high :
  rd32 m 0x91f = high →
  let m1 := wr32 m 0xb06 0x903 in
  let ebx := rd32 m1 0xb06 in
  let m2 := wr32 m1 (ebx + 0x18 + 4) (Z.lor (rd32 m1 (ebx + 0x18 + 4)) 0xc0000000) in
  wr32 m2 0xb06 (u32 (rd32 m2 0xb06 + 0xc0000000))
  = wr32 (wr32 m1 0x91f (Z.lor high 0xc0000000)) 0xb06 0xc0000903.
Proof.
  intros Hh. cbv zeta. rewrite (rd32_wr32_same m 0xb06 0x903) by lia.
  change (0x903 + 0x18 + 4) with 0x91f. rewrite (rd32_wr32_other m 0xb06 0x903 0x91f), Hh by lia.
  rewrite (rd32_wr32_other _ 0x91f _ 0xb06) by lia. by rewrite (rd32_wr32_same m 0xb06 0x903) by lia.
Qed.

Lemma enable_paging_memory m :
  has_bytes m GDT_BASE gdt_bytes →
  enable_paging m (gdtr_of GDT_BASE)
  = (let M := Machine (paging_memory m) PAGE_DIR_TABLE_POS in
     gdtr ← lgdt (load8 M) gdt_ptr;
     gs ← load_base (load8 M) gdtr SELECTOR_VIDEO;
     M ← store8 M (gs + 320) 0x56;
     _ ← load_flat (load8 M) gdtr SELECTOR_CODE;
     Ok (M, 0xc0000900, gdtr)).
Proof.
  intros Hg. unfold enable_paging, paging_memory. cbv zeta.
  destruct (gdtr_parts GDT_BASE) as [-> ->]; [by vm_compute|].
  change (LOADER_STACK_TOP - 4) with 0x8fc. change (gdt_ptr + 2) with 0xb06.
  change (u32 (LOADER_STACK_TOP + 0xc0000000)) with 0xc0000900. 
  change (wr16 (setup_page (wr32 m 0x8fc ret_setup_page)) gdt_ptr 31)
    with (wr16 (setup_page (wr32 m 0x8fc ret_setup_page)) 0xb04 31).
  assert (Ev : rd32 (wr16 (setup_page (wr32 m 0x8fc ret_setup_page)) 0xb04 31) 0x91f = Inc.DESC_VIDEO_HIGH4).
  { apply rd32_le32; [by vm_compute|]. intros i v Hi. pose proof (lookup_lt_Some _ _ _ Hi) as Hl.
    change (i < 4)%nat in Hl. rewrite rd8_wr16_other by lia. rewrite setup_page_other by (unfold tables; lia).
    rewrite (rd8_wr32_other m) by lia. replace (0x91f + Z.of_nat i) with (GDT_BASE + Z.of_nat (28 + i))
      by (change GDT_BASE with 0x903; lia). apply Hg.
    change gdt_bytes with (take 28 gdt_bytes ++ le32 Inc.DESC_VIDEO_HIGH4).
    rewrite lookup_app_r by (simpl; lia). by replace (28 + i - length (take 28 gdt_bytes))%nat with i by (simpl; lia). }
  revert Ev. change GDT_BASE with 0x903. generalize (wr16 (setup_page (wr32 m 0x8fc ret_setup_page)) 0xb04 31).
  intros m1 Ev. pose proof (gdt_moves m1 _ Ev) as E. cbv zeta in E. by rewrite E.
Qed.

Lemma enable_paging_holds m :
  has_bytes m GDT_BASE gdt_bytes →
  ∃ M, enable_paging m (gdtr_of GDT_BASE) = Ok (M, 0xc0000900, gdtr_of 0xc0000903)
    ∧ built M ∧ has_bytes (pm M) GDT_BASE high_gdt_bytes
    ∧ (∀ x, 0 ≤ x < 0x100000 → ¬ paging_stores x → rd8 (pm M) x = rd8 m x)
    ∧ ∀ x, 0x101400 ≤ x → rd8 (pm M) x = rd8 m x.
Proof.
  intros Hg. rewrite enable_paging_memory by done. cbv zeta.
  set (M := Machine (paging_memory m) PAGE_DIR_TABLE_POS).
  pose proof (paging_memory_boot m) as Hs. fold M in Hs.
  destruct (paging_memory_gdt m Hg) as [Hg' Hp].
  rewrite (lgdt_bytes _ gdt_ptr 0xc0000903); [|lia|].
  2: { intros i v Hi. pose proof (lookup_lt_Some _ _ _ Hi) as Hl. change (i < 6)%nat in Hl.
    change gdt_ptr with 0xb04. rewrite load8_low by (done || lia). f_equal. by apply Hp. }
  rb. destruct (high_gdt_loads M Hs Hg') as (-> & _ & _).
  rb. assert (Ht : translate M (0xc00b8000 + 320) = Some 0xb8140).
  { rewrite boot_translate; [reflexivity|exact Hs|]. right. unfold KBASE, K_HEAP_START. lia. }
  assert (store8 M (0xc00b8000 + 320) 0x56 = Ok (Machine (<[0xb8140 := 0x56]> (pm M)) (cr3 M))) as ->.
  { unfold store8, paged_mem. by rewrite Ht. }
  set (M' := Machine (<[0xb8140 := 0x56]> (pm M)) (cr3 M)).
  assert (Hs' : built M').
  { apply (built_low M); [exact Hs|]. intros x Hx. apply rd8_insert_ne. lia. }
  assert (Hg2 : has_bytes (pm M') GDT_BASE high_gdt_bytes).
  { apply (has_bytes_same (paging_memory m)); [|exact Hg']. intros x Hx. apply rd8_insert_ne.
    change GDT_BASE with 0x903 in Hx. change (length high_gdt_bytes) with 32%nat in Hx. lia. }
  rb. destruct (high_gdt_loads M' Hs' Hg2) as (_ & -> & _). rb.
  exists M'. split; [reflexivity|]. split_and!; [exact Hs'|exact Hg2| |].
  2: { intros x Hx. change (rd8 (<[0xb8140 := 0x56]> (paging_memory m)) x = rd8 m x).
    rewrite rd8_insert_ne by lia. by apply paging_memory_high. }
  intros x Hx Hn. change (rd8 (<[0xb8140 := 0x56]> (paging_memory m)) x = rd8 m x).
  rewrite rd8_insert_ne by (unfold paging_stores in Hn; lia). by apply paging_memory_other.
Qed.
End paging.

(** * The kernel *)

(** Low memory as [kernel_init] uses it: stack and segments above 3 GB, the
    file below. *)
Section boot_map.
Context (len : nat) (Hlen : Z.of_nat len ≤ 0x19000).

Definition in_boot_map (a : Z) : Prop :=
  0xc0000800 ≤ a < 0xc0070000 ∨ KERNEL_BIN_BASE_ADDR ≤ a < KERNEL_BIN_BASE_ADDR + Z.of_nat len.

Lemma in_boot_map_low a : in_boot_map a → low_va a.
Proof. unfold in_boot_map, low_va, KERNEL_BIN_BASE_ADDR, KBASE, K_HEAP_START. lia. Qed.

Lemma low_phys_inj a b : in_boot_map a → in_boot_map b → low_phys a = low_phys b → a = b.
Proof.
  unfold in_boot_map, low_phys, KERNEL_BIN_BASE_ADDR, KBASE.
  destruct (Z.ltb_spec a 0xc0000000), (Z.ltb_spec b 0xc0000000); lia.
Qed.

Lemma low_phys_range a : in_boot_map a → 0x800 ≤ low_phys a < 0x70000 + Z.of_nat len.
Proof.
  unfold in_boot_map, low_phys, KERNEL_BIN_BASE_ADDR, KBASE. destruct (Z.ltb_spec a 0xc0000000); lia.
Qed.

Context (M : machine) (n : nat) (Hs : built M) (Hn : Z.of_nat n = 0x6f800).

Definition boot_map : gmap Z Z := heap_map M (region_map M 0xc0000800 n) KERNEL_BIN_BASE_ADDR len.

Lemma boot_map_lookup a :
  boot_map !! a = if decide (in_boot_map a) then Some (rd8 (pm M) (low_phys a)) else None.
Proof.
  pose proof (built_space M Hs) as Hf. unfold boot_map, in_boot_map.
  destruct (decide (KERNEL_BIN_BASE_ADDR ≤ a < KERNEL_BIN_BASE_ADDR + Z.of_nat len)) as [Ha|Ha].
  - rewrite decide_True by by right. replace a with (KERNEL_BIN_BASE_ADDR + (a - KERNEL_BIN_BASE_ADDR)) by lia.
    rewrite (heap_map_in M _ _ _ _ (low_phys a)); [|lia|].
    + do 3 f_equal. lia.
    + replace (KERNEL_BIN_BASE_ADDR + (a - KERNEL_BIN_BASE_ADDR)) with a by lia.
      apply boot_translate; [done|]. apply in_boot_map_low. by right.
  - rewrite heap_map_out by lia.
    rewrite region_map_lookup by (exact Hf || unfold KBASE, K_HEAP_START; lia).
    unfold low_phys, KBASE. repeat case_decide; try done; try lia.
    by destruct (Z.ltb_spec a 0xc0000000); [lia|].
Qed.

Lemma boot_map_some a : is_Some (boot_map !! a) ↔ in_boot_map a.
Proof. rewrite boot_map_lookup. by case_decide. Qed.

Lemma boot_map_holds : paged_holds M boot_map.
Proof.
  intros a v Ha. assert (Hin : in_boot_map a) by (apply boot_map_some; by eexists).
  rewrite boot_map_lookup, decide_True in Ha by done. injection Ha as <-. split; [apply rd8_range|].
  exists (low_phys a). split_and!; [by apply boot_translate, in_boot_map_low|done|].
  intros b w Hb. assert (Hinb : in_boot_map b) by (apply boot_map_some; by eexists). split.
  - rewrite boot_translate by (done || by apply in_boot_map_low). intros [= E]. by apply low_phys_inj.
  - intros Hw. apply boot_walk in Hw; [|done|by apply in_boot_map_low].
    pose proof (low_phys_range a Hin). lia.
Qed.
End boot_map.

(** A kernel whose segments go between the loader and the copy of the file. *)
Definition low_segments (img : list Z) : bool :=
  forallb (λ ph, negb (is_loaded ph)
    || (0xc0001000 <=? p_vaddr ph) && (p_vaddr ph + p_filesz ph <=? 0xc0070000)) (phdrs img).

(** What stands at the addresses of the segments after loading. *)
Definition segments_in (M : machine) (img : list Z) : Prop :=
  ∀ i ph, phdrs img !! i = Some ph → is_loaded ph = true →
    (∀ j q, (i < j)%nat → phdrs img !! j = Some q → is_loaded q = true → disjoint_segments ph q) →
    ∀ k v, segment_bytes img ph !! k = Some v → load8 M (p_vaddr ph + Z.of_nat k) = Ok v.

Section kernel.
Context `{!LoaderSyms} (img : list Z) (Helf : elf_file img = true) (Hlow : low_segments img = true).
Context (Hlen : Z.of_nat (length img) ≤ 0x19000).

Lemma low_segment ph :
  ph ∈ phdrs img → is_loaded ph = true →
  0xc0001000 ≤ p_vaddr ph ∧ p_vaddr ph + p_filesz ph ≤ 0xc0070000
  ∧ length (segment_bytes img ph) = Z.to_nat (p_filesz ph) ∧ 0 ≤ p_filesz ph.
Proof.
  intros Hph Hld. unfold low_segments in Hlow. rewrite forallb_forall in Hlow.
  specialize (Hlow ph (proj1 (list_elem_of_In _ _) Hph)). rewrite Hld in Hlow. simpl in Hlow.
  destruct (elf_file_spec img Helf) as (_ & _ & _ & _ & Hrng). destruct (Hrng ph Hph) as (? & ? & ?).
  rewrite length_segment by lia. lia.
Qed.

Lemma low_segments_clear : segments_clear img 0xc00008fc = true.
Proof.
  unfold segments_clear. apply forallb_forall. intros ph Hph%list_elem_of_In. unfold clear_of.
  destruct (is_loaded ph) eqn:Hld; [|done]. destruct (low_segment ph Hph Hld) as (? & ? & _).
  unfold KERNEL_BIN_BASE_ADDR. simpl. lia.
Qed.

(** The part of low memory that loading does not touch. *)
Definition kept (x : Z) : Prop := ¬ 0x8e4 ≤ x < 0x900 ∧ ¬ 0x1000 ≤ x < 0x70000.

(** The call of [kernel_init] on the map of low memory. *)
Lemma enter_kernel_run M n ebp gdtr :
  let g := boot_map (length img) M n in
  built M → Z.of_nat n = 0x6f800 → has_bytes (pm M) KERNEL_BIN_BASE_ADDR img →
  Forall (λ v, 0 ≤ v < 2 ^ 32) [ret_kernel_init; ebp; ret_mem_cpy] →
  ∃ M' g', enter_kernel M 0xc0000900 ebp gdtr = Ok (Handover M' 0xc009f000 KERNEL_ENTRY_POINT gdtr)
    ∧ framed M g M' g'
    ∧ (∀ a, ¬ 0xc00008e4 ≤ a < 0xc0000900 → ¬ 0xc0001000 ≤ a < 0xc0070000 → g' !! a = g !! a)
    ∧ (∀ i ph, phdrs img !! i = Some ph → is_loaded ph = true →
         (∀ j q, (i < j)%nat → phdrs img !! j = Some q → is_loaded q = true → disjoint_segments ph q) →
         bytes_at g' (p_vaddr ph) (segment_bytes img ph)).
Proof.
  intros g Hs Hn Himg Hw.
  pose proof (boot_map_holds (length img) Hlen M n Hs Hn) as Hh.
  pose proof (boot_map_lookup (length img) Hlen M n Hs Hn) as Hlk. fold g in Hh, Hlk. clearbody g.
  assert (Hin : ∀ a, in_boot_map (length img) a → is_Some (g !! a)).
  { intros a Ha. rewrite Hlk, decide_True by done. by eexists. }
  assert (Hown : owned g 0xc00008e4 28) by (intros i Hi; apply Hin; left; lia).
  assert (Hst : stacked 0xc00008e4 0xc0000900 g g 0xc0000900 []).
  { split; [simpl; lia|]. by split_and!. }
  destruct (push_holds (ByteMemSpec0 := framed_spec M g) 0xc00008e4 0xc0000900 g M g 0xc0000900 []
    ret_kernel_init) as (M1 & g1 & E1 & Hm1 & Hs1); [by apply framed_refl|exact Hst|lia..|].
  change (0xc0000900 - 4) with 0xc00008fc in E1, Hs1.
  destruct Hs1 as (_ & Ho1 & Hb1 & Heq1). rewrite app_nil_r in Hb1.
  destruct (kernel_init_holds (ByteMemSpec0 := framed_spec M g) M1 g1 img 0xc00008fc ebp ret_kernel_init)
    as (M2 & g2 & E2 & Hm2 & Heq2);
    [exact Hm1| |done|exact Ho1|exact Hb1|lia|lia|done| |apply low_segments_clear| |].
  { intros i v Hi. pose proof (lookup_lt_Some _ _ _ Hi). rewrite Heq1 by (unfold KERNEL_BIN_BASE_ADDR; lia).
    rewrite Hlk, decide_True by (right; lia). f_equal.
    rewrite <- (Himg i v Hi). unfold low_phys, KBASE, KERNEL_BIN_BASE_ADDR.
    by destruct (Z.ltb_spec (0x70000 + Z.of_nat i) 0xc0000000); [|lia]. }
  { unfold KERNEL_BIN_BASE_ADDR. lia. }
  { intros ph Hph Hld i Hi. destruct (low_segment ph Hph Hld) as (? & ? & _).
    rewrite Heq1 by lia. apply Hin. left. lia. }
  exists M2, g2. split_and!; [|exact Hm2| |].
  - unfold enter_kernel. rewrite E1. rb. rewrite E2. rb. by rewrite Z.eqb_refl.
  - intros a Ha Ha'. rewrite Heq2, load_segments_other, Heq1; [done|lia| |lia].
    intros q Hq Hld. destruct (low_segment q Hq Hld) as (? & ? & ? & ?). split_and!; [done..|lia].
  - intros i ph. apply (kernel_init_segment img g1 g2 0xc00008fc); [done|apply low_segments_clear|done].
Qed.

(** Reading back what the map holds. *)
Lemma framed_low M n M' g' :
  let g := boot_map (length img) M n in
  built M → Z.of_nat n = 0x6f800 → framed M g M' g' →
  built M'
  ∧ (∀ a v, g' !! a = Some v → load8 M' a = Ok v)
  ∧ (∀ x, (x < 0x800 ∨ 0x70000 + Z.of_nat (length img) ≤ x) → rd8 (pm M') x = rd8 (pm M) x).
Proof.
  intros g Hs Hn (Hh2 & Hc2 & Hdom2 & Htr2 & Hfr2).
  pose proof (boot_map_some (length img) Hlen M n Hs Hn) as Hsome. fold g in Hsome. clearbody g.
  assert (Hout : ∀ x, (x < 0x800 ∨ 0x70000 + Z.of_nat (length img) ≤ x) → rd8 (pm M') x = rd8 (pm M) x).
  { intros x Hx. apply Hfr2. intros a Ha%Hsome.
    rewrite boot_translate by (exact Hs || by apply (in_boot_map_low (length img) Hlen)).
    pose proof (low_phys_range (length img) Hlen a Ha). intros [= E]. lia. }
  split_and!; [|..|exact Hout].
  - destruct M' as [m' c']. simpl in Hc2. subst c'. apply built_low; [exact Hs|].
    intros x Hx. apply Hout. lia.
  - intros a v Ha. by apply (load8_holds (M := machine) M' g').
Qed.

Lemma enter_kernel_holds M ebp gdtr :
  built M → has_bytes (pm M) KERNEL_BIN_BASE_ADDR img →
  Forall (λ v, 0 ≤ v < 2 ^ 32) [ret_kernel_init; ebp; ret_mem_cpy] →
  ∃ M', enter_kernel M 0xc0000900 ebp gdtr = Ok (Handover M' 0xc009f000 KERNEL_ENTRY_POINT gdtr)
    ∧ built M' ∧ segments_in M' img
    ∧ ∀ x, kept x → rd8 (pm M') x = rd8 (pm M) x.
Proof.
  intros Hs Himg Hw. destruct (Z_of_nat_complete 0x6f800) as [n Hn]; [lia|]. symmetry in Hn.
  destruct (enter_kernel_run M n ebp gdtr Hs Hn Himg Hw) as (M' & g' & E & Hf & Hsame & Hseg).
  destruct (framed_low M n M' g' Hs Hn Hf) as (Hs' & Hg' & Hout).
  pose proof (boot_map_lookup (length img) Hlen M n Hs Hn) as Hlk.
  exists M'. split_and!; [exact E|exact Hs'| |].
  - intros i ph Hi Hld Hd k v Hk. apply Hg'. by apply (Hseg i ph Hi Hld Hd).
  - intros x [Hx1 Hx2].
    assert (Hback : ∀ a, in_boot_map (length img) a → low_phys a = x →
      ¬ 0xc00008e4 ≤ a < 0xc0000900 → ¬ 0xc0001000 ≤ a < 0xc0070000 → rd8 (pm M') x = rd8 (pm M) x).
    { intros a Ha Hax Ha1 Ha2. pose proof (Hsame a Ha1 Ha2) as Hga.
      rewrite Hlk, decide_True, Hax in Hga by done. apply Hg' in Hga.
      rewrite boot_load8, Hax in Hga by (exact Hs' || by apply (in_boot_map_low (length img) Hlen)).
      by injection Hga. }
    destruct (decide (0x900 ≤ x < 0x1000 ∨ 0x800 ≤ x < 0x8e4)).
    { apply (Hback (KBASE + x)); [left; unfold KBASE; lia| |unfold KBASE; lia..]. unfold low_phys, KBASE.
      destruct (Z.ltb_spec (0xc0000000 + x) 0xc0000000); lia. }
    destruct (decide (0x70000 ≤ x < 0x70000 + Z.of_nat (length img))).
    { apply (Hback x); [by right| |lia..]. unfold low_phys, KBASE.
      by destruct (Z.ltb_spec x 0xc0000000); [|lia]. }
    apply Hout. lia.
Qed.
End kernel.

(** * The whole loader *)

Section loader.
Context `{BI : Bios, !LoaderSyms} {D : Type} `{!Ports D, !AtaDisk D}.

(** What the loader finds out about the size of memory, by the first or the
    second method. *)
Definition bios_reports (m : gmap Z Z) (total : Z) : Prop :=
  (∃ l cont, e820_bios l cont ∧ (1 ≤ length l ≤ 12)%nat ∧ total = e820_total m (length l))
  ∨ (∃ kb blocks, no_e820 ∧ e801_bios kb blocks ∧ 0 ≤ kb ∧ 0 ≤ blocks
       ∧ total = 0x100000 + kb * 1024 + blocks * 0x10000 ∧ total < 2 ^ 32).

Lemma bios_detects r m total :
  bios_reports m total → rd16 m ards_nr = 0 →
  ∃ m1, mem_get r m = Ok (total, m1) ∧ rd32 m1 total_mem_bytes = total
    ∧ ∀ x, ¬ ards_area x → ¬ total_mem_bytes ≤ x < total_mem_bytes + 4 → rd8 m1 x = rd8 m x.
Proof.
  intros [(l & cont & Hb & Hl & ->)|(kb & blocks & H0 & H1 & Hk & Hbl & -> & Ht)] Hnr.
  - destruct (mem_get_e820_holds l cont r m Hb Hl Hnr) as (m1 & E & Et & Hf). by exists m1.
  - rewrite (mem_get_e801_holds r m kb blocks H0 H1 Ht). eexists. split; [done|].
    split; [apply rd32_wr32_same; lia|]. intros x _ Hx. apply rd8_wr32_other. lia.
Qed.

(** The kernel's file on the disk, from sector 9 on. *)
Definition kernel_on (img : Z → Z) (kimg : list Z) : Prop :=
  take (length kimg) (sector_bytes img KERNEL_START_SECTOR 200) = kimg.

Lemma kernel_on_length img kimg : kernel_on img kimg → Z.of_nat (length kimg) ≤ 0x19000.
Proof.
  intros Hk. unfold kernel_on in Hk. rewrite <- Hk, length_take.
  pose proof (length_sector_bytes img KERNEL_START_SECTOR 200). lia.
Qed.

Lemma word_bytes_range ws i b : word_bytes ws !! i = Some b → 0 ≤ b < 256.
Proof.
  intros Hb. cut (Forall (λ b, 0 ≤ b < 256) (word_bytes ws)).
  { intros Hf. by apply (Forall_lookup_1 _ _ _ _ Hf Hb). }
  clear Hb. induction ws as [|w ws IH]; [constructor|]. rewrite word_bytes_cons.
  constructor; [zdm|]. constructor; [zdm|done].
Qed.

(** Memory before paging, after everything else. *)
Lemma read_in_kernel (d : D) img kimg m :
  no_wait D → idle d img → kernel_on img kimg →
  ∃ d' m', rd_disk_m_32 d m KERNEL_START_SECTOR KERNEL_BIN_BASE_ADDR 200 = Ok (d', m') ∧ idle d' img
    ∧ has_bytes m' KERNEL_BIN_BASE_ADDR kimg
    ∧ ∀ x, ¬ 0x70000 ≤ x < 0x89000 → rd8 m' x = rd8 m x.
Proof.
  intros Hnw Hi Hk. destruct (rd_disk_m_32_holds d img m KERNEL_START_SECTOR KERNEL_BIN_BASE_ADDR 200 Hnw Hi)
    as (d' & E & Hi'); [by vm_compute|lia|by vm_compute|by vm_compute|].
  exists d', (write_bytes m KERNEL_BIN_BASE_ADDR (sector_bytes img KERNEL_START_SECTOR 200)).
  split_and!; [exact E|exact Hi'| |].
  - intros i v Hv. unfold kernel_on in Hk. rewrite <- Hk in Hv. apply lookup_take_Some in Hv as [Hv _].
    rewrite (rd8_write_bytes_in _ _ _ _ _ Hv). apply u8_small. by apply word_bytes_range in Hv.
  - intros x Hx. apply rd8_write_bytes_other. rewrite length_sector_bytes by lia.
    unfold KERNEL_BIN_BASE_ADDR. lia.
Qed.

(** The loader's data in memory. *)
Lemma loader_data_parts m :
  has_bytes m GDT_BASE loader_data →
  has_bytes m GDT_BASE gdt_bytes ∧ has_bytes m gdt_ptr (gdtr_bytes GDT_BASE) ∧ rd16 m ards_nr = 0.
Proof.
  intros Hd. split_and!.
  - intros i v Hi. apply Hd. assert (Hi' : take 32 loader_data !! i = Some v) by exact Hi.
    by apply lookup_take_Some in Hi' as [Hi' _].
  - pose proof (has_bytes_sub m GDT_BASE loader_data 513 6 Hd) as Hs. exact Hs.
  - unfold rd16. pose proof (Hd 763%nat 0 eq_refl) as H0. pose proof (Hd 764%nat 0 eq_refl) as H1.
    change (GDT_BASE + Z.of_nat 763) with ards_nr in H0.
    change (GDT_BASE + Z.of_nat 764) with (ards_nr + 1) in H1. by rewrite H0, H1.
Qed.

(** Up to the read of the kernel: the size is stored, the descriptor table is
    as it was, the file is in memory, and little else has changed. *)
Record before_paging (m : gmap Z Z) (total : Z) (kimg : list Z) (m' : gmap Z Z) : Prop := {
  bp_size : rd32 m' 0xb00 = total;
  bp_gdt : has_bytes m' GDT_BASE gdt_bytes;
  bp_file : has_bytes m' KERNEL_BIN_BASE_ADDR kimg;
  bp_high x : 0x100000 ≤ x → rd8 m' x = rd8 m x;
}.

Lemma loader_real_mode (d : D) img kimg m r total :
  has_bytes m GDT_BASE loader_data → bios_reports m total → no_wait D → idle d img → kernel_on img kimg →
  ∃ d' m' m1 d2 m2, mem_get r m = Ok (total, m1)
    ∧ p_mode_start d m1 = Ok (d2, m2, gdtr_of GDT_BASE)
    ∧ rd_disk_m_32 d2 (wr32 m2 (LOADER_STACK_TOP - 4) ret_rd_disk) KERNEL_START_SECTOR
        KERNEL_BIN_BASE_ADDR 200 = Ok (d', m')
    ∧ before_paging m total kimg m' ∧ idle d' img.
Proof.
  intros Hd Hbios Hnw Hi Hk. destruct (loader_data_parts m Hd) as (Hg & Hp & Hnr).
  destruct (bios_detects r m total Hbios Hnr) as (m1 & E1 & Et1 & Hf1).
  assert (Hf1' : ∀ x, ¬ 0xb00 ≤ x < 0xb04 → ¬ 0xb0a ≤ x < 0xc00 → rd8 m1 x = rd8 m x).
  { intros x Hx Hx'. apply Hf1.
    - unfold ards_area. change ards_buf with 0xb0a. change ards_nr with 0xbfe. lia.
    - change total_mem_bytes with 0xb00. lia. }
  assert (Hg1 : has_bytes m1 GDT_BASE gdt_bytes).
  { apply (has_bytes_same m); [|exact Hg]. intros x Hx. change GDT_BASE with 0x903 in Hx.
    change (length gdt_bytes) with 32%nat in Hx. apply Hf1'; lia. }
  assert (Hp1 : has_bytes m1 gdt_ptr (gdtr_bytes GDT_BASE)).
  { apply (has_bytes_same m); [|exact Hp]. intros x Hx. change gdt_ptr with 0xb04 in Hx.
    change (length (gdtr_bytes GDT_BASE)) with 6%nat in Hx. apply Hf1'; lia. }
  pose proof (p_mode_start_holds d m1 Hg1 Hp1) as E2. set (d2 := p_out8 _ _ _) in E2.
  set (m3 := wr32 (<[0xb80a0 := 0x50]> m1) (LOADER_STACK_TOP - 4) ret_rd_disk).
  assert (Hi2 : idle d2 img) by (apply ata_a20_out, ata_a20_in, Hi).
  destruct (read_in_kernel d2 img kimg m3 Hnw Hi2 Hk) as (d4 & m4 & E4 & Hi4 & Hb4 & Hf4).
  assert (Hf4' : ∀ x, ¬ 0x70000 ≤ x < 0x89000 → x ≠ 0xb80a0 → ¬ 0x8fc ≤ x < 0x900 → rd8 m4 x = rd8 m1 x).
  { intros x Hx1 Hx2 Hx3. rewrite Hf4 by done. unfold m3. change (LOADER_STACK_TOP - 4) with 0x8fc.
    rewrite rd8_wr32_other by lia. apply rd8_insert_ne. lia. }
  exists d4, m4, m1, d2, (<[0xb80a0 := 0x50]> m1). split_and!; try done. split; [|..|done|].
  - rewrite <- Et1. change total_mem_bytes with 0xb00. apply rd32_same. intros x Hx. apply Hf4'; lia.
  - apply (has_bytes_same m1); [|exact Hg1]. intros x Hx. change GDT_BASE with 0x903 in Hx.
    change (length gdt_bytes) with 32%nat in Hx. apply Hf4'; lia.
  - intros x Hx. rewrite Hf4', Hf1' by lia. done.
Qed.

(** What the kernel gets. *)
Record handed_over (M : machine) (total : Z) (kimg : list Z) : Prop := {
  ho_built : built M;
  ho_size : load32 M 0xb00 = Ok total;
  ho_segments : segments_in M kimg;
  ho_flat : load_flat (load8 M) (gdtr_of 0xc0000903) SELECTOR_CODE = Ok ()
    ∧ load_flat (load8 M) (gdtr_of 0xc0000903) SELECTOR_DATA = Ok ();
  ho_video : load_base (load8 M) (gdtr_of 0xc0000903) SELECTOR_VIDEO = Ok 0xc00b8000;
  ho_low x : 0 ≤ x < 0x100000 → load8 M x = load8 M (KBASE + x);
}.

Lemma loader_holds (d : D) img kimg m r ebp total :
  has_bytes m GDT_BASE loader_data → bios_reports m total →
  no_wait D → idle d img → kernel_on img kimg → elf_file kimg = true → low_segments kimg = true →
  Forall (λ v, 0 ≤ v < 2 ^ 32) [ret_kernel_init; ebp; ret_mem_cpy] →
  ∃ d' M, loader d m r ebp
      = Ok (d', Handover M 0xc009f000 KERNEL_ENTRY_POINT (gdtr_of 0xc0000903))
    ∧ handed_over M total kimg ∧ (no_stale m → fresh_machine M) ∧ idle d' img.
Proof.
  intros Hd Hbios Hnw Hi Hk Helf Hlow Hw. pose proof (kernel_on_length img kimg Hk) as Hlen.
  destruct (loader_real_mode d img kimg m r total Hd Hbios Hnw Hi Hk)
    as (d4 & m4 & m1 & d2 & m2 & E1 & E2 & E4 & [Et Hg4 Hb4 Hf4] & Hi4).
  unfold loader. rewrite E1. rb. rewrite E2. rb. rewrite E4. rb.
  destruct (enable_paging_holds m4 Hg4) as (M5 & E5 & Hs5 & Hg5 & Hf5 & Hh5).
  rewrite E5. rb.
  destruct (enter_kernel_holds kimg Helf Hlow Hlen M5 ebp (gdtr_of 0xc0000903)) as (M6 & E6 & Hs6 & Hseg & Hf6);
    [exact Hs5| |exact Hw|].
  { apply (has_bytes_same m4); [|exact Hb4]. intros x Hx. unfold KERNEL_BIN_BASE_ADDR in Hx.
    apply Hf5; [lia|]. unfold paging_stores. lia. }
  assert (Hg6 : has_bytes (pm M6) GDT_BASE high_gdt_bytes).
  { apply (has_bytes_same (pm M5)); [|exact Hg5]. intros x Hx. change GDT_BASE with 0x903 in Hx.
    change (length high_gdt_bytes) with 32%nat in Hx. apply Hf6. unfold kept. lia. }
  destruct (high_gdt_loads M6 Hs6 Hg6) as (Hv6 & Hc6 & Hd6).
  rewrite E6. rb. exists d4, M6. split; [reflexivity|].
  assert (Hst : no_stale m → no_stale (pm M6)).
  { intros Hn i Hi'. rewrite (rd32_same m (pm M6)); [by apply Hn|]. intros x Hx. unfold KTABLES in Hx.
    rewrite Hf6, Hh5, Hf4 by (unfold kept; lia). reflexivity. }
  split; [|split; [intros Hn; apply built_fresh; [exact Hs6|exact (Hst Hn)]|exact Hi4]].
  split; [exact Hs6| |exact Hseg|exact (conj Hc6 Hd6)|exact Hv6|].
  - unfold load32. rewrite boot_translate by (exact Hs6 || left; lia). change (low_phys 0xb00) with 0xb00.
    f_equal. rewrite <- Et. apply rd32_same. intros x Hx.
    rewrite Hf6 by (unfold kept; lia). apply Hf5; [lia|]. unfold paging_stores. lia.
  - intros x Hx. by rewrite load8_low, load8_high.
Qed.

(** C10: the loader hands a working machine to the kernel.  With the loader's
    data in memory, a BIOS that answers function 0xe820 or 0xe801, a disk that
    is never busy between two sectors (the loader does not poll there), and a
    kernel file at sector 9 whose segments go between 4 KB and 448 KB, the
    loader returns from every call and jumps to the kernel's entry with the
    stack at 0xc009f000.  The page directory and the entries of the first
    megabyte are built, so that it is seen at 0 and at 3 GB; the number the
    detection computes is at 0xb00; every segment of the file stands at its
    virtual address; and the descriptor table is loaded from above 3 GB, with
    flat code and data segments and the video segment at 0xc00b8000.  The other
    entries of the kernel's page tables keep what the memory held: when
    none of them had its present bit set, nothing else is mapped. *)
Theorem loader_hands_over (d : D) img kimg m r ebp total :
  has_bytes m GDT_BASE loader_data → bios_reports m total →
  no_wait D → idle d img → kernel_on img kimg → elf_file kimg = true → low_segments kimg = true →
  Forall (λ v, 0 ≤ v < 2 ^ 32) [ret_kernel_init; ebp; ret_mem_cpy] →
  ∃ d' M, loader d m r ebp
      = Ok (d', Handover M 0xc009f000 KERNEL_ENTRY_POINT (gdtr_of 0xc0000903))
    ∧ built M ∧ (no_stale m → fresh_machine M) ∧ load32 M 0xb00 = Ok total ∧ segments_in M kimg
    ∧ load_flat (load8 M) (gdtr_of 0xc0000903) SELECTOR_CODE = Ok ()
    ∧ load_flat (load8 M) (gdtr_of 0xc0000903) SELECTOR_DATA = Ok ()
    ∧ load_base (load8 M) (gdtr_of 0xc0000903) SELECTOR_VIDEO = Ok 0xc00b8000
    ∧ (∀ x, 0 ≤ x < 0x100000 → load8 M x = load8 M (KBASE + x))
    ∧ idle d' img.
Proof.
  intros Hd Hb Hnw Hi Hk Helf Hlow Hw.
  destruct (loader_holds d img kimg m r ebp total) as (d' & M & E & [? ? ? [] ? ?] & Hf & Hi'); auto.
  exists d', M. by split_and!.
Qed.
End loader.
