(* ===== verification/Timer.v ===== *)
(** device/timer.c: programming the 8253.  The tick itself,
    [intr_timer_handler], is in Sched.v. *)
From S2P Require Import Prelude Interrupt.

Definition IRQ0_FREQUENCY : Z := 1000.
Definition INPUT_FREQUENCY : Z := 1193180.
Definition COUNTER0_VALUE : Z := INPUT_FREQUENCY / IRQ0_FREQUENCY.
Definition COUNTER0_PORT : Z := 0x40.
Definition COUNTER_MODE : Z := 2.
Definition COUNTER0_NO : Z := 0.
Definition READ_WRITE_LATCH : Z := 3.
Definition PIT_CONTROL_PORT : Z := 0x43.

(** The bytes written to ports, in order.  In the last one the cast binds
    tighter than the shift. *)
Definition frequency_set (counter_port counter_no rwl counter_mode counter_value : Z)
    : list (Z * Z) :=
  [ (PIT_CONTROL_PORT,
     u8 (Z.lor (Z.lor (Z.shiftl (u8 counter_no) 6) (Z.shiftl (u8 rwl) 4))
               (Z.shiftl (u8 counter_mode) 1)));
    (u8 counter_port, u8 (u16 counter_value));
    (u8 counter_port, u8 (Z.shiftr (u8 (u16 counter_value)) 8)) ].

(** [function] is the address of [intr_timer_handler]. *)
Definition timer_init (T : intr_tables) (function : Z) : res (list (Z * Z) * intr_tables) :=
  let outs := frequency_set COUNTER0_PORT COUNTER0_NO READ_WRITE_LATCH COUNTER_MODE COUNTER0_VALUE in
  T ← register_handler T 0x20 function;
  Ok (outs, T).

(** The chip, in the mode "low byte, then high byte": the reload value it
    assembles from the bytes sent to a counter's port; 0 stands for 65536. *)
Definition pit_reload (port : Z) (outs : list (Z * Z)) : option Z :=
  match snd <$> filter (λ o : Z * Z, o.1 = port) outs with
  | [lo; hi] => let v := lo + 256 * hi in Some (if v =? 0 then 65536 else v)
  | _ => None
  end.

Definition pit_control (outs : list (Z * Z)) : option Z :=
  match snd <$> filter (λ o : Z * Z, o.1 = PIT_CONTROL_PORT) outs with
  | [c] => Some c
  | _ => None
  end.

(** The counter is programmed with the low byte of its value only: counter 0
    is selected in mode 2 with both bytes to follow, but the high byte sent
    is 0 whatever the value, so the timer interrupts every 169 instead of
    every 1193 input cycles, about seven times too often. *)
Theorem frequency_set_low_byte port value :
  0 ≤ port < 0x43 → 0 ≤ value < 2 ^ 16 → value mod 256 ≠ 0 →
  let outs := frequency_set port COUNTER0_NO READ_WRITE_LATCH COUNTER_MODE value in
  pit_control outs = Some 0x34 ∧ pit_reload port outs = Some (value mod 256)
  ∧ (pit_reload port outs = Some value ↔ value < 256).
Proof.
  intros Hp Hv Hm outs.
  assert (pit_reload port outs = Some (value mod 256)) as E.
  { unfold pit_reload, outs, frequency_set, PIT_CONTROL_PORT. rewrite (u8_small port), u16_small by lia.
    rewrite filter_cons_False by (simpl; lia). rewrite !filter_cons_True by done. simpl.
    replace (Z.shiftr (u8 value) 8) with 0.
    - rewrite Z.add_0_r. change (u8 value) with (value mod 256).
      by rewrite (proj2 (Z.eqb_neq _ _)).
    - rewrite Z.shiftr_div_pow2 by lia. pose proof (u8_range value). symmetry.
      apply Z.div_small. lia. }
  rewrite E. split_and!; [|done|split; [intros [= ?]|intros ?; f_equal]; zdm].
  unfold pit_control, outs, frequency_set, PIT_CONTROL_PORT. rewrite (u8_small port) by lia.
  rewrite filter_cons_True, !filter_cons_False by (done || simpl; lia). done.
Qed.

Module TimerRuns.
Lemma frequency_set_low_byte_witness :
  pit_reload COUNTER0_PORT
    (frequency_set COUNTER0_PORT COUNTER0_NO READ_WRITE_LATCH COUNTER_MODE COUNTER0_VALUE)
  = Some 169.
Proof.
  destruct (frequency_set_low_byte COUNTER0_PORT COUNTER0_VALUE) as (_ & H & _).
  - unfold COUNTER0_PORT. lia.
  - vm_compute. split; congruence.
  - vm_compute. congruence.
  - rewrite H. reflexivity.
Defined.
End TimerRuns.
