(* ===== verification/Process.v ===== *)
(** userprog/process.c, the address space of a new process:
    [create_page_dir] and [create_user_vaddr_bitmap]. *)
From S2P Require Import Prelude ByteMem CString Bitmap Paging Memory MemInit PageTable MemProps.
From S2P Require Import Interrupt DList Sched.

(** * Operations *)

Definition USER_VADDR_START : Z := 0x8048000.

Definition DIV_ROUND_UP (X STEP : Z) : Z := (X + STEP - 1) / STEP.

(** The result is the directory's virtual address, or NULL. *)
Definition create_page_dir (km : kmem) (cur : virtual_addr) (M : machine) : res (Z * machine) :=
  '(page_dir_vaddr, M) ← get_kernel_pages km cur M 1;
  if page_dir_vaddr =? NULL then Ok (NULL, M) else
  M ← memcpy M (u32 (page_dir_vaddr + 0x300 * 4)) (u32 (0xfffff000 + 0x300 * 4)) 1024;
  new_page_dir_phy_addr ← addr_v2p M page_dir_vaddr;
  M ← store32 M (u32 (page_dir_vaddr + 1023 * 4)) (pg_entry new_page_dir_phy_addr);
  Ok (page_dir_vaddr, M).

(** The result is the new [userprog_vaddr]. *)
Definition create_user_vaddr_bitmap (km : kmem) (cur : virtual_addr) (M : machine)
    : res (virtual_addr * machine) :=
  let bytes := (0xc0000000 - USER_VADDR_START) / PG_SIZE / 8 in
  let bitmap_pg_cnt := DIV_ROUND_UP bytes PG_SIZE in
  '(bits, M) ← get_kernel_pages km cur M bitmap_pg_cnt;
  let b := Bitmap bytes bits in
  M ← bitmap_init M b;
  Ok (VirtualAddr b USER_VADDR_START, M).

(** * Copying between mapped areas *)

(** [memcpy] between areas that are contiguous in physical memory too, when
    the target holds no table on the way to either of them. *)
Lemma memcpy_loop_paged n M dst src pd ps :
  0 ≤ dst → dst + Z.of_nat n ≤ 2 ^ 32 → 0 ≤ src → src + Z.of_nat n ≤ 2 ^ 32 →
  (∀ i, 0 ≤ i < Z.of_nat n → translate M (dst + i) = Some (pd + i)
     ∧ translate M (src + i) = Some (ps + i)) →
  (∀ i j, 0 ≤ i < Z.of_nat n → 0 ≤ j < Z.of_nat n →
     ¬ walk_byte M (dst + i) (pd + j) ∧ ¬ walk_byte M (src + i) (pd + j)) →
  pd + Z.of_nat n ≤ ps ∨ ps + Z.of_nat n ≤ pd →
  ∃ M', memcpy_loop M dst src n = Ok M' ∧ cr3 M' = cr3 M
    ∧ (∀ i, 0 ≤ i < Z.of_nat n → rd8 (pm M') (pd + i) = rd8 (pm M) (ps + i))
    ∧ ∀ x, x < pd ∨ pd + Z.of_nat n ≤ x → rd8 (pm M') x = rd8 (pm M) x.
Proof.
  revert M dst src pd ps. induction n as [|n IH]; intros M dst src pd ps Hd Hdn Hs Hsn Ht Hw Hsep.
  { exists M. split_and!; auto. intros; lia. }
  destruct (Ht 0) as [Htd Hts]; [lia|]. rewrite !Z.add_0_r in Htd, Hts.
  set (M1 := Machine (<[pd := rd8 (pm M) ps]> (pm M)) (cr3 M)).
  assert (Hsame : ∀ i, 0 ≤ i < Z.of_nat (S n) →
    same_walk M M1 (dst + i) ∧ same_walk M M1 (src + i)).
  { intros i Hi. destruct (Hw i 0) as [H1 H2]; [lia..|]. rewrite Z.add_0_r in H1, H2.
    split; by apply same_walk_insert. }
  cbn [memcpy_loop]. simpl load8. rewrite Hts. rb. simpl store8. rewrite Htd. rb. fold M1.
  destruct n as [|n].
  { exists M1. split_and!; [done..| |].
    - intros i Hi. replace i with 0 by lia. rewrite !Z.add_0_r. apply rd8_insert_eq, rd8_range.
    - intros x Hx. apply rd8_insert_ne. lia. }
  rewrite !incp_small by lia.
  destruct (IH M1 (dst + 1) (src + 1) (pd + 1) (ps + 1)) as (M' & HM & Hc & Hin & Hout);
    try lia.
  - intros i Hi. destruct (Hsame (1 + i)) as [S1 S2]; [lia|].
    rewrite <- !Z.add_assoc, (same_walk_translate _ _ _ S1), (same_walk_translate _ _ _ S2).
    apply Ht. lia.
  - intros i j Hi Hj. destruct (Hsame (1 + i)) as [S1 S2]; [lia|].
    rewrite <- !Z.add_assoc, (same_walk_byte _ _ _ _ S1), (same_walk_byte _ _ _ _ S2).
    apply Hw; lia.
  - exists M'. split_and!; [done|done| |].
    + intros i Hi. destruct (decide (i = 0)) as [->|].
      * rewrite !Z.add_0_r, Hout by lia. apply rd8_insert_eq, rd8_range.
      * replace (pd + i) with (pd + 1 + (i - 1)) by lia. rewrite Hin by lia.
        replace (ps + 1 + (i - 1)) with (ps + i) by lia. apply rd8_insert_ne. lia.
    + intros x Hx. rewrite Hout by lia. apply rd8_insert_ne. lia.
Qed.

(** * Stores to a page of the heap *)

(** The allocator's invariant survives stores that miss the tables and the
    bitmaps. *)
Lemma mem_inv_same km M g M' :
  mem_inv km M g → same_tables M M' →
  (∀ a, is_Some (g !! a) → rd8 (pm M') (a - KBASE) = rd8 (pm M) (a - KBASE)) → mem_inv km M' g.
Proof.
  intros Hi Hs Hlow. pose proof (mi_space _ _ _ Hi) as Hk.
  pose proof (kspace_same_tables _ _ Hk Hs) as Hk'. split; try by apply Hi.
  - done.
  - apply kspace_holds; [done|by apply Hi|]. intros a v Ha.
    destruct (mem_inv_read km M g a v Hi Ha) as [Hv Hr]. split; [done|]. rewrite Hlow; [done|]. by eexists.
  - intros j Hj Hb. pose proof (mi_vtop _ _ _ Hi). rewrite (kpte_same_tables M M') by
      (done || unfold K_HEAP_START, KTOP in *; lia). by apply (mi_unmapped _ _ _ Hi).
  - intros i Hir Hb. apply (frame_unused_same M); [done|]. by apply (mi_kfree _ _ _ Hi).
  - intros i Hir Hb. apply (frame_unused_same M); [done|]. by apply (mi_ufree _ _ _ Hi).
Qed.

(** The frame of a freshly allocated heap page. *)
Record heap_frame (km : kmem) (M : machine) (d f : Z) : Prop := {
  hf_page : KBASE ≤ d ∧ d + 4096 ≤ KTOP ∧ d mod 4096 = 0;
  hf_pte : kpte M (kpage d) = f + 7;
  hf_range : 0x200000 ≤ f ∧ f + 4096 ≤ 2 ^ 32 ∧ f mod 4096 = 0;
  hf_dir : frame (cr3 M) + 4096 ≤ f ∨ f + 4096 ≤ frame (cr3 M);
}.

Lemma allocated_heap_frame km M g r n M' g' k :
  mem_inv km M g → allocated km M g r n M' g' → 0 ≤ r → r + n ≤ nbits (vbm km) → 0 ≤ k < n →
  ∃ f, heap_frame km M' (heap_addr (r + k)) f.
Proof.
  intros Hi Ha Hr Hn Hk. destruct (al_new _ _ _ _ _ _ _ Ha k Hk) as (i & Hir & Hf & _ & Hp).
  destruct (heap_addr_props km M g (r + k) Hi) as (Hrg & Hkp & Hlt); [lia|].
  destruct (pool_frame_props _ _ (mi_kpool _ _ _ Hi) Hir) as (? & ? & H1).
  exists (pool_frame (kernel_pool km) i). split; [| |done|].
  - pose proof (mi_vtop _ _ _ Hi). unfold heap_addr, K_HEAP_START, KBASE, KTOP in *. zdm.
  - rewrite Hkp, Z.add_assoc. exact Hp.
  - pose proof (fu_dir _ _ (mi_kfree _ _ _ Hi i Hir Hf)) as Hne.
    rewrite (al_cr3 _ _ _ _ _ _ _ Ha). destruct (ks_self _ (mi_space _ _ _ Hi)) as (Hc & _).
    destruct (frame_props _ Hc) as (_ & _ & H2 & _). zdm.
Qed.

Section frame.
Context (km : kmem) (M : machine) (d f : Z) (Hk : kspace M) (Hf : heap_frame km M d f).

Lemma heap_frame_translate x : 0 ≤ x < 4096 → translate M (d + x) = Some (f + x).
Proof.
  intros Hx. destruct Hf as [(Hd1 & Hd2 & Hd3) Hp (Hr1 & Hr2 & Hr3) _].
  rewrite kspace_translate by (done || lia).
  assert (kpage (d + x) = kpage d) as -> by (unfold kpage, KBASE in *; zdm).
  rewrite Hp. destruct (entry_props f) as (_ & -> & ->); [lia..|done|]. f_equal. zdm.
Qed.

Lemma heap_frame_walk x y : 0 ≤ x < 4096 → walk_byte M (d + x) y → ¬ f ≤ y < f + 4096.
Proof.
  intros Hx Hw. destruct Hf as [(Hd1 & Hd2 & Hd3) _ (Hr1 & _) Hdir].
  apply kspace_walk in Hw; [|done|lia].
  pose proof (kpage_range (d + x) ltac:(lia)). unfold KTABLES in *. lia.
Qed.

Lemma heap_frame_same M' :
  cr3 M' = cr3 M → (∀ x, x < f ∨ f + 4096 ≤ x → rd8 (pm M') x = rd8 (pm M) x) →
  same_tables M M'.
Proof.
  intros Hc Hout. split; [done|]. destruct Hf as [_ _ (Hr1 & _) Hdir].
  intros x Hx. apply Hout. lia.
Qed.
End frame.

(** * The new directory *)

Record new_dir (M : machine) (f : Z) (M' : machine) : Prop := {
  nd_cr3 : cr3 M' = cr3 M;
  nd_user i : 0 ≤ i < 768 → rd32 (pm M') (f + 4 * i) = 0;
  nd_kernel i : 768 ≤ i < 1023 → rd32 (pm M') (f + 4 * i) = dir_entry M i;
  nd_self : rd32 (pm M') (f + 4092) = f + 7;
  nd_mem x : x < f ∨ f + 4096 ≤ x → rd8 (pm M') x = rd8 (pm M) x;
}.

(** The directory seen through its own last entry. *)
Lemma dir_window M x :
  selfmap M → 0 ≤ x < 4096 →
  translate M (0xfffff000 + x) = Some (frame (cr3 M) + x)
  ∧ ∀ y, walk_byte M (0xfffff000 + x) y → frame (cr3 M) ≤ y < frame (cr3 M) + 4096.
Proof.
  intros Hs Hx. pose proof Hs as (_ & Hp & Hf).
  destruct (table_window M 1023 x Hs) as [Ht Hw]; [lia|done|].
  change (KTOP + 4096 * 1023) with 0xfffff000 in *. split; [|done].
  rewrite Ht. unfold dir_entry. change (4 * 1023) with 4092. by rewrite Hp, Hf.
Qed.

Lemma rd32_copy m m' a b :
  (∀ i, 0 ≤ i < 4 → rd8 m' (a + i) = rd8 m (b + i)) → rd32 m' a = rd32 m b.
Proof.
  intros H. unfold rd32. pose proof (H 0) as H0. rewrite !Z.add_0_r in H0.
  by rewrite H0, !H by lia.
Qed.

Lemma fill_page_dir km M g d f :
  mem_inv km M g → heap_frame km M d f → (∀ x, f ≤ x < f + 4096 → rd8 (pm M) x = 0) →
  ∃ M', (M ← memcpy M (u32 (d + 0x300 * 4)) (u32 (0xfffff000 + 0x300 * 4)) 1024;
         new_page_dir_phy_addr ← addr_v2p M d;
         M ← store32 M (u32 (d + 1023 * 4)) (pg_entry new_page_dir_phy_addr);
         Ok (d, M)) = Ok (d, M')
    ∧ new_dir M f M'.
Proof.
  intros Hi Hf Hz. pose proof (mi_space _ _ _ Hi) as Hk. pose proof (ks_self _ Hk) as Hs.
  pose proof (hf_page _ _ _ _ Hf) as (Hd1 & Hd2 & Hd3). pose proof (hf_range _ _ _ _ Hf) as (Hf1 & Hf2 & Hf3).
  pose proof (hf_dir _ _ _ _ Hf) as Hdir. unfold KBASE, KTOP in Hd1, Hd2.
  rewrite !(u32_small (d + _)), (u32_small (0xfffff000 + _)) by lia. unfold memcpy, NULL.
  rewrite assert_true by lia. rb. change (Z.to_nat (u32 1024)) with 1024%nat.
  destruct (memcpy_loop_paged 1024 M (d + 0x300 * 4) (0xfffff000 + 0x300 * 4)
    (f + 0xc00) (frame (cr3 M) + 0xc00)) as (M1 & -> & Hc1 & Hin & Hout); try lia.
  { intros i Hi'. rewrite <- !Z.add_assoc.
    split; [apply (heap_frame_translate km M d f); done || lia|]. apply (dir_window M); done || lia. }
  { intros i j Hi' Hj. rewrite <- !Z.add_assoc. split; intros Hw.
    - apply (heap_frame_walk km M d f) in Hw; done || lia.
    - apply dir_window in Hw; done || lia. }
  rb. assert (Hst : same_tables M M1)
    by (apply (heap_frame_same km M d f); try done; intros; apply Hout; lia).
  pose proof (kspace_same_tables _ _ Hk Hst) as Hk1.
  assert (Hf' : heap_frame km M1 d f).
  { destruct Hf. split; auto; [|by rewrite Hc1].
    rewrite (kpte_same_tables M M1); [done|done|apply kpage_range; unfold KBASE, KTOP; lia]. }
  erewrite addr_v2p_translate; [|apply Hk1|lia
    |rewrite <- (Z.add_0_r d); apply (heap_frame_translate km M1 d f); done || lia].
  rb. unfold store32. rewrite (heap_frame_translate km M1 d f) by (done || lia). rb.
  rewrite Z.add_0_r, pg_entry_eq by done. eexists. split; [done|].
  assert (Hz' : ∀ i, 0 ≤ i < 768 → rd32 (pm M1) (f + 4 * i) = 0).
  { intros i Hi'. apply rd32_zero. intros x Hx. rewrite Hout by lia. apply Hz. lia. }
  split; simpl.
  - done.
  - intros i Hi'. rewrite rd32_wr32_other by lia. by apply Hz'.
  - intros i Hi'. rewrite rd32_wr32_other by lia. apply rd32_copy. intros j Hj.
    replace (f + 4 * i + j) with (f + 0xc00 + (4 * i - 0xc00 + j)) by lia.
    rewrite Hin by lia. f_equal. lia.
  - apply rd32_wr32_same. lia.
  - intros x Hx. rewrite rd8_wr32_other by lia. apply Hout. lia.
Qed.

Section new_dir.
Context (km : kmem) (M M' : machine) (g : gmap Z Z) (d f : Z).
Context (Hi : mem_inv km M g) (Hf : heap_frame km M d f) (Hn : new_dir M f M').

Lemma new_dir_same : same_tables M M'.
Proof. apply (heap_frame_same km M d f); [done|apply Hn|apply Hn]. Qed.

Lemma new_dir_inv : mem_inv km M' g.
Proof.
  apply (mem_inv_same km M); [done|apply new_dir_same|]. intros a Ha. apply Hn.
  pose proof (hf_range _ _ _ _ Hf). pose proof (mi_low _ _ _ Hi a Ha).
  unfold KBASE, K_HEAP_START in *. lia.
Qed.

Lemma frame_self : frame f = f.
Proof.
  destruct (hf_range _ _ _ _ Hf) as (? & ? & ?). rewrite <- (Z.add_0_r f) at 1.
  apply frame_flags; lia.
Qed.

(** A machine that runs on the new directory has the kernel's half. *)
Lemma new_dir_space : kspace (Machine (pm M') f).
Proof.
  destruct (hf_range _ _ _ _ Hf) as (Hf1 & Hf2 & Hf3). pose proof frame_self as Hff.
  pose proof (mi_space _ _ _ Hi) as Hk.
  destruct (entry_props f) as (_ & Hep & Hef); [lia..|done|].
  assert (Hkp : ∀ i, 0 ≤ i < 255 * 1024 → kpte (Machine (pm M') f) i = kpte M i).
  { intros i Hir. change (kpte (Machine (pm M') f) i) with (kpte M' i).
    by apply kpte_same_tables, Hir; apply new_dir_same. }
  split; simpl; rewrite ?Hff.
  - unfold selfmap. simpl. rewrite Hff, (nd_self _ _ _ Hn). split_and!; [lia..|done|done].
  - by right.
  - intros i Hir. rewrite (nd_kernel _ _ _ Hn) by done. by apply ks_pde.
  - intros i Hir. rewrite Hkp by lia. by apply ks_low.
  - intros i Hir. rewrite (nd_user _ _ _ Hn) by done. done.
Qed.

Lemma new_dir_pgdir : pgdir_ok M' d ∧ dir_of M' d = f.
Proof.
  destruct (hf_page _ _ _ _ Hf) as (Hd1 & Hd2 & Hd3).
  destruct (hf_range _ _ _ _ Hf) as (Hf1 & Hf2 & Hf3).
  destruct (entry_props f) as (_ & Hep & Hef); [lia..|done|].
  assert (Hp : kpte M' (kpage d) = f + 7).
  { rewrite (kpte_same_tables M M'); [by apply (hf_pte _ _ _ _ Hf)|apply new_dir_same|].
    apply kpage_range. lia. }
  assert (Hdo : dir_of M' d = f).
  { unfold dir_of. rewrite (proj2 (Z.eqb_neq d NULL)) by (unfold KBASE, NULL in *; lia).
    by rewrite Hp. }
  split; [|done]. split; [|rewrite Hdo; apply new_dir_space].
  right. rewrite Hp. split_and!; done || lia.
Qed.

(** The kernel's half is shared, the user's half is empty. *)
Lemma new_dir_kernel va :
  KBASE ≤ va < KTOP → translate (Machine (pm M') f) va = translate M' va
  ∧ translate M' va = translate M va.
Proof.
  intros Hva. pose proof new_dir_space as Hs. pose proof (mi_space _ _ _ Hi) as Hk.
  pose proof (mi_space _ _ _ new_dir_inv) as Hk'.
  rewrite !kspace_translate by done. split; [done|].
  rewrite (kpte_same_tables M M'); [done|apply new_dir_same|by apply kpage_range].
Qed.

Lemma new_dir_empty va : 0 ≤ va < KBASE → translate (Machine (pm M') f) va = None.
Proof.
  intros Hva. unfold translate, pde_at, pde_addr. simpl. rewrite frame_self.
  by rewrite (nd_user _ _ _ Hn) by (unfold KBASE in *; zdm).
Qed.
End new_dir.

(** A zeroed page, byte by byte. *)
Lemma heap_frame_zero km M d f :
  kspace M → heap_frame km M d f → (∀ x, 0 ≤ x < 4096 → load8 M (d + x) = Ok 0) →
  ∀ x, f ≤ x < f + 4096 → rd8 (pm M) x = 0.
Proof.
  intros Hk Hf Hz x Hx. specialize (Hz (x - f) ltac:(lia)). simpl in Hz.
  rewrite (heap_frame_translate km M d f) in Hz by (done || lia).
  injection Hz as Hz. by replace (f + (x - f)) with x in Hz by lia.
Qed.

(** [create_page_dir] in the terms of [allocated] and [new_dir]. *)
Lemma create_page_dir_holds km cur M g s :
  mem_inv km M g → 0 ≤ s < nbits (vbm km) → bit g (vbm km) s = false →
  (0 < free_count g (kbm km))%nat →
  ∃ r M1 M' g' f, create_page_dir km cur M = Ok (heap_addr r, M')
    ∧ 0 ≤ r ≤ s ∧ bit g (vbm km) r = false
    ∧ allocated km M g r 1 M1 g' ∧ heap_frame km M1 (heap_addr r) f ∧ new_dir M1 f M'.
Proof.
  intros Hi Hs Hb Hc. assert (Hw : window g (vbm km) s 1).
  { intros i Hi'. by replace i with s by lia. }
  destruct (get_kernel_pages_holds km cur M g 1 s) as (r & M1 & g' & HM & Hr & Hwr & _ & Ha & Hz);
    auto; [lia..|].
  change (Z.of_nat 1) with 1 in *.
  destruct (allocated_heap_frame km M g r 1 M1 g' 0) as [f Hf]; auto; [lia..|].
  rewrite Z.add_0_r in Hf. pose proof (al_inv _ _ _ _ _ _ _ Ha) as Hi1.
  destruct (fill_page_dir km M1 g' (heap_addr r) f) as (M' & HM' & Hn); auto.
  { eapply heap_frame_zero; [apply Hi1|done|]. intros x Hx. apply Hz. lia. }
  exists r, M1, M', g', f. split_and!; auto; [|lia|lia|apply Hwr; lia].
  unfold create_page_dir. rewrite HM. rb.
  rewrite (proj2 (Z.eqb_neq _ NULL)); [done|].
  apply (heap_addr_not_null km M g); [done|lia].
Qed.

(** Clearing a bitmap that lies in freshly allocated pages. *)
Lemma heap_bitmap_init km M g r n M1 g' len :
  mem_inv km M g → allocated km M g r (Z.of_nat n) M1 g' → 0 ≤ r →
  r + Z.of_nat n ≤ nbits (vbm km) → 0 < len < 2 ^ 28 - 2 → len + 1 ≤ 4096 * Z.of_nat n →
  let b := Bitmap len (heap_addr r) in
  ∃ M', bitmap_init M1 b = Ok M' ∧ allocated km M g r (Z.of_nat n) M' g'
    ∧ ∀ i, 0 ≤ i < nbits b → bitmap_scan_test M' b i = Ok 0.
Proof.
  intros Hi Ha Hr Hn Hl Hlen b. pose proof (mi_vtop _ _ _ Hi) as Htop.
  set (G := heap_map M1 g' (heap_addr r) (Z.to_nat (4096 * Z.of_nat n))).
  assert (Hwf : bm_wf G b).
  { unfold K_HEAP_START, KTOP in Htop. split_and!; cbn [bits btmp_bytes_len b];
      unfold heap_addr, K_HEAP_START; try lia.
    intros i Hi'. destruct (allocated_translate km M g r (Z.of_nat n) M1 g' i)
      as (k & _ & _ & _ & _ & _ & Ht); [done|done|done|lia|].
    fold K_HEAP_START. fold (heap_addr r). unfold G.
    erewrite heap_map_in; [by eexists|lia|done]. }
  destruct (bitmap_init_holds (ByteMemSpec0 := framed_spec M1 G) M1 G b)
    as (M' & G' & HM' & HF & Hwf' & Hwin & Hoth); [|done|].
  { apply framed_refl. by apply (heap_map_holds km M g r n M1 g'). }
  exists M'. split_and!; [done| |].
  - apply (allocated_stores km M g r n M1 g' Hi Ha Hr Hn M' G' HF).
    apply map_subseteq_spec. intros a v Hav.
    pose proof (mi_low _ _ _ (al_inv _ _ _ _ _ _ _ Ha) a ltac:(by eexists)) as Hlow.
    rewrite Hoth by (cbn [bits b]; unfold heap_addr, KBASE, K_HEAP_START in *; lia).
    eapply lookup_weaken; [exact Hav|by apply (heap_map_low km M g r n M1 g')].
  - intros i Hi'. destruct (scan_test_holds (M := machine) M' G' b i) as (t & -> & Ht);
      [apply HF|done|lia|]. rewrite Hwin in Ht by lia. apply Z.eqb_eq in Ht. by subst t.
Qed.

(** [create_user_vaddr_bitmap]: 23 pages, the first gap that has them. *)
Lemma create_user_vaddr_bitmap_holds km cur M g s :
  mem_inv km M g → 0 ≤ s → s + 23 ≤ nbits (vbm km) → window g (vbm km) s 23 →
  (23 ≤ free_count g (kbm km))%nat →
  ∃ r V M' g', create_user_vaddr_bitmap km cur M = Ok (V, M')
    ∧ V = VirtualAddr (Bitmap 94199 (heap_addr r)) USER_VADDR_START
    ∧ 0 ≤ r ≤ s ∧ window g (vbm km) r 23
    ∧ allocated km M g r 23 M' g'
    ∧ ∀ i, 0 ≤ i < nbits (vaddr_bitmap V) → bitmap_scan_test M' (vaddr_bitmap V) i = Ok 0.
Proof.
  intros Hi Hs Hs' Hw Hc.
  destruct (get_kernel_pages_holds km cur M g 23 s) as (r & M1 & g' & HM & Hr & Hwr & _ & Ha & _);
    [done|lia|lia|done|done|done|done|].
  destruct (heap_bitmap_init km M g r 23 M1 g' 94199) as (M' & HM' & Ha' & Hz);
    [done|done|lia|lia|lia|lia|].
  exists r, (VirtualAddr (Bitmap 94199 (heap_addr r)) USER_VADDR_START), M', g'.
  split_and!; [|done|lia|lia|exact Hwr|exact Ha'|exact Hz].
  unfold create_user_vaddr_bitmap.
  change ((0xc0000000 - USER_VADDR_START) / PG_SIZE / 8) with 94199.
  change (DIV_ROUND_UP 94199 PG_SIZE) with (Z.of_nat 23). cbv zeta. rewrite HM. rb.
  rewrite HM'. by rb.
Qed.

(** * Properties *)

(** C18: the address space of a process.  [create_page_dir] returns a free heap
    page that holds a directory fit for [page_dir_activate]: switched to it,
    the processor sees the kernel half exactly as before, an empty user half
    and the directory's own self map; the allocator's invariant holds and no
    kernel page has moved. *)
Theorem create_page_dir_shares km cur M g s :
  mem_inv km M g → 0 ≤ s < nbits (vbm km) → bit g (vbm km) s = false →
  (0 < free_count g (kbm km))%nat →
  ∃ r M' g' f, create_page_dir km cur M = Ok (heap_addr r, M')
    ∧ 0 ≤ r ≤ s ∧ bit g (vbm km) r = false
    ∧ mem_inv km M' g' ∧ bit g' (vbm km) r = true
    ∧ pgdir_ok M' (heap_addr r) ∧ dir_of M' (heap_addr r) = f
    ∧ (∀ va, KBASE ≤ va < KTOP →
         translate (Machine (pm M') f) va = translate M' va
         ∧ ∀ pa, translate M va = Some pa → translate M' va = Some pa)
    ∧ ∀ va, 0 ≤ va < KBASE → translate (Machine (pm M') f) va = None.
Proof.
  intros Hi Hs Hb Hc.
  destruct (create_page_dir_holds km cur M g s) as (r & M1 & M' & g' & f & HM & Hr & Hbr & Ha & Hf & Hn);
    auto. pose proof (al_inv _ _ _ _ _ _ _ Ha) as Hi1.
  destruct (new_dir_pgdir km M1 M' g' (heap_addr r) f) as [Hpg Hdo]; auto.
  exists r, M', g', f. split_and!; auto; try lia.
  - by apply (new_dir_inv km M1 M' g' (heap_addr r) f).
  - rewrite (al_vbits _ _ _ _ _ _ _ Ha) by lia. rewrite decide_True by lia. done.
  - intros va Hva. destruct (new_dir_kernel km M1 M' g' (heap_addr r) f) with (va := va) as [E1 E2]; auto.
    split; [done|]. intros pa Ht. rewrite E2. pose proof (kpage_range va Hva) as Hkr.
    rewrite kspace_translate in Ht |- * by (done || apply Hi || apply Hi1).
    destruct (present (kpte M (kpage va))) eqn:Hp; [|done].
    rewrite (al_old _ _ _ _ _ _ _ Ha), Hp; [done|done|].
    destruct (decide (kpage va = 256 + r)) as [E|]; [|lia].
    rewrite E, (mi_unmapped _ _ _ Hi r) in Hp by (done || lia). done.
  - intros va Hva. by apply (new_dir_empty km M1 M' (heap_addr r)).
Qed.

(** The base of the interrupt descriptor table is not mapped in the directory
    of a new process, wherever the table is: [idt_init] loads the low 16 bits
    of its address, which the kernel's own directory maps and the new one
    does not, so the first interrupt inside a process finds no handler. *)
Theorem process_lacks_idt km cur M g s idt :
  mem_inv km M g → 0 ≤ s < nbits (vbm km) → bit g (vbm km) s = false →
  (0 < free_count g (kbm km))%nat →
  ∃ r M', create_page_dir km cur M = Ok (heap_addr r, M')
    ∧ translate (Machine (pm M') (dir_of M' (heap_addr r))) (lidt_base (idt_operand idt)) = None.
Proof.
  intros Hi Hs Hb Hc.
  destruct (create_page_dir_holds km cur M g s) as (r & M1 & M' & g' & f & HM & _ & _ & Ha & Hf & Hn);
    auto. exists r, M'. split; [done|].
  destruct (new_dir_pgdir km M1 M' g' (heap_addr r) f) as [_ ->]; [apply Ha|done..|].
  apply (new_dir_empty km M1 M' (heap_addr r)); [done..|].
  unfold lidt_base, KBASE, idt_operand, IDT_DESC_CNT.
  rewrite Z.shiftl_mul_pow2, Z.lor_comm, (lor_low _ _ 16) by (unfold u32; zdm).
  unfold u32. zdm.
Qed.

(** The address map of a process.  [create_user_vaddr_bitmap] reserves 23
    heap pages, enough for one bit per page from 0x8048000 up to 3 GB and the
    byte [bitmap_scan] reads beyond; every bit reads clear. *)
Theorem create_user_vaddr_bitmap_free km cur M g s :
  mem_inv km M g → 0 ≤ s → s + 23 ≤ nbits (vbm km) → window g (vbm km) s 23 →
  (23 ≤ free_count g (kbm km))%nat →
  ∃ r V M' g', create_user_vaddr_bitmap km cur M = Ok (V, M')
    ∧ vaddr_start V = USER_VADDR_START ∧ bits (vaddr_bitmap V) = heap_addr r
    ∧ KBASE - 8 * PG_SIZE < USER_VADDR_START + nbits (vaddr_bitmap V) * PG_SIZE ≤ KBASE
    ∧ allocated km M g r 23 M' g'
    ∧ ∀ i, 0 ≤ i < nbits (vaddr_bitmap V) → bitmap_scan_test M' (vaddr_bitmap V) i = Ok 0.
Proof.
  intros Hi Hs Hs' Hw Hc.
  destruct (create_user_vaddr_bitmap_holds km cur M g s)
    as (r & V & M' & g' & HM & -> & Hr & _ & Ha & Hz); auto.
  exists r, (VirtualAddr (Bitmap 94199 (heap_addr r)) USER_VADDR_START), M', g'.
  split_and!; [exact HM|done|done|done|done|exact Ha|exact Hz].
Qed.

(** * Concrete runs: a 32 MB machine right after [mem_pool_init] *)

Module ProcessRuns.
Import MemRuns.

Lemma free_heap : ∃ g, mem_inv km32 (init_machine 0x2000000) g
  ∧ window g (vbm km32) 0 3840 ∧ free_count g (kbm km32) = Z.to_nat 3840.
Proof.
  destruct (init_machine_inv 0x2000000 ltac:(lia)) as (g & Hi & _ & Hw & Hc).
  change (nbits (kbm (pool_layout 0x2000000))) with 3840 in Hc.
  change (nbits (vbm (pool_layout 0x2000000))) with 3840 in Hw.
  exists g. split; [exact Hi|]. split; [exact Hw|exact Hc].
Qed.

Lemma create_page_dir_shares_witness :
  ∃ r M', create_page_dir km32 (kernel_vaddr km32) (init_machine 0x2000000) = Ok (heap_addr r, M')
    ∧ pgdir_ok M' (heap_addr r).
Proof.
  destruct free_heap as (g & Hi & Hw & Hc).
  destruct (create_page_dir_shares km32 (kernel_vaddr km32) _ g 7 Hi)
    as (r & M' & g' & f & HM & _ & _ & _ & _ & Hp & _).
  - change (0 ≤ 7 < 3840). lia.
  - apply Hw. lia.
  - rewrite Hc. lia.
  - exists r, M'. split; [exact HM|exact Hp].
Defined.

Lemma process_lacks_idt_witness :
  ∃ r M', create_page_dir km32 (kernel_vaddr km32) (init_machine 0x2000000) = Ok (heap_addr r, M')
    ∧ translate (Machine (pm M') (dir_of M' (heap_addr r))) (lidt_base (idt_operand 0xc0005680)) = None.
Proof.
  destruct free_heap as (g & Hi & Hw & Hc).
  apply (process_lacks_idt km32 (kernel_vaddr km32) _ g 7 0xc0005680 Hi).
  - change (0 ≤ 7 < 3840). lia.
  - apply Hw. lia.
  - rewrite Hc. lia.
Defined.

Lemma create_user_vaddr_bitmap_free_witness :
  ∃ V M', create_user_vaddr_bitmap km32 (kernel_vaddr km32) (init_machine 0x2000000) = Ok (V, M')
    ∧ vaddr_start V = USER_VADDR_START.
Proof.
  destruct free_heap as (g & Hi & Hw & Hc).
  destruct (create_user_vaddr_bitmap_free km32 (kernel_vaddr km32) _ g 7 Hi)
    as (r & V & M' & g' & HM & Hs & _).
  - lia.
  - change (7 + 23 ≤ 3840). lia.
  - apply (window_sub _ _ 0 3840); [exact Hw|lia|lia].
  - rewrite Hc. lia.
  - exists V, M'. split; [exact HM|exact Hs].
Defined.
End ProcessRuns.
