(* ===== verification/Spaces.v ===== *)
(** What the kernel's data in mapped pages sees of the page allocator: a
    relation between machines under which every page that was mapped keeps its
    frame and its bytes and every process directory stays good.  Thread
    creation is a sequence of such moves. *)
From S2P Require Import Prelude ByteMem Bitmap Paging Memory Interrupt DList Sched Process.

(** An address of a mapped kernel page. *)
Definition kmapped (M : machine) (x : Z) : Prop :=
  KBASE ≤ x < KTOP ∧ present (kpte M (kpage x)) = true.

Record mem_step (M M' : machine) : Prop := {
  ms_cr3 : cr3 M' = cr3 M;
  ms_kpte i : 0 ≤ i < 255 * 1024 → present (kpte M i) = true → kpte M' i = kpte M i;
  ms_bytes i x : 0 ≤ i < 255 * 1024 → present (kpte M i) = true →
    0x200000 ≤ frame (kpte M i) → frame (kpte M i) ≤ x < frame (kpte M i) + 4096 →
    rd8 (pm M') x = rd8 (pm M) x;
  ms_dir x : PAGE_DIR_TABLE_POS ≤ x < KTABLES → rd8 (pm M') x = rd8 (pm M) x;
}.

#[global] Instance mem_step_refl : Reflexive mem_step.
Proof. intros M. by split. Qed.

#[global] Instance mem_step_trans : Transitive mem_step.
Proof.
  intros M M1 M2 H1 H2. pose proof (ms_kpte _ _ H1) as Hk. split.
  - by rewrite (ms_cr3 _ _ H2), (ms_cr3 _ _ H1).
  - intros i Hi Hp. rewrite (ms_kpte _ _ H2), Hk; rewrite ?Hk; done.
  - intros i x Hi Hp Hf Hx. rewrite (ms_bytes _ _ H2 i), (ms_bytes _ _ H1 i); rewrite ?Hk; done.
  - intros x Hx. by rewrite (ms_dir _ _ H2), (ms_dir _ _ H1).
Qed.

Lemma kmapped_step M M' x : mem_step M M' → kmapped M x → kmapped M' x.
Proof.
  intros Hs [Hx Hp]. split; [done|]. rewrite (ms_kpte _ _ Hs); [done| |done].
  by apply kpage_range.
Qed.

(** Data in a mapped page above the kernel's first 2 MB. *)
Lemma translate_step M M' va pa :
  kspace M → kspace M' → mem_step M M' → KBASE ≤ va < KTOP →
  translate M va = Some pa → 0x200000 ≤ pa →
  translate M' va = Some pa ∧ rd8 (pm M') pa = rd8 (pm M) pa.
Proof.
  intros Hk Hk' Hs Hva Ht Hpa. pose proof (kpage_range va Hva) as Hr.
  rewrite kspace_translate in Ht |- * by done.
  destruct (present (kpte M (kpage va))) eqn:Hp; [|done]. injection Ht as Ht.
  rewrite (ms_kpte _ _ Hs), Hp by done. split; [by rewrite Ht|].
  pose proof (rd32_range (pm M) (KTABLES + 4 * kpage va)) as Hrd.
  destruct (frame_props _ Hrd) as (_ & _ & Hal & _). fold (kpte M (kpage va)) in Hal.
  apply (ms_bytes _ _ Hs (kpage va)); [done|done|zdm..].
Qed.

(** A process directory survives. *)
Lemma dir_of_step M M' d :
  mem_step M M' → pgdir_ok M d → dir_of M' d = dir_of M d.
Proof.
  intros Hs [Hp _]. unfold dir_of. destruct (Z.eqb_spec d NULL); [done|].
  destruct Hp as [?|(Hd & Hm & Hpr)]; [done|].
  rewrite (ms_kpte _ _ Hs); [done|by apply kpage_range|done].
Qed.

Lemma dir_bytes_step M M' d x :
  mem_step M M' → pgdir_ok M d → frame (dir_of M d) ≤ x < frame (dir_of M d) + 4096 →
  rd8 (pm M') x = rd8 (pm M) x.
Proof.
  intros Hs Hd Hx. pose proof (ks_dir _ (pd_space _ _ Hd)) as Hr. simpl in Hr.
  destruct Hr as [E|Hge].
  { rewrite E in Hx. apply (ms_dir _ _ Hs). unfold PAGE_DIR_TABLE_POS, KTABLES in *. lia. }
  destruct (pd_page _ _ Hd) as [->|(Hrg & Hm & Hpr)].
  { change (frame (dir_of M NULL)) with PAGE_DIR_TABLE_POS in Hge.
    unfold PAGE_DIR_TABLE_POS in Hge. lia. }
  unfold dir_of in Hx, Hge.
  rewrite (proj2 (Z.eqb_neq d NULL)) in Hx, Hge by (unfold KBASE, NULL in *; lia).
  pose proof (rd32_range (pm M) (KTABLES + 4 * kpage d)) as Hrd. fold (kpte M (kpage d)) in Hrd.
  destruct (frame_props _ Hrd) as (Hf0 & Hf1 & Hal & _).
  assert (frame (frame (kpte M (kpage d))) = frame (kpte M (kpage d))) as E.
  { rewrite <- (Z.add_0_r (frame (kpte M (kpage d)))) at 1. apply frame_flags; lia. }
  rewrite E in Hx, Hge. apply (ms_bytes _ _ Hs (kpage d)); try done. by apply kpage_range.
Qed.

Lemma pgdir_ok_step M M' d : mem_step M M' → pgdir_ok M d → pgdir_ok M' d.
Proof.
  intros Hs Hd. pose proof (dir_of_step M M' d Hs Hd) as Hdo.
  pose proof (dir_bytes_step M M' d) as Hb. pose proof (pd_space _ _ Hd) as Hk.
  assert (Hrd : ∀ o, 0 ≤ o → o + 4 ≤ 4096 →
    rd32 (pm M') (frame (dir_of M d) + o) = rd32 (pm M) (frame (dir_of M d) + o)).
  { intros o H0 H1. apply rd32_same. intros x Hx. apply Hb; [done|done|lia]. }
  split.
  - destruct (pd_page _ _ Hd) as [?|(Hrg & Hm & Hpr)]; [by left|right].
    rewrite (ms_kpte _ _ Hs); [done|by apply kpage_range|done].
  - rewrite Hdo. destruct Hk as [(Hc & Hp & Hf) Hdir Hpde Hlow Huser]. simpl in *.
    split; simpl.
    + unfold selfmap in *. simpl. rewrite !Hrd by lia. done.
    + done.
    + intros i Hi. rewrite !Hrd by lia. by apply Hpde.
    + intros i Hi. change (kpte (Machine (pm M') (dir_of M d)) i) with (kpte M' i).
      destruct (Hlow i Hi) as [Hlp Hlf].
      change (kpte (Machine (pm M) (dir_of M d)) i) with (kpte M i) in *.
      rewrite (ms_kpte _ _ Hs) by (done || lia). done.
    + intros i Hi. rewrite !Hrd by lia. by apply Huser.
Qed.

(** * Stores to one frame *)

Record page_write (M : machine) (f : Z) (M' : machine) : Prop := {
  pw_cr3 : cr3 M' = cr3 M;
  pw_out x : x < f ∨ f + 4096 ≤ x → rd8 (pm M') x = rd8 (pm M) x;
}.

Lemma page_write_refl M f : page_write M f M.
Proof. by split. Qed.

Lemma page_write_trans M f M1 M2 : page_write M f M1 → page_write M1 f M2 → page_write M f M2.
Proof.
  intros [Hc1 Ho1] [Hc2 Ho2]. split; [congruence|]. intros x Hx. by rewrite Ho2, Ho1.
Qed.

Section write.
Context (km : kmem) (M M' : machine) (d f : Z) (Hf : heap_frame km M d f) (Hw : page_write M f M').

Lemma page_write_tables : same_tables M M'.
Proof. apply (heap_frame_same km M d f); [done|apply Hw|apply Hw]. Qed.

Lemma page_write_inv g : mem_inv km M g → mem_inv km M' g.
Proof.
  intros Hi. apply (mem_inv_same km M); [done|apply page_write_tables|]. intros a Ha.
  apply (pw_out _ _ _ Hw). pose proof (hf_range _ _ _ _ Hf). pose proof (mi_low _ _ _ Hi a Ha).
  unfold KBASE, K_HEAP_START in *. lia.
Qed.

Lemma page_write_frame e p : heap_frame km M e p → heap_frame km M' e p.
Proof.
  intros [Hpg Hpte Hr Hd]. split; [done| |done|by rewrite (pw_cr3 _ _ _ Hw)].
  rewrite (kpte_same_tables M M'); [done|apply page_write_tables|]. apply kpage_range. lia.
Qed.

(** Seen from a machine in which the frame was free. *)
Lemma page_write_step M0 : mem_step M0 M → frame_unused M0 f → mem_step M0 M'.
Proof.
  intros Hs Hu. destruct (hf_range _ _ _ _ Hf) as (Hf1 & Hf2 & Hf3).
  assert (Hk : ∀ i, 0 ≤ i < 255 * 1024 → kpte M' i = kpte M i).
  { intros i Hi. by apply kpte_same_tables, Hi; apply page_write_tables. }
  split.
  - by rewrite (pw_cr3 _ _ _ Hw), (ms_cr3 _ _ Hs).
  - intros i Hi Hp. rewrite Hk by done. by apply Hs.
  - intros i x Hi Hp Hge Hx. rewrite (pw_out _ _ _ Hw); [by apply (ms_bytes _ _ Hs i)|].
    pose proof (fu_kernel _ _ Hu i Hi Hp) as Hne.
    pose proof (rd32_range (pm M0) (KTABLES + 4 * i)) as Hrd. fold (kpte M0 i) in Hrd.
    destruct (frame_props _ Hrd) as (_ & _ & Hal & _). zdm.
  - intros x Hx. rewrite (pw_out _ _ _ Hw); [by apply (ms_dir _ _ Hs)|].
    unfold PAGE_DIR_TABLE_POS, KTABLES in *. lia.
Qed.
End write.

(** A word stored in the page. *)
Lemma heap_store km M d f o v :
  kspace M → heap_frame km M d f → 0 ≤ o → o + 4 ≤ 4096 →
  store32 M (d + o) v = Ok (Machine (wr32 (pm M) (f + o) v) (cr3 M))
  ∧ page_write M f (Machine (wr32 (pm M) (f + o) v) (cr3 M)).
Proof.
  intros Hk Hf H0 H1. split.
  - unfold store32. by rewrite (heap_frame_translate km M d f) by (done || lia).
  - split; [done|]. intros x Hx. simpl. apply rd8_wr32_other. lia.
Qed.

(** * Allocation *)

Lemma allocated_step km M g r n M' g' :
  mem_inv km M g → allocated km M g r n M' g' → 0 ≤ r → r + n ≤ nbits (vbm km) →
  window g (vbm km) r n → mem_step M M'.
Proof.
  intros Hi Ha Hr Hn Hw. pose proof (mi_vtop _ _ _ Hi) as Htop.
  assert (Hout : ∀ i, 0 ≤ i → present (kpte M i) = true → i < 256 + r ∨ 256 + r + n ≤ i).
  { intros i Hi0 Hp. destruct (decide (256 + r ≤ i < 256 + r + n)); [|lia].
    rewrite <- (Zplus_minus 256 i) in Hp.
    by rewrite (mi_unmapped _ _ _ Hi (i - 256)) in Hp by (lia || apply Hw; lia). }
  assert (Hnew : ∀ k, 0 ≤ k < n → ∃ j, 0x200000 ≤ frame (kpte M' (256 + r + k))
    ∧ frame (kpte M' (256 + r + k)) mod 4096 = 0
    ∧ frame (kpte M' (256 + r + k)) = pool_frame (kernel_pool km) j
    ∧ frame_unused M (pool_frame (kernel_pool km) j)).
  { intros k Hk. destruct (al_new _ _ _ _ _ _ _ Ha k Hk) as (j & Hj & Hb & _ & E).
    destruct (pool_frame_props _ _ (mi_kpool _ _ _ Hi) Hj) as (? & ? & ?).
    destruct (entry_props (pool_frame (kernel_pool km) j)) as (_ & _ & Hfr); [lia..|done|].
    exists j. rewrite E, Hfr. split_and!; auto. by apply (mi_kfree _ _ _ Hi). }
  split.
  - apply (al_cr3 _ _ _ _ _ _ _ Ha).
  - intros i Hir Hp. apply (al_old _ _ _ _ _ _ _ Ha); [done|]. apply Hout; [lia|done].
  - intros i x Hir Hp Hge Hx. apply (al_mem _ _ _ _ _ _ _ Ha); [lia|]. intros k Hk Hin.
    destruct (Hnew k Hk) as (j & _ & Hal & E & Hu). pose proof (fu_kernel _ _ Hu i Hir Hp) as Hne.
    pose proof (rd32_range (pm M) (KTABLES + 4 * i)) as Hrd. fold (kpte M i) in Hrd.
    destruct (frame_props _ Hrd) as (_ & _ & Hal' & _). zdm.
  - intros x Hx. apply (al_mem _ _ _ _ _ _ _ Ha); [by left|]. intros k Hk Hin.
    destruct (Hnew k Hk) as (j & Hge & _). unfold KTABLES in *. lia.
Qed.

(** One fresh page. *)
Record fresh_page (km : kmem) (M : machine) (g : gmap Z Z) (r f : Z) (M' : machine)
    (g' : gmap Z Z) : Prop := {
  fp_range : 0 ≤ r < nbits (vbm km);
  fp_free : bit g (vbm km) r = false;
  fp_alloc : allocated km M g r 1 M' g';
  fp_frame : heap_frame km M' (heap_addr r) f;
  fp_unused : frame_unused M f;
  fp_zero x : f ≤ x < f + 4096 → rd8 (pm M') x = 0;
}.

Lemma window_one g b s : window g b s 1 ↔ bit g b s = false.
Proof.
  split; [intros H; apply H; lia|]. intros H i Hi. by replace i with s by lia.
Qed.

Lemma fresh_page_step km M g r f M' g' :
  mem_inv km M g → fresh_page km M g r f M' g' → mem_step M M'.
Proof.
  intros Hi []. apply (allocated_step km M g r 1 M' g'); try done; try lia.
  by apply window_one.
Qed.

(** The page was not mapped. *)
Lemma fresh_page_unmapped km M g r f M' g' x :
  mem_inv km M g → fresh_page km M g r f M' g' → 0 ≤ x < 4096 → ¬ kmapped M (heap_addr r + x).
Proof.
  intros Hi Hf Hx [_ Hp]. pose proof (fp_range _ _ _ _ _ _ _ Hf) as Hr.
  assert (kpage (heap_addr r + x) = 256 + r) as E
    by (unfold kpage, heap_addr, KBASE, K_HEAP_START; zdm).
  rewrite E, (mi_unmapped _ _ _ Hi r) in Hp; [done|lia|]. by apply (fp_free _ _ _ _ _ _ _ Hf).
Qed.

Lemma allocated_unused km M g r n M' g' k f :
  mem_inv km M g → allocated km M g r n M' g' → 0 ≤ r → r + n ≤ nbits (vbm km) → 0 ≤ k < n →
  heap_frame km M' (heap_addr (r + k)) f → frame_unused M f.
Proof.
  intros Hi Ha Hr Hn Hk Hf.
  destruct (al_new _ _ _ _ _ _ _ Ha k Hk) as (i & Hir & Hbi & _ & E).
  pose proof (hf_pte _ _ _ _ Hf) as E'.
  destruct (heap_addr_props km M g (r + k) Hi) as (_ & Hkp & _); [lia|].
  rewrite Hkp, Z.add_assoc in E'.
  replace f with (pool_frame (kernel_pool km) i) by lia. by apply (mi_kfree _ _ _ Hi).
Qed.

Lemma heap_frame_unused km M d f : heap_frame km M d f → ¬ frame_unused M f.
Proof.
  intros [Hp Hpte Hr _] Hu. destruct (entry_props f) as (_ & Hpr & Hfr); [lia..|apply Hr|].
  apply (fu_kernel _ _ Hu (kpage d)); rewrite ?Hpte; try done. apply kpage_range. lia.
Qed.

(** The frame of a page stays. *)
(** An empty user half stays empty. *)
Lemma empty_dir_step M M' d :
  mem_step M M' → pgdir_ok M d →
  (∀ i, 0 ≤ i < 768 → rd32 (pm M) (frame (dir_of M d) + 4 * i) = 0) →
  ∀ i, 0 ≤ i < 768 → rd32 (pm M') (frame (dir_of M' d) + 4 * i) = 0.
Proof.
  intros Hs Hd He i Hi. rewrite (dir_of_step M M' d Hs Hd), <- (He i Hi). apply rd32_same.
  intros x Hx. apply (dir_bytes_step M M' d); [done|done|lia].
Qed.

Lemma heap_frame_step km M M' d f : mem_step M M' → heap_frame km M d f → heap_frame km M' d f.
Proof.
  intros Hs [Hp Hpte Hr Hd]. split; [done| |done|by rewrite (ms_cr3 _ _ Hs)].
  rewrite (ms_kpte _ _ Hs); [done| |]; [apply kpage_range; lia|]. rewrite Hpte.
  by destruct (entry_props f) as (_ & -> & _); [lia..|apply Hr|].
Qed.

Lemma get_kernel_page km cur M g s :
  mem_inv km M g → 0 ≤ s < nbits (vbm km) → bit g (vbm km) s = false →
  (0 < free_count g (kbm km))%nat →
  ∃ r f M' g', get_kernel_pages km cur M 1 = Ok (heap_addr r, M')
    ∧ 0 ≤ r ≤ s ∧ (∀ s', 0 ≤ s' < r → bit g (vbm km) s' = true)
    ∧ fresh_page km M g r f M' g'.
Proof.
  intros Hi Hs Hb Hc.
  destruct (get_kernel_pages_holds km cur M g 1 s) as (r & M' & g' & HM & Hr & Hw & Hfst & Ha & Hz);
    auto; [lia..|by apply window_one|].
  change (Z.of_nat 1) with 1 in *. apply window_one in Hw.
  destruct (allocated_heap_frame km M g r 1 M' g' 0) as [f Hf]; auto; [lia..|].
  rewrite Z.add_0_r in Hf. pose proof (al_inv _ _ _ _ _ _ _ Ha) as Hi'.
  exists r, f, M', g'. split_and!; [done|lia|lia| |].
  { intros s' Hs'. specialize (Hfst s' Hs'). rewrite window_one in Hfst.
    by destruct (bit g (vbm km) s'). }
  split; auto; [lia| |by apply (heap_frame_zero km M' (heap_addr r)); [apply Hi'| |];
    [done|intros x Hx; apply Hz; lia]].
  apply (allocated_unused km M g r 1 M' g' 0); rewrite ?Z.add_0_r; auto; lia.
Qed.
