(* ===== verification/Thread.v ===== *)
(** thread/thread.c and userprog/process.c: the creation of threads and
    processes, and the first entry of a new thread.

    [allocate_pid] takes a lock, so the functions are split into program
    points as in Sync.v: the code up to the call of [allocate_pid], the
    increment, and the code after its return.  The kernel creates its threads
    with interrupts off, and this file speaks about such runs. *)
From S2P Require Import Prelude ByteMem CString Bitmap Paging Memory Interrupt DList Sched Sync.
From S2P Require Import Uncontended Process Spaces.

(** * Data *)

(** The kernel, the pools of kernel/memory.c, the static [next_pid] of
    [allocate_pid] and [main_thread]. *)
Record tstate := TState {
  t_ker : kernel;
  t_pools : kmem;
  next_pid : Z;
  main_thread : Z;
}.

Definition set_ker (s : tstate) (K : kernel) : tstate :=
  TState K (t_pools s) (next_pid s) (main_thread s).

(** Link-time addresses. *)
Class ThreadSyms := { pid_lock : Z; kernel_thread_ptr : Z; start_process_ptr : Z }.

Definition sizeof_intr_stack : Z := 19 * 4.
Definition sizeof_thread_stack : Z := 8 * 4.

Definition default_prio : Z := 31.

(** Program points. *)
Inductive tpoint :=
| OfSync (f : point)
| ThreadStart (name : string) (prio function func_arg : Z)  (* [thread_start] *)
| StartQueue (thread function func_arg : Z)                 (* ... after [init_thread] *)
| ProcessExecute (filename : Z) (name : string)             (* [process_execute] *)
| ExecuteQueue (thread filename : Z)                        (* ... after [init_thread] *)
| InitThread (pthread : Z) (name : string) (prio : Z)       (* [init_thread] *)
| PidIncr                                                   (* [next_pid++] *)
| InitFields (pthread : Z) (name : string) (prio : Z)       (* ... after [lock_release] *)
| ThreadInit                                                (* [thread_init] *)
| MainQueue.                                                (* [make_main_thread], its end *)

(** * Fields *)

Definition zero_task : task_struct :=
  Task 0 0 TASK_RUNNING (replicate 16 0) 0 0 0 NULL (VirtualAddr (Bitmap 0 0) 0) 0.

Definition with_vaddr (T : task_struct) (v : virtual_addr) : task_struct :=
  Task (self_kstack T) (pid T) (status T) (name T) (priority T) (ticks T) (elapsed_ticks T)
       (pgdir T) v (stack_magic T).
Definition with_pgdir (T : task_struct) (v : Z) : task_struct :=
  Task (self_kstack T) (pid T) (status T) (name T) (priority T) (ticks T) (elapsed_ticks T)
       v (userprog_vaddr T) (stack_magic T).

Definition bytes_of (s : string) : list Z :=
  (λ c, Z.of_N (Ascii.N_of_ascii c)) <$> String.list_ascii_of_string s.

(** The bytes of a [task_struct] from [name] on: the array at offset 12,
    [priority], [ticks] and two bytes of padding, [elapsed_ticks]. *)
Definition name_bytes (T : task_struct) : list Z :=
  name T ++ [priority T; ticks T; 0; 0]
  ++ [u8 (elapsed_ticks T); u8 (elapsed_ticks T / 2 ^ 8); u8 (elapsed_ticks T / 2 ^ 16);
      u8 (elapsed_ticks T / 2 ^ 24)].

(** [strcpy(pthread->name, name)] has no bound: the characters and the final 0
    go to the array and, from the 17th byte on, over the three counters behind
    it, which [init_thread] assigns afterwards.  From the 25th byte on it would
    damage the list nodes, which the model does not follow. *)
Definition strcpy_name (T : task_struct) (nm : string) : res task_struct :=
  let src := bytes_of nm ++ [0] in
  if (length src <=? 24)%nat then
    let dst := src ++ drop (length src) (name_bytes T) in
    Ok (Task (self_kstack T) (pid T) (status T) (take 16 dst) (nth 16 dst 0) (nth 17 dst 0)
             (foldr (λ b n, b + 2 ^ 8 * n) 0 (drop 20 dst))
             (pgdir T) (userprog_vaddr T) (stack_magic T))
  else Fault.

(** * Operations *)

(** [running_thread()->userprog_vaddr], which only the user pool reads. *)
Definition cur_vaddr (K : kernel) : virtual_addr :=
  match k_tasks K !! running_thread K with
  | Some T => userprog_vaddr T
  | None => userprog_vaddr zero_task
  end.

(** [memset(pthread, 0, sizeof( *pthread))]: the task and its two nodes. *)
Definition clear_task (K : kernel) (pthread : Z) : res kernel :=
  ASSERT (negb (pthread =? NULL)) "memset";;
  match translate (k_mach K) pthread with
  | None => Fault
  | Some _ =>
      Ok (put_task
            (set_lists K (LMem (k_eflags K)
               (<[general_tag pthread := ListElem NULL NULL]>
                 (<[all_list_tag pthread := ListElem NULL NULL]> (k_nodes K)))))
            pthread zero_task)
  end.

Section create.
Context `{Symbols, ThreadSyms}.

(** [self_kstack] is a [uint32_t*], so the sizes count words. *)
Definition thread_create (K : kernel) (pthread function func_arg : Z) : res kernel :=
  T ← get_task K pthread;
  let K := put_task K pthread (with_kstack T (u32 (self_kstack T - 4 * sizeof_intr_stack))) in
  T ← get_task K pthread;
  let K := put_task K pthread (with_kstack T (u32 (self_kstack T - 4 * sizeof_thread_stack))) in
  T ← get_task K pthread;
  let kthread_stack := self_kstack T in
  M ← store32 (k_mach K) (kthread_stack + 16) kernel_thread_ptr;
  M ← store32 M (kthread_stack + 24) function;
  M ← store32 M (kthread_stack + 28) func_arg;
  M ← store32 M (kthread_stack + 8) 0;
  M ← store32 M (kthread_stack + 12) 0;
  M ← store32 M (kthread_stack + 4) 0;
  M ← store32 M (kthread_stack + 0) 0;
  Ok (set_mach K M).

(** [init_thread] up to the call of [lock_acquire] in [allocate_pid]. *)
Definition init_thread (s : tstate) (pthread : Z) (nm : string) (prio : Z)
    : res (tstate * list tpoint) :=
  K ← clear_task (t_ker s) pthread;
  Ok (set_ker s K,
      [OfSync (LockAcquire pid_lock); PidIncr; OfSync (LockRelease pid_lock);
       InitFields pthread nm prio]).

(** The pid is read after the lock is given back. *)
Definition init_fields (s : tstate) (pthread : Z) (nm : string) (prio : Z)
    : res (tstate * list tpoint) :=
  T ← get_task (t_ker s) pthread;
  T ← strcpy_name T nm;
  let stat := if pthread =? main_thread s then TASK_RUNNING else TASK_READY in
  let T := Task (u32 (pthread + PG_SIZE)) (next_pid s) stat (name T) (u8 prio) (u8 prio) 0 NULL
                (userprog_vaddr T) STACK_MAGIC in
  Ok (set_ker s (put_task (t_ker s) pthread T), []).

(** [ASSERT(!elem_find(l, tag)); list_append(l, tag);] in the function [f]. *)
Definition append_new (K : kernel) (l tag : Z) (f : string) : res kernel :=
  found ← elem_find (lists_of K) l tag;
  ASSERT (negb found) f;;
  on_lists K (list_append (lists_of K) l tag).

Definition thread_start (s : tstate) (nm : string) (prio function func_arg : Z)
    : res (tstate * list tpoint) :=
  let K := t_ker s in
  '(thread, M) ← get_kernel_pages (t_pools s) (cur_vaddr K) (k_mach K) 1;
  Ok (set_ker s (set_mach K M),
      [InitThread thread nm prio; StartQueue thread function func_arg]).

Definition start_queue (s : tstate) (thread function func_arg : Z) : res (tstate * list tpoint) :=
  K ← thread_create (t_ker s) thread function func_arg;
  K ← append_new K thread_ready_list (general_tag thread) "thread_start";
  K ← append_new K thread_all_list (all_list_tag thread) "thread_start";
  Ok (set_ker s K, []).

Definition process_execute (s : tstate) (filename : Z) (nm : string)
    : res (tstate * list tpoint) :=
  let K := t_ker s in
  '(thread, M) ← get_kernel_pages (t_pools s) (cur_vaddr K) (k_mach K) 1;
  Ok (set_ker s (set_mach K M),
      [InitThread thread nm default_prio; ExecuteQueue thread filename]).

Definition execute_queue (s : tstate) (thread filename : Z) : res (tstate * list tpoint) :=
  let K := t_ker s in
  '(V, M) ← create_user_vaddr_bitmap (t_pools s) (cur_vaddr K) (k_mach K);
  T ← get_task K thread;
  let K := put_task (set_mach K M) thread (with_vaddr T V) in
  K ← thread_create K thread start_process_ptr filename;
  '(page_dir, M) ← create_page_dir (t_pools s) (cur_vaddr K) (k_mach K);
  T ← get_task K thread;
  let K := put_task (set_mach K M) thread (with_pgdir T page_dir) in
  let '(old_status, fl) := intr_disable (k_eflags K) in
  let K := set_eflags K fl in
  K ← append_new K thread_ready_list (general_tag thread) "process_execute";
  K ← append_new K thread_all_list (all_list_tag thread) "process_execute";
  Ok (set_ker s (set_eflags K (intr_set_status old_status (k_eflags K)).2), []).

(** [thread_init] up to [init_thread] in [make_main_thread]. *)
Definition thread_init (s : tstate) : res (tstate * list tpoint) :=
  let K := t_ker s in
  K ← on_lists K (list_init (lists_of K) thread_all_list);
  K ← on_lists K (list_init (lists_of K) thread_ready_list);
  K ← lock_init K pid_lock;
  let main := running_thread K in
  Ok (TState K (t_pools s) (next_pid s) main, [InitThread main "main" 31; MainQueue]).

Definition main_queue (s : tstate) : res (tstate * list tpoint) :=
  K ← append_new (t_ker s) thread_all_list (all_list_tag (main_thread s)) "make_main_thread";
  Ok (set_ker s K, []).

Definition exec_thread (s : tstate) (f : tpoint) : res (tstate * list tpoint) :=
  match f with
  | OfSync f => '(K, fs) ← exec (t_ker s) f; Ok (set_ker s K, map OfSync fs)
  | ThreadStart nm prio fn arg => thread_start s nm prio fn arg
  | StartQueue t fn arg => start_queue s t fn arg
  | ProcessExecute file nm => process_execute s file nm
  | ExecuteQueue t file => execute_queue s t file
  | InitThread t nm prio => init_thread s t nm prio
  | PidIncr => Ok (TState (t_ker s) (t_pools s) (u16 (next_pid s + 1)) (main_thread s), [])
  | InitFields t nm prio => init_fields s t nm prio
  | ThreadInit => thread_init s
  | MainQueue => main_queue s
  end.

Definition truns := runs exec_thread (λ s, running_thread (t_ker s)).
End create.

(** * The first entry of a thread *)

(** The end of [switch_to] with the stack pointer of the next thread: what its
    four [pop]s and its [ret] load. *)
Record switch_frame := SwitchFrame { sf_ebp : Z; sf_ebx : Z; sf_edi : Z; sf_esi : Z; sf_eip : Z }.

Definition switch_pop (M : machine) (esp : Z) : res (switch_frame * Z) :=
  ebp ← load32 M esp;
  ebx ← load32 M (esp + 4);
  edi ← load32 M (esp + 8);
  esi ← load32 M (esp + 12);
  eip ← load32 M (esp + 16);
  Ok (SwitchFrame ebp ebx edi esi eip, esp + 20).

(** The arguments [kernel_thread] finds above its return address. *)
Definition kernel_thread_args (M : machine) (esp : Z) : res (Z * Z) :=
  function ← load32 M (esp + 4);
  func_arg ← load32 M (esp + 8);
  Ok (function, func_arg).
