(* ===== verification/ThreadProps.v ===== *)
(** What thread creation guarantees: the invariant of the threads, its
    preservation by [thread_start] and [process_execute], and its
    establishment by [thread_init]. *)
From S2P Require Import Prelude ByteMem CString Bitmap Paging Memory Interrupt DList Sched Sync.
From S2P Require Import Uncontended Process Spaces Thread.

(** * A new node in a list *)

Lemma append_new_holds K qs p l e f :
  heap_lists (k_nodes K) qs → qs !! p = Some l → detached (k_nodes K) qs e →
  ∃ n', append_new K p e f = Ok (set_lists K (LMem (k_eflags K) n'))
    ∧ relinked (k_nodes K) n' (<[p := l ++ [e]]> qs).
Proof.
  intros Hh Hp Hd. pose proof Hd as (_ & _ & Ho). specialize (Ho p l Hp).
  unfold footprint in Ho. rewrite elem_of_cons, elem_of_app, list_elem_of_singleton in Ho.
  destruct (list_append_holds (k_eflags K) (k_nodes K) qs p l e) as (n' & Ha & Hr); auto.
  exists n'. split; [|done]. unfold append_new, lists_of.
  rewrite (elem_find_holds (k_eflags K) (k_nodes K) qs p l e), bool_decide_false by tauto.
  rb. rewrite assert_true by done. rb. unfold on_lists. by rewrite Ha.
Qed.

Section add.
Context `{Symbols}.

(** The two nodes of a new task. *)
Definition with_tags (n : gmap Z list_elem) (t : Z) : gmap Z list_elem :=
  <[general_tag t := ListElem NULL NULL]> (<[all_list_tag t := ListElem NULL NULL]> n).

Lemma with_tags_lists n qs t :
  heap_lists n qs → n !! general_tag t = None → n !! all_list_tag t = None →
  heap_lists (with_tags n t) qs.
Proof.
  intros Hh Hg Ha. unfold with_tags. apply heap_lists_fresh; [by apply heap_lists_fresh|].
  rewrite lookup_insert_ne; [done|]. unfold general_tag, all_list_tag. lia.
Qed.

Definition added (qs : gmap Z (list Z)) (t : Z) (rl al : list Z) : gmap Z (list Z) :=
  <[thread_all_list := al ++ [all_list_tag t]]> (<[thread_ready_list := rl ++ [general_tag t]]> qs).

(** Both appends of a new thread. *)
Lemma append_both K qs n t rl al f :
  heap_lists n qs → n !! general_tag t = None → n !! all_list_tag t = None →
  thread_ready_list ≠ thread_all_list →
  qs !! thread_ready_list = Some rl → qs !! thread_all_list = Some al →
  0 < t → t + 4096 < 2 ^ 32 → k_nodes K = with_tags n t →
  ∃ n', (K ← append_new K thread_ready_list (general_tag t) f;
         append_new K thread_all_list (all_list_tag t) f)
        = Ok (set_lists K (LMem (k_eflags K) n'))
    ∧ relinked (with_tags n t) n' (added qs t rl al).
Proof.
  intros Hh Hg Ha Hne Hr Hal Ht Ht' EK.
  pose proof (with_tags_lists n qs t Hh Hg Ha) as Hh1.
  assert (general_tag t ≠ all_list_tag t) as Hgt by (unfold general_tag, all_list_tag; lia).
  assert (detached (with_tags n t) qs (general_tag t)) as Hd1.
  { apply (detached_fresh n); auto; [unfold addr_ok, general_tag; lia|].
    unfold with_tags. rewrite lookup_insert_eq. by eexists. }
  assert (detached (with_tags n t) qs (all_list_tag t)) as Hd2.
  { apply (detached_fresh n); auto; [unfold addr_ok, all_list_tag; lia|].
    unfold with_tags. rewrite lookup_insert_ne, lookup_insert_eq by done. by eexists. }
  destruct (append_new_holds K qs thread_ready_list rl (general_tag t) f) as (n1 & -> & Hr1);
    rewrite ?EK; auto. rb. rewrite EK in Hr1. pose proof Hr1 as [Hh2 Hdom].
  destruct (append_new_holds (set_lists K (LMem (k_eflags K) n1))
    (<[thread_ready_list := rl ++ [general_tag t]]> qs) thread_all_list al (all_list_tag t) f)
    as (n2 & -> & Hr2); simpl; auto.
  - by rewrite lookup_insert_ne.
  - by apply (detached_append (with_tags n t)).
  - exists n2. split; [done|]. simpl in Hr2. destruct Hr2 as [Hh3 Hdom2]. split; [done|].
    intros x. by rewrite Hdom2.
Qed.

(** A ready thread joins. *)
Lemma sched_add K cur qs t T rl al K' :
  sched_inv K cur qs → k_tasks K !! t = None →
  k_nodes K !! general_tag t = None → k_nodes K !! all_list_tag t = None →
  0 < t → t + 4096 < 2 ^ 32 → t mod 4096 = 0 →
  status T = TASK_READY → stack_ok t (self_kstack T + 28) → stack_magic T = STACK_MAGIC →
  pgdir_ok (k_mach K') (pgdir T) →
  qs !! thread_ready_list = Some rl → qs !! thread_all_list = Some al →
  relinked (with_tags (k_nodes K) t) (k_nodes K') (added qs t rl al) →
  k_tasks K' = <[t := T]> (k_tasks K) → k_esp K' = k_esp K →
  mem_step (k_mach K) (k_mach K') → kspace (k_mach K') →
  sched_inv K' cur (added qs t rl al).
Proof.
  intros [Hc (C & HC & Hrun)] Hnew Hng Hna Ht Ht' Hal HsT Hstk Hmg Hpg Hrl Hall [Hh' Hdom] Htk Hesp Hms Hk.
  pose proof (sc_lists _ _ _ Hc) as Hne. pose proof (sc_heap _ _ _ Hc) as Hh.
  assert (Hlook : ∀ u U, k_tasks K' !! u = Some U → (u = t ∧ U = T) ∨ (u ≠ t ∧ k_tasks K !! u = Some U)).
  { intros u U. rewrite Htk, lookup_insert. case_decide; naive_solver. }
  assert (Hcur : cur ≠ t) by (intros ->; congruence).
  assert (Hold : ∀ x, is_Some (k_nodes K !! x) → is_Some (k_nodes K' !! x)).
  { intros x Hx. apply Hdom. unfold with_tags. rewrite !lookup_insert. repeat case_decide; by eauto. }
  split; [split|].
  - done.
  - unfold added. rewrite lookup_insert_ne, lookup_insert_eq by done. by eexists.
  - done.
  - intros u U [[-> ->]|[_ HU]]%Hlook.
    + split; auto. apply Hdom. unfold with_tags. rewrite lookup_insert_eq. by eexists.
    + destruct (sc_task _ _ _ Hc u U HU). split; auto. by apply (pgdir_ok_step (k_mach K)).
  - intros u U [[-> ->]|[_ HU]]%Hlook; [done|]. by apply (sc_stack _ _ _ Hc).
  - rewrite Htk, lookup_insert_ne by done. by eexists.
  - rewrite Hesp. apply Hc.
  - intros u U [[-> ->]|[_ HU]]%Hlook; [congruence|]. by apply (sc_running _ _ _ Hc).
  - intros p l e. unfold added. rewrite lookup_insert. case_decide as E1; [intros _ ?; congruence|].
    rewrite lookup_insert. case_decide as E2.
    + subst p. intros [= <-] _. rewrite elem_of_app, list_elem_of_singleton. intros [He| ->].
      * destruct (sc_queued _ _ _ Hc _ _ e Hrl Hne He) as (u & U & -> & HU & Hn & Hi).
        exists u, U. split_and!; auto. rewrite Htk, lookup_insert_ne; [done|]. by intros <-; congruence.
      * exists t, T. rewrite Htk, lookup_insert_eq, HsT. done.
    + intros Hp Hpa He. destruct (sc_queued _ _ _ Hc _ _ e Hp Hpa He) as (u & U & -> & HU & Hn & Hi).
      exists u, U. split_and!; auto. rewrite Htk, lookup_insert_ne; [done|]. by intros <-; congruence.
  - intros u U l Hu Hs. unfold added. rewrite lookup_insert_ne, lookup_insert_eq by done.
    intros [= <-]. rewrite elem_of_app, list_elem_of_singleton.
    destruct (Hlook u U Hu) as [[-> ->]|[_ HU]]; [by right|left].
    by apply (sc_ready_in _ _ _ Hc u U).
  - intros u U p l Hu Hp.
    assert (Hhd : ∃ l0, qs !! p = Some l0).
    { unfold added in Hp. rewrite !lookup_insert in Hp. repeat case_decide; subst; eauto. }
    destruct Hhd as [l0 Hp0].
    destruct (Hlook u U Hu) as [[-> ->]|[Hut HU]].
    + assert (Hout : general_tag t ∉ footprint p l0).
      { intros Hin. destruct (heap_lists_some _ _ p l0 _ Hh Hp0 Hin). congruence. }
      unfold footprint in Hout. rewrite elem_of_cons, elem_of_app, list_elem_of_singleton in Hout.
      split_and!; [tauto..|]. intros ->. unfold added in Hp. rewrite lookup_insert_eq in Hp.
      injection Hp as <-. simplify_eq. rewrite elem_of_app, list_elem_of_singleton.
      unfold general_tag, all_list_tag in *. intros [?|?]; [tauto|lia].
    + destruct (sc_tag _ _ _ Hc u U p l0 HU Hp0) as (H1 & H2 & H3). split_and!; auto.
      intros ->. unfold added in Hp. rewrite lookup_insert_eq in Hp. injection Hp as <-.
      simplify_eq. rewrite elem_of_app, list_elem_of_singleton. intros [?|E]; [by apply H3|].
      pose proof (to_page _ _ _ (sc_task _ _ _ Hc u U HU)) as Hua.
      unfold general_tag, all_list_tag in E. zdm.
  - done.
  - exists C. rewrite Htk, lookup_insert_ne by done. done.
Qed.
End add.

(** * The first stack of a thread *)

(** What the frame [f] of a thread's page holds after [thread_create]. *)
Record first_stack `{ThreadSyms} (M : machine) (f fn arg : Z) : Prop := {
  fs_regs o : o ∈ [0; 4; 8; 12] → rd32 (pm M) (f + (3664 + o)) = 0;
  fs_eip : rd32 (pm M) (f + (3664 + 16)) = kernel_thread_ptr;
  fs_fn : rd32 (pm M) (f + (3664 + 24)) = fn;
  fs_arg : rd32 (pm M) (f + (3664 + 28)) = arg;
}.

Section stack.
Context `{Symbols, ThreadSyms}.

Lemma first_stack_same M M' f fn arg :
  first_stack M f fn arg → (∀ x, f ≤ x < f + 4096 → rd8 (pm M') x = rd8 (pm M) x) →
  first_stack M' f fn arg.
Proof.
  intros [H1 H2 H3 H4] Hs.
  assert (Hr : ∀ o, 0 ≤ o → o + 4 ≤ 4096 → rd32 (pm M') (f + o) = rd32 (pm M) (f + o)).
  { intros o Ho Ho'. apply rd32_same. intros x Hx. apply Hs. lia. }
  split; [|rewrite Hr by lia; done..]. intros o Ho. set_unfold in Ho.
  rewrite Hr by lia. apply H1. set_solver.
Qed.

Lemma first_stack_step km M M' t f fn arg :
  heap_frame km M t f → mem_step M M' → first_stack M f fn arg → first_stack M' f fn arg.
Proof.
  intros [(Hp1 & Hp2 & Hp3) Hpte (Hr1 & Hr2 & Hr3) _] Hs Hf.
  destruct (entry_props f) as (_ & Hpr & Hfr); [lia..|done|].
  apply (first_stack_same M); [done|]. intros x Hx.
  apply (ms_bytes _ _ Hs (kpage t)); rewrite ?Hpte, ?Hfr; auto.
  apply kpage_range. lia.
Qed.

(** Resuming the thread pops four zeroes and enters [kernel_thread], which
    finds its function and argument. *)
Lemma first_stack_entry km M t f fn arg :
  kspace M → heap_frame km M t f → first_stack M f fn arg →
  switch_pop M (t + 3664) = Ok (SwitchFrame 0 0 0 0 kernel_thread_ptr, t + 3684)
  ∧ kernel_thread_args M (t + 3684) = Ok (fn, arg).
Proof.
  intros Hk Hf [H1 H2 H3 H4].
  assert (Hld : ∀ a o, a = t + o → 0 ≤ o → o + 4 ≤ 4096 → load32 M a = Ok (rd32 (pm M) (f + o))).
  { intros a o -> Ho Ho'. unfold load32. by rewrite (heap_frame_translate km M t f) by (done || lia). }
  unfold switch_pop, kernel_thread_args.
  rewrite (Hld (t + 3664) (3664 + 0)), (Hld (t + 3664 + 4) (3664 + 4)),
    (Hld (t + 3664 + 8) (3664 + 8)), (Hld (t + 3664 + 12) (3664 + 12)),
    (Hld (t + 3664 + 16) (3664 + 16)), (Hld (t + 3684 + 4) (3664 + 24)),
    (Hld (t + 3684 + 8) (3664 + 28)) by lia. rb.
  rewrite !H1, H2, H3, H4 by set_solver. split; [|done]. do 2 f_equal. lia.
Qed.

Definition word (v : Z) : Prop := 0 ≤ v < 2 ^ 32.

Ltac rd_word :=
  repeat ((rewrite rd32_wr32_same by lia) || (rewrite rd32_wr32_other by lia)); done.

Lemma thread_create_holds km K t T f fn arg :
  k_tasks K !! t = Some T → self_kstack T = t + 4096 → kspace (k_mach K) →
  heap_frame km (k_mach K) t f → word fn → word arg → word kernel_thread_ptr →
  ∃ M', thread_create K t fn arg
      = Ok (set_mach (put_task K t (with_kstack T (t + 3664))) M')
    ∧ page_write (k_mach K) f M' ∧ first_stack M' f fn arg.
Proof.
  intros HT Hks Hk Hf Hfn Harg Hkt. unfold word in *.
  pose proof (hf_page _ _ _ _ Hf) as (Hp1 & Hp2 & _). unfold KBASE, KTOP in *.
  unfold thread_create, get_task, sizeof_intr_stack, sizeof_thread_stack. rewrite HT. rb.
  cbn [put_task set_tasks k_tasks k_mach]. rewrite !lookup_insert_eq. rb.
  cbn [with_kstack self_kstack]. rewrite Hks, (u32_small (t + 4096 - _)), u32_small by lia.
  replace (t + 4096 - 4 * (19 * 4) - 4 * (8 * 4)) with (t + 3664) by lia. rb.
  rewrite lookup_insert_eq. rb. cbn [self_kstack].
  rewrite <- !(Z.add_assoc t 3664). set (M0 := k_mach K) in *.
  assert (Hst : ∀ M o v, page_write M0 f M → 0 ≤ o → o + 4 ≤ 4096 →
    store32 M (t + o) v = Ok (Machine (wr32 (pm M) (f + o) v) (cr3 M))
    ∧ page_write M0 f (Machine (wr32 (pm M) (f + o) v) (cr3 M))).
  { intros M o v Hw Ho Ho'.
    destruct (heap_store km M t f o v) as [-> Hw']; auto.
    - apply (kspace_same_tables M0); [done|]. by apply (page_write_tables km M0 M t f).
    - by apply (page_write_frame km M0 M t f).
    - split; [done|]. by eapply page_write_trans. }
  do 7 (match goal with |- context [store32 ?M (t + ?o) ?v] =>
    let E := fresh "E" in
    destruct (Hst M o v) as [E ?]; [by apply page_write_refl || done|lia|lia|rewrite E; clear E; rb] end).
  eexists. split; [|split; [eassumption|]].
  - cbn. unfold put_task, set_tasks. cbn. rewrite !insert_insert_eq. done.
  - split; simpl pm.
    + intros o Ho. set_unfold in Ho.
      destruct Ho as [->|[->|[->|[->|[]]]]];
        rd_word.
    + rd_word.
    + rd_word.
    + rd_word.
Qed.
End stack.

(** * [init_thread] *)

Section init.
Context `{Symbols, ThreadSyms}.

(** The kernel with a new task at [t]. *)
Definition new_task (K : kernel) (t : Z) (T : task_struct) : kernel :=
  put_task (set_lists K (LMem (k_eflags K) (with_tags (k_nodes K) t))) t T.

(** The fields [init_thread] assigns. *)
Definition first_task (t pid : Z) (stat : task_status) (nm : string) (prio : Z) : task_struct :=
  Task (t + 4096) pid stat (take 16 (bytes_of nm ++ replicate 16 0)) (u8 prio) (u8 prio) 0 NULL
       (userprog_vaddr zero_task) STACK_MAGIC.

Lemma strcpy_cleared nm :
  (length (bytes_of nm) < 24)%nat →
  ∃ T, strcpy_name zero_task nm = Ok T ∧ name T = take 16 (bytes_of nm ++ replicate 16 0)
    ∧ userprog_vaddr T = userprog_vaddr zero_task.
Proof.
  intros Hl. unfold strcpy_name. rewrite length_app. cbn [length].
  rewrite (proj2 (Nat.leb_le _ _)) by lia. eexists. split; [reflexivity|]. split; [|done]. cbn [name].
  change (name_bytes zero_task) with (replicate 24 0).
  rewrite drop_replicate, <- app_assoc. change ([0] ++ replicate ?n 0) with (replicate (S n) 0).
  rewrite !take_app, !take_replicate. do 2 f_equal. lia.
Qed.

Lemma truns_sync s K fs K' :
  runs exec running_thread K fs K' → truns (set_ker s K) (map OfSync fs) (set_ker s K').
Proof.
  apply (runs_lift exec running_thread); [|done]. intros K0 f K1 fs0 He. simpl.
  by rewrite He.
Qed.

Lemma init_thread_runs s t nm prio :
  let K := t_ker s in
  let pid := u16 (next_pid s + 1) in
  0 < t → t + 4096 < 2 ^ 32 → translate (k_mach K) t ≠ None → running_thread K ≠ NULL →
  k_locks K !! pid_lock = Some (Lock NULL 0) → k_semas K !! semaphore pid_lock = Some 1 →
  list_empty (LMem (k_eflags K) (with_tags (k_nodes K) t)) (waiters (semaphore pid_lock)) = Ok true →
  (length (bytes_of nm) < 24)%nat →
  truns s [InitThread t nm prio]
    (TState (new_task K t (first_task t pid
       (if t =? main_thread s then TASK_RUNNING else TASK_READY) nm prio))
       (t_pools s) pid (main_thread s)).
Proof.
  intros K pid Ht Ht' Htr Hcur Hl Hs He Hnm.
  set (K1 := new_task K t zero_task).
  assert (Hfree : lock_free K1 pid_lock) by by split.
  assert (Hend : set_locks (set_semas (locked K1 pid_lock) (k_semas K1)) (k_locks K1) = K1)
    by by destruct K.
  eapply runs_cons with (s' := set_ker s K1).
  { simpl. unfold init_thread, clear_task. rewrite assert_true
      by (unfold NULL; destruct (Z.eqb_spec t 0); [lia|done]). rb.
    fold K. destruct (translate (k_mach K) t); [|done]. rb. done. }
  { done. }
  rewrite app_nil_r. change (OfSync (LockAcquire pid_lock) :: ?r)
    with (map OfSync [LockAcquire pid_lock] ++ r).
  eapply runs_app; [apply truns_sync, lock_acquire_free; done|].
  eapply runs_cons; [done|done|]. simpl app.
  change (OfSync (LockRelease pid_lock) :: ?r) with (map OfSync [LockRelease pid_lock] ++ r).
  set (s2 := TState _ _ _ _). eapply runs_app.
  { apply (truns_sync s2 (locked K1 pid_lock)), (lock_release_free K1); [done..|].
    split_and!; auto. }
  rewrite Hend. eapply runs_one; [|done]. simpl. unfold init_fields. simpl.
  unfold get_task. simpl. rewrite lookup_insert_eq. rb.
  destruct (strcpy_cleared nm Hnm) as (T & -> & EN & EV). rb. unfold set_ker, put_task, set_tasks. simpl.
  rewrite EN, EV, insert_insert_eq, u32_small by (unfold PG_SIZE; lia). done.
Qed.
End init.

(** * The invariant *)

Section inv.
Context `{Symbols, ThreadSyms}.

(** [ts] are all threads, in the order of [thread_all_list]; nobody holds or
    wants the lock of [allocate_pid]; every object lies in mapped memory. *)
Record thread_inv (s : tstate) (cur : Z) (qs : gmap Z (list Z)) (ts : list Z) (g : gmap Z Z)
    : Prop := {
  ti_sched : sched_inv (t_ker s) cur qs;
  ti_mem : mem_inv (t_pools s) (k_mach (t_ker s)) g;
  ti_kdir : pgdir_ok (k_mach (t_ker s)) NULL;
  ti_lock : k_locks (t_ker s) !! pid_lock = Some (Lock NULL 0);
  ti_sema : k_semas (t_ker s) !! semaphore pid_lock = Some 1;
  ti_wait : qs !! waiters (semaphore pid_lock) = Some [];
  ti_sep : waiters (semaphore pid_lock) ≠ thread_ready_list
    ∧ waiters (semaphore pid_lock) ≠ thread_all_list;
  ti_nodes x : is_Some (k_nodes (t_ker s) !! x) → kmapped (k_mach (t_ker s)) x;
  ti_tasks t : is_Some (k_tasks (t_ker s) !! t) → kmapped (k_mach (t_ker s)) t;
  ti_all : qs !! thread_all_list = Some (all_list_tag <$> ts);
  ti_members t : t ∈ ts ↔ is_Some (k_tasks (t_ker s) !! t);
  ti_main : main_thread s ∈ ts;
  ti_pid t T : k_tasks (t_ker s) !! t = Some T → 1 ≤ pid T ≤ next_pid s;
  ti_pid_inj t t' T T' : k_tasks (t_ker s) !! t = Some T → k_tasks (t_ker s) !! t' = Some T' →
    pid T = pid T' → t = t';
}.

Lemma heap_frame_mapped km M d f x :
  heap_frame km M d f → 0 ≤ x < 4096 → kmapped M (d + x).
Proof.
  intros [(Hd1 & Hd2 & Hd3) Hp (Hr1 & Hr2 & Hr3) _] Hx. split; [lia|].
  assert (kpage (d + x) = kpage d) as -> by (unfold kpage, KBASE in *; zdm).
  rewrite Hp. by destruct (entry_props f) as (_ & -> & _); [lia..|done|].
Qed.

(** The new thread's page: its address, and that no object was there. *)
Lemma fresh_task s cur qs ts g r f M' g' :
  thread_inv s cur qs ts g → fresh_page (t_pools s) (k_mach (t_ker s)) g r f M' g' →
  let t := heap_addr r in
  0 < t ∧ t + 4096 < 2 ^ 32 ∧ t mod 4096 = 0
  ∧ k_tasks (t_ker s) !! t = None
  ∧ k_nodes (t_ker s) !! general_tag t = None ∧ k_nodes (t_ker s) !! all_list_tag t = None.
Proof.
  intros Hi Hf t. destruct (hf_page _ _ _ _ (fp_frame _ _ _ _ _ _ _ Hf)) as (H1 & H2 & H3).
  fold t in H1, H2, H3. unfold KBASE, KTOP in *.
  pose proof (fresh_page_unmapped _ _ _ _ _ _ _ 0 (ti_mem _ _ _ _ _ Hi) Hf) as Hu0.
  pose proof (fresh_page_unmapped _ _ _ _ _ _ _ 36 (ti_mem _ _ _ _ _ Hi) Hf) as Hu36.
  pose proof (fresh_page_unmapped _ _ _ _ _ _ _ 44 (ti_mem _ _ _ _ _ Hi) Hf) as Hu44.
  rewrite Z.add_0_r in Hu0. split_and!; [lia|lia|done|..].
  - apply eq_None_not_Some. intros ?%(ti_tasks _ _ _ _ _ Hi). apply Hu0; [lia|done].
  - apply eq_None_not_Some. intros ?%(ti_nodes _ _ _ _ _ Hi). apply Hu36; [lia|done].
  - apply eq_None_not_Some. intros ?%(ti_nodes _ _ _ _ _ Hi). apply Hu44; [lia|done].
Qed.

(** A ready thread with the next pid joins: everything but the pieces of
    memory behind it. *)
Lemma thread_inv_add s cur qs ts g t T rl K' g' f :
  thread_inv s cur qs ts g → next_pid s < 65535 →
  0 < t → t + 4096 < 2 ^ 32 → t mod 4096 = 0 → k_tasks (t_ker s) !! t = None →
  k_nodes (t_ker s) !! general_tag t = None → k_nodes (t_ker s) !! all_list_tag t = None →
  status T = TASK_READY → self_kstack T = t + 3664 → stack_magic T = STACK_MAGIC →
  pid T = next_pid s + 1 → pgdir_ok (k_mach K') (pgdir T) →
  qs !! thread_ready_list = Some rl →
  relinked (with_tags (k_nodes (t_ker s)) t) (k_nodes K') (added qs t rl (all_list_tag <$> ts)) →
  k_tasks K' = <[t := T]> (k_tasks (t_ker s)) → k_esp K' = k_esp (t_ker s) →
  k_locks K' = k_locks (t_ker s) → k_semas K' = k_semas (t_ker s) →
  mem_step (k_mach (t_ker s)) (k_mach K') → mem_inv (t_pools s) (k_mach K') g' →
  heap_frame (t_pools s) (k_mach K') t f →
  thread_inv (TState K' (t_pools s) (next_pid s + 1) (main_thread s)) cur
    (added qs t rl (all_list_tag <$> ts)) (ts ++ [t]) g'.
Proof.
  intros Hi Hnp Ht Ht' Hal Hnew Hng Hna HsT HkT HmT HpT Hpg Hrl Hrel Htk Hesp Hlk Hsm Hst Hmi Hfr.
  pose proof (ti_sep _ _ _ _ _ Hi) as [Hw1 Hw2]. pose proof (ti_pid _ _ _ _ _ Hi) as Hpid.
  assert (Hlook : ∀ u U, k_tasks K' !! u = Some U → (u = t ∧ U = T) ∨ (u ≠ t ∧ k_tasks (t_ker s) !! u = Some U)).
  { intros u U. rewrite Htk, lookup_insert. case_decide; naive_solver. }
  assert (H1 : 1 ≤ next_pid s + 1).
  { destruct (proj1 (ti_members _ _ _ _ _ Hi _) (ti_main _ _ _ _ _ Hi)) as [U HU].
    specialize (Hpid _ _ HU). lia. }
  split; simpl; auto.
  - apply (sched_add (t_ker s) cur qs t T); auto;
      [apply Hi|rewrite HkT; unfold stack_ok; lia|apply Hi|apply Hmi].
  - apply (pgdir_ok_step (k_mach (t_ker s))); [done|apply (ti_kdir _ _ _ _ _ Hi)].
  - rewrite Hlk. apply Hi.
  - rewrite Hsm. apply Hi.
  - unfold added. rewrite !lookup_insert_ne by done. apply Hi.
  - intros x [? Hx]. destruct Hrel as [_ Hdom]. pose proof (proj1 (Hdom x) ltac:(by eexists)) as Hx'.
    unfold with_tags in Hx'. rewrite !lookup_insert in Hx'. repeat case_decide; subst;
      [by apply (heap_frame_mapped (t_pools s) _ t f 36); [|lia]|by apply (heap_frame_mapped (t_pools s) _ t f 44); [|lia]|].
    apply (kmapped_step (k_mach (t_ker s))); [done|]. by apply (ti_nodes _ _ _ _ _ Hi).
  - intros u [U [[-> _]|[_ HU]]%Hlook].
    + rewrite <- (Z.add_0_r t). apply (heap_frame_mapped (t_pools s) _ t f 0); [done|lia].
    + apply (kmapped_step (k_mach (t_ker s))); [done|]. by apply (ti_tasks _ _ _ _ _ Hi).
  - unfold added. by rewrite lookup_insert_eq, fmap_app.
  - intros u. rewrite elem_of_app, list_elem_of_singleton, Htk, lookup_insert_is_Some,
      (ti_members _ _ _ _ _ Hi). destruct (decide (t = u)); naive_solver.
  - rewrite elem_of_app. left. apply (ti_main _ _ _ _ _ Hi).
  - intros u U [[-> ->]|[_ HU]]%Hlook; [lia|]. specialize (Hpid u U HU). lia.
  - intros u u' U U' HU HU' E. destruct (Hlook u U HU) as [[-> ->]|[_ H1']];
      destruct (Hlook u' U' HU') as [[-> ->]|[_ H2']]; [done|..].
    + specialize (Hpid u' U' H2'). lia.
    + specialize (Hpid u U H1'). lia.
    + by apply (ti_pid_inj _ _ _ _ _ Hi u u' U U').
Qed.
End inv.

(** * Creating threads *)

Section start.
Context `{Symbols, ThreadSyms}.

(** The page of a new thread and [init_thread] on it. *)
Lemma new_thread_runs s cur qs ts g i nm prio :
  thread_inv s cur qs ts g → next_pid s < 65535 → (length (bytes_of nm) < 24)%nat →
  0 ≤ i < nbits (vbm (t_pools s)) → bit g (vbm (t_pools s)) i = false →
  (0 < free_count g (kbm (t_pools s)))%nat →
  ∃ r f M1 g1, let t := heap_addr r in let K1 := set_mach (t_ker s) M1 in
    get_kernel_pages (t_pools s) (cur_vaddr (t_ker s)) (k_mach (t_ker s)) 1 = Ok (t, M1)
    ∧ 0 ≤ r ≤ i ∧ (∀ j, 0 ≤ j < r → bit g (vbm (t_pools s)) j = true)
    ∧ fresh_page (t_pools s) (k_mach (t_ker s)) g r f M1 g1
    ∧ truns (set_ker s K1) [InitThread t nm prio]
        (TState (new_task K1 t (first_task t (next_pid s + 1) TASK_READY nm prio))
           (t_pools s) (next_pid s + 1) (main_thread s)).
Proof.
  intros Hi Hnp Hnm Hir Hib Hc. pose proof (ti_sched _ _ _ _ _ Hi) as [Hcore _].
  destruct (get_kernel_page (t_pools s) (cur_vaddr (t_ker s)) (k_mach (t_ker s)) g i)
    as (r & f & M1 & g1 & HM & Hr & Hfst & Hf); [apply Hi|done..|].
  destruct (fresh_task s cur qs ts g r f M1 g1 Hi Hf) as (Ht & Ht' & Hal & Hnew & Hng & Hna).
  exists r, f, M1, g1. cbv zeta. split_and!; [done|lia|lia|done|done|].
  assert (0 ≤ next_pid s).
  { destruct (proj1 (ti_members _ _ _ _ _ Hi _) (ti_main _ _ _ _ _ Hi)) as [U HU].
    pose proof (ti_pid _ _ _ _ _ Hi _ _ HU). lia. }
  pose proof (init_thread_runs (set_ker s (set_mach (t_ker s) M1)) (heap_addr r) nm prio) as Hrun.
  cbv zeta in Hrun. cbn [set_ker t_ker t_pools next_pid main_thread set_mach k_mach k_locks k_semas
    k_eflags k_nodes] in Hrun. rewrite u16_small in Hrun by lia.
  assert (heap_addr r ≠ main_thread s) as Hm.
  { intros E. destruct (proj1 (ti_members _ _ _ _ _ Hi _) (ti_main _ _ _ _ _ Hi)) as [U HU].
    rewrite <- E in HU. congruence. }
  rewrite (proj2 (Z.eqb_neq _ _) Hm) in Hrun. apply Hrun; auto.
  - rewrite <- (Z.add_0_r (heap_addr r)).
    rewrite (heap_frame_translate (t_pools s) M1 (heap_addr r) f); [done|..|lia].
    + apply (al_inv _ _ _ _ _ _ _ (fp_alloc _ _ _ _ _ _ _ Hf)).
    + apply Hf.
  - change (running_thread (t_ker s) ≠ NULL). rewrite (core_running _ cur qs) by done.
    destruct (sc_cur _ _ _ Hcore) as [C HC]. destruct (to_addr _ _ _ (sc_task _ _ _ Hcore _ _ HC)).
    unfold NULL. lia.
  - apply Hi.
  - apply Hi.
  - apply (list_empty_holds _ _ qs _ []); [|apply Hi]. apply with_tags_lists; auto. apply Hcore.
Qed.

(** The outcome of a creation: the thread [t] is the last of the ready list
    and of all threads, its first stack is in place, and no other task and no
    mapped page has changed. *)
Record created (s : tstate) (cur : Z) (qs : gmap Z (list Z)) (ts : list Z) (t : Z)
    (T : task_struct) (fn arg : Z) (s' : tstate) (g' : gmap Z Z) : Prop := {
  cr_inv rl : qs !! thread_ready_list = Some rl →
    thread_inv s' cur (added qs t rl (all_list_tag <$> ts)) (ts ++ [t]) g';
  cr_tasks : k_tasks (t_ker s') = <[t := T]> (k_tasks (t_ker s));
  cr_new : k_tasks (t_ker s) !! t = None;
  cr_pid : next_pid s' = next_pid s + 1;
  cr_pools : t_pools s' = t_pools s;
  cr_main : main_thread s' = main_thread s;
  cr_esp : k_esp (t_ker s') = k_esp (t_ker s);
  cr_eflags : k_eflags (t_ker s') = k_eflags (t_ker s);
  cr_locks : k_locks (t_ker s') = k_locks (t_ker s) ∧ k_semas (t_ker s') = k_semas (t_ker s);
  cr_step : mem_step (k_mach (t_ker s)) (k_mach (t_ker s'));
  cr_stack : ∃ f, heap_frame (t_pools s) (k_mach (t_ker s')) t f
    ∧ first_stack (k_mach (t_ker s')) f fn arg;
}.

(** The task of a kernel thread. *)
Definition thread_task (t pid : Z) (nm : string) (prio : Z) : task_struct :=
  with_kstack (first_task t pid TASK_READY nm prio) (t + 3664).

Lemma thread_start_holds s cur qs ts g i nm prio fn arg :
  thread_inv s cur qs ts g → next_pid s < 65535 → (length (bytes_of nm) < 24)%nat →
  word fn → word arg → word kernel_thread_ptr →
  0 ≤ i < nbits (vbm (t_pools s)) → bit g (vbm (t_pools s)) i = false →
  (0 < free_count g (kbm (t_pools s)))%nat →
  ∃ r s' M1 g' , let t := heap_addr r in
    truns s [ThreadStart nm prio fn arg] s'
    ∧ 0 ≤ r ≤ i ∧ (∀ j, 0 ≤ j < r → bit g (vbm (t_pools s)) j = true)
    ∧ bit g (vbm (t_pools s)) r = false
    ∧ allocated (t_pools s) (k_mach (t_ker s)) g r 1 M1 g'
    ∧ created s cur qs ts t (thread_task t (next_pid s + 1) nm prio) fn arg s' g'.
Proof.
  intros Hi Hnp Hnm Hfn Harg Hkt Hir Hib Hc. pose proof (ti_sched _ _ _ _ _ Hi) as [Hcore _].
  destruct (new_thread_runs s cur qs ts g i nm prio) as (r & f & M1 & g1 & HM & Hr & Hfst & Hf & Hrun);
    auto. destruct (fresh_task s cur qs ts g r f M1 g1 Hi Hf) as (Ht & Ht' & Hal & Hnew & Hng & Hna).
  set (t := heap_addr r) in *. set (K1 := new_task _ t _) in Hrun.
  pose proof (fp_alloc _ _ _ _ _ _ _ Hf) as Ha. pose proof (fp_frame _ _ _ _ _ _ _ Hf) as Hhf.
  pose proof (al_inv _ _ _ _ _ _ _ Ha) as Hi1.
  destruct (thread_create_holds (t_pools s) K1 t (first_task t (next_pid s + 1) TASK_READY nm prio)
    f fn arg) as (M2 & HM2 & Hw & Hfs); auto; [by apply lookup_insert_eq|apply Hi1|].
  simpl in Hw. destruct (sc_ready _ _ _ Hcore) as [rl Hrl].
  set (K2 := set_mach (put_task K1 t (thread_task t (next_pid s + 1) nm prio)) M2).
  destruct (append_both K2 qs (k_nodes (t_ker s)) t rl (all_list_tag <$> ts) "thread_start")
    as (n' & Happ & Hrel); auto; try apply Hcore; [by apply (ti_all _ _ _ _ _ Hi)|].
  set (K3 := set_lists K2 (LMem (k_eflags K2) n')) in Happ.
  exists r, (TState K3 (t_pools s) (next_pid s + 1) (main_thread s)), M1, g1.
  cbv zeta. split_and!; [|lia|lia|done|apply Hf|done|].
  { eapply runs_bind; [simpl; unfold thread_start; rewrite HM; rb; reflexivity|done| |apply runs_nil].
    eapply (runs_app _ _ _ [_] _ [_]); [exact Hrun|]. eapply runs_one; [|done].
    simpl. unfold start_queue. simpl. rewrite HM2. rb. fold (thread_task t (next_pid s + 1) nm prio).
    fold K2. apply bind_ok_inv in Happ as (K2' & -> & Happ). rb. rewrite Happ. by rb. }
  assert (Hstep : mem_step (k_mach (t_ker s)) M2).
  { apply (page_write_step (t_pools s) M1 M2 t f); auto; [|apply Hf].
    by apply (fresh_page_step (t_pools s) _ g r f M1 g1); [apply Hi|]. }
  assert (Hhf2 : heap_frame (t_pools s) M2 t f) by by apply (page_write_frame (t_pools s) M1 M2 t f).
  assert (Htk : k_tasks K3 = <[t := thread_task t (next_pid s + 1) nm prio]> (k_tasks (t_ker s))).
  { simpl. by rewrite insert_insert_eq. }
  assert (Hinv2 : mem_inv (t_pools s) M2 g1) by by apply (page_write_inv (t_pools s) M1 M2 t f).
  split; auto; [|by exists f].
  intros rl' ?. simplify_eq.
  apply (thread_inv_add s cur qs ts g t (thread_task t (next_pid s + 1) nm prio) rl K3 g1 f); auto.
  by apply (pgdir_ok_step (k_mach (t_ker s))), (ti_kdir _ _ _ _ _ Hi).
Qed.

(** * Creating processes *)

Definition user_vaddr (r : Z) : virtual_addr :=
  VirtualAddr (Bitmap 94199 (heap_addr r)) USER_VADDR_START.

(** The memory behind a process: after the thread's page, the address bitmap,
    the first stack and the directory. *)
(** The pages of a process that has not run: its stack page [t] in the frame
    [f], its bitmap from heap page [rb] on, its directory in heap page [rd]
    with an empty user half; all in frames of their own. *)
Record process_home (km : kmem) (M : machine) (t f rb rd : Z) : Prop := {
  ho_frame : heap_frame km M t f;
  ho_dir : pgdir_ok M (heap_addr rd);
  ho_empty i : 0 ≤ i < 768 → rd32 (pm M) (frame (dir_of M (heap_addr rd)) + 4 * i) = 0;
  ho_bitmap k : 0 ≤ k < 23 → ∃ fb, heap_frame km M (heap_addr (rb + k)) fb
    ∧ fb ≠ f ∧ fb ≠ frame (dir_of M (heap_addr rd));
  ho_apart : f ≠ frame (dir_of M (heap_addr rd));
}.

Lemma process_home_step km M M' t f rb rd :
  mem_step M M' → process_home km M t f rb rd → process_home km M' t f rb rd.
Proof.
  intros Hs [Hf Hd He Hb Ha]. pose proof (dir_of_step M M' _ Hs Hd) as Ed. split.
  - by apply (heap_frame_step km M).
  - by apply (pgdir_ok_step M).
  - by apply (empty_dir_step M).
  - intros k Hk. destruct (Hb k Hk) as (fb & Hfb & Hne & Hne'). exists fb. rewrite Ed.
    split_and!; [by apply (heap_frame_step km M)|done..].
  - by rewrite Ed.
Qed.

Record process_memory (km : kmem) (M : machine) (g : gmap Z Z) (t f : Z) (file : Z)
    (rb rd : Z) (M' : machine) (g' : gmap Z Z) : Prop := {
  pc_inv : mem_inv km M' g';
  pc_step : ∀ M0, mem_step M0 M → frame_unused M0 f → mem_step M0 M';
  pc_stack : first_stack M' f start_process_ptr file;
  pc_home : process_home km M' t f rb rd;
  pc_bits k : 0 ≤ k → bit g' (vbm km) k
    = if decide (rb ≤ k < rb + 23 ∨ k = rd) then true else bit g (vbm km) k;
  pc_count : free_count g (kbm km) = (free_count g' (kbm km) + 24)%nat;
  pc_user : free_count g' (ubm km) = free_count g (ubm km);
}.

Definition process_task (t pid : Z) (nm : string) (rb rd : Z) : task_struct :=
  with_pgdir (with_kstack (with_vaddr (first_task t pid TASK_READY nm default_prio)
    (user_vaddr rb)) (t + 3664)) (heap_addr rd).

(** What [execute_queue] does before it touches the lists. *)
Lemma execute_memory km K1 g t f pid nm file i :
  let M := k_mach K1 in
  mem_inv km M g → heap_frame km M t f →
  k_tasks K1 !! t = Some (first_task t pid TASK_READY nm default_prio) →
  word file → word start_process_ptr → word kernel_thread_ptr →
  0 ≤ i → i + 24 ≤ nbits (vbm km) → window g (vbm km) i 24 → (24 ≤ free_count g (kbm km))%nat →
  ∃ rb rd M' g',
    ('(V, M) ← create_user_vaddr_bitmap km (cur_vaddr K1) (k_mach K1);
     T ← get_task K1 t;
     let K := put_task (set_mach K1 M) t (with_vaddr T V) in
     K ← thread_create K t start_process_ptr file;
     '(page_dir, M) ← create_page_dir km (cur_vaddr K) (k_mach K);
     T ← get_task K t;
     Ok (put_task (set_mach K M) t (with_pgdir T page_dir)))
    = Ok (put_task (set_mach K1 M') t (process_task t pid nm rb rd))
    ∧ 0 ≤ rb ≤ i ∧ 0 ≤ rd ≤ i + 23 ∧ window g (vbm km) rb 23
    ∧ bit g (vbm km) rd = false ∧ ¬ rb ≤ rd < rb + 23
    ∧ process_memory km M g t f file rb rd M' g'.
Proof.
  intros M Hi Hf HT Hfile Hsp Hkt Hi0 Hn Hw Hc.
  destruct (create_user_vaddr_bitmap_holds km (cur_vaddr K1) M g i)
    as (rb & V & M2 & g2 & HM2 & -> & Hrb & Hwb & Ha2 & _); auto; [lia| |lia|].
  { intros k Hk. apply Hw. lia. }
  fold M. rewrite HM2. rb. rewrite (get_task_ok K1 t _ HT). rb. cbv zeta.
  fold (user_vaddr rb). set (T2 := with_vaddr _ (user_vaddr rb)).
  pose proof (allocated_step km M g rb 23 M2 g2 Hi Ha2 ltac:(lia) ltac:(lia) Hwb) as Hs2.
  pose proof (al_inv _ _ _ _ _ _ _ Ha2) as Hi2.
  pose proof (heap_frame_step km M M2 t f Hs2 Hf) as Hf2.
  destruct (thread_create_holds km (put_task (set_mach K1 M2) t T2) t T2 f start_process_ptr file)
    as (M3 & -> & Hw3 & Hfs3); auto; [by apply lookup_insert_eq|apply Hi2|]. rb.
  cbn [put_task set_mach set_tasks k_mach] in Hw3 |- *.
  pose proof (page_write_inv km M2 M3 t f Hf2 Hw3 g2 Hi2) as Hi3.
  pose proof (page_write_frame km M2 M3 t f Hf2 Hw3 t f Hf2) as Hf3.
  assert (Hb3 : bit g2 (vbm km) (i + 23) = false).
  { rewrite (al_vbits _ _ _ _ _ _ _ Ha2), decide_False by lia. apply Hw. lia. }
  pose proof (al_count _ _ _ _ _ _ _ Ha2) as Hc2.
  match goal with |- context [create_page_dir km ?c M3] =>
    destruct (create_page_dir_holds km c M3 g2 (i + 23))
      as (rd & M4 & M5 & g5 & fd & -> & Hrd & Hbd & Ha4 & Hf4 & Hnd); auto; [lia..|] end. rb.
  pose proof (al_inv _ _ _ _ _ _ _ Ha4) as Hi4. unfold get_task.
  cbn [put_task set_mach set_tasks k_tasks]. rewrite !lookup_insert_eq. rb.
  exists rb, rd, M5, g5. split_and!; [|lia..|done| | |].
  - unfold put_task, set_tasks, set_mach. simpl. by rewrite !insert_insert_eq.
  - rewrite (al_vbits _ _ _ _ _ _ _ Ha2) in Hbd by lia. by case_decide.
  - rewrite (al_vbits _ _ _ _ _ _ _ Ha2) in Hbd by lia. by case_decide.
  - assert (Hw5 : page_write M4 fd M5) by (split; apply Hnd).
    assert (Hu3 : frame_unused M3 fd).
    { apply (allocated_unused km M3 g2 rd 1 M4 g5 0); rewrite ?Z.add_0_r; auto; lia. }
    assert (Hs4 : mem_step M3 M4).
    { apply (allocated_step km M3 g2 rd 1 M4 g5); auto; try lia. by apply window_one. }
    assert (Hs5 : mem_step M3 M5) by by apply (page_write_step km M4 M5 (heap_addr rd) fd).
    destruct (new_dir_pgdir km M4 M5 g5 (heap_addr rd) fd) as [Hpg Hdo]; auto.
    split; auto.
    + by apply (page_write_inv km M4 M5 (heap_addr rd) fd).
    + intros M0 Hs0 Hu0. etrans; [|exact Hs5]. apply (page_write_step km M2 M3 t f); auto.
      by etrans.
    + by apply (first_stack_step km M3 M5 t).
    + split; [by apply (heap_frame_step km M3)|done| | |];
        rewrite Hdo, (frame_self km M4 (heap_addr rd) fd) by done.
      * intros k Hk. by apply Hnd.
      * intros k Hk. destruct (allocated_heap_frame km M g rb 23 M2 g2 k) as [fb Hfb]; auto; [lia..|].
        pose proof (page_write_frame km M2 M3 t f Hf2 Hw3 _ _ Hfb) as Hfb3.
        exists fb. split_and!; [by apply (heap_frame_step km M3)| |].
        -- pose proof (allocated_unused km M g rb 23 M2 g2 k fb Hi Ha2 ltac:(lia) ltac:(lia) Hk Hfb) as Hu.
           intros ->. by apply (heap_frame_unused km M t f).
        -- intros ->. by apply (heap_frame_unused km M3 (heap_addr (rb + k)) fd).
      * intros ->. by apply (heap_frame_unused km M3 t fd).
    + intros k Hk. rewrite (al_vbits _ _ _ _ _ _ _ Ha4), (al_vbits _ _ _ _ _ _ _ Ha2) by done.
      repeat case_decide; try done; lia.
    + rewrite Hc2, (al_count _ _ _ _ _ _ _ Ha4). lia.
    + apply free_count_same. intros k Hk.
      by rewrite (al_ubits _ _ _ _ _ _ _ Ha4), (al_ubits _ _ _ _ _ _ _ Ha2).
Qed.

(** The end of [execute_queue], with interrupts off around the appends. *)
Lemma execute_append K qs n t rl al :
  heap_lists n qs → n !! general_tag t = None → n !! all_list_tag t = None →
  thread_ready_list ≠ thread_all_list →
  qs !! thread_ready_list = Some rl → qs !! thread_all_list = Some al →
  0 < t → t + 4096 < 2 ^ 32 → k_nodes K = with_tags n t →
  ∃ n', (let '(old_status, fl) := intr_disable (k_eflags K) in
         let K := set_eflags K fl in
         K ← append_new K thread_ready_list (general_tag t) "process_execute";
         K ← append_new K thread_all_list (all_list_tag t) "process_execute";
         Ok (set_eflags K (intr_set_status old_status (k_eflags K)).2))
        = Ok (set_lists K (LMem (k_eflags K) n'))
    ∧ relinked (with_tags n t) n' (added qs t rl al).
Proof.
  intros Hh Hg Ha Hne Hr Hal Ht Ht' EK. pose proof (intr_restore (k_eflags K)) as Hfl.
  destruct (intr_disable (k_eflags K)) as [old fl]. cbv zeta.
  destruct (append_both (set_eflags K fl) qs n t rl al "process_execute")
    as (n' & Happ & Hrel); auto. exists n'. split; [|done].
  apply bind_ok_inv in Happ as (K2 & -> & Happ). rb. rewrite Happ. rb.
  cbn [set_lists k_eflags l_eflags set_eflags]. by rewrite Hfl.
Qed.

Lemma process_execute_holds s cur qs ts g i file nm :
  thread_inv s cur qs ts g → next_pid s < 65535 → (length (bytes_of nm) < 24)%nat →
  word file → word start_process_ptr → word kernel_thread_ptr →
  0 ≤ i → i + 25 ≤ nbits (vbm (t_pools s)) → window g (vbm (t_pools s)) i 25 →
  (25 ≤ free_count g (kbm (t_pools s)))%nat →
  ∃ r rb rd s' M1 g1 g', let t := heap_addr r in
    truns s [ProcessExecute file nm] s'
    ∧ 0 ≤ r ≤ i ∧ (∀ j, 0 ≤ j < r → bit g (vbm (t_pools s)) j = true)
    ∧ bit g (vbm (t_pools s)) r = false
    ∧ allocated (t_pools s) (k_mach (t_ker s)) g r 1 M1 g1
    ∧ 0 ≤ rb ≤ i + 1 ∧ 0 ≤ rd ≤ i + 24 ∧ window g1 (vbm (t_pools s)) rb 23
    ∧ bit g1 (vbm (t_pools s)) rd = false ∧ ¬ rb ≤ rd < rb + 23
    ∧ created s cur qs ts t (process_task t (next_pid s + 1) nm rb rd) start_process_ptr file s' g'
    ∧ ∃ f, process_memory (t_pools s) M1 g1 t f file rb rd (k_mach (t_ker s')) g'.
Proof.
  intros Hi Hnp Hnm Hfile Hsp Hkt Hi0 Hn Hw Hc. pose proof (ti_sched _ _ _ _ _ Hi) as [Hcore _].
  destruct (new_thread_runs s cur qs ts g i nm default_prio)
    as (r & f & M1 & g1 & HM & Hr & Hfst & Hf & Hrun); auto; [lia|apply Hw; lia|lia|].
  destruct (fresh_task s cur qs ts g r f M1 g1 Hi Hf) as (Ht & Ht' & Hal & Hnew & Hng & Hna).
  set (t := heap_addr r) in *. set (K1 := new_task _ t _) in Hrun.
  pose proof (fp_alloc _ _ _ _ _ _ _ Hf) as Ha. pose proof (fp_frame _ _ _ _ _ _ _ Hf) as Hhf.
  pose proof (al_inv _ _ _ _ _ _ _ Ha) as Hi1. pose proof (al_count _ _ _ _ _ _ _ Ha) as Hc1.
  destruct (execute_memory (t_pools s) K1 g1 t f (next_pid s + 1) nm file (i + 1))
    as (rb & rd & M' & g' & HM' & Hrb & Hrd & Hwb & Hbd & Hapart & Hpm); auto; try lia.
  { apply lookup_insert_eq. }
  { intros k Hk. rewrite (al_vbits _ _ _ _ _ _ _ Ha), decide_False by lia. apply Hw. lia. }
  simpl in Hpm. destruct (sc_ready _ _ _ Hcore) as [rl Hrl].
  set (T := process_task t (next_pid s + 1) nm rb rd) in *.
  set (K2 := put_task (set_mach K1 M') t T) in *.
  destruct (execute_append K2 qs (k_nodes (t_ker s)) t rl (all_list_tag <$> ts))
    as (n' & Happ & Hrel); auto; try apply Hcore; [by apply (ti_all _ _ _ _ _ Hi)|].
  set (K3 := set_lists K2 (LMem (k_eflags K2) n')) in Happ.
  exists r, rb, rd, (TState K3 (t_pools s) (next_pid s + 1) (main_thread s)), M1, g1, g'.
  cbv zeta. split_and!; [|lia|lia|done|apply Hf|done|lia|lia|lia|lia|done|done|done| |by exists f].
  { eapply runs_bind; [simpl; unfold process_execute; rewrite HM; rb; reflexivity|done| |apply runs_nil].
    eapply (runs_app _ _ _ [_] _ [_]); [exact Hrun|]. eapply runs_one; [|done].
    simpl. unfold execute_queue. cbn [t_ker t_pools]. cbv zeta in HM' |- *.
    apply bind_ok_inv in HM' as ([V M2] & -> & HM'). rb.
    apply bind_ok_inv in HM' as (T2 & -> & HM'). rb.
    apply bind_ok_inv in HM' as (K' & -> & HM'). rb.
    apply bind_ok_inv in HM' as ([pd M5] & -> & HM'). rb.
    apply bind_ok_inv in HM' as (T5 & -> & HM'). rb. apply Ok_inj in HM' as ->.
    destruct (intr_disable (k_eflags K2)) as [old fl]. cbv zeta in Happ.
    apply bind_ok_inv in Happ as (K4 & -> & Happ). rb.
    apply bind_ok_inv in Happ as (K5 & -> & Happ). rb. apply Ok_inj in Happ.
    unfold set_ker. simpl. by rewrite Happ. }
  assert (Hstep : mem_step (k_mach (t_ker s)) M').
  { apply (pc_step _ _ _ _ _ _ _ _ _ _ Hpm); [|apply Hf].
    by apply (fresh_page_step (t_pools s) _ g r f M1 g1); [apply Hi|]. }
  assert (Htk : k_tasks K3 = <[t := T]> (k_tasks (t_ker s))).
  { simpl. by rewrite insert_insert_eq. }
  pose proof (pc_home _ _ _ _ _ _ _ _ _ _ Hpm) as Hho.
  split; auto; [|by exists f; split; [apply Hho|apply Hpm]].
  intros rl' ?. simplify_eq.
  apply (thread_inv_add s cur qs ts g t T rl K3 g' f); auto; (apply Hpm || apply Hho).
Qed.
End start.

(** * Properties *)

(** C15: Creating a thread and creating a process keep the invariant of the
    threads: [thread_start] and [process_execute] return with one more thread,
    in a page of its own, at the end of the ready list and of the list of all
    threads, with the next pid, which no other thread has; every other thread,
    the locks and the mapped pages stay as they were.  The calls are not
    interrupted by another thread; the pid counter is below 65535, the name
    has fewer than 24 characters, and 25 pages in a row of the heap and 25
    frames are free. *)
Theorem creation_preserves `{Symbols, ThreadSyms} s cur qs ts g i nm prio fn arg rl :
  thread_inv s cur qs ts g → next_pid s < 65535 → (length (bytes_of nm) < 24)%nat →
  Forall word [fn; arg; start_process_ptr; kernel_thread_ptr] →
  0 ≤ i → i + 25 ≤ nbits (vbm (t_pools s)) → window g (vbm (t_pools s)) i 25 →
  (25 ≤ free_count g (kbm (t_pools s)))%nat → qs !! thread_ready_list = Some rl →
  (∃ t s' g', truns s [ThreadStart nm prio fn arg] s'
     ∧ thread_inv s' cur (added qs t rl (all_list_tag <$> ts)) (ts ++ [t]) g' ∧ t ∉ ts
     ∧ k_tasks (t_ker s') = <[t := thread_task t (next_pid s + 1) nm prio]> (k_tasks (t_ker s))
     ∧ k_locks (t_ker s') = k_locks (t_ker s) ∧ mem_step (k_mach (t_ker s)) (k_mach (t_ker s')))
  ∧ (∃ t rb rd s' g', truns s [ProcessExecute arg nm] s'
     ∧ thread_inv s' cur (added qs t rl (all_list_tag <$> ts)) (ts ++ [t]) g' ∧ t ∉ ts
     ∧ k_tasks (t_ker s') = <[t := process_task t (next_pid s + 1) nm rb rd]> (k_tasks (t_ker s))
     ∧ k_locks (t_ker s') = k_locks (t_ker s) ∧ mem_step (k_mach (t_ker s)) (k_mach (t_ker s'))).
Proof.
  intros Hi Hpid Hnm Hw H0i Hn Hwin Hc Hrl. rewrite !Forall_cons in Hw.
  destruct Hw as (Hfn & Harg & Hsp & Hkt & _).
  assert (Hnew : ∀ t, k_tasks (t_ker s) !! t = None → t ∉ ts).
  { intros t E Ht%(ti_members _ _ _ _ _ Hi). rewrite E in Ht. by destruct Ht. }
  split.
  - destruct (thread_start_holds s cur qs ts g i nm prio fn arg)
      as (r & s' & M1 & g' & Hrun & _ & _ & _ & _ & Hcr); auto; [lia|apply Hwin; lia|lia|].
    exists (heap_addr r), s', g'. destruct Hcr as [? ? ? ? ? ? ? ? [? ?] ? ?]. split_and!; auto.
  - destruct (process_execute_holds s cur qs ts g i arg nm)
      as (r & rb & rd & s' & M1 & g1 & g' & Hrun & _ & _ & _ & _ & _ & _ & _ & _ & _ & Hcr & _); auto.
    exists (heap_addr r), rb, rd, s', g'. destruct Hcr as [? ? ? ? ? ? ? ? [? ?] ? ?]. split_and!; auto.
Qed.
