(* ===== verification/ThreadInit.v ===== *)
(** [thread_init] of thread/thread.c: the thread that has been running since
    the loader's jump becomes the first task, and the invariant of the threads
    starts to hold.  Also [lock_init] in a running system. *)
From S2P Require Import Prelude ByteMem CString Bitmap Paging Memory Interrupt DList Sched Sync.
From S2P Require Import Uncontended Process Spaces Thread ThreadProps.
From Stdlib Require Import List.

(** * Static lists *)

(** Two [struct list]s that do not overlap. *)
Definition apart (p q : Z) : Prop := p + 16 ≤ q ∨ q + 16 ≤ p.

(** The lists at [ps] exist as objects but have not been initialised. *)
Record static (n : gmap Z list_elem) (qs : gmap Z (list Z)) (ps : list Z) : Prop := {
  st_loose p : p ∈ ps → qs !! p = None ∧ detached n qs (head_of p) ∧ detached n qs (tail_of p);
  st_apart : ForallOrdPairs apart ps;
}.

Lemma static_cons n qs p ps :
  static n qs (p :: ps) → static n qs ps ∧ ∀ q, q ∈ ps → apart p q.
Proof.
  intros [Hl Ha]. inversion Ha as [|? ? Hp Hr]; subst. split.
  - split; [|done]. intros q Hq. apply Hl. by right.
  - intros q Hq. rewrite List.Forall_forall in Hp. apply Hp. by apply list_elem_of_In.
Qed.

(** Initialising the first of them. *)
Lemma static_init fl n qs p ps :
  heap_lists n qs → static n qs (p :: ps) →
  ∃ n', list_init (LMem fl n) p = Ok (LMem fl n')
    ∧ relinked n n' (<[p := []]> qs) ∧ static n' (<[p := []]> qs) ps.
Proof.
  intros Hh Hs. destruct (st_loose _ _ _ Hs p) as (Hp & Hd1 & Hd2); [by left|].
  destruct (static_cons _ _ _ _ Hs) as [Hr Hap].
  destruct (list_init_holds fl n qs p) as (n' & Hi & Hrel); auto.
  exists n'. split_and!; auto. destruct Hrel as [_ Hdom]. split; [|apply Hr].
  assert (Hdet : ∀ x, detached n qs x → x ≠ head_of p → x ≠ tail_of p →
    detached n' (<[p := []]> qs) x).
  { intros x (Ha & Hx & Ho) H1 H2. split_and!; [done|by apply Hdom|]. intros q l.
    rewrite lookup_insert. case_decide; [|by apply Ho]. intros [= <-]. subst q.
    unfold footprint. simpl. rewrite elem_of_cons, list_elem_of_singleton. naive_solver. }
  intros q Hq. destruct (st_loose _ _ _ Hr q Hq) as (Hnq & Hq1 & Hq2). specialize (Hap q Hq).
  unfold apart in Hap. split_and!.
  - rewrite lookup_insert_ne; [done|lia].
  - apply Hdet; [done|unfold head_of, tail_of; lia..].
  - apply Hdet; [done|unfold head_of, tail_of; lia..].
Qed.

(** Fresh nodes and appends elsewhere keep them. *)
Lemma static_relinked n n' qs ps p l e :
  static n qs ps → qs !! p = Some l → (∀ y, is_Some (n' !! y) ↔ is_Some (n !! y)) →
  (∀ q, q ∈ ps → e ≠ head_of q ∧ e ≠ tail_of q) →
  static n' (<[p := l ++ [e]]> qs) ps.
Proof.
  intros Hs Hp Hdom He. split; [|apply Hs]. intros q Hq.
  destruct (st_loose _ _ _ Hs q Hq) as (Hnq & Hq1 & Hq2). destruct (He q Hq) as [He1 He2].
  split_and!.
  - rewrite lookup_insert_ne; [done|]. intros ->. congruence.
  - by apply (detached_append n).
  - by apply (detached_append n).
Qed.

Lemma static_more n n' qs ps :
  static n qs ps → (∀ y, is_Some (n !! y) → is_Some (n' !! y)) → static n' qs ps.
Proof.
  intros Hs Hm. split; [|apply Hs]. intros q Hq.
  destruct (st_loose _ _ _ Hs q Hq) as (Hnq & (? & ? & ?) & (? & ? & ?)).
  split_and!; auto; split_and!; auto.
Qed.

Lemma with_tags_some n t y : is_Some (n !! y) → is_Some (with_tags n t !! y).
Proof. intros. unfold with_tags. rewrite !lookup_insert_is_Some'. auto. Qed.

Section init.
Context `{Symbols, ThreadSyms}.

Abbreviation pid_wait := (waiters (semaphore pid_lock)).

(** The kernel when [thread_init] is called; [rest] are the lists that are
    initialised later. *)
Record boot_state (s : tstate) (main : Z) (qs : gmap Z (list Z)) (rest : list Z) (g : gmap Z Z)
    : Prop := {
  bo_heap : heap_lists (k_nodes (t_ker s)) qs;
  bo_static : static (k_nodes (t_ker s)) qs
    (thread_all_list :: thread_ready_list :: pid_wait :: rest);
  bo_empty p l : qs !! p = Some l → l = [];
  bo_tasks : k_tasks (t_ker s) = ∅;
  bo_mem : mem_inv (t_pools s) (k_mach (t_ker s)) g;
  bo_kdir : pgdir_ok (k_mach (t_ker s)) NULL;
  bo_main : main mod 4096 = 0 ∧ kmapped (k_mach (t_ker s)) main;
  bo_esp : stack_ok main (k_esp (t_ker s));
  bo_fresh x : 0 ≤ x < 4096 → k_nodes (t_ker s) !! (main + x) = None;
  bo_nodes x : is_Some (k_nodes (t_ker s) !! x) → kmapped (k_mach (t_ker s)) x;
  bo_pid : 0 ≤ next_pid s < 65535;
}.

Definition main_task (t p : Z) : task_struct := first_task t p TASK_RUNNING "main" 31.

(** One task, empty lists. *)
Lemma sched_first K main p1 qs n :
  heap_lists n qs → n !! general_tag main = None → n !! all_list_tag main = None →
  (∀ p l, qs !! p = Some l → l = []) → is_Some (qs !! thread_ready_list) →
  is_Some (qs !! thread_all_list) → thread_ready_list ≠ thread_all_list →
  0 < main → main + 4096 < 2 ^ 32 → main mod 4096 = 0 → stack_ok main (k_esp K) →
  k_tasks K = {[ main := main_task main p1 ]} →
  relinked (with_tags n main) (k_nodes K) (<[thread_all_list := [all_list_tag main]]> qs) →
  kspace (k_mach K) → pgdir_ok (k_mach K) NULL →
  sched_inv K main (<[thread_all_list := [all_list_tag main]]> qs).
Proof.
  intros Hh Hng Hna He Hr Hall Hne Hm0 Hmax Hal Hesp Htk [Hh' Hdom] Hk Hkd.
  assert (Hone : ∀ t T, k_tasks K !! t = Some T → t = main ∧ T = main_task main p1).
  { intros t T. rewrite Htk. intros [-> ->]%lookup_singleton_Some. done. }
  split; [split|].
  - done.
  - by rewrite lookup_insert_ne.
  - done.
  - intros t T [-> ->]%Hone. split; auto. apply Hdom. unfold with_tags.
    rewrite lookup_insert_eq. by eexists.
  - intros t T [-> ->]%Hone ?. done.
  - rewrite Htk, lookup_singleton_eq. by eexists.
  - done.
  - by intros t T [-> _]%Hone _.
  - intros p l e Hp Hpa Hin. rewrite lookup_insert_ne in Hp by done. apply He in Hp. subst l.
    by apply not_elem_of_nil in Hin.
  - intros t T l [-> ->]%Hone Hs. done.
  - intros t T p l [-> ->]%Hone Hp.
    assert (∃ l0, qs !! p = Some l0) as [l0 Hp0].
    { rewrite lookup_insert in Hp. case_decide; [subst; by destruct Hall; eauto|eauto]. }
    assert (Hout : general_tag main ∉ footprint p l0).
    { intros Hin. destruct (heap_lists_some n qs p l0 _ Hh Hp0 Hin). congruence. }
    unfold footprint in Hout. rewrite elem_of_cons, elem_of_app, list_elem_of_singleton in Hout.
    split_and!; [tauto..|]. intros ->. rewrite lookup_insert_eq in Hp. injection Hp as <-.
    rewrite list_elem_of_singleton. unfold general_tag, all_list_tag. lia.
  - done.
  - exists (main_task main p1). by rewrite Htk, lookup_singleton_eq.
Qed.

(** The three lists of [thread_init]. *)
Lemma thread_lists s main qs rest g :
  boot_state s main qs rest g →
  ∃ n, (K ← on_lists (t_ker s) (list_init (lists_of (t_ker s)) thread_all_list);
        K ← on_lists K (list_init (lists_of K) thread_ready_list);
        lock_init K pid_lock)
       = Ok (put_lock (put_sema (set_lists (t_ker s) (LMem (k_eflags (t_ker s)) n))
               (semaphore pid_lock) 1) pid_lock (Lock NULL 0))
    ∧ relinked (k_nodes (t_ker s)) n
        (<[pid_wait := []]> (<[thread_ready_list := []]> (<[thread_all_list := []]> qs)))
    ∧ static n (<[pid_wait := []]> (<[thread_ready_list := []]> (<[thread_all_list := []]> qs))) rest.
Proof.
  intros Hb. set (K := t_ker s). unfold lists_of.
  destruct (static_init (k_eflags K) _ _ _ _ (bo_heap _ _ _ _ _ Hb) (bo_static _ _ _ _ _ Hb))
    as (n1 & E1 & [Hh1 Hd1] & Hs1).
  destruct (static_init (k_eflags K) _ _ _ _ Hh1 Hs1) as (n2 & E2 & [Hh2 Hd2] & Hs2).
  destruct (static_init (k_eflags K) _ _ _ _ Hh2 Hs2) as (n3 & E3 & [Hh3 Hd3] & Hs3).
  exists n3. split_and!; [|split; [done|]|done].
  - unfold on_lists. fold K in E1. rewrite E1. rb. simpl k_eflags. simpl k_nodes. rewrite E2. rb.
    unfold lock_init, sema_init, on_lists, lists_of. simpl. rewrite E3. by rb.
  - intros x. by rewrite Hd3, Hd2, Hd1.
Qed.

Lemma thread_init_holds s main qs rest g :
  boot_state s main qs rest g →
  (∀ p, p ∈ rest → all_list_tag main ≠ head_of p ∧ all_list_tag main ≠ tail_of p) →
  ∃ s' n, let qs' := <[thread_all_list := [all_list_tag main]]>
              (<[pid_wait := []]> (<[thread_ready_list := []]> (<[thread_all_list := []]> qs))) in
    truns s [ThreadInit] s' ∧ thread_inv s' main qs' [main] g
    ∧ t_ker s' = put_task (set_lists (put_lock (put_sema (t_ker s) (semaphore pid_lock) 1)
         pid_lock (Lock NULL 0)) (LMem (k_eflags (t_ker s)) n)) main (main_task main (next_pid s + 1))
    ∧ t_pools s' = t_pools s ∧ next_pid s' = next_pid s + 1 ∧ main_thread s' = main
    ∧ static n qs' rest.
Proof.
  intros Hb Hrest. destruct (thread_lists s main qs rest g Hb) as (n & HK & [Hh Hdom] & Hst).
  destruct (bo_main _ _ _ _ _ Hb) as (Hal & [Hmr Hmp]). pose proof (bo_esp _ _ _ _ _ Hb) as Hesp.
  set (qs3 := <[pid_wait := []]> _) in *. unfold KBASE, KTOP in Hmr. unfold stack_ok in Hesp.
  destruct (static_cons _ _ _ _ (bo_static _ _ _ _ _ Hb)) as [Hs1 Ha1].
  destruct (static_cons _ _ _ _ Hs1) as [_ Ha2].
  assert (thread_ready_list ≠ thread_all_list ∧ pid_wait ≠ thread_all_list
    ∧ pid_wait ≠ thread_ready_list) as (Hn1 & Hn2 & Hn3).
  { pose proof (Ha1 thread_ready_list ltac:(left)). pose proof (Ha1 pid_wait ltac:(right; left)).
    pose proof (Ha2 pid_wait ltac:(left)). unfold apart in *. lia. }
  assert (Hfr : ∀ x, 0 ≤ x < 4096 → n !! (main + x) = None).
  { intros x Hx. apply eq_None_not_Some. rewrite Hdom. rewrite (bo_fresh _ _ _ _ _ Hb) by done.
    by intros [? ?]. }
  assert (Hg : n !! general_tag main = None) by (apply Hfr; lia).
  assert (Ha : n !! all_list_tag main = None) by (apply Hfr; lia).
  assert (Hal3 : qs3 !! thread_all_list = Some [])
    by (unfold qs3; by rewrite !lookup_insert_ne, lookup_insert_eq by done).
  assert (Hrd3 : qs3 !! thread_ready_list = Some [])
    by (unfold qs3; by rewrite lookup_insert_ne, lookup_insert_eq by done).
  assert (Hpw3 : qs3 !! pid_wait = Some []) by (unfold qs3; by rewrite lookup_insert_eq).
  pose proof (with_tags_lists n qs3 main Hh Hg Ha) as Hht.
  set (K3 := put_lock _ _ _) in HK.
  assert (Hrun : running_thread K3 = main) by (apply running_thread_eq; simpl; lia).
  destruct (append_new_holds (new_task K3 main (main_task main (next_pid s + 1))) qs3 thread_all_list []
    (all_list_tag main) "make_main_thread") as (n5 & Happ & [Hh5 Hd5]); auto.
  { apply (detached_fresh n); auto; [unfold addr_ok, all_list_tag; lia|].
    apply lookup_insert_is_Some'. right. rewrite lookup_insert_eq. by eexists. }
  simpl app in Hh5. simpl k_nodes in Hd5, Happ. simpl k_eflags in Happ.
  set (K5 := set_lists _ _) in Happ.
  exists (TState K5 (t_pools s) (next_pid s + 1) main), n5. cbv zeta. split_and!; try done.
  - eapply runs_bind with (s1 := TState K3 (t_pools s) (next_pid s) main); [| | |apply runs_nil].
    + simpl. unfold thread_init.
      apply bind_ok_inv in HK as (K1 & -> & HK). rb. apply bind_ok_inv in HK as (K2 & -> & HK). rb.
      rewrite HK. rb. cbv zeta. rewrite Hrun. reflexivity.
    + simpl. rewrite Hrun. symmetry. apply running_thread_eq; lia.
    + eapply (runs_app _ _ _ [_] _ [_]).
      * eapply (init_thread_runs (TState K3 (t_pools s) (next_pid s) main) main "main" 31);
          simpl; try done; try lia.
        -- rewrite kspace_translate by (apply (bo_mem _ _ _ _ _ Hb) || done). by rewrite Hmp.
        -- rewrite Hrun. unfold NULL. lia.
        -- by rewrite lookup_insert_eq.
        -- by rewrite lookup_insert_eq.
        -- by apply (list_empty_holds _ _ qs3 _ []).
      * simpl. pose proof (bo_pid _ _ _ _ _ Hb) as Hpid. rewrite Z.eqb_refl. eapply runs_one; [|done].
        simpl. unfold main_queue. simpl. rewrite u16_small by lia. fold (main_task main (next_pid s + 1)). by rewrite Happ.
  - assert (Hdn : ∀ x, is_Some (n5 !! x) → kmapped (k_mach (t_ker s)) x).
    { intros x Hx%Hd5. unfold with_tags in Hx. rewrite !lookup_insert_is_Some' in Hx.
      assert (Hin : ∀ o, 0 ≤ o < 4096 → kmapped (k_mach (t_ker s)) (main + o)).
      { intros o Ho. split; [unfold KBASE, KTOP; zdm|].
        replace (kpage (main + o)) with (kpage main) by (unfold kpage, KBASE; zdm). done. }
      destruct Hx as [<-|[<-|Hx]]; [apply Hin; lia..|]. by apply (bo_nodes _ _ _ _ _ Hb), Hdom. }
    split; simpl; try done.
    + apply (sched_first K5 main (next_pid s + 1) qs3 n); auto; simpl; try lia; try (by eexists).
      * intros p l. unfold qs3. rewrite !lookup_insert. repeat case_decide; try congruence.
        apply (bo_empty _ _ _ _ _ Hb).
      * rewrite (bo_tasks _ _ _ _ _ Hb). apply insert_empty.
      * apply (bo_mem _ _ _ _ _ Hb).
      * apply (bo_kdir _ _ _ _ _ Hb).
    + apply (bo_mem _ _ _ _ _ Hb).
    + apply (bo_kdir _ _ _ _ _ Hb).
    + by rewrite lookup_insert_eq.
    + by rewrite lookup_insert_eq.
    + by rewrite lookup_insert_ne.
    + intros t. rewrite (bo_tasks _ _ _ _ _ Hb), lookup_insert_is_Some'.
      intros [<-|[? ?]]; [done|]. by rewrite lookup_empty in *.
    + by rewrite lookup_insert_eq.
    + intros t. rewrite list_elem_of_singleton, (bo_tasks _ _ _ _ _ Hb), lookup_insert_is_Some',
        lookup_empty. split; [intros ->; by left|]. intros [<-|[? ?]]; done.
    + by left.
    + intros t T. rewrite (bo_tasks _ _ _ _ _ Hb). rewrite lookup_insert. case_decide; [|done].
      intros [= <-]. pose proof (bo_pid _ _ _ _ _ Hb). simpl. lia.
    + intros t t' T T'. rewrite (bo_tasks _ _ _ _ _ Hb), !lookup_insert.
      repeat case_decide; congruence || done.
  - simpl. apply (static_relinked (with_tags n main) n5 qs3 rest thread_all_list []); auto.
    apply (static_more n); [done|]. intros y. apply with_tags_some.
Qed.
End init.
