(* ===== verification/UserMem.v ===== *)
(** kernel/memory.c: the allocators that take a pool's lock, [get_user_pages]
    and [get_a_page], as program points around the lock. *)
From S2P Require Import Prelude ByteMem CString Bitmap Paging Memory PageTable Interrupt DList Sched.
From S2P Require Import Sync Uncontended Process Spaces Thread ThreadProps.

(** * Data *)

(** Addresses of the locks in [kernel_pool] and [user_pool]. *)
Class PoolLocks := { kernel_pool_lock : Z; user_pool_lock : Z }.

(** The threads and the register in which functions return. *)
Record ustate := UState { u_threads : tstate; u_eax : Z }.

Definition u_ker (s : ustate) : kernel := t_ker (u_threads s).
Definition set_uker (s : ustate) (K : kernel) : ustate :=
  UState (set_ker (u_threads s) K) (u_eax s).

Inductive upoint :=
| InThread (f : tpoint)
| GetUserPages (pg_cnt : Z)
| UserPages (pg_cnt : Z)                       (* ... with the lock *)
| GetAPage (pf : pool_flags) (vaddr : Z)
| APage (pf : pool_flags) (vaddr : Z)          (* ... with the lock *)
| Return (eax : Z).

(** * Operations *)

Section user.
Context `{Symbols, ThreadSyms, PoolLocks}.

Definition pool_lock (pf : pool_flags) : Z :=
  match pf with PF_KERNEL => kernel_pool_lock | PF_USER => user_pool_lock end.

Definition in_sync (f : point) : upoint := InThread (OfSync f).

Definition get_user_pages (s : ustate) (pg_cnt : Z) : res (ustate * list upoint) :=
  Ok (s, [in_sync (LockAcquire user_pool_lock); UserPages pg_cnt]).

Definition user_pages (s : ustate) (pg_cnt : Z) : res (ustate * list upoint) :=
  let K := u_ker s in
  '(vaddr, M) ← malloc_page (t_pools (u_threads s)) (cur_vaddr K) (k_mach K) PF_USER pg_cnt;
  M ← (if negb (vaddr =? NULL) then memset M vaddr 0 (u32 (pg_cnt * PG_SIZE)) else Ok M);
  Ok (set_uker s (set_mach K M), [in_sync (LockRelease user_pool_lock); Return vaddr]).

Definition get_a_page (s : ustate) (pf : pool_flags) (vaddr : Z) : res (ustate * list upoint) :=
  Ok (s, [in_sync (LockAcquire (pool_lock pf)); APage pf vaddr]).

(** [bit_idx = (vaddr - start) / PG_SIZE; ASSERT(bit_idx > 0); bitmap_set(...)],
    on the unsigned difference. *)
Definition mark_page (M : machine) (V : virtual_addr) (vaddr : Z) : res machine :=
  let bit_idx := s32 (u32 (vaddr - vaddr_start V) / PG_SIZE) in
  ASSERT (bit_idx >? 0) "get_a_page";;
  bitmap_set M (vaddr_bitmap V) bit_idx 1.

(** The return without a frame keeps the lock. *)
Definition a_page (s : ustate) (pf : pool_flags) (vaddr : Z) : res (ustate * list upoint) :=
  let K := u_ker s in
  let km := t_pools (u_threads s) in
  let mem_pool := match pf with PF_KERNEL => kernel_pool km | PF_USER => user_pool km end in
  C ← get_task K (running_thread K);
  M ← (match pf with
       | PF_USER => if negb (pgdir C =? NULL) then mark_page (k_mach K) (userprog_vaddr C) vaddr
                    else Panic "get_a_page"
       | PF_KERNEL => if pgdir C =? NULL then mark_page (k_mach K) (kernel_vaddr km) vaddr
                      else Panic "get_a_page"
       end);
  '(page_phyaddr, M) ← palloc mem_pool M;
  if page_phyaddr =? NULL then Ok (set_uker s (set_mach K M), [Return NULL]) else
  M ← page_table_add km M vaddr page_phyaddr;
  Ok (set_uker s (set_mach K M), [in_sync (LockRelease (pool_lock pf)); Return vaddr]).

Definition exec_user (s : ustate) (f : upoint) : res (ustate * list upoint) :=
  match f with
  | InThread f => '(t, fs) ← exec_thread (u_threads s) f;
                  Ok (UState t (u_eax s), map InThread fs)
  | GetUserPages n => get_user_pages s n
  | UserPages n => user_pages s n
  | GetAPage pf va => get_a_page s pf va
  | APage pf va => a_page s pf va
  | Return v => Ok (UState (u_threads s) v, [])
  end.

Definition uruns := runs exec_user (λ s, running_thread (u_ker s)).
End user.

(** * Address spaces *)

(** Switching to a process directory with an empty user half keeps the
    allocator's invariant. *)
Lemma mem_inv_switch km M g d :
  mem_inv km M g → pgdir_ok M d → d ≠ NULL →
  (∀ i, 0 ≤ i < 768 → rd32 (pm M) (frame (dir_of M d) + 4 * i) = 0) →
  mem_inv km (Machine (pm M) (dir_of M d)) g.
Proof.
  intros Hi Hd Hnn He. pose proof (pd_space _ _ Hd) as Hk. set (M' := Machine _ _) in *.
  destruct (pd_page _ _ Hd) as [?|(Hr & Ha & Hp)]; [done|].
  assert (Hfu : ∀ f, frame_unused M f → frame_unused M' f).
  { intros f Hf. split.
    - simpl. unfold dir_of. rewrite (proj2 (Z.eqb_neq d NULL)) by done.
      pose proof (rd32_range (pm M) (KTABLES + 4 * kpage d)) as Hrd. fold (kpte M (kpage d)) in Hrd.
      destruct (frame_props _ Hrd) as (? & ? & ? & _).
      rewrite <- (Z.add_0_r (frame (kpte _ _))), frame_flags by lia.
      apply (fu_kernel _ _ Hf); [by apply kpage_range|done].
    - intros i. apply (fu_kernel _ _ Hf).
    - intros i Hi'. unfold dir_entry. simpl. by rewrite He. }
  split; try (by apply Hi); try done.
  - apply kspace_holds; [done|apply Hi|]. intros a v Hv. by apply (mem_inv_read km M g).
  - intros i Hir Hb. by apply Hfu, (mi_kfree _ _ _ Hi).
  - intros i Hir Hb. by apply Hfu, (mi_ufree _ _ _ Hi).
Qed.

(** * Marking a page in the bitmap of a process *)

(** The pages of the bitmap are mapped. *)
Definition bitmap_mapped (km : kmem) (M : machine) (rb : Z) : Prop :=
  ∀ k, 0 ≤ k < 23 → ∃ f, heap_frame km M (heap_addr (rb + k)) f.

(** An address of the range a process can ask for, but its first page. *)
Definition user_page (va : Z) : Prop :=
  USER_VADDR_START + PG_SIZE ≤ va < KBASE ∧ va mod 4096 = 0.

Definition user_bit (va : Z) : Z := (va - USER_VADDR_START) / PG_SIZE.

Lemma mark_user_page km M rb va :
  kspace M → bitmap_mapped km M rb → user_page va →
  ∃ k f o M', 0 ≤ k < 23 ∧ heap_frame km M (heap_addr (rb + k)) f ∧ 0 ≤ o < 4096
    ∧ bits_elt (vaddr_bitmap (user_vaddr rb)) (user_bit va / 8) = heap_addr (rb + k) + o
    ∧ mark_page M (user_vaddr rb) va = Ok M' ∧ page_write M f M'
    ∧ bitmap_scan_test M' (vaddr_bitmap (user_vaddr rb)) (user_bit va) ≠ Ok 0.
Proof.
  intros Hk Hb [Hr Ha]. unfold USER_VADDR_START, PG_SIZE, KBASE in Hr.
  set (i := user_bit va). assert (Hi : 1 ≤ i < 753592) by (unfold i, user_bit, USER_VADDR_START, PG_SIZE; zdm).
  destruct (Hb (i / 8 / 4096)) as [f Hf]; [zdm|]. pose proof (hf_page _ _ _ _ Hf) as (H1 & H2 & _).
  assert (Helt : bits_elt (vaddr_bitmap (user_vaddr rb)) (i / 8)
    = heap_addr (rb + i / 8 / 4096) + i / 8 mod 4096).
  { unfold bits_elt, user_vaddr. simpl. unfold heap_addr, K_HEAP_START, KBASE, KTOP in *.
    rewrite u32_small by zdm. zdm. }
  pose proof (Z.mod_pos_bound (i / 8) 4096 ltac:(lia)) as Ho.
  pose proof (Z.mod_pos_bound i 8 ltac:(lia)) as Hodd.
  set (pa := f + i / 8 mod 4096). set (v := rd8 (pm M) pa).
  assert (Hv : 0 ≤ v < 256) by apply rd8_range.
  destruct (set_byte v (i mod 8)) as [Es Hs]; [done..|].
  set (M' := Machine (<[pa := Z.setbit v (i mod 8)]> (pm M)) (cr3 M)).
  assert (Htr : translate M (bits_elt (vaddr_bitmap (user_vaddr rb)) (i / 8)) = Some pa).
  { rewrite Helt. by apply (heap_frame_translate km). }
  assert (Hw : page_write M f M').
  { split; [done|]. intros x Hx. apply rd8_insert_ne. unfold pa. lia. }
  exists (i / 8 / 4096), f, (i / 8 mod 4096), M'. split_and!; [zdm|zdm|done|lia|lia|done| |done|].
  - unfold mark_page. change (vaddr_start (user_vaddr rb)) with USER_VADDR_START.
    assert (s32 (u32 (va - USER_VADDR_START) / PG_SIZE) = i) as ->.
    { unfold i, user_bit, USER_VADDR_START, PG_SIZE. rewrite u32_small, s32_small by zdm. done. }
    rewrite assert_true by lia. rb. unfold bitmap_set. rewrite assert_true by done. rb.
    assert (load8 M (bits_elt (vaddr_bitmap (user_vaddr rb)) (i / 8)) = Ok v) as ->
      by (cbn [load8 paged_mem]; by rewrite Htr).
    rb. simpl negb. cbv iota. unfold BITMAP_MASK. rewrite Es.
    cbn [store8 paged_mem]. by rewrite Htr.
  - unfold bitmap_scan_test, BITMAP_MASK. cbn [load8 paged_mem]. rewrite Helt.
    rewrite (heap_frame_translate km M' _ f);
      [|apply (kspace_same_tables M); [done|]; by apply (page_write_tables km M M' _ f Hf)
       |by apply (page_write_frame km M M' _ f Hf)|done].
    rb. fold pa. simpl. rewrite rd8_insert_eq by done. intros [= E].
    pose proof (mask_zero (Z.setbit v (i mod 8)) (i mod 8) ltac:(lia)) as Hz.
    rewrite E, Z.setbit_eq in Hz by lia. done.
Qed.

(** * A user frame *)

Lemma mem_inv_user_bit km M g i M1 :
  mem_inv km M g → 0 ≤ i < nbits (ubm km) → framed M g M1 (set_bit g (ubm km) i true) →
  mem_inv km M1 (set_bit g (ubm km) i true) ∧ same_high M M1
  ∧ free_count (set_bit g (ubm km) i true) (kbm km) = free_count g (kbm km).
Proof.
  intros Hi Hr Hf.
  pose proof (framed_same_high _ _ _ _ (mi_space _ _ _ Hi) (mi_low _ _ _ Hi) Hf) as Hh.
  pose proof (mi_sep_ku _ _ _ Hi). pose proof (mi_sep_uv _ _ _ Hi).
  assert (Hoth : ∀ b k, b = kbm km ∧ k < nbits b ∨ b = vbm km → 0 ≤ k →
    bit (set_bit g (ubm km) i true) b k = bit g b k).
  { intros b k Hb Hk. apply bit_set_bit_other. unfold nbits in *. destruct Hb as [[-> Hn]| ->]; zdm. }
  assert (Hun : ∀ f, frame_unused M f → frame_unused M1 f).
  { intros f. apply frame_unused_same, same_high_tables; [apply Hi|done]. }
  split_and!; auto.
  - split; try by apply Hi.
    + by apply (kspace_same_high M); [apply Hi|].
    + eapply low_map_framed; [apply Hi|done].
    + apply Hf.
    + apply bm_wf_set_bit, Hi.
    + apply bm_wf_set_bit, Hi.
    + apply bm_wf_set_bit, Hi.
    + intros j Hj. rewrite Hoth by (lia || by right).
      rewrite (kpte_same_high M M1) by (done || lia). by apply (mi_unmapped _ _ _ Hi).
    + intros j Hj. rewrite Hoth by (first [lia|left; split; [done|lia]]).
      intros. by apply Hun, (mi_kfree _ _ _ Hi).
    + intros j Hj. destruct (decide (j = i)) as [->|].
      * by rewrite bit_set_bit, decide_True by (done || lia).
      * rewrite bit_set_bit, decide_False by lia. intros. by apply Hun, (mi_ufree _ _ _ Hi).
  - apply free_count_same. intros k Hk. apply Hoth; [left; split; [done|lia]|lia].
Qed.

(** * [get_a_page] in a process *)

(** A process that has no page of its own yet: [M] runs on its directory,
    [rb] is where its bitmap is. *)
Record bare_process (km : kmem) (M : machine) (g : gmap Z Z) (rb : Z) : Prop := {
  bp_inv : mem_inv km M g;
  bp_empty i : 0 ≤ i < 768 → dir_entry M i = 0;
  bp_bitmap : bitmap_mapped km M rb;
}.

(** The page [va] was given the frame [p] of the user pool. *)
Record page_given (km : kmem) (M : machine) (g : gmap Z Z) (rb va p : Z) (M' : machine)
    (g' : gmap Z Z) : Prop := {
  pg_inv : mem_inv km M' g';
  pg_cr3 : cr3 M' = cr3 M;
  pg_frame : ∃ i, 0 ≤ i < nbits (ubm km) ∧ p = pool_frame (user_pool km) i
    ∧ bit g (ubm km) i = false ∧ bit g' (ubm km) i = true;
  pg_page x : 0 ≤ x < KBASE →
    translate M' x = if decide (x / 4096 = va / 4096) then Some (p + x mod 4096) else None;
  pg_kernel i : 0 ≤ i < 255 * 1024 → kpte M' i = kpte M i;
  (* the one page table, in a frame of its own *)
  pg_table : ∃ q, 0x200000 ≤ q ∧ q + 4096 ≤ 2 ^ 32 ∧ q mod 4096 = 0
    ∧ (∀ i, 0 ≤ i < 768 → dir_entry M' i = if decide (i = va / 2 ^ 22) then q + 7 else 0)
    ∧ ∀ e p0, heap_frame km M e p0 → p0 ≠ q;
  pg_marked : bitmap_scan_test M' (vaddr_bitmap (user_vaddr rb)) (user_bit va) ≠ Ok 0;
  (* other kernel data stays *)
  pg_data e q x : heap_frame km M e q →
    (∀ k fb, 0 ≤ k < 23 → heap_frame km M (heap_addr (rb + k)) fb → fb ≠ q) →
    q ≤ x < q + 4096 → rd8 (pm M') x = rd8 (pm M) x;
}.

#[local] Instance same_tables_sym : Symmetric same_tables.
Proof. intros M M' [Hc Hx]. split; [done|]. rewrite Hc. intros x Hin. symmetry. by apply Hx. Qed.

Lemma dir_entries_same M M' :
  same_tables M M' → (∀ i, 0 ≤ i < 768 → dir_entry M i = 0) → ∀ i, 0 ≤ i < 768 → dir_entry M' i = 0.
Proof. intros Hs He i Hi. rewrite (dir_entry_same_tables M M') by (done || lia). by apply He. Qed.

(** From the marked bitmap to the mapped page. *)
Lemma a_page_maps km M g va :
  mem_inv km M g → (∀ i, 0 ≤ i < 768 → dir_entry M i = 0) → user_page va →
  (0 < free_count g (ubm km))%nat → (0 < free_count g (kbm km))%nat →
  ∃ i q p M2 M' g', (('(page_phyaddr, M) ← palloc (user_pool km) M;
       M ← page_table_add km M va page_phyaddr; Ok (page_phyaddr, M)) = Ok (p, M'))
    ∧ palloc (user_pool km) M = Ok (p, M2) ∧ page_table_add km M2 va p = Ok M' ∧ 0x200000 ≤ p
    ∧ 0 ≤ i < nbits (ubm km) ∧ p = pool_frame (user_pool km) i
    ∧ bit g (ubm km) i = false ∧ bit g' (ubm km) i = true
    ∧ mem_inv km M' g' ∧ cr3 M' = cr3 M ∧ q mod 4096 = 0 ∧ frame_unused M q
    ∧ 0x200000 ≤ q ∧ q + 4096 ≤ 2 ^ 32
    ∧ (∀ j, 0 ≤ j < 768 → dir_entry M' j = if decide (j = va / 2 ^ 22) then q + 7 else 0)
    ∧ (∀ x, 0 ≤ x < KBASE →
         translate M' x = if decide (x / 4096 = va / 4096) then Some (p + x mod 4096) else None)
    ∧ (∀ j, 0 ≤ j < 255 * 1024 → kpte M' j = kpte M j)
    ∧ ∀ x, 0x200000 ≤ x → ¬ frame (cr3 M) ≤ x < frame (cr3 M) + 4096 → ¬ q ≤ x < q + 4096 →
        rd8 (pm M') x = rd8 (pm M) x.
Proof.
  intros Hi He [Hva Hal] Hcu Hck. destruct (free_count_least _ _ Hcu) as (i & Hir & Hif & Hit).
  destruct (palloc_free M g (user_pool km) i) as (M2 & Hpal & Hf2); auto; try by apply Hi.
  destruct (mem_inv_user_bit km M g i M2 Hi Hir Hf2) as (Hi2 & Hh2 & Hc2).
  set (p := pool_frame (user_pool km) i) in *. set (g2 := set_bit g (ubm km) i true) in *.
  destruct (pool_frame_props _ _ (mi_upool _ _ _ Hi) Hir) as (Hp1 & Hp2 & Hp3).
  unfold USER_VADDR_START, PG_SIZE, KBASE in Hva.
  assert (Hst2 : same_tables M M2) by (by apply same_high_tables; [apply Hi|]).
  assert (He2 : ∀ j, 0 ≤ j < 768 → dir_entry M2 j = 0) by by apply (dir_entries_same M).
  assert (Hpde : present (pde_at M2 va) = false).
  { change (pde_at M2 va) with (dir_entry M2 (va / 2 ^ 22)). rewrite He2 by zdm. done. }
  destruct (page_table_add_fresh km M2 g2 va p) as (k & M3 & M' & Hkr & Hkf & Hadd & Hf3 & Hnt);
    auto; try (unfold KBASE; lia).
  pose proof (framed_same_high _ _ _ _ (mi_space _ _ _ Hi2) (mi_low _ _ _ Hi2) Hf3) as Hh3.
  pose proof (kspace_same_high _ _ (mi_space _ _ _ Hi2) Hh3) as Hk3.
  assert (Hst3 : same_tables M2 M3) by (by apply same_high_tables; [apply Hi2|]).
  set (q := pool_frame (kernel_pool km) k) in *.
  destruct (pool_frame_props _ _ (mi_kpool _ _ _ Hi) Hkr) as (Hq1 & Hq2 & Hq3). fold q in Hq1, Hq2, Hq3.
  pose proof (mi_kfree _ _ _ Hi2 k Hkr Hkf) as Hu2. fold q in Hu2.
  assert (Hu3 : frame_unused M3 q) by by apply (frame_unused_same M2).
  assert (Hidx : 0 ≤ va / 2 ^ 22 < 768) by zdm.
  exists i, q, p, M2, M', (set_bit g2 (kbm km) k true).
  split_and!; try done; try lia.
  - rewrite Hpal. rb. rewrite Hadd. by rb.
  - rewrite (set_kb_other km M2 g2 k (ubm km) i Hi2 Hkr) by (lia || by left).
    unfold g2. rewrite bit_set_bit, decide_True by (done || lia). done.
  - by apply (new_table_inv km M2 g2 k M3 (va / 2 ^ 22) (va / 2 ^ 12 mod 2 ^ 10) p M').
  - rewrite (nt_cr3 _ _ _ _ _ _ Hnt), (proj1 Hh3), (proj1 Hh2). done.
  - apply (frame_unused_same M2); [|done]. by apply same_tables_sym.
  - intros j Hj. destruct (decide (j = va / 2 ^ 22)) as [->|].
    + apply (nt_pde _ _ _ _ _ _ Hnt).
    + rewrite (nt_dir _ _ _ _ _ _ Hnt) by lia. by apply (dir_entries_same M2 M3 Hst3 He2).
  - intros x Hx. unfold KBASE in Hx. destruct (decide (x / 2 ^ 22 = va / 2 ^ 22)) as [E|E].
    + rewrite (new_table_translate_in M3 (va / 2 ^ 22) (va / 2 ^ 12 mod 2 ^ 10) q p M'); auto; try lia.
      repeat case_decide; try done; zdm.
    + rewrite decide_False by zdm.
      rewrite (new_table_translate_out M3 (va / 2 ^ 22) (va / 2 ^ 12 mod 2 ^ 10) q p M');
        auto; [|apply Hu3|unfold KTOP; lia].
      unfold translate. change (pde_at M3 x) with (dir_entry M3 (x / 2 ^ 22)).
      by rewrite (dir_entries_same M2 M3 Hst3 He2) by zdm.
  - intros j Hj. rewrite (new_table_kpte M3 (va / 2 ^ 22) (va / 2 ^ 12 mod 2 ^ 10) q p M');
      auto; try lia; [|apply Hu3].
    rewrite (kpte_same_high M2 M3), (kpte_same_high M M2) by (done || lia). done.
  - intros x Hx Hd Hq. rewrite (nt_mem _ _ _ _ _ _ Hnt); [| |done].
    + rewrite (proj2 Hh3), (proj2 Hh2) by lia. done.
    + rewrite (proj1 Hh3), (proj1 Hh2). done.
Qed.

(** Kernel data can change without the page being lost. *)
Lemma page_given_write km M g rb va p M' g' e q0 M'' x :
  page_given km M g rb va p M' g' → heap_frame km M e q0 → page_write M' q0 M'' →
  0 ≤ x < KBASE → translate M'' x = translate M' x.
Proof.
  intros Hg Hf Hw Hx. unfold KBASE in Hx.
  destruct (pg_table _ _ _ _ _ _ _ _ Hg) as (q & Hq1 & Hq2 & Hqa & Hdir & Hne).
  pose proof (hf_range _ _ _ _ Hf) as (H1 & H2 & H3). pose proof (hf_dir _ _ _ _ Hf) as Hd.
  rewrite <- (pg_cr3 _ _ _ _ _ _ _ _ Hg) in Hd. specialize (Hne e q0 Hf).
  assert (Ed : pde_at M'' x = pde_at M' x).
  { unfold pde_at, pde_addr. rewrite (pw_cr3 _ _ _ Hw). apply rd32_same. intros y Hy.
    apply (pw_out _ _ _ Hw). zdm. }
  unfold translate. rewrite Ed. destruct (present (pde_at M' x)) eqn:Hp; [|done].
  assert (pde_at M' x = q + 7) as Eq.
  { change (pde_at M' x) with (dir_entry M' (x / 2 ^ 22)) in *. rewrite Hdir in Hp |- * by zdm.
    by case_decide. }
  assert (pte_at M'' x = pte_at M' x) as ->; [|done].
  unfold pte_at, pte_addr. rewrite Ed, Eq. destruct (entry_props q) as (_ & _ & ->); [lia..|done|].
  apply rd32_same. intros y Hy. apply (pw_out _ _ _ Hw). zdm.
Qed.

Lemma heap_load_same km M M' d f o :
  kspace M → kspace M' → heap_frame km M d f → heap_frame km M' d f → 0 ≤ o < 4096 →
  (∀ x, f ≤ x < f + 4096 → rd8 (pm M') x = rd8 (pm M) x) → load8 M' (d + o) = load8 M (d + o).
Proof.
  intros Hk Hk' Hf Hf' Ho Hx. cbn [load8 paged_mem].
  rewrite (heap_frame_translate km M d f), (heap_frame_translate km M' d f) by done.
  by rewrite Hx by lia.
Qed.

Lemma a_page_process km M g rb va :
  bare_process km M g rb → user_page va →
  (0 < free_count g (ubm km))%nat → (0 < free_count g (kbm km))%nat →
  ∃ p M1 M2 M' g', mark_page M (user_vaddr rb) va = Ok M1 ∧ palloc (user_pool km) M1 = Ok (p, M2)
    ∧ p ≠ NULL ∧ page_table_add km M2 va p = Ok M' ∧ page_given km M g rb va p M' g'.
Proof.
  intros [Hi He Hb] Hva Hcu Hck. pose proof (mi_space _ _ _ Hi) as Hk.
  destruct (mark_user_page km M rb va Hk Hb Hva) as (k & fb & o & M1 & Hkr & Hfb & Ho & Helt & Hm & Hw & Hbit).
  pose proof (page_write_tables km M M1 _ fb Hfb Hw) as Hst.
  pose proof (page_write_inv km M M1 _ fb Hfb Hw g Hi) as Hi1.
  pose proof (page_write_frame km M M1 _ fb Hfb Hw) as Hfr1.
  destruct (a_page_maps km M1 g va Hi1 (dir_entries_same M M1 Hst He) Hva Hcu Hck)
    as (i & q & p & M2 & M' & g' & _ & Hpal & Hadd & Hp2 & Hir & Ep & Hb0 & Hb1 & Hi' & Hcr & Hqa & Hu & Hq1 & Hq2 & Hdir & Hpg & Hkp & Hx).
  assert (Hc1 : cr3 M1 = cr3 M) by apply Hw.
  assert (Hq : ∀ e q0 x, heap_frame km M1 e q0 → q0 ≤ x < q0 + 4096 → rd8 (pm M') x = rd8 (pm M1) x).
  { intros e q0 x Hf Hin. destruct (hf_range _ _ _ _ Hf) as (H1 & H2 & H3).
    apply Hx; [lia| |].
    - pose proof (hf_dir _ _ _ _ Hf). lia.
    - intros Hin'. assert (q0 ≠ q) by (intros E; rewrite E in Hf; by eapply heap_frame_unused). zdm. }
  exists p, M1, M2, M', g'. split_and!; auto; [unfold NULL; lia|]. split; auto.
  - congruence.
  - by exists i.
  - intros j Hj. rewrite Hkp by done. by apply kpte_same_tables.
  - exists q. split_and!; auto. intros e p0 Hp0 ->. by apply (heap_frame_unused km M1 e q); auto.
  - assert (Hf' : heap_frame km M' (heap_addr (rb + k)) fb).
    { destruct (Hfr1 _ _ Hfb) as [Hpg' Hpte Hr Hd]. split; [done| |done|by rewrite Hcr].
      rewrite Hkp; [done|]. apply kpage_range. lia. }
    unfold bitmap_scan_test in Hbit |- *. rewrite Helt in Hbit |- *.
    rewrite (heap_load_same km M1 M' _ fb); auto; [apply Hi1|apply Hi'|].
    intros x Hin. apply (Hq (heap_addr (rb + k)) fb); auto.
  - intros e q0 x Hf Hne Hin. rewrite (Hq e q0) by auto. apply (pw_out _ _ _ Hw).
    assert (fb ≠ q0) by by apply (Hne k). destruct (hf_range _ _ _ _ Hf) as (_ & _ & Ha1).
    destruct (hf_range _ _ _ _ Hfb) as (_ & _ & Ha2). zdm.
Qed.

(** * The whole call *)

Section calls.
Context `{Symbols, ThreadSyms, PoolLocks}.

Lemma uruns_sync s K fs K' :
  runs exec running_thread K fs K' → uruns (set_uker s K) (map in_sync fs) (set_uker s K').
Proof.
  apply (runs_lift exec running_thread); [|done]. intros K0 f K1 fs0 He. simpl.
  rewrite He. rb. by rewrite map_map.
Qed.

(** A pool's lock around a step that changes the machine only. *)
Lemma uruns_bracket s p f M' v :
  lock_free (u_ker s) p → running_thread (u_ker s) ≠ NULL →
  exec_user (set_uker s (locked (u_ker s) p)) f
    = Ok (set_uker s (set_mach (locked (u_ker s) p) M'), [in_sync (LockRelease p); Return v]) →
  uruns s [in_sync (LockAcquire p); f] (UState (set_ker (u_threads s) (set_mach (u_ker s) M')) v).
Proof.
  intros Hl Hn Hf. change [in_sync (LockAcquire p); f] with (map in_sync [LockAcquire p] ++ [f]).
  eapply runs_app.
  { replace s with (set_uker s (u_ker s)) at 1 by (by destruct s as [[] ?]).
    apply uruns_sync. by apply lock_acquire_free. }
  eapply runs_cons; [exact Hf|done|]. rewrite app_nil_r.
  change [in_sync (LockRelease p); Return v] with (map in_sync [LockRelease p] ++ [Return v]).
  eapply runs_app.
  { apply uruns_sync. apply (lock_release_free (u_ker s)); [done|done|].
    split_and!; try done. apply (lf_empty _ _ Hl). }
  apply runs_one; [by destruct s as [[[] ? ? ?] ?]|done].
Qed.

(** [get_a_page] for a process returns with the page mapped and the lock free
    again. *)
Lemma get_a_page_runs s T g rb va :
  let K := u_ker s in let km := t_pools (u_threads s) in
  lock_free K user_pool_lock → running_thread K ≠ NULL →
  k_tasks K !! running_thread K = Some T → pgdir T ≠ NULL → userprog_vaddr T = user_vaddr rb →
  bare_process km (k_mach K) g rb → user_page va →
  (0 < free_count g (ubm km))%nat → (0 < free_count g (kbm km))%nat →
  ∃ p M' g', uruns s [GetAPage PF_USER va]
      (UState (set_ker (u_threads s) (set_mach K M')) va)
    ∧ page_given km (k_mach K) g rb va p M' g'.
Proof.
  intros K km Hl Hn HT Hd Hv Hb Hva Hu Hk.
  destruct (a_page_process km (k_mach K) g rb va Hb Hva Hu Hk)
    as (p & M1 & M2 & M' & g' & Hm & Hp & Hp0 & Ha & Hg).
  exists p, M', g'. split; [|done]. eapply runs_cons; [done|done|]. rewrite app_nil_r.
  apply uruns_bracket; [done|done|]. change (pool_lock PF_USER) with user_pool_lock.
  unfold exec_user, a_page.
  change (u_ker (set_uker s (locked (u_ker s) user_pool_lock))) with (locked K user_pool_lock).
  change (running_thread (locked K user_pool_lock)) with (running_thread K).
  change (get_task (locked K user_pool_lock)) with (get_task K).
  assert (get_task K (running_thread K) = Ok T) as -> by (unfold get_task; by rewrite HT).
  rb. rewrite (proj2 (Z.eqb_neq _ _) Hd). simpl negb. cbv iota zeta. rewrite Hv.
  change (t_pools (u_threads (set_uker s _))) with km. change (k_mach (locked K _)) with (k_mach K).
  rewrite Hm. rb. rewrite Hp. rb. rewrite (proj2 (Z.eqb_neq _ _) Hp0), Ha. by rb.
Qed.

End calls.
