(* ===== verification/IntrStack.v ===== *)
(** kernel/kernel.S and [struct intr_stack] of thread/thread.h: how an
    interrupt, a system call and the first run of a process move the registers
    to the kernel stack and back, and userprog/syscall-init.c with
    lib/user/syscall.c, which use it. *)
From S2P Require Import Prelude ByteMem Bitmap Paging Memory Interrupt DList Sched Tss Process Spaces.
From S2P Require Import MemProps MemSize Loader LoaderProps Thread ThreadProps.

(** * Data *)

(** The registers of an interrupted program. *)
Record context := Ctx {
  x_edi : Z; x_esi : Z; x_ebp : Z; x_ebx : Z; x_edx : Z; x_ecx : Z; x_eax : Z;
  x_gs : Z; x_fs : Z; x_es : Z; x_ds : Z;
  x_eip : Z; x_cs : Z; x_eflags : Z; x_esp : Z; x_ss : Z;
}.

(** Offsets of [struct intr_stack]. *)
Definition intr_stack : list string :=
  ["vec_no"; "edi"; "esi"; "ebp"; "esp_dummy"; "ebx"; "edx"; "ecx"; "eax"; "gs"; "fs"; "es"; "ds";
   "err_code"; "eip"; "cs"; "eflags"; "esp"; "ss"].
Definition field (f : string) : Z :=
  match list_find (λ g, g = f) intr_stack with Some (i, _) => 4 * Z.of_nat i | None => 0 end.

(** The level in the low bits of a code selector. *)
Definition level (cs : Z) : Z := Z.land cs 3.

(** * Operations *)

(** [push] and [pop], in the order in which the code has them. *)
Fixpoint pushes (M : machine) (esp : Z) (ws : list Z) : res (machine * Z) :=
  match ws with
  | [] => Ok (M, esp)
  | w :: r => M ← store32 M (esp - 4) w; pushes M (esp - 4) r
  end.

Fixpoint pops (M : machine) (esp : Z) (n : nat) : res (list Z * Z) :=
  match n with
  | O => Ok ([], esp)
  | S n => w ← load32 M esp; '(ws, esp) ← pops M (esp + 4) n; Ok (w :: ws, esp)
  end.

(** [add esp, 4; popad; pop gs; ...; add esp, 4; iretd].  [iretd] takes a stack
    pointer from the frame when it returns to another level. *)
Definition intr_exit (M : machine) (esp : Z) : res context :=
  '(regs, esp) ← pops M (esp + 4) 8;
  '(segs, esp) ← pops M esp 4;
  '(ret, esp) ← pops M (esp + 4) 3;
  match regs, segs, ret with
  | [edi; esi; ebp; _; ebx; edx; ecx; eax], [gs; fs; es; ds], [eip; cs; eflags] =>
      if level cs =? 0
      then Ok (Ctx edi esi ebp ebx edx ecx eax gs fs es ds eip cs eflags esp SELECTOR_K_STACK)
      else
        '(stk, _) ← pops M esp 2;
        match stk with
        | [esp; ss] => Ok (Ctx edi esi ebp ebx edx ecx eax gs fs es ds eip cs eflags esp ss)
        | _ => Fault
        end
  | _, _, _ => Fault
  end.

(** What the processor pushes first when an interrupt arrives: from user level it
    takes the stack from the task state segment. *)
Definition cpu_enter (M : machine) (esp0 : Z) (c : context) : res (machine * Z) :=
  if level (x_cs c) =? 0
  then pushes M (x_esp c) [x_eflags c; x_cs c; x_eip c]
  else pushes M esp0 [x_ss c; x_esp c; x_eflags c; x_cs c; x_eip c].

(** [push ds; push es; push fs; push gs; pushad] *)
Definition save_regs (M : machine) (esp : Z) (c : context) : res (machine * Z) :=
  '(M, esp) ← pushes M esp [x_ds c; x_es c; x_fs c; x_gs c];
  pushes M esp [x_eax c; x_ecx c; x_edx c; x_ebx c; esp; x_ebp c; x_esi c; x_edi c].

(** The second argument of the macro [VECTOR]: push a zero in place of an error
    code, or do nothing because the processor has pushed one. *)
Inductive entry_code := ZERO | ERROR_CODE.

(** The macro up to the call of the handler, for an interrupt [vec] with the
    error code [err], if any: the memory, the stack pointer and the writes that
    end the interrupt at the controllers. *)
Definition VECTOR (code : entry_code) (M : machine) (esp0 : Z) (c : context) (vec : Z) (err : option Z)
    : res (machine * Z * list (Z * Z)) :=
  '(M, esp) ← cpu_enter M esp0 c;
  '(M, esp) ← pushes M esp (option_list err);
  '(M, esp) ← pushes M esp (match code with ZERO => [0] | ERROR_CODE => [] end);
  '(M, esp) ← save_regs M esp c;
  '(M, esp) ← pushes M esp [vec];
  Ok (M, esp, [(0xa0, 0x20); (0x20, 0x20)]).

(** The entry points, vectors 0x00 to 0x2f. *)
Definition vectors : list entry_code :=
  [ ZERO; ZERO; ZERO; ZERO; ZERO; ZERO; ZERO; ZERO; ZERO; ZERO; ZERO; ZERO; ZERO; ZERO; ZERO; ZERO;
    ZERO; ZERO; ZERO; ZERO; ZERO; ZERO; ZERO; ZERO; ZERO; ZERO; ZERO; ZERO; ZERO; ZERO; ERROR_CODE; ZERO;
    ZERO; ZERO; ZERO; ZERO; ZERO; ZERO; ZERO; ZERO; ZERO; ZERO; ZERO; ZERO; ZERO; ZERO; ZERO; ZERO ].

(** The exceptions for which the processor pushes an error code. *)
Definition has_error (vec : Z) : bool :=
  bool_decide (vec ∈ [0x08; 0x0a; 0x0b; 0x0c; 0x0d; 0x0e; 0x11]).

Definition intr_entry (M : machine) (esp0 : Z) (c : context) (vec err : Z)
    : res (machine * Z * list (Z * Z)) :=
  match vectors !! Z.to_nat vec with
  | Some code => VECTOR code M esp0 c vec (if has_error vec then Some err else None)
  | None => Fault
  end.

(** * Gates *)

(** The processor reads the gate of an interrupt: 8 bytes of the table whose
    operand [lidt] loaded, through the page tables in use. *)
Definition fetch_gate (M : machine) (idtr vec : Z) : res (list Z) :=
  if lidt_limit idtr <? 8 * vec + 7 then Fault
  else read_n (load8 M) (lidt_base idtr + 8 * vec) 8.

(** [struct gate_desc] in memory. *)
Definition gate_bytes (g : gate_desc) : list Z :=
  [u8 (func_offset_low_word g); func_offset_low_word g / 2 ^ 8; u8 (gate_selector g); gate_selector g / 2 ^ 8;
   dcount g; attribute g; u8 (func_offset_higt_word g); func_offset_higt_word g / 2 ^ 8].

Definition gate_of (bs : list Z) : gate_desc :=
  GateDesc (number (take 2 bs)) (number (take 2 (drop 2 bs))) (number (take 1 (drop 4 bs)))
           (number (take 1 (drop 5 bs))) (number (drop 6 bs)).

(** The instruction [int vec] of a program at level [lvl]: where the gate
    leads.  A gate that cannot be read or is not for this level stops it. *)
Definition int_gate (M : machine) (idtr vec lvl : Z) : res Z :=
  bs ← fetch_gate M idtr vec;
  let g := gate_of bs in
  if gate_present g && (gate_type g =? 0xe) && (gate_selector g =? SELECTOR_K_CODE) && (lvl <=? gate_dpl g)
  then Ok (gate_offset g) else Fault.

(** The table [idt] can be read where [idtr] says. *)
Definition idt_visible (M : machine) (idtr : Z) (idt : list gate_desc) : Prop :=
  lidt_limit idtr = 8 * IDT_DESC_CNT - 1
  ∧ ∀ i g k b, idt !! i = Some g → gate_bytes g !! k = Some b →
      load8 M (lidt_base idtr + 8 * Z.of_nat i + Z.of_nat k) = Ok b.

(** * System calls *)

Definition syscall_nr : nat := 32.
Definition SYS_GETPID : Z := 0.

(** Where [sys_getpid] and [syscall_handler] of kernel.S are. *)
Class SysSyms := { sys_getpid_ptr : Z; syscall_handler_ptr : Z }.

Section syscall.
Context `{Symbols, SysSyms}.

Definition sys_getpid (K : kernel) : res Z :=
  T ← get_task K (running_thread K); Ok (pid T).

(** The table, which starts out as zeroes. *)
Definition syscall_table0 : list Z := replicate syscall_nr NULL.
Definition syscall_init (syscall_table : list Z) : list Z :=
  <[Z.to_nat SYS_GETPID := sys_getpid_ptr]> syscall_table.

(** [call [syscall_table + eax*4]]: the functions of the kernel take no
    arguments; a jump anywhere else is lost. *)
Definition call_entry (K : kernel) (syscall_table : list Z) (eax : Z) : res Z :=
  match syscall_table !! Z.to_nat eax with
  | Some p => if negb (p =? NULL) && (p =? sys_getpid_ptr) then sys_getpid K else Fault
  | None => Fault
  end.

(** [int 0x80], through its gate, with [syscall_handler] up to its call: the
    three registers on top of the frame are the arguments of a C function. *)
Definition syscall_enter (K : kernel) (idtr : Z) (c : context) : res (kernel * Z) :=
  eip ← int_gate (k_mach K) idtr 0x80 (level (x_cs c));
  if negb (eip =? syscall_handler_ptr) then Fault else
  '(M, esp) ← cpu_enter (k_mach K) (k_esp0 K) c;
  '(M, esp) ← pushes M esp [0];
  '(M, esp) ← save_regs M esp c;
  '(M, esp) ← pushes M esp [0x80];
  '(M, esp) ← pushes M esp [x_edx c; x_ecx c; x_ebx c];
  Ok (set_mach K M, esp).

Definition syscall_handler (K : kernel) (idtr : Z) (syscall_table : list Z) (c : context)
    : res (kernel * context) :=
  '(K, esp) ← syscall_enter K idtr c;
  eax ← call_entry (set_esp K esp) syscall_table (x_eax c);
  let esp := esp + 12 in
  M ← store32 (k_mach K) (esp + 8 * 4) eax;
  c ← intr_exit M esp;
  Ok (set_mach K M, c).

(** [_syscall0(NUMBER)] and [_syscall3(NUMBER, ARG1, ARG2, ARG3)] in a program
    with the registers [c]; the return address is behind the instruction. *)
Definition syscall0 (K : kernel) (idtr : Z) (syscall_table : list Z) (c : context) (NUMBER : Z)
    : res (kernel * context * Z) :=
  let c := Ctx (x_edi c) (x_esi c) (x_ebp c) (x_ebx c) (x_edx c) (x_ecx c) NUMBER
             (x_gs c) (x_fs c) (x_es c) (x_ds c) (x_eip c) (x_cs c) (x_eflags c) (x_esp c) (x_ss c) in
  '(K, c) ← syscall_handler K idtr syscall_table c;
  Ok (K, c, x_eax c).

Definition args3 (c : context) (NUMBER ARG1 ARG2 ARG3 : Z) : context :=
  Ctx (x_edi c) (x_esi c) (x_ebp c) ARG1 ARG3 ARG2 NUMBER
      (x_gs c) (x_fs c) (x_es c) (x_ds c) (x_eip c) (x_cs c) (x_eflags c) (x_esp c) (x_ss c).

Definition syscall3 (K : kernel) (idtr : Z) (syscall_table : list Z) (c : context) (NUMBER ARG1 ARG2 ARG3 : Z)
    : res (kernel * context * Z) :=
  '(K, c) ← syscall_handler K idtr syscall_table (args3 c NUMBER ARG1 ARG2 ARG3);
  Ok (K, c, x_eax c).

Definition getpid (K : kernel) (idtr : Z) (syscall_table : list Z) (c : context)
    : res (kernel * context * Z) :=
  syscall0 K idtr syscall_table c SYS_GETPID.
End syscall.

(** * Gates *)

Lemma gate_of_bytes attr f :
  0 ≤ attr < 256 → gate_of (gate_bytes (make_idt_desc attr f)) = make_idt_desc attr f.
Proof.
  intros Ha. unfold gate_of, gate_bytes, make_idt_desc. simpl. unfold number. simpl.
  set (x := Z.land _ _). set (y := Z.shiftr _ _). rewrite (u8_small attr) by done.
  f_equal; unfold u8, u16, SELECTOR_K_CODE; zdm.
Qed.

Lemma idtr_parts idt :
  word idt → lidt_limit (idt_operand idt) = 8 * IDT_DESC_CNT - 1
    ∧ 0 ≤ lidt_base (idt_operand idt) < 2 ^ 16.
Proof.
  intros Hi. destruct (idt_operand_base idt Hi) as (-> & -> & _). split; [done|]. apply Z.mod_pos_bound. lia.
Qed.

(** A gate whose first byte is not mapped cannot be read. *)
Lemma fetch_missing M idtr vec :
  translate M (lidt_base idtr + 8 * vec) = None → fetch_gate M idtr vec = Fault.
Proof.
  intros Hno. unfold fetch_gate. destruct (_ <? _); [done|].
  change 8%nat with (S 7). cbn [read_n]. unfold load8 at 1. simpl. by rewrite Hno.
Qed.

(** The gate of system calls. *)
Lemma visible_gate M idtr entries h lvl :
  idt_visible M idtr (idt_desc_init entries h) → word h → 0 ≤ lvl ≤ 3 → int_gate M idtr 0x80 lvl = Ok h.
Proof.
  intros [El Hv] Hh Hl. set (g := make_idt_desc IDT_DESC_ATTR_DPL3 h).
  assert (Hg : idt_desc_init entries h !! 128%nat = Some g)
    by (apply list_lookup_insert_eq; rewrite length_fmap, length_seqZ; unfold IDT_DESC_CNT; lia).
  unfold int_gate, fetch_gate. rewrite El. change (8 * IDT_DESC_CNT - 1 <? 8 * 0x80 + 7) with false. cbv iota.
  change 8%nat with (length (gate_bytes g)). rewrite read_n_bytes.
  2:{ intros k b Hk. rewrite <- (Hv 128%nat g k b Hg Hk). f_equal. }
  rb. unfold g. rewrite gate_of_bytes by done. cbv zeta. fold g.
  change (gate_present g) with true. change (gate_type g =? 0xe) with true.
  change (gate_selector g =? SELECTOR_K_CODE) with true. change (gate_dpl g) with 3.
  rewrite (proj2 (Z.leb_le lvl 3)) by lia. simpl andb. cbv iota. f_equal. by apply make_idt_desc_offset.
Qed.

Lemma level_range cs : 0 ≤ level cs ≤ 3.
Proof. unfold level. change (Z.land cs 3) with (Z.land cs (Z.ones 2)). rewrite Z.land_ones by lia. zdm. Qed.

(** * Words on a stack *)

(** The words [ws] are in the frame [f] from offset [o] on. *)
Definition stack_words (M : machine) (f o : Z) (ws : list Z) : Prop :=
  ∀ i w, ws !! i = Some w → rd32 (pm M) (f + o + 4 * Z.of_nat i) = w.

Lemma stack_words_app M f o ws ws' :
  stack_words M f o (ws ++ ws') ↔
  stack_words M f o ws ∧ stack_words M f (o + 4 * Z.of_nat (length ws)) ws'.
Proof.
  split.
  - intros Hs. split; intros i w Hi.
    + apply Hs. by apply lookup_app_l_Some.
    + rewrite <- (Hs (length ws + i)%nat w); [f_equal; lia|].
      by rewrite lookup_app_r, Nat.add_comm, Nat.add_sub by lia.
  - intros [H1 H2] i w [Hi|[Hge Hi]]%lookup_app_Some; [by apply H1|].
    rewrite <- (H2 _ _ Hi). f_equal. lia.
Qed.

Lemma stack_words_one M f o w : stack_words M f o [w] ↔ rd32 (pm M) (f + o) = w.
Proof.
  split.
  - intros Hs. rewrite <- (Hs 0%nat w eq_refl). f_equal. lia.
  - intros Hw [|i] w' Hi; [|done]. injection Hi as <-. rewrite <- Hw. f_equal. lia.
Qed.

Lemma stack_words_cons M f o w ws :
  rd32 (pm M) (f + o) = w → stack_words M f (o + 4) ws → stack_words M f o (w :: ws).
Proof.
  intros Hw Hs. apply (stack_words_app M f o [w] ws). split; [by apply stack_words_one|done].
Qed.

Lemma stack_words_store M f o ws i v :
  stack_words M f o ws → word v →
  stack_words (Machine (wr32 (pm M) (f + o + 4 * Z.of_nat i) v) (cr3 M)) f o (<[i := v]> ws).
Proof.
  intros Hs Hv j w Hj. simpl pm. destruct (decide (i = j)) as [<-|Hne].
  - apply list_lookup_insert_Some in Hj as [(_ & <- & _)|[]]; [|done]. by apply rd32_wr32_same.
  - rewrite list_lookup_insert_ne in Hj by done. rewrite rd32_wr32_other by lia. by apply Hs.
Qed.

Lemma stack_words_same M M' f o ws :
  (∀ x, f + o ≤ x < f + o + 4 * Z.of_nat (length ws) → rd8 (pm M') x = rd8 (pm M) x) →
  stack_words M f o ws → stack_words M' f o ws.
Proof.
  intros Hx Hs i w Hi. rewrite <- (Hs i w Hi). pose proof (lookup_lt_Some _ _ _ Hi).
  apply rd32_same. intros y Hy. apply Hx. lia.
Qed.

Section stack.
Context (km : kmem) (d f : Z).

Lemma pops_ok M o ws :
  kspace M → heap_frame km M d f → 0 ≤ o → o + 4 * Z.of_nat (length ws) ≤ 4096 →
  stack_words M f o ws → pops M (d + o) (length ws) = Ok (ws, d + o + 4 * Z.of_nat (length ws)).
Proof.
  intros Hk Hf. revert o. induction ws as [|w ws IH]; intros o Ho Hl Hs; simpl pops.
  { simpl. do 2 f_equal. lia. }
  change (w :: ws) with ([w] ++ ws) in Hs. apply stack_words_app in Hs as [Hw Hs].
  apply stack_words_one in Hw. simpl in Hl, Hs.
  unfold load32. rewrite (heap_frame_translate km M d f) by (done || lia). rb. rewrite Hw.
  replace (d + o + 4) with (d + (o + 4)) by lia. rewrite IH by (done || lia). rb.
  simpl. do 2 f_equal. lia.
Qed.

Lemma pushes_ok M o ws :
  kspace M → heap_frame km M d f → 4 * Z.of_nat (length ws) ≤ o → o ≤ 4096 → Forall word ws →
  ∃ M', pushes M (d + o) ws = Ok (M', d + o - 4 * Z.of_nat (length ws))
    ∧ page_write M f M' ∧ stack_words M' f (o - 4 * Z.of_nat (length ws)) (rev ws)
    ∧ ∀ x, f + o ≤ x → rd8 (pm M') x = rd8 (pm M) x.
Proof.
  intros Hk Hf. revert M o Hk Hf. induction ws as [|w ws IH]; intros M o Hk Hf Hl Ho Hw; simpl pushes.
  { exists M. split_and!; [simpl; do 2 f_equal; lia|by apply page_write_refl| |done].
    by intros i w. }
  apply Forall_cons in Hw as [Hw0 Hw]. unfold word in Hw0. simpl in Hl.
  replace (d + o - 4) with (d + (o - 4)) by lia.
  destruct (heap_store km M d f (o - 4) w) as [-> Hpw]; [done|done|lia|lia|]. rb.
  set (M1 := Machine _ _) in *.
  destruct (IH M1 (o - 4)) as (M' & -> & Hpw' & Hs & Hx); [|by apply (page_write_frame km M M1 d f)|lia|lia|done|].
  { apply (kspace_same_tables M); [done|]. by apply (page_write_tables km M M1 d f). }
  exists M'. split_and!.
  - simpl. do 2 f_equal. lia.
  - by apply (page_write_trans _ _ M1).
  - simpl rev. apply stack_words_app. rewrite length_rev. simpl length. split.
    + replace (o - 4 * Z.of_nat (S (length ws))) with (o - 4 - 4 * Z.of_nat (length ws)) by lia. done.
    + apply stack_words_one. rewrite (rd32_same (pm M1)); [|intros x Hr; apply Hx; lia].
      unfold M1. simpl pm. replace (f + (o - 4 * Z.of_nat (S (length ws)) + 4 * Z.of_nat (length ws)))
        with (f + (o - 4)) by lia. by apply rd32_wr32_same.
  - intros x Hr. rewrite Hx by lia. apply rd8_wr32_other. lia.
Qed.

Lemma pushes_app M e ws ws' M' e' :
  pushes M e (ws ++ ws') = Ok (M', e') →
  ∃ M1, pushes M e ws = Ok (M1, e - 4 * Z.of_nat (length ws))
    ∧ pushes M1 (e - 4 * Z.of_nat (length ws)) ws' = Ok (M', e').
Proof.
  revert M e. induction ws as [|w ws IH]; intros M e Hp; simpl in Hp.
  { exists M. simpl. rewrite Z.sub_0_r. done. }
  apply bind_ok_inv in Hp as (M1 & Hst & Hp). apply IH in Hp as (M2 & Hp1 & Hp2).
  exists M2. simpl. rewrite Hst. rb. rewrite Hp1.
  replace (e - 4 - 4 * Z.of_nat (length ws)) with (e - 4 * Z.of_nat (S (length ws))) in * by lia. done.
Qed.

(** * Frames *)

(** The interrupt frame of a context, from its lowest word. *)
Definition regs_of (c : context) (dummy : Z) : list Z :=
  [x_edi c; x_esi c; x_ebp c; dummy; x_ebx c; x_edx c; x_ecx c; x_eax c].
Definition segs_of (c : context) : list Z := [x_gs c; x_fs c; x_es c; x_ds c].
Definition return_of (c : context) : list Z := [x_eip c; x_cs c; x_eflags c].
Definition stack_of (c : context) : list Z :=
  if level (x_cs c) =? 0 then [] else [x_esp c; x_ss c].

(** ... with the words [xs] between the segments and the return address. *)
Definition frame_with (c : context) (vec : Z) (xs : list Z) (dummy : Z) : list Z :=
  [vec] ++ regs_of c dummy ++ segs_of c ++ xs ++ return_of c ++ stack_of c.

(** [struct intr_stack]: one word, the error code. *)
Definition frame_of (c : context) (vec err dummy : Z) : list Z := frame_with c vec [err] dummy.

(** A context of the kernel is returned to with the stack behind the frame. *)
Definition kernel_return (c : context) (e : Z) : Prop :=
  level (x_cs c) = 0 → x_esp c = e ∧ x_ss c = SELECTOR_K_STACK.

Lemma intr_exit_frame M o c vec err dummy :
  kspace M → heap_frame km M d f → 0 ≤ o → o + 4 * Z.of_nat (length (frame_of c vec err dummy)) ≤ 4096 →
  stack_words M f o (frame_of c vec err dummy) → kernel_return c (d + o + 68) →
  intr_exit M (d + o) = Ok c.
Proof.
  intros Hk Hf Ho Hl Hs Hr. unfold frame_of, frame_with in Hs, Hl. rewrite !length_app in Hl.
  rewrite !stack_words_app in Hs. destruct Hs as (_ & Hregs & Hsegs & _ & Hret & Hstk).
  assert (Hst : (length (stack_of c) ≤ 2)%nat) by (unfold stack_of; case_match; simpl; lia).
  simpl in Hl, Hregs, Hsegs, Hret, Hstk. unfold intr_exit.
  replace (d + o + 4) with (d + (o + 4)) by lia.
  rewrite (pops_ok M _ (regs_of c dummy)) by (done || simpl; lia). rb. simpl length.
  replace (d + (o + 4) + 4 * Z.of_nat 8) with (d + (o + 4 * 1 + 4 * 8)) by lia.
  rewrite (pops_ok M _ (segs_of c)) by (done || simpl; lia). rb. simpl length.
  replace (d + (o + 4 * 1 + 4 * 8) + 4 * Z.of_nat 4 + 4)
    with (d + (o + 4 * 1 + 4 * 8 + 4 * 4 + 4 * 1)) by lia.
  rewrite (pops_ok M _ (return_of c)) by (done || simpl; lia). rb. simpl length.
  unfold regs_of, segs_of, return_of. unfold stack_of in Hstk, Hl.
  destruct (Z.eqb_spec (level (x_cs c)) 0) as [E|E].
  - destruct (Hr E) as [He Hss]. f_equal. destruct c. simpl in *. subst. f_equal. lia.
  - replace (d + (o + 4 * 1 + 4 * 8 + 4 * 4 + 4 * 1) + 4 * Z.of_nat 3)
      with (d + (o + 4 * 1 + 4 * 8 + 4 * 4 + 4 * 1 + 4 * 3)) by lia.
    rewrite (pops_ok M _ [x_esp c; x_ss c]) by (done || simpl in *; lia). rb. by destruct c.
Qed.

(** * Entering *)

Definition words (c : context) : Prop :=
  Forall word [x_edi c; x_esi c; x_ebp c; x_ebx c; x_edx c; x_ecx c; x_eax c; x_gs c; x_fs c; x_es c;
               x_ds c; x_eip c; x_cs c; x_eflags c; x_esp c; x_ss c].

(** The offset in the kernel stack at which the frame of [c] ends: the top of
    the page for a user program. *)
Definition enters_at (c : context) (o : Z) : Prop :=
  if level (x_cs c) =? 0 then x_esp c = d + o ∧ x_ss c = SELECTOR_K_STACK ∧ 1024 ≤ o ≤ 4096 else o = 4096.

Lemma frame_word c vec xs dummy :
  words c → word vec → Forall word xs → word dummy → Forall word (rev (frame_with c vec xs dummy)).
Proof.
  intros Hc Hv Hx Hd. apply Forall_rev. unfold words in Hc. rewrite !Forall_cons in Hc.
  unfold frame_with, regs_of, segs_of, return_of, stack_of. rewrite !Forall_app, !Forall_cons.
  unfold word in *. case_match; rewrite ?Forall_cons, ?Forall_nil; intuition lia.
Qed.

Lemma length_frame c vec xs dummy :
  Z.of_nat (length (frame_with c vec xs dummy))
  = (if level (x_cs c) =? 0 then 16 else 18) + Z.of_nat (length xs).
Proof. unfold frame_with, stack_of. rewrite !length_app. destruct (_ =? _); simpl; lia. Qed.

(** The registers are pushed as a frame, by an interrupt or a system call, with
    the words [xs] on the way. *)
Lemma enter_pushes M c o vec xs :
  kspace M → heap_frame km M d f → words c → word vec → Forall word xs → (length xs ≤ 2)%nat → enters_at c o →
  ∃ M1 M1' M2 M3 dummy, let e := o - 4 * Z.of_nat (length (frame_with c vec (rev xs) dummy)) in
    word dummy ∧ cpu_enter M (d + 4096) c = Ok (M1, d + e + 52 + 4 * Z.of_nat (length xs))
    ∧ pushes M1 (d + e + 52 + 4 * Z.of_nat (length xs)) xs = Ok (M1', d + e + 52)
    ∧ save_regs M1' (d + e + 52) c = Ok (M2, d + e + 4)
    ∧ pushes M2 (d + e + 4) [vec] = Ok (M3, d + e)
    ∧ page_write M f M3 ∧ stack_words M3 f e (frame_with c vec (rev xs) dummy).
Proof.
  intros Hk Hf Hc Hv Hxs Hlx Ho. pose proof (hf_page _ _ _ _ Hf) as (Hd1 & Hd2 & _). unfold KBASE, KTOP in *.
  set (n := (if level (x_cs c) =? 0 then 16 else 18) + Z.of_nat (length xs)).
  assert (Hn : 16 ≤ n ≤ 20) by (unfold n; destruct (_ =? _); lia).
  assert (Hor : 1024 ≤ o ≤ 4096) by (unfold enters_at in Ho; destruct (_ =? _); lia).
  set (e := o - 4 * n). set (dummy := d + e + 36).
  assert (Hdw : word dummy) by (unfold word, dummy, e; lia).
  pose proof (length_frame c vec (rev xs) dummy) as Hlen. rewrite length_rev in Hlen. fold n in Hlen.
  destruct (pushes_ok M o (rev (frame_with c vec (rev xs) dummy))) as (M3 & Hp & Hpw & Hs & _);
    [done|done|rewrite length_rev, Hlen; lia|lia|by apply frame_word; [..|apply Forall_rev|]|].
  rewrite length_rev, Hlen in Hp, Hs. rewrite rev_involutive in Hs.
  replace (d + o - 4 * n) with (d + e) in Hp by (unfold e; lia). fold e in Hs.
  assert (Er : rev (frame_with c vec (rev xs) dummy) = rev (return_of c ++ stack_of c)
    ++ xs ++ [x_ds c; x_es c; x_fs c; x_gs c] ++ rev (regs_of c dummy) ++ [vec]).
  { unfold frame_with. rewrite !rev_app_distr, rev_involutive, <- !app_assoc. done. }
  rewrite Er in Hp. apply pushes_app in Hp as (M1 & Hp1 & Hp). apply pushes_app in Hp as (M1' & Hp1' & Hp).
  apply pushes_app in Hp as (M2 & Hp2 & Hp). apply pushes_app in Hp as (M2' & Hp2' & Hp3).
  rewrite length_rev, length_app in *. simpl length in *.
  assert (El : d + o - 4 * Z.of_nat (3 + length (stack_of c)) = d + e + 52 + 4 * Z.of_nat (length xs)).
  { unfold e, n, stack_of. destruct (_ =? _); simpl; lia. }
  rewrite El in *. replace (d + e + 52 + 4 * Z.of_nat (length xs) - 4 * Z.of_nat (length xs)) with (d + e + 52) in * by lia.
  replace (d + e + 52 - 4 * Z.of_nat 4) with dummy in * by (unfold dummy; lia).
  replace (dummy - 4 * Z.of_nat 8) with (d + e + 4) in * by (unfold dummy; lia).
  exists M1, M1', M2', M3, dummy. cbv zeta. rewrite Hlen. fold e. split_and!; auto.
  - unfold cpu_enter, enters_at, stack_of in *. destruct (level (x_cs c) =? 0).
    + destruct Ho as (-> & _). exact Hp1.
    + subst o. exact Hp1.
  - unfold save_regs. rewrite Hp2. rb. exact Hp2'.
Qed.
(** A frame is returned through whatever follows the word that is skipped. *)
Lemma intr_exit_eip M o c vec dummy w eip r c' :
  kspace M → heap_frame km M d f → 0 ≤ o → o + 60 ≤ 4096 →
  stack_words M f o ([vec] ++ regs_of c dummy ++ segs_of c ++ [w; eip] ++ r) →
  intr_exit M (d + o) = Ok c' → x_eip c' = eip.
Proof.
  intros Hk Hf Ho Hl Hs. rewrite !stack_words_app in Hs. destruct Hs as (_ & Hregs & Hsegs & Hret & _).
  simpl in Hregs, Hsegs, Hret. unfold intr_exit. replace (d + o + 4) with (d + (o + 4)) by lia.
  rewrite (pops_ok M _ (regs_of c dummy)) by (done || simpl; lia). rb. simpl length.
  replace (d + (o + 4) + 4 * Z.of_nat 8) with (d + (o + 4 * 1 + 4 * 8)) by lia.
  rewrite (pops_ok M _ (segs_of c)) by (done || simpl; lia). rb. simpl length.
  set (e := o + 4 * 1 + 4 * 8 + 4 * 4) in *.
  replace (d + (o + 4 * 1 + 4 * 8) + 4 * Z.of_nat 4 + 4) with (d + (e + 4)) by (unfold e; lia).
  assert (Hw : rd32 (pm M) (f + (e + 4)) = eip)
    by (rewrite <- (Hret 1%nat eip eq_refl); f_equal; unfold e; lia). change (pops M (d + (e + 4)) 3) with
    (w ← load32 M (d + (e + 4)); '(ws, esp) ← pops M (d + (e + 4) + 4) 2; Ok (w :: ws, esp)).
  unfold load32 at 1. rewrite (heap_frame_translate km M d f) by (done || lia). rb.
  rewrite Hw.
  intros (ret & ([ws esp] & _ & E0)%bind_ok_inv & E)%bind_ok_inv. apply Ok_inj in E0 as <-.
  unfold regs_of, segs_of in E. destruct ws as [|cs [|fl [|]]]; try done.
  destruct (level cs =? 0); [by injection E as <-|].
  apply bind_ok_inv in E as ([stk ?] & _ & E). destruct stk as [|? [|? [|]]]; try done. by injection E as <-.
Qed.
End stack.

(** The vectors whose entry disagrees with the processor about the error code. *)
Definition bad_vectors : list Z := [0x08; 0x0a; 0x0b; 0x0c; 0x0d; 0x0e; 0x11; 0x1e].

(** The words between the return address and the segments. *)
Definition extra (vec err : Z) : list Z :=
  (if has_error vec then [err] else []) ++ (if vec =? 0x1e then [] else [0]).

Lemma vector_cases vec :
  0 ≤ vec < 0x30 →
  vectors !! Z.to_nat vec = Some (if vec =? 0x1e then ERROR_CODE else ZERO)
  ∧ bool_decide (vec ∈ bad_vectors) = has_error vec || (vec =? 0x1e)
  ∧ (vec = 0x1e → has_error vec = false).
Proof.
  intros Hv. assert (Hin : vec ∈ seqZ 0 0x30) by (apply elem_of_seqZ; lia). revert Hin. clear Hv. revert vec.
  apply list.Forall_forall. repeat (apply list.Forall_cons_2; [by vm_compute|]). apply list.Forall_nil_2.
Qed.

Lemma extra_bad vec err :
  0 ≤ vec < 0x30 →
  if bool_decide (vec ∈ bad_vectors)
  then extra vec err = (if vec =? 0x1e then [] else [err; 0])
  else extra vec err = [0].
Proof.
  intros Hv. destruct (vector_cases vec Hv) as (_ & -> & H1e). unfold extra.
  destruct (Z.eqb_spec vec 0x1e) as [E|E]; [by rewrite H1e|]. by destruct (has_error vec).
Qed.

Lemma intr_entry_extra M esp0 c vec err :
  0 ≤ vec < 0x30 →
  intr_entry M esp0 c vec err
  = ('(M, esp) ← cpu_enter M esp0 c;
     '(M, esp) ← pushes M esp (if has_error vec then [err] else []);
     '(M, esp) ← pushes M esp (if vec =? 0x1e then [] else [0]);
     '(M, esp) ← save_regs M esp c;
     '(M, esp) ← pushes M esp [vec];
     Ok (M, esp, [(0xa0, 0x20); (0x20, 0x20)])).
Proof.
  intros Hv. unfold intr_entry. destruct (vector_cases vec Hv) as (-> & _). unfold VECTOR.
  by destruct (has_error vec), (vec =? 0x1e).
Qed.

(** * Properties *)

(** C14: An interrupt is transparent.  The entry code of kernel.S saves the
    interrupted registers, of a user program on the stack of the task state
    segment or of the kernel on its own stack, as a [struct intr_stack]; then,
    whatever the handler does below the frame, [intr_exit] returns with every
    register as it was.  This holds for the entries 0x00 to 0x2f but eight:
    seven push a zero after the error code of the processor, one pushes none
    where the processor does not either, and a return from them goes to the
    error code or to the code selector. *)
Theorem interrupt_roundtrip km M d f c o vec err :
  kspace M → heap_frame km M d f → words c → 0 ≤ vec < 0x30 → word err → enters_at d c o →
  ∃ M1 esp, intr_entry M (d + 4096) c vec err = Ok (M1, esp, [(0xa0, 0x20); (0x20, 0x20)])
    ∧ d ≤ esp < d + 4096 ∧ page_write M f M1
    ∧ ∀ M2, kspace M2 → heap_frame km M2 d f →
        (∀ x, f + (esp - d) ≤ x < f + 4096 → rd8 (pm M2) x = rd8 (pm M1) x) →
        if bool_decide (vec ∈ bad_vectors)
        then ∀ c', intr_exit M2 esp = Ok c' → x_eip c' = if vec =? 0x1e then x_cs c else err
        else intr_exit M2 esp = Ok c.
Proof.
  intros Hk Hf Hc Hv He Ho. pose proof (extra_bad vec err Hv) as Hx.
  assert (Hxw : Forall word (extra vec err) ∧ (length (extra vec err) ≤ 2)%nat).
  { unfold extra, word in *. destruct (has_error vec), (vec =? 0x1e); simpl; split; try lia;
      repeat apply Forall_cons_2; auto; lia. }
  destruct (enter_pushes km d f M c o vec (extra vec err) Hk Hf Hc)
    as (M1 & M1' & M2 & M3 & dummy & _ & H1 & H1' & H2 & H3 & Hpw & Hs); [unfold word; lia|apply Hxw..|done|].
  cbv zeta in *. pose proof (length_frame c vec (rev (extra vec err)) dummy) as Hlen. rewrite length_rev in Hlen.
  destruct Hxw as [_ Hxl]. rewrite Hlen in *. clear Hlen.
  assert (Hn : 16 ≤ (if level (x_cs c) =? 0 then 16 else 18) + Z.of_nat (length (extra vec err)) ≤ 20)
    by (destruct (level _ =? _); lia).
  set (n := (if level (x_cs c) =? 0 then 16 else 18) + Z.of_nat (length (extra vec err))) in *.
  set (e := o - 4 * n) in *.
  assert (Hor : 1024 ≤ o ≤ 4096) by (unfold enters_at in Ho; destruct (_ =? _); lia).
  apply pushes_app in H1' as (M1a & Ha & Hb).
  exists M3, (d + e). split_and!; [|unfold e; lia|unfold e; lia|done|].
  - rewrite intr_entry_extra by done. rewrite H1. rb. rewrite Ha. rb. rewrite Hb. rb. rewrite H2. rb.
    rewrite H3. by rb.
  - intros M4 Hk4 Hf4 Hx4. assert (Hs4 : stack_words M4 f e (frame_with c vec (rev (extra vec err)) dummy)).
    { apply (stack_words_same M3); [|done]. intros x Hr.
      rewrite length_frame, length_rev in Hr. fold n in Hr. apply Hx4. unfold e in *. lia. }
    case_bool_decide; rewrite Hx in Hs4.
    + intros c'. assert (∃ w r, frame_with c vec (rev (if vec =? 0x1e then [] else [err; 0])) dummy
        = [vec] ++ regs_of c dummy ++ segs_of c ++ [w; if vec =? 0x1e then x_cs c else err] ++ r) as (w & r & Ef).
      { unfold frame_with, return_of. destruct (vec =? 0x1e); simpl; by eexists _, _. }
      rewrite Ef in Hs4. apply (intr_exit_eip km d f M4 e c vec dummy w _ r); auto; unfold e; lia.
    + assert (En : n = if level (x_cs c) =? 0 then 17 else 19) by (unfold n; rewrite Hx; by destruct (_ =? _)).
      apply (intr_exit_frame km d f M4 e c vec 0 dummy); try done; try (unfold e; lia).
      * unfold frame_of. rewrite length_frame. simpl. unfold e. destruct (_ =? _); lia.
      * intros E. unfold enters_at, e in *. rewrite E in *. simpl in *. destruct Ho as (-> & -> & _).
        split; [lia|done].
Qed.

Definition with_eax (c : context) (v : Z) : context :=
  Ctx (x_edi c) (x_esi c) (x_ebp c) (x_ebx c) (x_edx c) (x_ecx c) v (x_gs c) (x_fs c) (x_es c) (x_ds c)
      (x_eip c) (x_cs c) (x_eflags c) (x_esp c) (x_ss c).

Section getpid.
Context `{Symbols, SysSyms}.

Lemma arg_words c : words c → Forall word [x_edx c; x_ecx c; x_ebx c].
Proof.
  unfold words. rewrite !Forall_cons. intros Hc. destruct_and! Hc. by repeat apply Forall_cons_2.
Qed.

Lemma syscall_enters km K idtr d f c :
  int_gate (k_mach K) idtr 0x80 (level (x_cs c)) = Ok syscall_handler_ptr →
  kspace (k_mach K) → heap_frame km (k_mach K) d f → words c → level (x_cs c) ≠ 0 → k_esp0 K = d + 4096 →
  ∃ M dummy, syscall_enter K idtr c = Ok (set_mach K M, d + 4008) ∧ page_write (k_mach K) f M
    ∧ stack_words M f 4008 ([x_ebx c; x_ecx c; x_edx c] ++ frame_of c 0x80 0 dummy).
Proof.
  intros Hgt Hk Hf Hc Hlv He0. set (M := k_mach K) in *.
  assert (Hz : level (x_cs c) =? 0 = false) by by apply Z.eqb_neq.
  destruct (enter_pushes km d f M c 4096 0x80 [0] Hk Hf Hc)
    as (M1 & M1' & M2 & M3 & dummy & Hdw & H1 & H1' & H2 & H3 & Hpw & Hs);
    [unfold word; lia|apply Forall_cons_2; [unfold word; lia|apply Forall_nil_2]|simpl; lia| |].
  { unfold enters_at. by rewrite Hz. }
  cbv zeta in *. rewrite (length_frame c 0x80 (rev [0]) dummy), Hz in *.
  change (4096 - 4 * (18 + Z.of_nat (length (rev [0])))) with 4020 in *.
  change (4 * Z.of_nat (length [0])) with 4 in *.
  assert (Hk3 : kspace M3) by (apply (kspace_same_tables M); [done|]; by apply (page_write_tables km M M3 d f)).
  assert (Hf3 : heap_frame km M3 d f) by by apply (page_write_frame km M M3 d f).
  destruct (pushes_ok km d f M3 4020 [x_edx c; x_ecx c; x_ebx c]) as (M4 & Hp4 & Hpw4 & Hs4 & Hx4);
    [done|done|simpl; lia|lia|by apply arg_words|].
  change (4 * Z.of_nat (length [x_edx c; x_ecx c; x_ebx c])) with 12 in *.
  change (rev [x_edx c; x_ecx c; x_ebx c]) with [x_ebx c; x_ecx c; x_edx c] in Hs4.
  exists M4, dummy. split_and!.
  - unfold syscall_enter. fold M. rewrite Hgt. rb. rewrite Z.eqb_refl. simpl negb. cbv iota. rewrite He0, H1. rb. rewrite H1'. rb. rewrite H2. rb. rewrite H3. rb.
    rewrite Hp4. rb. do 2 f_equal. lia.
  - by eapply page_write_trans.
  - apply stack_words_app. split; [exact Hs4|]. change (4008 + 4 * Z.of_nat (length _)) with 4020.
    apply (stack_words_same M3); [|exact Hs]. intros x Hx. apply Hx4. lia.
Qed.

Lemma syscall_returns km K idtr tbl d f c v :
  int_gate (k_mach K) idtr 0x80 (level (x_cs c)) = Ok syscall_handler_ptr →
  kspace (k_mach K) → heap_frame km (k_mach K) d f → words c → level (x_cs c) ≠ 0 →
  k_esp0 K = d + 4096 → word v →
  (∀ M esp, d ≤ esp < d + 4096 → call_entry (set_esp (set_mach K M) esp) tbl (x_eax c) = Ok v) →
  ∃ M', syscall_handler K idtr tbl c = Ok (set_mach K M', with_eax c v) ∧ page_write (k_mach K) f M'.
Proof.
  intros Hgt Hk Hf Hc Hlv He0 Hv Hcall. set (M := k_mach K) in *.
  assert (Hz : level (x_cs c) =? 0 = false) by by apply Z.eqb_neq.
  destruct (syscall_enters km K idtr d f c Hgt Hk Hf Hc Hlv He0) as (M4 & dummy & He & Hpw4 & Hs4). fold M in Hpw4.
  apply stack_words_app in Hs4 as [_ Hs4]. change (4008 + 4 * Z.of_nat (length _)) with 4020 in Hs4.
  assert (Hk4 : kspace M4) by (apply (kspace_same_tables M); [done|]; by apply (page_write_tables km M M4 d f)).
  assert (Hf4 : heap_frame km M4 d f) by by apply (page_write_frame km M M4 d f).
  destruct (heap_store km M4 d f (4020 + 32) v) as [Hst Hpw5]; [done|done|lia|lia|].
  set (M5 := Machine _ _) in *.
  assert (Hk5 : kspace M5) by (apply (kspace_same_tables M4); [done|]; by apply (page_write_tables km M4 M5 d f)).
  assert (Hf5 : heap_frame km M5 d f) by by apply (page_write_frame km M4 M5 d f).
  exists M5. split; [|by eapply page_write_trans].
  unfold syscall_handler. rewrite He. rb. rewrite Hcall by lia. rb. cbn [set_mach k_mach].
  replace (d + 4008 + 12 + 8 * 4) with (d + (4020 + 32)) by lia. rewrite Hst. rb.
  replace (d + 4008 + 12) with (d + 4020) by lia.
  rewrite (intr_exit_frame km d f M5 4020 (with_eax c v) 0x80 0 dummy); [by rb|done|done|lia| | |].
  - unfold frame_of. rewrite (length_frame (with_eax c v)). simpl x_cs. rewrite Hz. simpl. lia.
  - assert (frame_of (with_eax c v) 0x80 0 dummy = <[8%nat := v]> (frame_of c 0x80 0 dummy)) as -> by done.
    unfold M5. replace (f + (4020 + 32)) with (f + 4020 + 4 * Z.of_nat 8) by lia.
    by apply stack_words_store.
  - by intros E.
Qed.

Lemma running_on K M d esp :
  d mod 4096 = 0 → 0 < d → d + 4096 ≤ 2 ^ 32 → d ≤ esp < d + 4096 →
  running_thread (set_esp (set_mach K M) esp) = d.
Proof. intros. apply running_thread_eq; simpl; lia. Qed.
End getpid.

(** C25: The system call [getpid].  When the descriptor table of
    [idt_desc_init] can be read where the processor looks for it, a user
    program gets the pid of its process and every other register as it was,
    once [syscall_init] has filled the table of system calls; with that table
    as the kernel leaves it, the call jumps through a null pointer.  With the
    operand [idt_init] gives to [lidt], wherever the table is, and on a
    directory that maps nothing of the first 128 KB, which is every directory
    of a process, there is no gate to read, and no [getpid] returns. *)
Theorem getpid_returns_pid `{Symbols, SysSyms} km K idtr entries d f T c :
  kspace (k_mach K) → heap_frame km (k_mach K) d f → words c → level (x_cs c) ≠ 0 →
  k_esp0 K = d + 4096 → k_tasks K !! d = Some T → word (pid T) →
  sys_getpid_ptr ≠ NULL → word syscall_handler_ptr →
  (idt_visible (k_mach K) idtr (idt_desc_init entries syscall_handler_ptr) →
     (∃ M', getpid K idtr (syscall_init syscall_table0) c = Ok (set_mach K M', with_eax c (pid T), pid T)
        ∧ page_write (k_mach K) f M')
     ∧ getpid K idtr syscall_table0 c = Fault)
  ∧ ∀ idt tbl, word idt → (∀ va, 0 ≤ va < 0x20000 → translate (k_mach K) va = None) →
      getpid K (idt_operand idt) tbl c = Fault.
Proof.
  intros Hk Hf Hc Hlv He0 HT Hp Hn Hh. pose proof (hf_page _ _ _ _ Hf) as (Hd1 & Hd2 & Hd3).
  unfold KBASE, KTOP in *. set (c1 := with_eax c SYS_GETPID).
  assert (Hc1 : words c1).
  { unfold words in *. rewrite !Forall_cons in *. unfold word, c1, SYS_GETPID in *. simpl. intuition lia. }
  unfold getpid, syscall0. change (Ctx _ _ _ _ _ _ _ _ _ _ _ _ _ _ _ _) with c1. split.
  - intros Hidt. assert (Hgt : int_gate (k_mach K) idtr 0x80 (level (x_cs c1)) = Ok syscall_handler_ptr)
      by (apply (visible_gate _ _ entries); auto using level_range).
    split.
    + destruct (syscall_returns km K idtr (syscall_init syscall_table0) d f c1 (pid T)) as (M' & He & Hpw); auto.
      { intros M esp Hesp. unfold call_entry, syscall_init, syscall_table0, SYS_GETPID. simpl.
        rewrite (proj2 (Z.eqb_neq _ _) Hn), Z.eqb_refl. simpl. unfold sys_getpid, get_task.
        rewrite (running_on K M d esp) by lia. simpl. by rewrite HT. }
      exists M'. split; [|done]. rewrite He. by rb.
    + destruct (syscall_enters km K idtr d f c1 Hgt Hk Hf Hc1 Hlv He0) as (M4 & dummy & He & _).
      unfold syscall_handler. by rewrite He.
  - intros idt tbl Hi Hno. destruct (idtr_parts idt Hi) as [_ Hb].
    unfold syscall_handler, syscall_enter, int_gate. rewrite fetch_missing; [done|]. apply Hno. lia.
Qed.

(** A system call of three arguments finds them on its stack in the order of a C
    call, and returns to the caller with its result and the other registers. *)
Theorem syscall3_passes `{Symbols, SysSyms} km K idtr entries tbl d f c n a1 a2 a3 v :
  idt_visible (k_mach K) idtr (idt_desc_init entries syscall_handler_ptr) → word syscall_handler_ptr →
  kspace (k_mach K) → heap_frame km (k_mach K) d f → words (args3 c n a1 a2 a3) → level (x_cs c) ≠ 0 →
  k_esp0 K = d + 4096 → word v →
  (∀ M esp, d ≤ esp < d + 4096 → call_entry (set_esp (set_mach K M) esp) tbl n = Ok v) →
  (∃ M esp, syscall_enter K idtr (args3 c n a1 a2 a3) = Ok (set_mach K M, esp)
     ∧ pops M esp 3 = Ok ([a1; a2; a3], esp + 12))
  ∧ ∃ M', syscall3 K idtr tbl c n a1 a2 a3 = Ok (set_mach K M', args3 c v a1 a2 a3, v).
Proof.
  intros Hidt Hh Hk Hf Hc Hlv He0 Hv Hcall.
  pose proof (visible_gate _ _ entries _ (level (x_cs c)) Hidt Hh (level_range _)) as Hgt. split.
  - destruct (syscall_enters km K idtr d f (args3 c n a1 a2 a3) Hgt Hk Hf Hc Hlv He0) as (M & dummy & He & Hpw & Hs).
    exists M, (d + 4008). split; [exact He|]. apply stack_words_app in Hs as [Hs _].
    apply (pops_ok km d f M 4008 [a1; a2; a3]); [|by apply (page_write_frame km (k_mach K) M d f)|lia|simpl; lia|exact Hs].
    apply (kspace_same_tables (k_mach K)); [done|]. by apply (page_write_tables km (k_mach K) M d f).
  - destruct (syscall_returns km K idtr tbl d f (args3 c n a1 a2 a3) v) as (M' & He & _); auto.
    exists M'. unfold syscall3. rewrite He. by rb.
Qed.

(** * Witnesses *)
Module IntrRuns.
Import MemRuns ProcessRuns.

(** A program at level 3, interrupted between two instructions. *)
Definition user_context : context :=
  Ctx 1 2 3 4 5 6 7 0 SELECTOR_U_DATA SELECTOR_U_DATA SELECTOR_U_DATA
      0x08048123 SELECTOR_U_CODE 0x202 0xbffffff0 SELECTOR_U_DATA.

Lemma user_words : words user_context.
Proof. unfold words, word. repeat constructor; cbv; congruence. Qed.

(** A page of the heap. *)
Lemma some_page : ∃ M d f, kspace M ∧ heap_frame km32 M d f.
Proof.
  destruct free_heap as (g & Hi & Hw & Hc).
  destruct (get_kernel_page km32 (kernel_vaddr km32) _ g 7 Hi) as (r & f & M' & g' & _ & _ & _ & Hp).
  - change (0 ≤ 7 < 3840). lia.
  - apply Hw. lia.
  - rewrite Hc. lia.
  - exists M', (heap_addr r), f. split; [|apply Hp].
    apply (mi_space _ _ _ (al_inv _ _ _ _ _ _ _ (fp_alloc _ _ _ _ _ _ _ Hp))).
Qed.

Lemma interrupt_roundtrip_witness :
  ∃ M d M1 esp, intr_entry M (d + 4096) user_context 0x20 0 = Ok (M1, esp, [(0xa0, 0x20); (0x20, 0x20)])
    ∧ intr_exit M1 esp = Ok user_context.
Proof.
  destruct some_page as (M & d & f & Hk & Hf). exists M, d.
  destruct (interrupt_roundtrip km32 M d f user_context 4096 0x20 0 Hk Hf user_words)
    as (M1 & esp & H1 & _ & Hw & H2).
  - lia.
  - unfold word. lia.
  - reflexivity.
  - exists M1, esp. split; [exact H1|]. apply H2.
    + apply (kspace_same_tables M); [exact Hk|]. exact (page_write_tables km32 M M1 d f Hf Hw).
    + exact (page_write_frame km32 M M1 d f Hf Hw d f Hf).
    + reflexivity.
Defined.

#[local] Instance symbols : Symbols :=
  {| thread_ready_list := 0xc0007000; thread_all_list := 0xc0007010 |}.
#[local] Instance sys : SysSyms := {| sys_getpid_ptr := 0xc0001900; syscall_handler_ptr := 0xc0001700 |}.

Definition in_kernel (M : machine) (d : Z) : kernel :=
  Kernel 0 0 ∅ {[ d := thread_task d 4 "user_prog_a" 31 ]} ∅ ∅ M (d + 4096) 0 [].

(** The descriptor table at 0xc0005680, and the operand that names it. *)
Definition gates : list gate_desc := idt_desc_init (λ i, 0xc0001000 + 32 * i) 0xc0001700.
Definition with_idt (M : machine) : machine := Machine (write_bytes (pm M) 0x5680 (gates ≫= gate_bytes)) (cr3 M).
Definition idt_reg : Z := 8 * IDT_DESC_CNT - 1 + 2 ^ 16 * 0xc0005680.

Lemma gates_lookup idt : ∀ i g k b, idt !! i = Some g → gate_bytes g !! k = Some b →
  (idt ≫= gate_bytes) !! (8 * i + k)%nat = Some b.
Proof.
  induction idt as [|g0 idt IH]; intros [|i] g k b Hi Hk; [done|done| |]; [injection Hi as ->|simpl in Hi].
  - change (mbind gate_bytes (g :: idt)) with (gate_bytes g ++ (idt ≫= gate_bytes)).
    by apply lookup_app_l_Some.
  - rewrite <- (IH i g k b Hi Hk). change (mbind gate_bytes (g0 :: idt)) with (gate_bytes g0 ++ (idt ≫= gate_bytes)).
    rewrite lookup_app_r by (simpl length; lia). f_equal. simpl length. lia.
Qed.

Lemma with_idt_high M : same_high M (with_idt M).
Proof.
  split; [done|]. intros x Hx. apply rd8_write_bytes_other.
  change (length (gates ≫= gate_bytes)) with 1032%nat. lia.
Qed.

Lemma load8_kernel M x : kspace M → KBASE ≤ x < K_HEAP_START → load8 M x = Ok (rd8 (pm M) (x - KBASE)).
Proof. intros Hk Hx. simpl load8. by rewrite kspace_translate_low. Qed.

Lemma with_idt_visible M : kspace M → idt_visible (with_idt M) idt_reg gates.
Proof.
  intros Hk. split; [done|]. change (lidt_base idt_reg) with 0xc0005680. intros i g k b Hi Hb.
  pose proof (gates_lookup gates i g k b Hi Hb) as Hl. pose proof (lookup_lt_Some _ _ _ Hl) as Hlt.
  change (length (gates ≫= gate_bytes)) with 1032%nat in Hlt.
  rewrite load8_kernel.
  - replace (0xc0005680 + 8 * Z.of_nat i + Z.of_nat k - KBASE) with (0x5680 + Z.of_nat (8 * i + k)) by (unfold KBASE; lia).
    f_equal. unfold with_idt. cbn [pm]. rewrite (rd8_write_bytes_in _ _ _ _ _ Hl). apply u8_small.
    assert (Hf : forallb (λ b, (0 <=? b) && (b <? 256)) (gates ≫= gate_bytes) = true) by (vm_compute; reflexivity).
    rewrite forallb_forall in Hf. specialize (Hf b). rewrite <- list_elem_of_In in Hf.
    specialize (Hf (list_elem_of_lookup_2 _ _ _ Hl)). lia.
  - apply (kspace_same_high M); [done|apply with_idt_high].
  - unfold KBASE, K_HEAP_START. lia.
Qed.

Lemma getpid_returns_pid_witness :
  ∃ M d M', getpid (in_kernel M d) idt_reg (syscall_init syscall_table0) user_context
    = Ok (set_mach (in_kernel M d) M', with_eax user_context 4, 4).
Proof.
  destruct some_page as (M0 & d & f & Hk & Hf). exists (with_idt M0), d.
  destruct (getpid_returns_pid km32 (in_kernel (with_idt M0) d) idt_reg (λ i, 0xc0001000 + 32 * i) d f
    (thread_task d 4 "user_prog_a" 31) user_context) as [Hv _].
  - exact (kspace_same_high M0 (with_idt M0) Hk (with_idt_high M0)).
  - destruct Hf as [Hp Hpte Hr Hd]. split; [exact Hp| |exact Hr|exact Hd].
    rewrite (kpte_same_high M0 (with_idt M0)); [exact Hpte|apply with_idt_high|].
    unfold kpage, KBASE, KTOP in *. zdm.
  - exact user_words.
  - discriminate.
  - reflexivity.
  - apply lookup_singleton_eq.
  - unfold word. simpl. lia.
  - discriminate.
  - unfold word. simpl. lia.
  - destruct (Hv (with_idt_visible M0 Hk)) as [(M' & E & _) _]. exists M'. exact E.
Defined.
End IntrRuns.
