(* ===== verification/Ioqueue.v ===== *)
(** device/ioqueue.c: a ring buffer between threads and interrupt handlers.
    Readers of an empty queue and writers of a full one take the queue's lock
    and block, so their code is split into program points as in Sync.v. *)
From S2P Require Import Prelude Bitmap Paging Memory Interrupt DList Sched Sync.

(** * Data *)

Definition bufsize : Z := 1024.

(** [struct ioqueue] at an address [ioq]; its lock, the first member, is the
    kernel's lock at [ioq]. *)
Record ioqueue := Ioqueue {
  producer : Z;
  consumer : Z;
  buf : list Z;
  q_head : Z;
  q_tail : Z;
}.

(** The two pointers a [struct task_struct** waiter] can name. *)
Inductive waiter := Producer | Consumer.

Definition deref (Q : ioqueue) (w : waiter) : Z :=
  match w with Producer => producer Q | Consumer => consumer Q end.

Definition assign (Q : ioqueue) (w : waiter) (v : Z) : ioqueue :=
  match w with
  | Producer => Ioqueue v (consumer Q) (buf Q) (q_head Q) (q_tail Q)
  | Consumer => Ioqueue (producer Q) v (buf Q) (q_head Q) (q_tail Q)
  end.

(** * Operations *)

Definition next_pos (pos : Z) : Z := Z.rem (s32 (pos + 1)) bufsize.

(** [buf[i]], which exists for indices below [bufsize]. *)
Definition buf_get (Q : ioqueue) (i : Z) : res Z :=
  if 0 <=? i then match buf Q !! Z.to_nat i with Some b => Ok b | None => Fault end else Fault.

Definition buf_set (Q : ioqueue) (i b : Z) : res ioqueue :=
  if (0 <=? i) && (i <? Z.of_nat (length (buf Q)))
  then Ok (Ioqueue (producer Q) (consumer Q) (<[Z.to_nat i := b]> (buf Q)) (q_head Q) (q_tail Q))
  else Fault.

(** What a program point did to the stream of bytes. *)
Inductive io_event := Quiet | Put (b : Z) | Got (b : Z).

(** Program points of a thread that uses the queue. *)
Inductive iopoint :=
| InSync (f : point)        (* inside thread.c or sync.c *)
| GetCall                   (* [ioq_getchar] *)
| GetLoop                   (* its loop test *)
| GetWait                   (* its [ioq_wait], with the lock taken *)
| PutCall (byte : Z)        (* [ioq_putchar] *)
| PutLoop (byte : Z)
| PutWait (byte : Z).

Section ioqueue.
Context `{Symbols} (ioq : Z).

Definition ioqueue_init (K : kernel) (Q : ioqueue) : res (kernel * ioqueue) :=
  K ← lock_init K ioq;
  Ok (K, Ioqueue NULL NULL (buf Q) 0 0).

Definition ioq_full (K : kernel) (Q : ioqueue) : res bool :=
  ASSERT (bool_decide (intr_get_status (k_eflags K) = INTR_OFF)) "ioq_full";;
  Ok (next_pos (q_head Q) =? q_tail Q).

Definition ioq_empty (K : kernel) (Q : ioqueue) : res bool :=
  ASSERT (bool_decide (intr_get_status (k_eflags K) = INTR_OFF)) "ioq_empty";;
  Ok (q_head Q =? q_tail Q).

(** Up to the switch, like [thread_block]. *)
Definition ioq_wait (K : kernel) (Q : ioqueue) (w : waiter)
    : res (intr_status * kernel * ioqueue) :=
  ASSERT (deref Q w =? NULL) "ioq_wait";;
  let Q := assign Q w (running_thread K) in
  '(old, K) ← thread_block K TASK_BLOCKED;
  Ok (old, K, Q).

Definition wakeup (K : kernel) (Q : ioqueue) (w : waiter) : res (kernel * ioqueue) :=
  ASSERT (negb (deref Q w =? NULL)) "wakeup";;
  K ← thread_unblock K (deref Q w);
  Ok (K, assign Q w NULL).

Definition io_result : Type := kernel * ioqueue * list iopoint * io_event.

(** What [ioq_getchar] does once the queue is not empty. *)
Definition ioq_take (K : kernel) (Q : ioqueue) : res io_result :=
  byte ← buf_get Q (q_tail Q);
  let Q := Ioqueue (producer Q) (consumer Q) (buf Q) (q_head Q) (next_pos (q_tail Q)) in
  '(K, Q) ← (if negb (producer Q =? NULL) then wakeup K Q Producer else Ok (K, Q));
  Ok (K, Q, [], Got byte).

Definition get_loop (K : kernel) (Q : ioqueue) : res io_result :=
  empty ← ioq_empty K Q;
  if (empty : bool) then Ok (K, Q, [InSync (LockAcquire ioq); GetWait], Quiet)
  else ioq_take K Q.

Definition ioq_getchar (K : kernel) (Q : ioqueue) : res io_result :=
  ASSERT (bool_decide (intr_get_status (k_eflags K) = INTR_OFF)) "ioq_getchar";;
  get_loop K Q.

(** What [ioq_putchar] does once the queue is not full. *)
Definition ioq_store (K : kernel) (Q : ioqueue) (byte : Z) : res io_result :=
  Q ← buf_set Q (q_head Q) (s8 byte);
  let Q := Ioqueue (producer Q) (consumer Q) (buf Q) (next_pos (q_head Q)) (q_tail Q) in
  '(K, Q) ← (if negb (consumer Q =? NULL) then wakeup K Q Consumer else Ok (K, Q));
  Ok (K, Q, [], Put (s8 byte)).

Definition put_loop (K : kernel) (Q : ioqueue) (byte : Z) : res io_result :=
  full ← ioq_full K Q;
  if (full : bool) then Ok (K, Q, [InSync (LockAcquire ioq); PutWait byte], Quiet)
  else ioq_store K Q byte.

Definition ioq_putchar (K : kernel) (Q : ioqueue) (byte : Z) : res io_result :=
  ASSERT (bool_decide (intr_get_status (k_eflags K) = INTR_OFF)) "ioq_putchar";;
  put_loop K Q byte.

Definition wait_in (w : waiter) (loop : iopoint) (K : kernel) (Q : ioqueue) : res io_result :=
  '(old, K, Q) ← ioq_wait K Q w;
  Ok (K, Q, [InSync (BlockReturn old); InSync (LockRelease ioq); loop], Quiet).

Definition exec_io (K : kernel) (Q : ioqueue) (f : iopoint) : res io_result :=
  match f return res io_result with
  | InSync f => '(K, fs) ← exec K f; Ok (K, Q, map InSync fs, Quiet)
  | GetCall => ioq_getchar K Q
  | GetLoop => get_loop K Q
  | GetWait => wait_in Consumer GetLoop K Q
  | PutCall b => ioq_putchar K Q b
  | PutLoop b => put_loop K Q b
  | PutWait b => wait_in Producer (PutLoop b) K Q
  end.
End ioqueue.

(** * The queue as a sequence *)

Definition used (Q : ioqueue) : Z := (q_head Q - q_tail Q) mod bufsize.

Definition contents (Q : ioqueue) : list Z :=
  (λ i, buf Q !!! Z.to_nat ((q_tail Q + Z.of_nat i) mod bufsize)) <$> seq 0 (Z.to_nat (used Q)).

Record ioq_wf (Q : ioqueue) : Prop := {
  iw_buf : length (buf Q) = 1024%nat;
  iw_head : 0 ≤ q_head Q < bufsize;
  iw_tail : 0 ≤ q_tail Q < bufsize;
}.

Lemma next_pos_mod i : 0 ≤ i < bufsize → next_pos i = (i + 1) mod bufsize.
Proof.
  unfold next_pos, bufsize. intros. rewrite s32_small by lia.
  apply Z.rem_mod_nonneg; lia.
Qed.

Lemma used_range Q : 0 ≤ used Q < bufsize.
Proof. unfold used, bufsize. apply Z.mod_pos_bound. lia. Qed.

Lemma length_contents Q : Z.of_nat (length (contents Q)) = used Q.
Proof.
  unfold contents. rewrite length_fmap, length_seq. pose proof (used_range Q). lia.
Qed.

(** Emptiness and fullness as the two tests read them. *)
Lemma empty_used Q : ioq_wf Q → (q_head Q =? q_tail Q) = (used Q =? 0).
Proof.
  intros []. unfold used, bufsize in *. apply Bool.eq_iff_eq_true.
  rewrite !Z.eqb_eq. zdm.
Qed.

Lemma full_used Q :
  ioq_wf Q → (next_pos (q_head Q) =? q_tail Q) = (used Q =? bufsize - 1).
Proof.
  intros []. rewrite next_pos_mod by done. unfold used, bufsize in *.
  apply Bool.eq_iff_eq_true. rewrite !Z.eqb_eq. zdm.
Qed.

(** The two moves of the ring. *)
Definition taken (Q : ioqueue) : ioqueue :=
  Ioqueue (producer Q) (consumer Q) (buf Q) (q_head Q) (next_pos (q_tail Q)).

Definition stored (Q : ioqueue) (b : Z) : ioqueue :=
  Ioqueue (producer Q) (consumer Q) (<[Z.to_nat (q_head Q) := b]> (buf Q))
    (next_pos (q_head Q)) (q_tail Q).

Lemma next_pos_range i : 0 ≤ i < bufsize → 0 ≤ next_pos i < bufsize.
Proof. intros. rewrite next_pos_mod by done. unfold bufsize. zdm. Qed.

Lemma taken_wf Q : ioq_wf Q → ioq_wf (taken Q).
Proof. intros []. by split; simpl; try apply next_pos_range. Qed.

Lemma stored_wf Q b : ioq_wf Q → ioq_wf (stored Q b).
Proof. intros []. split; simpl; try by try apply next_pos_range. by rewrite length_insert. Qed.

Lemma contents_taken Q :
  ioq_wf Q → used Q ≠ 0 →
  contents Q = (buf Q !!! Z.to_nat (q_tail Q)) :: contents (taken Q).
Proof.
  intros [Hb Hh Ht] Hu. pose proof (used_range Q) as Hr.
  assert (used (taken Q) = used Q - 1) as Hu'.
  { unfold used, taken in *. simpl in *. rewrite next_pos_mod by done.
    unfold bufsize in *. zdm. }
  unfold contents at 1.
  replace (Z.to_nat (used Q)) with (S (Z.to_nat (used (taken Q)))) by lia.
  cbn [seq]. rewrite fmap_cons. f_equal.
  - do 2 f_equal. unfold bufsize in *. rewrite Z.mod_small; lia.
  - rewrite <- fmap_S_seq, <- list_fmap_compose. unfold contents. apply list_fmap_ext.
    intros i x _. simpl. rewrite next_pos_mod by done. do 2 f_equal.
    unfold bufsize. rewrite Zplus_mod_idemp_l. f_equal. lia.
Qed.

Lemma contents_stored Q b :
  ioq_wf Q → used Q ≠ bufsize - 1 → contents (stored Q b) = contents Q ++ [b].
Proof.
  intros [Hb Hh Ht] Hu. pose proof (used_range Q) as Hr.
  assert (used (stored Q b) = used Q + 1) as Hu'.
  { unfold used, stored in *. simpl in *. rewrite next_pos_mod by done.
    unfold bufsize in *. zdm. }
  unfold contents at 1. rewrite Hu', Z2Nat.inj_add, Nat.add_1_r by lia.
  rewrite seq_S, fmap_app. f_equal.
  - unfold contents. apply list_fmap_ext. intros i x Hi. apply lookup_seq in Hi as [-> Hi].
    simpl. apply list_lookup_total_insert_ne. unfold used, bufsize in *. zdm.
  - simpl. f_equal. replace (Z.to_nat ((q_tail Q + Z.of_nat (Z.to_nat (used Q))) mod bufsize))
      with (Z.to_nat (q_head Q)).
    + apply list_lookup_total_insert_eq. unfold bufsize in *. lia.
    + f_equal. unfold used, bufsize in *. zdm.
Qed.

Lemma assign_contents Q w v : contents (assign Q w v) = contents Q.
Proof. by destruct w. Qed.

Lemma assign_wf Q w v : ioq_wf Q → ioq_wf (assign Q w v).
Proof. intros []. by destruct w; split. Qed.

(** * The stream of bytes

    Whatever the scheduler does, a program point takes the first byte, adds
    one at the end, or leaves the sequence alone. *)

Definition streams (Q Q' : ioqueue) (ev : io_event) : Prop :=
  match ev with
  | Quiet => contents Q' = contents Q
  | Put b => contents Q' = contents Q ++ [b]
  | Got b => contents Q = b :: contents Q'
  end.

Lemma buf_get_ok Q : ioq_wf Q → buf_get Q (q_tail Q) = Ok (buf Q !!! Z.to_nat (q_tail Q)).
Proof.
  intros [Hb _ Ht]. unfold buf_get. rewrite (proj2 (Z.leb_le _ _)) by lia.
  unfold bufsize in Ht. rewrite list_lookup_lookup_total_lt by lia. done.
Qed.

Lemma buf_set_ok Q b :
  ioq_wf Q → buf_set Q (q_head Q) b
  = Ok (Ioqueue (producer Q) (consumer Q) (<[Z.to_nat (q_head Q) := b]> (buf Q)) (q_head Q) (q_tail Q)).
Proof.
  intros [Hb Hh _]. unfold buf_set, bufsize in *.
  rewrite (proj2 (Z.leb_le _ _)), (proj2 (Z.ltb_lt _ _)) by lia. done.
Qed.

Section streams.
Context `{Symbols} (ioq : Z).

Lemma wakeup_queue K Q w K' Q' :
  wakeup K Q w = Ok (K', Q') → Q' = assign Q w NULL.
Proof.
  unfold wakeup. intros (? & _ & Hr)%bind_ok_inv. apply bind_ok_inv in Hr as (? & _ & Hr). naive_solver.
Qed.

Lemma maybe_wakeup_queue (c : bool) K Q w K' Q' :
  (if c then wakeup K Q w else Ok (K, Q)) = Ok (K', Q') →
  contents Q' = contents Q ∧ (ioq_wf Q → ioq_wf Q').
Proof.
  destruct c; [|naive_solver]. intros ->%wakeup_queue.
  split; [apply assign_contents|apply assign_wf].
Qed.

Lemma ioq_take_stream K Q K' Q' fs ev :
  ioq_wf Q → used Q ≠ 0 → ioq_take K Q = Ok (K', Q', fs, ev) →
  ioq_wf Q' ∧ streams Q Q' ev.
Proof.
  intros Hq Hu. unfold ioq_take. rewrite buf_get_ok by done. rb. cbv zeta.
  intros ([K1 Q1] & Hw & Hr)%bind_ok_inv. injection Hr as <- <- <- <-.
  apply maybe_wakeup_queue in Hw as [Hc Hwf]. split; [by apply Hwf, taken_wf|].
  simpl. rewrite Hc. by apply contents_taken.
Qed.

Lemma ioq_store_stream K Q b K' Q' fs ev :
  ioq_wf Q → used Q ≠ bufsize - 1 → ioq_store K Q b = Ok (K', Q', fs, ev) →
  ioq_wf Q' ∧ streams Q Q' ev.
Proof.
  intros Hq Hu. unfold ioq_store. rewrite buf_set_ok by done. rb. cbv zeta.
  intros ([K1 Q1] & Hw & Hr)%bind_ok_inv. injection Hr as <- <- <- <-.
  apply maybe_wakeup_queue in Hw as [Hc Hwf]. split; [by apply Hwf, (stored_wf Q)|].
  simpl. rewrite Hc. by apply (contents_stored Q).
Qed.

Lemma get_loop_stream K Q K' Q' fs ev :
  ioq_wf Q → get_loop ioq K Q = Ok (K', Q', fs, ev) → ioq_wf Q' ∧ streams Q Q' ev.
Proof.
  intros Hq. unfold get_loop, ioq_empty. intros (e & He & Hr)%bind_ok_inv.
  apply bind_ok_inv in He as (_ & _ & He). injection He as <-. rewrite empty_used in Hr by done.
  destruct (Z.eqb_spec (used Q) 0); [by simplify_eq|]. by eapply ioq_take_stream.
Qed.

Lemma put_loop_stream K Q b K' Q' fs ev :
  ioq_wf Q → put_loop ioq K Q b = Ok (K', Q', fs, ev) → ioq_wf Q' ∧ streams Q Q' ev.
Proof.
  intros Hq. unfold put_loop, ioq_full. intros (e & He & Hr)%bind_ok_inv.
  apply bind_ok_inv in He as (_ & _ & He). injection He as <-. rewrite full_used in Hr by done.
  destruct (Z.eqb_spec (used Q) (bufsize - 1)); [by simplify_eq|]. by eapply ioq_store_stream.
Qed.

Lemma wait_in_stream w loop K Q K' Q' fs ev :
  ioq_wf Q → wait_in ioq w loop K Q = Ok (K', Q', fs, ev) → ioq_wf Q' ∧ streams Q Q' ev.
Proof.
  intros Hq. unfold wait_in, ioq_wait. intros ([[old K1] Q1] & Hw & Hr)%bind_ok_inv.
  injection Hr as <- <- <- <-. apply bind_ok_inv in Hw as (_ & _ & Hw). cbv zeta in Hw.
  apply bind_ok_inv in Hw as ([? ?] & _ & Hw). injection Hw as _ _ <-.
  split; [by apply assign_wf|apply assign_contents].
Qed.

Lemma exec_io_stream K Q f K' Q' fs ev :
  ioq_wf Q → exec_io ioq K Q f = Ok (K', Q', fs, ev) → ioq_wf Q' ∧ streams Q Q' ev.
Proof.
  intros Hq. destruct f as [f| | | |b|b|b]; simpl.
  - intros ([K1 fs1] & _ & Hr)%bind_ok_inv. by simplify_eq.
  - unfold ioq_getchar. intros (_ & _ & Hr)%bind_ok_inv. by eapply get_loop_stream.
  - by apply get_loop_stream.
  - by apply wait_in_stream.
  - unfold ioq_putchar. intros (_ & _ & Hr)%bind_ok_inv. by eapply put_loop_stream.
  - by apply put_loop_stream.
  - by apply wait_in_stream.
Qed.
End streams.

(** * Interleaving

    Threads and interrupt handlers may call the queue, the locks and the
    scheduler at any point where they run; [i_put] and [i_got] record the
    bytes written and the bytes read so far. *)

Record io_config := IoConfig {
  i_ker : kernel;
  i_que : ioqueue;
  i_conts : gmap Z (list iopoint);
  i_put : list Z;
  i_got : list Z;
}.

Definition put_after (ev : io_event) (l : list Z) : list Z :=
  match ev with Put b => l ++ [b] | _ => l end.
Definition got_after (ev : io_event) (l : list Z) : list Z :=
  match ev with Got b => l ++ [b] | _ => l end.

Section io_step.
Context `{Symbols} (ioq : Z).

Inductive io_step : io_config → io_config → Prop :=
(* the running thread executes its next program point *)
| io_exec K Q cs ps gs f r K' Q' fs ev :
    cs !! running_thread K = Some (f :: r) → exec_io ioq K Q f = Ok (K', Q', fs, ev) →
    io_step (IoConfig K Q cs ps gs)
      (IoConfig K' Q' (<[running_thread K := fs ++ r]> cs) (put_after ev ps) (got_after ev gs))
(* a timer interrupt *)
| io_timer K Q cs ps gs st K' :
    intr_get_status (k_eflags K) = INTR_ON → cs !! running_thread K = Some st →
    intr_timer_handler (set_eflags K (cli (k_eflags K))) = Ok K' →
    io_step (IoConfig K Q cs ps gs)
      (IoConfig K' Q (<[running_thread K := InSync (TimerReturn (k_eflags K)) :: st]> cs) ps gs)
(* a call, by the thread itself or by an interrupt handler on top of it *)
| io_call K Q cs ps gs st f :
    cs !! running_thread K = Some st →
    io_step (IoConfig K Q cs ps gs) (IoConfig K Q (<[running_thread K := f :: st]> cs) ps gs)
(* interrupts are switched on or off, the stack pointer moves *)
| io_intr K Q cs ps gs s :
    io_step (IoConfig K Q cs ps gs)
      (IoConfig (set_eflags K (intr_set_status s (k_eflags K)).2) Q cs ps gs)
| io_stack K Q cs ps gs a :
    stack_ok (running_thread K) a →
    io_step (IoConfig K Q cs ps gs) (IoConfig (set_esp K a) Q cs ps gs).

Inductive io_reachable (c0 : io_config) : io_config → Prop :=
| io_refl : io_reachable c0 c0
| io_next c c' : io_reachable c0 c → io_step c c' → io_reachable c0 c'.

Definition io_fifo (c : io_config) : Prop :=
  ioq_wf (i_que c) ∧ i_put c = i_got c ++ contents (i_que c).

Lemma io_step_fifo c c' : io_fifo c → io_step c c' → io_fifo c'.
Proof.
  intros [Hq Hs] Hst. destruct Hst as [K Q cs ps gs f r K' Q' fs ev _ Hx| | | |]; try done.
  simpl in *. destruct (exec_io_stream ioq K Q f K' Q' fs ev Hq Hx) as [Hq' Hst].
  split; [done|]. simpl. destruct ev as [|b|b]; simpl in *.
  - by rewrite Hst.
  - by rewrite Hs, Hst, app_assoc.
  - by rewrite Hs, Hst, <- app_assoc.
Qed.

Lemma io_reachable_fifo c0 c : io_fifo c0 → io_reachable c0 c → io_fifo c.
Proof. intros H0. induction 1 as [|c c' _ IH Hst]; [done|]. by eapply io_step_fifo. Qed.
End io_step.

(** * Transfers without waiting *)

Section transfer.
Context `{Symbols}.

(** Who may be registered as a waiter: nobody, or a blocked thread that is in
    no queue. *)
Definition waiter_ok (K : kernel) (qs : gmap Z (list Z)) (t : Z) : Prop :=
  t ≠ NULL → ∃ T, k_tasks K !! t = Some T ∧ blocked_status (status T) = true
    ∧ ∀ p lp, qs !! p = Some lp → p ≠ thread_all_list → general_tag t ∉ lp.

(** The ready list once the waiter has been woken. *)
Definition woken (qs : gmap Z (list Z)) (l : list Z) (t : Z) : gmap Z (list Z) :=
  if t =? NULL then qs else <[thread_ready_list := general_tag t :: l]> qs.

Lemma maybe_wakeup_holds K cur qs l Q w :
  sched_inv K cur qs → qs !! thread_ready_list = Some l → waiter_ok K qs (deref Q w) →
  ∃ K', (if negb (deref Q w =? NULL) then wakeup K Q w else Ok (K, Q)) = Ok (K', assign Q w NULL)
    ∧ k_eflags K' = k_eflags K ∧ sched_inv K' cur (woken qs l (deref Q w))
    ∧ (∀ T, deref Q w ≠ NULL → k_tasks K !! deref Q w = Some T →
        k_tasks K' !! deref Q w = Some (with_status T TASK_READY)).
Proof.
  intros Hi Hl Hw. unfold woken. destruct (Z.eqb_spec (deref Q w) NULL) as [E|Hne]; simpl.
  - exists K. split_and!; auto; [|done]. do 2 f_equal. destruct w, Q; simpl in *; by subst.
  - destruct (Hw Hne) as (T & HT & Hs & Hno).
    destruct (thread_unblock_holds K cur qs (deref Q w) T l) as (n' & Hu & Hinv); auto.
    eexists. unfold wakeup. rewrite (proj2 (Z.eqb_neq _ _) Hne). simpl negb.
    rewrite assert_true by done. rb. rewrite Hu. rb. split_and!; [done..|].
    intros T' _ HT'. simplify_eq. apply lookup_insert_eq.
Qed.

(** The two transfers on a queue that lets them through. *)
Lemma ioq_putchar_holds ioq K cur qs l Q b :
  sched_inv K cur qs → qs !! thread_ready_list = Some l →
  intr_get_status (k_eflags K) = INTR_OFF → ioq_wf Q → waiter_ok K qs (consumer Q) →
  used Q ≠ bufsize - 1 →
  ∃ K', ioq_putchar ioq K Q b
      = Ok (K', assign (stored Q (s8 b)) Consumer NULL, [], Put (s8 b))
    ∧ sched_inv K' cur (woken qs l (consumer Q)).
Proof.
  intros Hi Hl Hoff Hq Hw Hu. unfold ioq_putchar, put_loop, ioq_full.
  rewrite full_used, (proj2 (Z.eqb_neq _ _) Hu), bool_decide_true, assert_true by done. rb.
  unfold ioq_store. rewrite buf_set_ok by done. rb. cbv zeta. fold (stored Q (s8 b)).
  destruct (maybe_wakeup_holds K cur qs l (stored Q (s8 b)) Consumer) as (K' & HK & _ & Hinv & _);
    auto.
  exists K'. unfold stored in HK |- *. cbn in HK |- *. rewrite HK. rb. done.
Qed.

Lemma ioq_getchar_holds ioq K cur qs l Q :
  sched_inv K cur qs → qs !! thread_ready_list = Some l →
  intr_get_status (k_eflags K) = INTR_OFF → ioq_wf Q → waiter_ok K qs (producer Q) →
  used Q ≠ 0 →
  ∃ K', ioq_getchar ioq K Q
      = Ok (K', assign (taken Q) Producer NULL, [], Got (buf Q !!! Z.to_nat (q_tail Q)))
    ∧ sched_inv K' cur (woken qs l (producer Q)).
Proof.
  intros Hi Hl Hoff Hq Hw Hu. unfold ioq_getchar, get_loop, ioq_empty.
  rewrite empty_used, (proj2 (Z.eqb_neq _ _) Hu), bool_decide_true, assert_true by done. rb.
  unfold ioq_take. rewrite buf_get_ok by done. rb. cbv zeta. fold (taken Q).
  destruct (maybe_wakeup_holds K cur qs l (taken Q) Producer) as (K' & HK & _ & Hinv & _); auto.
  change (deref (taken Q) Producer) with (producer (taken Q)) in HK.
  exists K'. rewrite HK. rb. done.
Qed.

(** Nobody waits: the kernel does not change. *)
Lemma ioq_putchar_quiet ioq K Q b :
  intr_get_status (k_eflags K) = INTR_OFF → ioq_wf Q → consumer Q = NULL →
  used Q ≠ bufsize - 1 →
  ioq_putchar ioq K Q b = Ok (K, stored Q (s8 b), [], Put (s8 b)).
Proof.
  intros Hoff Hq Hc Hu. unfold ioq_putchar, put_loop, ioq_full.
  rewrite full_used, (proj2 (Z.eqb_neq _ _) Hu), bool_decide_true, assert_true by done. rb.
  unfold ioq_store. rewrite buf_set_ok by done. rb. cbv zeta. cbn [consumer producer buf q_head q_tail].
  unfold stored. by rewrite Hc.
Qed.
End transfer.
