(* ===== verification/IoqueueProps.v ===== *)
(** What the ring buffer of device/ioqueue.c guarantees: first in, first out
    under every interleaving, transfers that wake the other side, and the
    way of a reader that finds the queue empty. *)
From S2P Require Import Prelude Bitmap Paging Memory MemInit MemProps.
From S2P Require Import Interrupt DList Sched SchedProps Sync SyncInv SyncSafe Uncontended Ioqueue.

(** * Running a thread until it leaves the processor *)

Section run.
Context `{Symbols} (ioq : Z).

(** The program points of the running thread, in order, until none is left or
    another thread has taken over. *)
Fixpoint io_run (n : nat) (K : kernel) (Q : ioqueue) (fs : list iopoint)
    : res (kernel * ioqueue * list iopoint) :=
  match fs, n with
  | [], _ => Ok (K, Q, [])
  | _, O => OutOfFuel
  | f :: r, S n =>
      '(K', Q', fs', _) ← exec_io ioq K Q f;
      if running_thread K' =? running_thread K then io_run n K' Q' (fs' ++ r)
      else Ok (K', Q', fs' ++ r)
  end.

Lemma io_run_stay n K Q f r K' Q' fs' ev :
  exec_io ioq K Q f = Ok (K', Q', fs', ev) → running_thread K' = running_thread K →
  io_run (S n) K Q (f :: r) = io_run n K' Q' (fs' ++ r).
Proof. intros Hx Hr. cbn [io_run]. rewrite Hx. rb. by rewrite Hr, Z.eqb_refl. Qed.

Lemma io_run_leave n K Q f r K' Q' fs' ev :
  exec_io ioq K Q f = Ok (K', Q', fs', ev) → running_thread K' ≠ running_thread K →
  io_run (S n) K Q (f :: r) = Ok (K', Q', fs' ++ r).
Proof. intros Hx Hr. cbn [io_run]. rewrite Hx. rb. by rewrite (proj2 (Z.eqb_neq _ _) Hr). Qed.

(** The kernel after [lock_acquire] on a free lock. *)
Definition locked (K : kernel) : kernel :=
  put_lock (put_sema K (semaphore ioq) 0) ioq (Lock (running_thread K) 1).

Lemma set_eflags_same K : set_eflags K (k_eflags K) = K.
Proof. by destruct K. Qed.

Lemma intr_disable_stay e : intr_get_status e = INTR_OFF → intr_disable e = (INTR_OFF, e).
Proof. intros Hoff. unfold intr_disable. by rewrite Hoff. Qed.

(** A free lock is taken without leaving the processor. *)
Lemma io_run_acquire n K Q r :
  intr_get_status (k_eflags K) = INTR_OFF → running_thread K ≠ NULL →
  k_locks K !! ioq = Some (Lock NULL 0) → k_semas K !! semaphore ioq = Some 1 →
  io_run (5 + n) K Q (InSync (LockAcquire ioq) :: r) = io_run n (locked K) Q r.
Proof.
  intros Hoff Hnn Hl Hs. set (K1 := put_sema K (semaphore ioq) 0).
  set (K2 := put_lock K1 ioq (Lock (running_thread K) 0)).
  cbn [Nat.add]. erewrite io_run_stay; [|simpl; unfold lock_acquire, get_lock;
    rewrite Hl; rb; simpl holder; by rewrite (proj2 (Z.eqb_neq NULL _)) by done|done].
  cbn [map app]. erewrite io_run_stay; [|simpl; unfold sema_down;
    by rewrite intr_disable_stay, set_eflags_same by done|done].
  cbn [map app]. erewrite (io_run_stay _ K _ _ _ K1); [| |done].
  2: { simpl. unfold sema_down_loop, get_sema. rewrite Hs. rb.
       change (1 =? 0) with false. cbv iota zeta. change (u8 (1 - 1)) with 0.
       rewrite assert_true by done. rb. fold K1. simpl intr_set_status.
       change (k_eflags K1) with (k_eflags K). rewrite intr_disable_stay by done.
       simpl snd. by destruct K. }
  cbn [map app]. erewrite (io_run_stay _ K1 _ _ _ K2); [|simpl; unfold lock_acquired, get_lock;
    change (k_locks K1) with (k_locks K); rewrite Hl; by rb|done].
  cbn [map app]. rewrite (io_run_stay n K2 Q _ r (locked K) Q [] Quiet); [done| |done].
  simpl. unfold lock_count, get_lock. subst K2. simpl k_locks. rewrite lookup_insert_eq. rb.
  simpl holder_repeat_nr. rewrite assert_true by done. rb. by rewrite put_lock_twice.
Qed.

Lemma locked_inv K cur qs : sched_inv K cur qs → sched_inv (locked K) cur qs.
Proof. by apply sched_inv_same. Qed.

Lemma cur_not_null K cur qs : sched_inv K cur qs → cur ≠ NULL.
Proof.
  intros [Hc (C & HC & _)]. destruct (sc_task _ _ _ Hc cur C HC). unfold NULL. lia.
Qed.

(** Waiting under the lock: the thread is registered, blocked and in no
    queue; the first ready thread runs. *)
Lemma io_run_wait n K cur qs Q w loop f r C m l' :
  (∀ K Q, exec_io ioq K Q f = wait_in ioq w loop K Q) →
  sched_inv K cur qs → intr_get_status (k_eflags K) = INTR_OFF →
  k_tasks K !! cur = Some C → qs !! thread_ready_list = Some (general_tag m :: l') →
  deref Q w = NULL →
  ∃ K', io_run (S n) K Q (f :: r)
      = Ok (K', assign Q w cur, [InSync (BlockReturn INTR_OFF); InSync (LockRelease ioq); loop] ++ r)
    ∧ running_thread K' = m ∧ intr_get_status (k_eflags K') = INTR_OFF
    ∧ k_locks K' = k_locks K ∧ sched_inv K' m (<[thread_ready_list := l']> qs)
    ∧ waiter_ok K' (<[thread_ready_list := l']> qs) cur
    ∧ k_tasks K' !! cur = Some (with_kstack (with_status C TASK_BLOCKED) (k_esp K - 28)).
Proof.
  intros Hf Hi Hoff HC Hl Hd. pose proof (core_running K cur qs (proj1 Hi)) as Hr.
  destruct (thread_block_holds K cur qs C TASK_BLOCKED m l') as (K' & HK & Hne & Hsw & Hinv); auto.
  pose proof (core_running K' m _ (proj1 Hinv)) as Hr'.
  assert (Ht : k_tasks K' !! cur = Some (with_kstack (with_status C TASK_BLOCKED) (k_esp K - 28))).
  { rewrite (sw_tasks _ _ _ _ Hsw). simpl. rewrite lookup_insert_eq. simpl. unfold sched_task.
    by rewrite (bool_decide_false (cur = m)), (bool_decide_true (cur = cur)) by done. }
  exists K'. split_and!; auto.
  - rewrite (io_run_leave n K Q f r K' (assign Q w cur)
      [InSync (BlockReturn INTR_OFF); InSync (LockRelease ioq); loop] Quiet); [done| |congruence].
    rewrite Hf. unfold wait_in, ioq_wait. rewrite Hd, assert_true by done. rb. cbv zeta.
    by rewrite HK, Hr, Hoff.
  - rewrite (sw_eflags _ _ _ _ Hsw). apply intr_disable_off.
  - by rewrite (sw_locks _ _ _ _ Hsw).
  - intros _. eexists. split_and!; [exact Ht|done|]. intros p lp Hp Hpa Hin.
    destruct (sc_queued _ _ _ (proj1 Hinv) p lp _ Hp Hpa Hin) as (t & T & Et & HT & Hnr & Hrd).
    apply general_tag_inj in Et. subst t. rewrite Ht in HT. injection HT as <-. simpl in *.
    rewrite lookup_insert in Hp. case_decide as E; [subst p; by destruct Hrd as [_ Hrd]; discriminate Hrd|].
    destruct Hi as [Hc (C' & HC' & Hrun)]. by eapply (running_no_queue K cur qs C').
Qed.
End run.

(** * Properties *)

Section properties.
Context `{Symbols} (ioq : Z).

(** C21: first in, first out.  Started empty, the queue delivers the bytes in
    the order in which they were written, whatever threads and interrupt
    handlers call and whenever the timer switches them: what has been read
    followed by what is in the buffer is what has been written, and the
    buffer never holds more than 1023 bytes. *)
Theorem ioq_fifo c0 c :
  ioq_wf (i_que c0) → contents (i_que c0) = [] → i_put c0 = [] → i_got c0 = [] →
  io_reachable ioq c0 c →
  i_put c = i_got c ++ contents (i_que c) ∧ Z.of_nat (length (contents (i_que c))) < bufsize.
Proof.
  intros Hq Hc Hp Hg Hr. assert (io_fifo c0) as H0 by (split; [done|by rewrite Hp, Hg, Hc]).
  apply (io_reachable_fifo ioq) in Hr as [_ Hs]; [|done]. split; [done|].
  rewrite length_contents. apply used_range.
Qed.

(** Transfers that need not wait.  [ioq_putchar] on a queue that is not full
    appends the byte, [ioq_getchar] on one that is not empty removes and
    returns the first; each wakes the thread waiting at the other end, which
    moves to the front of the ready list, and forgets it. *)
Theorem ioq_transfer K cur qs l Q b :
  sched_inv K cur qs → qs !! thread_ready_list = Some l →
  intr_get_status (k_eflags K) = INTR_OFF → ioq_wf Q →
  waiter_ok K qs (consumer Q) → waiter_ok K qs (producer Q) →
  (Z.of_nat (length (contents Q)) ≠ bufsize - 1 →
     ∃ K' Q', ioq_putchar ioq K Q b = Ok (K', Q', [], Put (s8 b))
       ∧ contents Q' = contents Q ++ [s8 b] ∧ consumer Q' = NULL ∧ producer Q' = producer Q
       ∧ sched_inv K' cur (woken qs l (consumer Q)))
  ∧ (∀ c s, contents Q = c :: s →
     ∃ K' Q', ioq_getchar ioq K Q = Ok (K', Q', [], Got c)
       ∧ contents Q' = s ∧ producer Q' = NULL ∧ consumer Q' = consumer Q
       ∧ sched_inv K' cur (woken qs l (producer Q))).
Proof.
  intros Hi Hl Hoff Hq Hcw Hpw. split.
  - rewrite length_contents. intros Hu.
    destruct (ioq_putchar_holds ioq K cur qs l Q b) as (K' & HK & Hinv); auto.
    eexists _, _. rewrite HK. split_and!; [done| |done..].
    by rewrite assign_contents, contents_stored.
  - intros c s Hcs. pose proof (length_contents Q) as Hlen. rewrite Hcs in Hlen. simpl in Hlen.
    assert (used Q ≠ 0) as Hu by lia. pose proof (contents_taken Q Hq Hu) as Ht.
    rewrite Hcs in Ht. injection Ht as -> ->.
    destruct (ioq_getchar_holds ioq K cur qs l Q) as (K' & HK & Hinv); auto.
    eexists _, _. rewrite HK. by split_and!.
Qed.

(** Waiting.  A reader of an empty queue and a writer of a full one take the
    free lock, register and block while they hold it: the first ready thread
    runs, and when the waiter runs again it will release the lock and test
    the queue once more. *)
Theorem ioq_blocks K cur qs C m l' Q b :
  sched_inv K cur qs → intr_get_status (k_eflags K) = INTR_OFF →
  k_tasks K !! cur = Some C → qs !! thread_ready_list = Some (general_tag m :: l') →
  k_locks K !! ioq = Some (Lock NULL 0) → k_semas K !! semaphore ioq = Some 1 → ioq_wf Q →
  ∀ w f loop,
    (w = Consumer ∧ f = GetCall ∧ loop = GetLoop ∧ contents Q = [])
    ∨ (w = Producer ∧ f = PutCall b ∧ loop = PutLoop b
       ∧ Z.of_nat (length (contents Q)) = bufsize - 1) →
    deref Q w = NULL →
    ∃ K', io_run ioq 7 K Q [f]
        = Ok (K', assign Q w cur,
              [InSync (BlockReturn INTR_OFF); InSync (LockRelease ioq); loop])
      ∧ running_thread K' = m ∧ k_locks K' !! ioq = Some (Lock cur 1)
      ∧ k_tasks K' !! cur = Some (with_kstack (with_status C TASK_BLOCKED) (k_esp K - 28))
      ∧ sched_inv K' m (<[thread_ready_list := l']> qs).
Proof.
  intros Hi Hoff HC Hl Hlk Hs Hq w f loop Hcase Hd.
  pose proof (core_running K cur qs (proj1 Hi)) as Hr.
  set (W := match w with Consumer => GetWait | Producer => PutWait b end).
  assert (Hfirst : exec_io ioq K Q f = Ok (K, Q, [InSync (LockAcquire ioq); W], Quiet)).
  { subst W. pose proof (length_contents Q) as Hlen.
    destruct Hcase as [(-> & -> & -> & Hc)|(-> & -> & -> & Hc)]; simpl.
    - unfold ioq_getchar, get_loop, ioq_empty. rewrite Hc in Hlen.
      rewrite empty_used, <- Hlen, bool_decide_true, assert_true by done. by rb.
    - unfold ioq_putchar, put_loop, ioq_full. rewrite full_used, <- Hlen, Hc by done.
      rewrite bool_decide_true, assert_true by done. by rb. }
  rewrite (io_run_stay ioq 6 K Q f [] K Q _ Quiet Hfirst eq_refl). cbn [app].
  rewrite (io_run_acquire ioq 1 K Q [W]); auto; [|rewrite Hr; by eapply cur_not_null].
  destruct (io_run_wait ioq 0 (locked ioq K) cur qs Q w loop W [] C m l')
    as (K' & HK & Hm & _ & Hlk' & Hinv & _ & Ht); auto.
  { subst W. by destruct Hcase as [(-> & _ & -> & _)|(-> & _ & -> & _)]. }
  { by apply locked_inv. }
  exists K'. split_and!; auto. rewrite Hlk', <- Hr. apply lookup_insert_eq.
Qed.

(** C32: hand-over.  A reader that finds the queue empty takes the queue's lock,
    registers as the waiting consumer and blocks holding the lock, with the
    release of the lock and another test of the queue before it; when the
    thread that runs next writes a byte, the byte is in the queue, the reader
    is no longer registered and stands first in the ready list. *)
Theorem ioq_handoff K cur qs C m l' Q b :
  sched_inv K cur qs → intr_get_status (k_eflags K) = INTR_OFF →
  k_tasks K !! cur = Some C → qs !! thread_ready_list = Some (general_tag m :: l') →
  k_locks K !! ioq = Some (Lock NULL 0) → k_semas K !! semaphore ioq = Some 1 → ioq_wf Q →
  contents Q = [] → consumer Q = NULL →
  ∃ K1 K2 Q2, io_run ioq 7 K Q [GetCall]
      = Ok (K1, assign Q Consumer cur,
            [InSync (BlockReturn INTR_OFF); InSync (LockRelease ioq); GetLoop])
    ∧ running_thread K1 = m ∧ k_locks K1 !! ioq = Some (Lock cur 1)
    ∧ k_tasks K1 !! cur = Some (with_kstack (with_status C TASK_BLOCKED) (k_esp K - 28))
    ∧ io_run ioq 1 K1 (assign Q Consumer cur) [PutCall b] = Ok (K2, Q2, [])
    ∧ running_thread K2 = m ∧ contents Q2 = [s8 b] ∧ consumer Q2 = NULL
    ∧ sched_inv K2 m (<[thread_ready_list := general_tag cur :: l']> qs).
Proof.
  intros Hi Hoff HC Hl Hlk Hs Hq Hc Hn. pose proof (core_running K cur qs (proj1 Hi)) as Hr.
  pose proof (cur_not_null K cur qs Hi) as Hnn.
  pose proof (length_contents Q) as Hlen. rewrite Hc in Hlen. simpl in Hlen.
  destruct (io_run_wait ioq 0 (locked ioq K) cur qs Q Consumer GetLoop GetWait [] C m l')
    as (K1 & HK & Hm & Hoff1 & Hlk1 & Hinv & Hw & Ht); auto; [by apply locked_inv|].
  set (Q2 := assign (stored (assign Q Consumer cur) (s8 b)) Consumer NULL).
  assert (Hq1 : ioq_wf (assign Q Consumer cur)) by by apply assign_wf.
  destruct (ioq_putchar_holds ioq K1 m (<[thread_ready_list := l']> qs) l'
    (assign Q Consumer cur) b) as (K2 & HK2 & Hinv2); auto.
  { apply lookup_insert_eq. }
  { change (used (assign Q Consumer cur)) with (used Q). unfold bufsize. lia. }
  unfold woken in Hinv2. simpl consumer in Hinv2. rewrite (proj2 (Z.eqb_neq _ _) Hnn) in Hinv2.
  rewrite insert_insert_eq in Hinv2.
  exists K1, K2, Q2. split_and!; [|done| |exact Ht| |by eapply core_running, Hinv2| | |done].
  - rewrite (io_run_stay ioq 6 K Q GetCall [] K Q [InSync (LockAcquire ioq); GetWait] Quiet); [|simpl|done].
    + cbn [app]. rewrite (io_run_acquire ioq 1 K Q [GetWait]); auto. by rewrite Hr.
    + unfold ioq_getchar, get_loop, ioq_empty.
      rewrite empty_used, <- Hlen, bool_decide_true, assert_true by done. by rb.
  - rewrite Hlk1, <- Hr. apply lookup_insert_eq.
  - rewrite (io_run_stay ioq 0 K1 _ (PutCall b) [] K2 Q2 [] (Put (s8 b))); [reflexivity| |].
    + exact HK2.
    + rewrite Hm. by eapply core_running, Hinv2.
  - subst Q2. rewrite assign_contents, contents_stored; [by rewrite assign_contents, Hc|by apply assign_wf|].
    change (used (assign Q Consumer cur)) with (used Q). unfold bufsize. lia.
  - done.
Qed.
End properties.

(** * Concrete runs *)

Module IoRuns.
Import SchedRuns.

(** The three threads of [SchedRuns] and an empty queue with a free lock. *)
Definition q : Z := 0xc0009000.
Definition Q0 : ioqueue := Ioqueue NULL NULL (replicate 1024 0) 0 0.
Definition with_queue (K : kernel) : kernel :=
  set_locks (set_semas K {[ semaphore q := 1 ]}) {[ q := Lock NULL 0 ]}.
Definition KQ : kernel := with_queue K0.

Lemma KQ_inv : sched_inv KQ main_ qs0.
Proof. apply (sched_inv_same K0 (with_queue K0)); [|exact K0_inv]. split_and!; reflexivity. Qed.

Lemma Q0_wf : ioq_wf Q0.
Proof. split; [reflexivity|..]; simpl; unfold bufsize; lia. Qed.

Lemma KQ_off : intr_get_status (k_eflags KQ) = INTR_OFF.
Proof. reflexivity. Qed.

Lemma nobody K qs : waiter_ok K qs NULL.
Proof. intros Hn. by destruct Hn. Qed.

(** A byte is written and read again. *)
Definition Q1 : ioqueue := stored Q0 65.

Lemma put_65 K : intr_get_status (k_eflags K) = INTR_OFF →
  exec_io q K Q0 (PutCall 65) = Ok (K, Q1, [], Put 65).
Proof. intros Hoff. simpl. unfold ioq_putchar, put_loop, ioq_full. by rewrite bool_decide_true. Qed.

Lemma get_65 K : intr_get_status (k_eflags K) = INTR_OFF →
  exec_io q K Q1 GetCall = Ok (K, taken Q1, [], Got 65).
Proof. intros Hoff. simpl. unfold ioq_getchar, get_loop, ioq_empty. by rewrite bool_decide_true. Qed.

Definition start (K : kernel) : io_config := IoConfig K Q0 {[ running_thread K := [] ]} [] [].

Definition cs1 (K : kernel) (cs : gmap Z (list iopoint)) (f : iopoint) : gmap Z (list iopoint) :=
  <[running_thread K := [] ++ []]> (<[running_thread K := [f]]> cs).

Lemma call_and_run c0 K Q cs ps gs f Q' ev :
  io_reachable q c0 (IoConfig K Q cs ps gs) → cs !! running_thread K = Some [] →
  exec_io q K Q f = Ok (K, Q', [], ev) →
  io_reachable q c0 (IoConfig K Q' (cs1 K cs f) (put_after ev ps) (got_after ev gs)).
Proof.
  intros Hr Hcs Hx. eapply io_next; [eapply io_next; [exact Hr|by apply io_call]|].
  by eapply io_exec; [apply lookup_insert_eq|].
Qed.

Definition echoed (K : kernel) : io_config :=
  IoConfig K (taken Q1) (cs1 K (cs1 K {[ running_thread K := [] ]} (PutCall 65)) GetCall) [65] [65].

Lemma echo_run K : intr_get_status (k_eflags K) = INTR_OFF → io_reachable q (start K) (echoed K).
Proof.
  intros Hoff. apply (call_and_run _ K Q1 _ [65] [] GetCall (taken Q1) (Got 65)).
  - apply (call_and_run _ K Q0 _ [] [] (PutCall 65) Q1 (Put 65)).
    + apply io_refl.
    + apply lookup_singleton_eq.
    + by apply put_65.
  - apply lookup_insert_eq.
  - by apply get_65.
Qed.

Lemma ioq_fifo_witness : io_reachable q (start KQ) (echoed KQ)
  ∧ i_put (echoed KQ) = i_got (echoed KQ) ++ contents (i_que (echoed KQ)).
Proof.
  split; [exact (echo_run KQ KQ_off)|].
  apply (ioq_fifo q (start KQ) (echoed KQ) Q0_wf).
  - reflexivity.
  - reflexivity.
  - reflexivity.
  - exact (echo_run KQ KQ_off).
Defined.

Lemma ioq_transfer_witness :
  ∃ K' Q', ioq_putchar q KQ Q0 97 = Ok (K', Q', [], Put (s8 97)) ∧ contents Q' = [97].
Proof.
  destruct (ioq_transfer q KQ main_ qs0 [general_tag B] Q0 97 KQ_inv) as [Hput _].
  - reflexivity.
  - exact KQ_off.
  - exact Q0_wf.
  - apply nobody.
  - apply nobody.
  - destruct Hput as (K' & Q' & HK & Hc & _).
    + rewrite length_contents. vm_compute. congruence.
    + exists K', Q'. split; [exact HK|exact Hc].
Defined.

Lemma ioq_blocks_witness :
  ∃ K', io_run q 7 KQ Q0 [GetCall]
      = Ok (K', assign Q0 Consumer main_,
            [InSync (BlockReturn INTR_OFF); InSync (LockRelease q); GetLoop])
    ∧ running_thread K' = B.
Proof.
  destruct (ioq_blocks q KQ main_ qs0 (task main_ TASK_RUNNING 31 2) B [] Q0 0 KQ_inv KQ_off)
    with (w := Consumer) (f := GetCall) (loop := GetLoop) as (K' & HK & Hr & _).
  - reflexivity.
  - reflexivity.
  - reflexivity.
  - reflexivity.
  - exact Q0_wf.
  - left. split_and!; reflexivity.
  - reflexivity.
  - exists K'. split; [exact HK|exact Hr].
Defined.

Lemma ioq_handoff_witness :
  ∃ K1 K2 Q1 Q2 fs, io_run q 7 KQ Q0 [GetCall] = Ok (K1, Q1, fs) ∧ running_thread K1 = B
    ∧ k_locks K1 !! q = Some (Lock main_ 1)
    ∧ io_run q 1 K1 Q1 [PutCall 97] = Ok (K2, Q2, []) ∧ contents Q2 = [97].
Proof.
  destruct (ioq_handoff q KQ main_ qs0 (task main_ TASK_RUNNING 31 2) B [] Q0 97 KQ_inv KQ_off)
    as (K1 & K2 & Q2 & H1 & Hr & Hl & _ & H2 & _ & Hc & _).
  - reflexivity.
  - reflexivity.
  - reflexivity.
  - reflexivity.
  - exact Q0_wf.
  - reflexivity.
  - reflexivity.
  - eexists K1, K2, _, Q2, _. split; [exact H1|]. split; [exact Hr|]. split; [exact Hl|]. split; [exact H2|exact Hc].
Defined.
End IoRuns.
