(* ===== verification/Keyboard.v ===== *)
(** device/keyboard.c: the scan-code state machine of the keyboard interrupt,
    which feeds the ring buffer [kbd_buf], against a specification of typing. *)
From Stdlib Require Import Ascii.
From S2P Require Import Prelude Bitmap Paging Memory MemInit MemProps.
From S2P Require Import Interrupt DList Sched SchedProps Sync SyncInv SyncSafe Ioqueue IoqueueProps.

(** * Data *)

(** A C character constant. *)
Definition chr (a : ascii) : Z := Z.of_N (N_of_ascii a).
Arguments chr a%_char_scope.

Definition esc : Z := 27.
Definition backspace : Z := 8.
Definition tab : Z := 9.
Definition enter : Z := 13.
Definition char_invisible : Z := 0.
Definition ctrl_l_char : Z := char_invisible.
Definition shift_l_char : Z := char_invisible.
Definition shift_r_char : Z := char_invisible.
Definition alt_l_char : Z := char_invisible.
Definition caps_lock_char : Z := char_invisible.

Definition shift_l_make : Z := 0x2a.
Definition shift_r_make : Z := 0x36.
Definition alt_l_make : Z := 0x38.
Definition alt_r_make : Z := 0xe038.
Definition ctrl_l_make : Z := 0x1d.
Definition ctrl_r_make : Z := 0xe01d.
Definition caps_lock_make : Z := 0x3a.

(** The static flags of the driver. *)
Record kbd := Kbd {
  ctrl_status : bool;
  shift_status : bool;
  alt_status : bool;
  caps_lock_status : bool;
  ext_scancode : bool;
}.

Definition set_ctrl (S : kbd) (b : bool) : kbd :=
  Kbd b (shift_status S) (alt_status S) (caps_lock_status S) (ext_scancode S).
Definition set_shift (S : kbd) (b : bool) : kbd :=
  Kbd (ctrl_status S) b (alt_status S) (caps_lock_status S) (ext_scancode S).
Definition set_alt (S : kbd) (b : bool) : kbd :=
  Kbd (ctrl_status S) (shift_status S) b (caps_lock_status S) (ext_scancode S).
Definition set_caps (S : kbd) (b : bool) : kbd :=
  Kbd (ctrl_status S) (shift_status S) (alt_status S) b (ext_scancode S).
Definition set_ext (S : kbd) (b : bool) : kbd :=
  Kbd (ctrl_status S) (shift_status S) (alt_status S) (caps_lock_status S) b.

(** [keymap], by make code; without and with shift. *)
Definition keymap : list (Z * Z) :=
  [ (0, 0); (esc, esc); (chr "1", chr "!"); (chr "2", chr "@"); (chr "3", chr "#");
    (chr "4", chr "$"); (chr "5", chr "%"); (chr "6", chr "^"); (chr "7", chr "&");
    (chr "8", chr "*"); (chr "9", chr "("); (chr "0", chr ")"); (chr "-", chr "_");
    (chr "=", chr "+"); (backspace, backspace); (tab, tab); (chr "q", chr "Q");
    (chr "w", chr "W"); (chr "e", chr "E"); (chr "r", chr "R"); (chr "t", chr "T");
    (chr "y", chr "Y"); (chr "u", chr "U"); (chr "i", chr "I"); (chr "o", chr "O");
    (chr "p", chr "P"); (chr "[", chr "{"); (chr "]", chr "}"); (enter, enter);
    (ctrl_l_char, ctrl_l_char); (chr "a", chr "A"); (chr "s", chr "S"); (chr "d", chr "D");
    (chr "f", chr "F"); (chr "g", chr "G"); (chr "h", chr "H"); (chr "j", chr "J");
    (chr "k", chr "K"); (chr "l", chr "L"); (chr ";", chr ":"); (chr "'", 34);
    (chr "`", chr "~"); (shift_l_char, shift_l_char); (chr "\", chr "|");
    (chr "z", chr "Z"); (chr "x", chr "X"); (chr "c", chr "C"); (chr "v", chr "V");
    (chr "b", chr "B"); (chr "n", chr "N"); (chr "m", chr "M"); (chr ",", chr "<");
    (chr ".", chr ">"); (chr "/", chr "?"); (shift_r_char, shift_r_char);
    (chr "*", chr "*"); (alt_l_char, alt_l_char); (chr " ", chr " ");
    (caps_lock_char, caps_lock_char) ].

Definition keymap_at (index : Z) (shift : bool) : res Z :=
  match keymap !! Z.to_nat index with
  | Some (plain, shifted) => Ok (if shift then shifted else plain)
  | None => Fault
  end.

(** The keys on which caps lock has no effect. *)
Definition two_faced (scancode : Z) : bool :=
  (scancode <? 0x0e) || (scancode =? 0x29) || (scancode =? 0x1a) || (scancode =? 0x1b)
  || (scancode =? 0x2b) || (scancode =? 0x27) || (scancode =? 0x28) || (scancode =? 0x33)
  || (scancode =? 0x34) || (scancode =? 0x35).

(** What [put_str] of an interrupt handler gets: the characters and the final 0. *)
Definition unknow_key : list Z := map chr (String.list_ascii_of_string "unknow key") ++ [10; 0].

(** * Operations *)

Section keyboard.
Context `{Symbols} (kbd_buf : Z).

(** [port] is the byte read from port 0x60.  The handler runs with interrupts
    off; the last component is what [ioq_putchar] would still have to do.
    [put_str] adds to [k_out]. *)
Definition intr_keyboard_handler (K : kernel) (Q : ioqueue) (S : kbd) (port : Z)
    : res (kernel * ioqueue * kbd * list iopoint) :=
  let shift_down_last := shift_status S in
  let caps_lock_last := caps_lock_status S in
  let scancode := u8 port in
  if scancode =? 0xe0 then Ok (K, Q, set_ext S true, []) else
  let scancode' := if ext_scancode S then u8 (Z.lor 0xe000 scancode) else scancode in
  let S := if ext_scancode S then set_ext S false else S in
  let scancode := scancode' in
  let break_code := negb (Z.land scancode 0x0080 =? 0) in
  if break_code then
    let make_code := u16 (Z.land scancode 0xff7f) in
    Ok (K, Q,
        if (make_code =? ctrl_l_make) || (make_code =? ctrl_r_make) then set_ctrl S false
        else if (make_code =? shift_l_make) || (make_code =? shift_r_make) then set_shift S false
        else if (make_code =? alt_l_make) || (make_code =? alt_r_make) then set_alt S false
        else S, [])
  else if ((scancode >? 0) && (scancode <? 0x3b)) || (scancode =? alt_r_make)
          || (scancode =? ctrl_r_make) then
    let shift :=
      if two_faced scancode then shift_down_last
      else if shift_down_last && caps_lock_last then false
      else shift_down_last || caps_lock_last in
    let scancode := u8 (Z.land scancode 0x00ff) in
    cur_char ← keymap_at scancode shift;
    if negb (cur_char =? 0) then
      full ← ioq_full K Q;
      if negb full then
        '(K, Q, fs, _) ← ioq_putchar kbd_buf K Q cur_char;
        Ok (K, Q, S, fs)
      else Ok (K, Q, S, [])
    else
      Ok (K, Q,
          if (scancode =? ctrl_l_make) || (scancode =? ctrl_r_make) then set_ctrl S true
          else if (scancode =? shift_l_make) || (scancode =? shift_r_make) then set_shift S true
          else if scancode =? caps_lock_make then set_caps S (negb (caps_lock_status S))
          else S, [])
  else Ok (set_out K (k_out K ++ [unknow_key]), Q, S, []).

(** [function] is the address of the handler. *)
Definition keyboard_init (K : kernel) (Q : ioqueue) (T : intr_tables) (function : Z)
    : res (kernel * ioqueue * intr_tables) :=
  '(K, Q) ← ioqueue_init kbd_buf K Q;
  T ← register_handler T 0x21 function;
  Ok (K, Q, T).

(** A sequence of keyboard interrupts. *)
Fixpoint kbd_run (K : kernel) (Q : ioqueue) (S : kbd) (ports : list Z)
    : res (kernel * ioqueue * kbd) :=
  match ports with
  | [] => Ok (K, Q, S)
  | c :: r =>
      '(K, Q, S, fs) ← intr_keyboard_handler K Q S c;
      match fs with [] => kbd_run K Q S r | _ => OutOfFuel end
  end.
End keyboard.

(** * Typing, specified *)

(** Whether the last of the events of some keys was a press. *)
Definition last_press (makes breaks codes : list Z) : bool :=
  match last (filter (λ c, c ∈ makes ++ breaks) codes) with
  | Some c => bool_decide (c ∈ makes)
  | None => false
  end.

(** The key with make code [mk] is held down. *)
Definition held (mk : Z) : list Z → bool := last_press [mk] [mk + 0x80].

(** Shift counts as active when the last event of the two shift keys was a
    press; when both keys are used this is not whether one of them is held. *)
Definition shift_flag : list Z → bool := last_press [0x2a; 0x36] [0xaa; 0xb6].

(** Caps lock is on after an odd number of presses. *)
Definition caps_on (codes : list Z) : bool := Nat.odd (length (filter (λ c, c = 0x3a) codes)).

(** The bytes no branch of the driver knows. *)
Definition unknown_code (c : Z) : bool := (c =? 0) || (0x3b <=? c) && (c <? 0x80).

(** One message for each of them. *)
Definition messages (codes : list Z) : list (list Z) :=
  map (λ _, unknow_key) (filter (λ c, unknown_code c = true) codes).

Definition is_letter (ch : Z) : bool := (97 <=? ch) && (ch <=? 122).

(** The character of the key [c], 0 for none: a letter is a capital when one of
    shift and caps lock is active and not both, any other key follows shift. *)
Definition key_char (shift caps : bool) (c : Z) : Z :=
  match keymap !! Z.to_nat c with
  | Some (plain, shifted) =>
      if is_letter plain then (if xorb shift caps then plain - 32 else plain)
      else if shift then shifted else plain
  | None => 0
  end.

Definition key_text (past : list Z) (c : Z) : list Z :=
  let ch := key_char (shift_flag past) (caps_on past) c in
  if ch =? 0 then [] else [ch].

Fixpoint typed (past codes : list Z) : list Z :=
  match codes with
  | [] => []
  | c :: r => key_text past c ++ typed (past ++ [c]) r
  end.

(** * The handler computes the specification *)

#[global] Instance kbd_eq_dec : EqDecision kbd.
Proof. solve_decision. Defined.

(** The flags after the byte [c]. *)
Definition next_flags (S : kbd) (c : Z) : kbd :=
  if c =? 0xe0 then set_ext S true
  else Kbd (if c =? 0x1d then true else if c =? 0x9d then false else ctrl_status S)
           (if (c =? 0x2a) || (c =? 0x36) then true
            else if (c =? 0xaa) || (c =? 0xb6) then false else shift_status S)
           (if c =? 0xb8 then false else alt_status S)
           (if c =? 0x3a then negb (caps_lock_status S) else caps_lock_status S)
           false.

(** The part of the handler that touches neither queue nor screen: the new
    flags, whether to print the message, and the character to send. *)
Definition decode (S : kbd) (port : Z) : kbd * bool * res Z :=
  let scancode := u8 port in
  if scancode =? 0xe0 then (set_ext S true, false, Ok 0) else
  let scancode' := if ext_scancode S then u8 (Z.lor 0xe000 scancode) else scancode in
  let S' := if ext_scancode S then set_ext S false else S in
  if negb (Z.land scancode' 0x0080 =? 0) then
    let make_code := u16 (Z.land scancode' 0xff7f) in
    (if (make_code =? ctrl_l_make) || (make_code =? ctrl_r_make) then set_ctrl S' false
     else if (make_code =? shift_l_make) || (make_code =? shift_r_make) then set_shift S' false
     else if (make_code =? alt_l_make) || (make_code =? alt_r_make) then set_alt S' false
     else S', false, Ok 0)
  else if ((scancode' >? 0) && (scancode' <? 0x3b)) || (scancode' =? alt_r_make)
          || (scancode' =? ctrl_r_make) then
    let shift :=
      if two_faced scancode' then shift_status S
      else if shift_status S && caps_lock_status S then false
      else shift_status S || caps_lock_status S in
    let scancode := u8 (Z.land scancode' 0x00ff) in
    (match keymap_at scancode shift with
     | Ok ch => if negb (ch =? 0) then S'
         else if (scancode =? ctrl_l_make) || (scancode =? ctrl_r_make) then set_ctrl S' true
         else if (scancode =? shift_l_make) || (scancode =? shift_r_make) then set_shift S' true
         else if scancode =? caps_lock_make then set_caps S' (negb (caps_lock_status S'))
         else S'
     | _ => S'
     end, false, keymap_at scancode shift)
  else (S', true, Ok 0).

Section decode.
Context `{Symbols} (kbd_buf : Z).

(** The message, then the character. *)
Definition noted (K : kernel) (b : bool) : kernel :=
  if b then set_out K (k_out K ++ [unknow_key]) else K.

Definition send (K : kernel) (Q : ioqueue) (r : kbd * bool * res Z)
    : res (kernel * ioqueue * kbd * list iopoint) :=
  let K := noted K r.1.2 in
  ch ← r.2;
  if negb (ch =? 0) then
    full ← ioq_full K Q;
    if negb full then '(K, Q, fs, _) ← ioq_putchar kbd_buf K Q ch; Ok (K, Q, r.1.1, fs)
    else Ok (K, Q, r.1.1, [])
  else Ok (K, Q, r.1.1, []).

Lemma handler_decode K Q S c :
  intr_keyboard_handler kbd_buf K Q S c = send K Q (decode S c).
Proof.
  unfold intr_keyboard_handler, decode, send. cbv zeta.
  set (e := ext_scancode S). set (sc := if e then _ else _). set (S' := if e then _ else _).
  destruct (u8 c =? 0xe0); [done|].
  destruct (negb (Z.land sc 0x80 =? 0)); [done|].
  destruct (_ || _ || _); [|done]. cbn [fst snd].
  set (sh := if two_faced sc then _ else _). destruct (keymap_at _ sh) as [ch| | |]; [|done..].
  rb. by destruct (negb (ch =? 0)).
Qed.
End decode.

Definition flags : list bool := [false; true].

Definition decode_check : bool :=
  forallb (λ ct, forallb (λ sh, forallb (λ al, forallb (λ cp, forallb (λ ex,
    let S := Kbd ct sh al cp ex in
    all_range 0 256 (λ c,
      match decode S c with
      | (S', b, Ok ch) => bool_decide (S' = next_flags S c) && Bool.eqb b (unknown_code c) && (ch =? key_char sh cp c) && (s8 ch =? ch)
      | _ => false
      end)) flags) flags) flags) flags) flags.

Lemma decode_spec S c :
  0 ≤ c < 256 →
  let ch := key_char (shift_status S) (caps_lock_status S) c in
  decode S c = (next_flags S c, unknown_code c, Ok ch) ∧ s8 ch = ch.
Proof.
  intros Hc. assert (H : decode_check = true) by (vm_compute; reflexivity).
  unfold decode_check in H. destruct S as [ct sh al cp ex].
  assert (Hf : ∀ b P, forallb P flags = true → P b = true).
  { intros b P. simpl. rewrite !andb_true_iff. by destruct b; intros (? & ? & _). }
  apply (Hf ct), (Hf sh), (Hf al), (Hf cp), (Hf ex) in H.
  cbv zeta in H. eapply (all_range_spec _ _ _ c) in H; [|done]. cbv beta in H.
  destruct (decode _ c) as [[S' b] [ch| | |]]; try done.
  rewrite !andb_true_iff in H.
  destruct H as [[[H1%bool_decide_eq_true Hb%Bool.eqb_prop] H2%Z.eqb_eq] H3%Z.eqb_eq].
  simpl. by subst.
Qed.

(** A key with a character is a known one. *)
Lemma key_char_known sh cp c : 0 ≤ c → key_char sh cp c ≠ 0 → unknown_code c = false.
Proof.
  intros Hc Hne. unfold unknown_code. apply orb_false_iff. split.
  - apply Z.eqb_neq. intros ->. by destruct sh, cp.
  - destruct (Z.leb_spec 0x3b c); [|done]. destruct Hne. unfold key_char.
    rewrite lookup_ge_None_2; [done|]. change (length keymap) with 59%nat. lia.
Qed.

(** * Typing *)

Lemma last_press_snoc ms bs codes c :
  last_press ms bs (codes ++ [c])
  = if bool_decide (c ∈ ms) then true
    else if bool_decide (c ∈ bs) then false else last_press ms bs codes.
Proof.
  unfold last_press. rewrite filter_app. destruct (decide (c ∈ ms ++ bs)) as [Hc|Hc].
  - rewrite filter_cons_True, filter_nil, last_snoc by done. apply elem_of_app in Hc.
    repeat case_bool_decide; tauto.
  - rewrite filter_cons_False, filter_nil, app_nil_r by done. rewrite elem_of_app in Hc.
    repeat case_bool_decide; tauto.
Qed.

Lemma caps_on_snoc codes c : caps_on (codes ++ [c]) = if c =? 0x3a then negb (caps_on codes) else caps_on codes.
Proof.
  unfold caps_on. rewrite filter_app, length_app. destruct (Z.eqb_spec c 0x3a) as [->|Hc].
  - rewrite filter_cons_True, filter_nil by done. simpl length. by rewrite Nat.add_1_r, Nat.odd_succ, Nat.negb_odd.
  - rewrite filter_cons_False, filter_nil by done. simpl length. by rewrite Nat.add_0_r.
Qed.



Lemma take_take_app {A} (l k : list A) n : take n (take n l ++ k) = take n (l ++ k).
Proof.
  destruct (decide (n ≤ length l)%nat).
  - rewrite !take_app_le; [|done|rewrite length_take; lia]. by rewrite take_take, Nat.min_id.
  - by rewrite (take_ge l) by lia.
Qed.

(** The flags that agree with what has been pressed so far.  [alt_status] is
    never set. *)
Definition flags_ok (S : kbd) (past : list Z) : Prop :=
  ctrl_status S = held 0x1d past ∧ shift_status S = shift_flag past
  ∧ caps_lock_status S = caps_on past ∧ alt_status S = false.

Lemma flags_step S past c : flags_ok S past → flags_ok (next_flags S c) (past ++ [c]).
Proof.
  intros (H1 & H2 & H3 & H4). unfold flags_ok, held, shift_flag in *.
  rewrite !last_press_snoc, caps_on_snoc, <- H1, <- H2, <- H3. unfold next_flags.
  destruct (Z.eqb_spec c 0xe0) as [->|Hne].
  - done.
  - simpl. rewrite H4. split_and!; [| |done|by destruct (c =? 0xb8)].
    + destruct (Z.eqb_spec c 0x1d), (Z.eqb_spec c 0x9d);
        repeat case_bool_decide; set_solver.
    + destruct (Z.eqb_spec c 0x2a), (Z.eqb_spec c 0x36), (Z.eqb_spec c 0xaa), (Z.eqb_spec c 0xb6);
        simpl; repeat case_bool_decide; set_solver.
Qed.

Section typing.
Context `{Symbols} (kbd_buf : Z).

Lemma key_holds K Q S past c :
  intr_get_status (k_eflags K) = INTR_OFF → ioq_wf Q → consumer Q = NULL →
  flags_ok S past → 0 ≤ c < 256 →
  ∃ Q', intr_keyboard_handler kbd_buf K Q S c = Ok (noted K (unknown_code c), Q', next_flags S c, [])
    ∧ ioq_wf Q' ∧ consumer Q' = NULL ∧ contents Q' = take 1023 (contents Q ++ key_text past c).
Proof.
  intros Hoff Hq Hn (_ & Hs & Hcp & _) Hc. rewrite handler_decode.
  destruct (decode_spec S c Hc) as [-> H8]. unfold send. cbn [fst snd]. rb.
  assert (Hoff' : intr_get_status (k_eflags (noted K (unknown_code c))) = INTR_OFF)
    by by destruct (unknown_code c).
  unfold key_text. rewrite <- Hs, <- Hcp. cbv zeta. set (K' := noted K _) in *. clearbody K'. set (ch := key_char _ _ c) in *.
  pose proof (length_contents Q) as Hlen. pose proof (used_range Q) as Hr. unfold bufsize in *.
  destruct (ch =? 0); simpl negb; cbv iota.
  { exists Q. split_and!; [done..|]. rewrite app_nil_r, take_ge by lia. done. }
  unfold ioq_full. rewrite bool_decide_true, assert_true, full_used by done. rb.
  destruct (Z.eqb_spec (used Q) (bufsize - 1)) as [E|E]; simpl negb; cbv iota.
  - exists Q. split_and!; [done..|]. unfold bufsize in E.
    rewrite take_app_le, take_ge by lia. done.
  - rewrite ioq_putchar_quiet by done. rb. exists (stored Q (s8 ch)).
    split_and!; [done|by apply stored_wf|done|]. rewrite contents_stored, H8 by done.
    rewrite take_ge; [done|]. rewrite length_app. simpl. unfold bufsize in E. lia.
Qed.

Lemma noted_out K c :
  noted K (unknown_code c) = set_out K (k_out K ++ messages [c]).
Proof.
  unfold messages. destruct (unknown_code c) eqn:E; [by rewrite filter_cons_True|].
  rewrite filter_cons_False by (by rewrite E). destruct K. unfold set_out. simpl. by rewrite app_nil_r.
Qed.

Lemma kbd_run_holds codes :
  Forall (λ c, 0 ≤ c < 256) codes →
  ∀ K Q S past, intr_get_status (k_eflags K) = INTR_OFF → ioq_wf Q → consumer Q = NULL → flags_ok S past →
  ∃ Q' S', kbd_run kbd_buf K Q S codes = Ok (set_out K (k_out K ++ messages codes), Q', S')
    ∧ contents Q' = take 1023 (contents Q ++ typed past codes) ∧ flags_ok S' (past ++ codes).
Proof.
  intros Hcs. induction Hcs as [|c codes Hc _ IH]; intros K Q S past Hoff Hq Hn Hf.
  - exists Q, S. split_and!; [destruct K; unfold set_out; simpl; by rewrite app_nil_r| |by rewrite app_nil_r]. simpl.
    rewrite app_nil_r, take_ge; [done|].
    pose proof (length_contents Q). pose proof (used_range Q). unfold bufsize in *. lia.
  - destruct (key_holds K Q S past c) as (Q1 & H1 & Hq1 & Hn1 & Hc1); auto.
    rewrite noted_out in H1.
    destruct (IH (set_out K (k_out K ++ messages [c])) Q1 (next_flags S c) (past ++ [c]))
      as (Q' & S' & H' & Hc' & Hf'); auto.
    { by apply flags_step. }
    exists Q', S'. cbn [kbd_run typed]. rewrite H1. rb. cbv iota. split_and!; [| |].
    + rewrite H'. unfold set_out. simpl. do 4 f_equal. rewrite <- app_assoc. f_equal.
      unfold messages. by rewrite <- map_app, <- filter_app.
    + by rewrite Hc', Hc1, take_take_app, <- app_assoc.
    + by rewrite <- app_assoc in Hf'.
Qed.
End typing.

(** * Properties *)

Section properties.
Context `{Symbols} (kbd_buf : Z).


(** Left shift down, right shift down, left shift up, h: the right shift is
    still held, but the driver takes shift for released and delivers a small
    letter. *)
Theorem second_shift_lost K Q :
  intr_get_status (k_eflags K) = INTR_OFF → ioq_wf Q → contents Q = [] → consumer Q = NULL →
  let codes := [0x2a; 0x36; 0xaa; 0x23] in
  held 0x36 codes = true
  ∧ ∃ Q' S', kbd_run kbd_buf K Q (Kbd false false false false false) codes = Ok (K, Q', S')
      ∧ shift_status S' = false ∧ contents Q' = [chr "h"].
Proof.
  intros Hoff Hq Hc Hn. split; [done|].
  destruct (kbd_run_holds kbd_buf [0x2a; 0x36; 0xaa; 0x23]) with (K := K) (Q := Q)
    (S := Kbd false false false false false) (past := @nil Z) as (Q' & S' & HK & Hc' & _ & Hs & _);
    [repeat constructor; lia|done..|]. exists Q', S'. rewrite Hc in Hc'. split_and!; [|exact Hs|exact Hc'].
  rewrite HK. destruct K. unfold set_out. simpl. by rewrite app_nil_r.
Qed.

(** A key press reaches the waiting reader.  When a thread is blocked on the
    empty buffer, the interrupt of a character key leaves the character in
    the buffer and the reader first in the ready list. *)
Theorem keyboard_wakes_reader K cur qs l Q S c :
  sched_inv K cur qs → qs !! thread_ready_list = Some l →
  intr_get_status (k_eflags K) = INTR_OFF → ioq_wf Q → contents Q = [] →
  waiter_ok K qs (consumer Q) → 0 ≤ c < 256 →
  let ch := key_char (shift_status S) (caps_lock_status S) c in ch ≠ 0 →
  ∃ K' Q', intr_keyboard_handler kbd_buf K Q S c = Ok (K', Q', next_flags S c, [])
    ∧ contents Q' = [ch] ∧ consumer Q' = NULL ∧ sched_inv K' cur (woken qs l (consumer Q)).
Proof.
  intros Hi Hl Hoff Hq He Hw Hc ch Hch. rewrite handler_decode.
  destruct (decode_spec S c Hc) as [-> H8]. fold ch in H8 |- *. unfold send.
  rewrite (key_char_known _ _ c (proj1 Hc) Hch). cbn [fst snd noted]. rb.
  pose proof (length_contents Q) as Hlen. rewrite He in Hlen. simpl in Hlen.
  assert (used Q ≠ bufsize - 1) as Hu by (unfold bufsize; lia).
  rewrite (proj2 (Z.eqb_neq _ _) Hch). simpl negb. cbv iota.
  unfold ioq_full. rewrite bool_decide_true, assert_true, full_used by done. rb.
  rewrite (proj2 (Z.eqb_neq _ _) Hu). simpl negb. cbv iota.
  destruct (ioq_putchar_holds kbd_buf K cur qs l Q ch) as (K' & -> & Hinv); auto. rb.
  eexists _, _. split_and!; [done| |done..].
  by rewrite assign_contents, contents_stored, H8, He.
Qed.

(** The 0xe0 prefix is lost: the byte after it is handled exactly as without
    it, so right ctrl and right alt are taken for their left counterparts and
    the keys of the cursor block for those of the numeric pad. *)
Theorem extended_prefix_lost K Q S c :
  0 ≤ c < 256 → c ≠ 0xe0 →
  intr_keyboard_handler kbd_buf K Q (set_ext S true) c
  = intr_keyboard_handler kbd_buf K Q (set_ext S false) c.
Proof.
  intros Hc Hne. rewrite !handler_decode.
  destruct (decode_spec (set_ext S true) c Hc) as [-> _].
  destruct (decode_spec (set_ext S false) c Hc) as [-> _]. unfold next_flags.
  by rewrite (proj2 (Z.eqb_neq _ _) Hne).
Qed.
End properties.

(** * Concrete runs *)

Module KeyRuns.
Import SchedRuns IoRuns.



(** Thread C of [SchedRuns] waits for a key. *)
Definition Qw : ioqueue := assign Q0 Consumer C.

Lemma keyboard_wakes_reader_witness :
  ∃ K' Q', intr_keyboard_handler q KQ Qw (Kbd false true false true false) 0x1e
      = Ok (K', Q', Kbd false true false true false, [])
    ∧ contents Q' = [97] ∧ sched_inv K' main_ (woken qs0 [general_tag B] C).
Proof.
  destruct (keyboard_wakes_reader q KQ main_ qs0 [general_tag B] Qw
    (Kbd false true false true false) 0x1e KQ_inv) as (K' & Q' & HK & Hc & _ & Hi).
  - reflexivity.
  - exact KQ_off.
  - apply (assign_wf Q0 Consumer C Q0_wf).
  - reflexivity.
  - intros _. exists (task C TASK_BLOCKED 31 31). split; [reflexivity|]. split; [reflexivity|].
    intros p lp Hl Hpa Hin. apply lists_inv in Hl. members Hl.
    + apply list_elem_of_singleton in Hin. change (consumer Qw) with C in Hin.
      unfold general_tag, B, C in Hin. lia.
    + destruct Hpa. reflexivity.
  - lia.
  - vm_compute. congruence.
  - exists K', Q'. split; [exact HK|]. split; [exact Hc|exact Hi].
Defined.

Lemma extended_prefix_lost_witness :
  intr_keyboard_handler q KQ Q0 (set_ext (Kbd false false false false false) true) 0x1d
  = Ok (KQ, Q0, Kbd true false false false false, []).
Proof.
  rewrite (extended_prefix_lost q KQ Q0 (Kbd false false false false false) 0x1d) by lia.
  reflexivity.
Defined.
End KeyRuns.
