(* ===== verification/Screen.v ===== *)
(** lib/kernel/print.S: the text screen.  The video memory is the segment
    behind [gs], the cursor is in two registers of the display controller.
    The routines are related to a terminal of 25 lines of 80 cells. *)
From S2P Require Import Prelude ByteMem CString Paging.

(** * Data *)

(** The bytes from 0xb8000 on and the cursor registers 0x0e and 0x0f. *)
Record video := Video { vram : gmap Z Z; cursor_high : Z; cursor_low : Z }.

Definition set_vram (V : video) (m : gmap Z Z) : video := Video m (cursor_high V) (cursor_low V).

(** The limit in [VIDEO_DESC]: 8 pages. *)
Definition VIDEO_LIMIT : Z := 0x7fff.

(** Signed comparison of 16-bit registers. *)
Definition s16 (z : Z) : Z := if z mod 2 ^ 16 <? 2 ^ 15 then z mod 2 ^ 16 else z mod 2 ^ 16 - 2 ^ 16.

(** * Operations *)

(** [mov byte [gs:off], v] *)
Definition gs_store8 (V : video) (off v : Z) : res video :=
  if off <=? VIDEO_LIMIT then Ok (set_vram V (<[off := v]> (vram V))) else Fault.

(** The cursor in [bx]. *)
Definition get_cursor (V : video) : Z := u16 (cursor_high V * 256 + cursor_low V).

Definition set_cursor (V : video) (bx : Z) : video := Video (vram V) (u8 (bx / 256)) (u8 bx).

(** [rep movsd] *)
Fixpoint rep_movsd (V : video) (esi edi : Z) (ecx : nat) : video :=
  match ecx with
  | O => V
  | S n => rep_movsd (set_vram V (wr32 (vram V) edi (rd32 (vram V) esi))) (esi + 4) (edi + 4) n
  end.

(** [.cls]: [mov word [gs:ebx], 0x0720] *)
Fixpoint cls (V : video) (ebx : Z) (ecx : nat) : res video :=
  match ecx with
  | O => Ok V
  | S n => V ← gs_store8 V ebx 0x20; V ← gs_store8 V (ebx + 1) 0x07; cls V (ebx + 2) n
  end.

Definition roll_screen (V : video) : res video :=
  V ← cls (rep_movsd V 0xa0 0 960) 3840 80;
  Ok (set_cursor V 1920).

(** [.is_line_feed] and [.is_carriage_return], one piece of code *)
Definition line_feed (V : video) (bx : Z) : res video :=
  let dx := bx mod 80 in
  let bx := u16 (bx - dx) in
  let bx := u16 (bx + 80) in
  if s16 bx <? 2000 then Ok (set_cursor V bx) else roll_screen V.

Definition put_char (V : video) (char_asci : Z) : res video :=
  let bx := get_cursor V in
  let cl := u8 char_asci in
  if cl =? 0xd then line_feed V bx else
  if cl =? 0xa then line_feed V bx else
  if cl =? 0x8 then
    let bx := u16 (bx - 1) in
    let bx := u16 (2 * bx) in
    V ← gs_store8 V bx 0x20;
    let bx := u16 (bx + 1) in
    V ← gs_store8 V bx 0x07;
    Ok (set_cursor V (bx / 2))
  else
    let bx := u16 (2 * bx) in
    V ← gs_store8 V bx cl;
    let bx := u16 (bx + 1) in
    V ← gs_store8 V bx 0x07;
    let bx := u16 (bx / 2 + 1) in
    if s16 bx <? 2000 then Ok (set_cursor V bx) else line_feed V bx.

Section print.
Context {M : Type} `{!ByteMem M}.

Definition put_str_body (m : M) (st : video * Z) : res (video * Z + video) :=
  let '(V, ebx) := st in
  cl ← load8 m ebx;
  if cl =? 0 then Ok (inr V) else
  V ← put_char V cl;
  Ok (inl (V, incp ebx)).

Definition put_str (m : M) (V : video) (message : Z) : res video :=
  while_ (put_str_body m) LOOP_FUEL (V, message).
End print.

Definition hex_digit (edx : Z) : Z := if edx >? 9 then edx - 10 + 0x41 else edx + 0x30.

(** [.16based_4bits]: the digits go into the buffer from its end. *)
Fixpoint hex_loop (buf : list Z) (eax : Z) (edi : nat) (ecx : nat) : list Z :=
  match ecx with
  | O => buf
  | S n => hex_loop (<[edi := hex_digit (Z.land eax 0xf)]> buf) (Z.shiftr eax 4) (edi - 1) n
  end.

(** The byte [put_int_buffer+edi]; the one behind the buffer is loaded but
    not printed. *)
Definition digit_at (buf : list Z) (edi : Z) : Z := nth (Z.to_nat edi) buf 0.

Definition skip_prefix_0 (buf : list Z) (edi : Z) : res (Z + Z * Z) :=
  if edi =? 8 then Ok (inr (edi, 0x30)) else
  let cl := digit_at buf edi in
  if cl =? 0x30 then Ok (inl (edi + 1)) else Ok (inr (edi, cl)).

Definition put_each_num (buf : list Z) (st : video * Z * Z) : res (video * Z * Z + video) :=
  let '(V, edi, cl) := st in
  V ← put_char V cl;
  let edi := edi + 1 in
  let cl := digit_at buf edi in
  if edi <? 8 then Ok (inl (V, edi, cl)) else Ok (inr V).

Definition put_int (V : video) (num : Z) : res video :=
  let buf := hex_loop (replicate 8 0) num 7 8 in
  '(edi, cl) ← while_ (skip_prefix_0 buf) LOOP_FUEL 0;
  while_ (put_each_num buf) LOOP_FUEL (V, edi, cl).

(** * The terminal *)

Abbreviation cell := (Z * Z)%type.
Definition blank : cell := (0x20, 0x07).

Record term := Term { cells : list cell; t_pos : Z }.

Definition scroll (l : list cell) : list cell := drop 80 l ++ replicate 80 blank.

Definition t_newline (t : term) : term :=
  let p := (t_pos t / 80 + 1) * 80 in
  if p <? 2000 then Term (cells t) p else Term (scroll (cells t)) 1920.

Definition t_put (t : term) (c : Z) : term :=
  if (c =? 0xd) || (c =? 0xa) then t_newline t
  else if c =? 0x8 then Term (<[Z.to_nat (t_pos t - 1) := blank]> (cells t)) (t_pos t - 1)
  else let t := Term (<[Z.to_nat (t_pos t) := (c, 0x07)]> (cells t)) (t_pos t + 1) in
       if t_pos t <? 2000 then t else t_newline t.

(** The video memory holds the cells. *)
Definition cells_at (m : gmap Z Z) (l : list cell) : Prop :=
  ∀ i x, l !! i = Some x →
    rd8 m (2 * Z.of_nat i) = x.1 ∧ rd8 m (2 * Z.of_nat i + 1) = x.2.

(** The video memory and the cursor show the terminal. *)
Record shows (V : video) (t : term) : Prop := {
  sh_size : length (cells t) = 2000%nat;
  sh_pos : 0 ≤ t_pos t < 2000;
  sh_cursor : cursor_high V = t_pos t / 256 ∧ cursor_low V = t_pos t mod 256;
  sh_cells : cells_at (vram V) (cells t);
}.

(** * Video memory *)

Lemma get_cursor_shows V t : shows V t → get_cursor V = t_pos t.
Proof.
  intros [_ Hp [Hh Hl] _]. unfold get_cursor. rewrite Hh, Hl, u16_small by zdm. zdm.
Qed.

Lemma set_cursor_shows V l p :
  length l = 2000%nat → cells_at (vram V) l → 0 ≤ p < 2000 → shows (set_cursor V p) (Term l p).
Proof.
  intros Hl Hc Hp. split; simpl; auto. rewrite u8_small by zdm. by unfold u8.
Qed.

Lemma s16_small z : 0 ≤ z < 2 ^ 15 → s16 z = z.
Proof. intros. unfold s16. rewrite Z.mod_small by lia. by rewrite (proj2 (Z.ltb_lt _ _)) by lia. Qed.

Lemma gs_store8_ok V off v :
  off ≤ VIDEO_LIMIT → gs_store8 V off v = Ok (set_vram V (<[off := v]> (vram V))).
Proof. intros. unfold gs_store8. by rewrite (proj2 (Z.leb_le _ _)). Qed.

Lemma cells_at_store m l i c a :
  cells_at m l → 0 ≤ c < 256 → 0 ≤ a < 256 →
  cells_at (<[2 * Z.of_nat i + 1 := a]> (<[2 * Z.of_nat i := c]> m)) (<[i := (c, a)]> l).
Proof.
  intros Hm Hc Ha j x Hj. destruct (decide (i = j)) as [<-|Hne].
  - rewrite list_lookup_insert_Some in Hj. destruct Hj as [(_ & <- & _)|[]]; [|done]. simpl.
    rewrite (rd8_insert_eq _ (2 * Z.of_nat i + 1)), rd8_insert_ne, rd8_insert_eq by lia. done.
  - rewrite list_lookup_insert_ne in Hj by done. rewrite !rd8_insert_ne by lia. by apply Hm.
Qed.

(** Bytes of a copied word. *)
Lemma rd8_wr32_rd32 m a b k :
  0 ≤ k < 4 → rd8 (wr32 m a (rd32 m b)) (a + k) = rd8 m (b + k).
Proof.
  intros Hk. unfold rd32.
  pose proof (rd8_range m b). pose proof (rd8_range m (b + 1)).
  pose proof (rd8_range m (b + 2)). pose proof (rd8_range m (b + 3)).
  unfold wr32. assert (k = 0 ∨ k = 1 ∨ k = 2 ∨ k = 3) as [->|[->|[->| ->]]] by lia;
    rewrite ?Z.add_0_r; repeat (rewrite rd8_insert_ne by lia); rewrite rd8_insert_eq; zdm.
Qed.

Lemma rep_movsd_bytes n V esi edi x :
  edi + 4 ≤ esi →
  rd8 (vram (rep_movsd V esi edi n)) x
  = if decide (edi ≤ x < edi + 4 * Z.of_nat n) then rd8 (vram V) (x + (esi - edi))
    else rd8 (vram V) x.
Proof.
  revert V esi edi. induction n as [|n IH]; intros V esi edi Hd; simpl rep_movsd.
  { by rewrite decide_False by lia. }
  rewrite IH by lia. simpl vram. replace (esi + 4 - (edi + 4)) with (esi - edi) by lia.
  destruct (decide (edi ≤ x < edi + 4)) as [Hx|Hx].
  - rewrite decide_False, decide_True by lia. replace x with (edi + (x - edi)) at 1 by lia.
    rewrite rd8_wr32_rd32 by lia. f_equal. lia.
  - repeat case_decide; try lia; rewrite rd8_wr32_other by lia; done.
Qed.

Lemma cls_bytes n V ebx :
  ebx mod 2 = 0 → ebx + 2 * Z.of_nat n ≤ VIDEO_LIMIT + 1 →
  ∃ V', cls V ebx n = Ok V' ∧ cursor_high V' = cursor_high V ∧ cursor_low V' = cursor_low V
    ∧ ∀ x, rd8 (vram V') x
        = if decide (ebx ≤ x < ebx + 2 * Z.of_nat n) then (if decide (x mod 2 = 0) then 0x20 else 0x07)
          else rd8 (vram V) x.
Proof.
  revert V ebx. induction n as [|n IH]; intros V ebx He Hl; simpl cls.
  { exists V. split_and!; auto. intros x. by rewrite decide_False by lia. }
  rewrite gs_store8_ok by lia. rb. rewrite gs_store8_ok by lia. rb.
  simpl vram. set (V1 := set_vram (set_vram _ _) _).
  destruct (IH V1 (ebx + 2)) as (V' & -> & Hh & Hlo & Hx); [zdm|lia|].
  exists V'. split_and!; [done|by rewrite Hh|by rewrite Hlo|]. intros x. rewrite Hx. simpl vram.
  destruct (decide (x = ebx)) as [->|]; [|destruct (decide (x = ebx + 1)) as [->|]].
  - rewrite decide_False, !decide_True by lia. by rewrite rd8_insert_ne, rd8_insert_eq by lia.
  - rewrite decide_False, decide_True, decide_False by zdm. by rewrite rd8_insert_eq by lia.
  - rewrite !rd8_insert_ne by lia. repeat case_decide; try done; lia.
Qed.

Lemma roll_screen_shows V l :
  length l = 2000%nat → cells_at (vram V) l →
  ∃ V', roll_screen V = Ok V' ∧ shows V' (Term (scroll l) 1920).
Proof.
  intros Hl Hc. unfold roll_screen.
  destruct (cls_bytes 80 (rep_movsd V 0xa0 0 960) 3840) as (V' & -> & _ & _ & Hx);
    [done|unfold VIDEO_LIMIT; lia|].
  rb. eexists. split; [done|]. unfold scroll.
  apply set_cursor_shows; [rewrite length_app, length_drop, length_replicate; lia| |lia].
  assert (Hb : ∀ x, 0 ≤ x < 3840 → rd8 (vram V') x = rd8 (vram V) (x + 160)).
  { intros x Hr. rewrite Hx, decide_False by lia. rewrite rep_movsd_bytes, decide_True by lia.
    done. }
  intros i x Hi. apply lookup_app_Some in Hi as [Hi|[Hge Hi]].
  - rewrite lookup_drop in Hi. pose proof (lookup_lt_Some _ _ _ Hi). apply Hc in Hi.
    rewrite !Hb by lia. replace (2 * Z.of_nat i + 160) with (2 * Z.of_nat (80 + i)) by lia.
    replace (2 * Z.of_nat i + 1 + 160) with (2 * Z.of_nat (80 + i) + 1) by lia. done.
  - rewrite length_drop in Hge, Hi. apply lookup_replicate in Hi as [-> Hi].
    rewrite !Hx, !(decide_True (P := _ ≤ _ < _)) by lia.
    by rewrite decide_True, decide_False by zdm.
Qed.

Lemma line_feed_shows V t :
  length (cells t) = 2000%nat → cells_at (vram V) (cells t) → 0 ≤ t_pos t ≤ 2000 →
  ∃ V', line_feed V (t_pos t) = Ok V' ∧ shows V' (t_newline t).
Proof.
  intros Hl Hc Hp. unfold line_feed, t_newline.
  rewrite (u16_small (t_pos t - _)), u16_small, s16_small by zdm.
  replace ((t_pos t / 80 + 1) * 80) with (t_pos t - t_pos t mod 80 + 80) by zdm.
  destruct (Z.ltb_spec (t_pos t - t_pos t mod 80 + 80) 2000).
  - eexists. split; [done|]. apply set_cursor_shows; auto. zdm.
  - by apply roll_screen_shows.
Qed.

(** A backspace in the first cell is the one character that fails. *)
Definition printable (t : term) (c : Z) : Prop := 0 ≤ c < 256 ∧ (c = 8 → 0 < t_pos t).

Lemma put_char_shows V t c :
  shows V t → printable t c → ∃ V', put_char V c = Ok V' ∧ shows V' (t_put t c).
Proof.
  intros Hs [Hc Hbs]. pose proof (get_cursor_shows V t Hs) as Hcur. destruct Hs as [Hl Hp _ Hm].
  unfold put_char, t_put. rewrite Hcur, (u8_small c) by done. cbv zeta.
  destruct (Z.eqb_spec c 0xd) as [->|H1]; [by apply line_feed_shows; [..|lia]|].
  destruct (Z.eqb_spec c 0xa) as [->|H2]; [by apply line_feed_shows; [..|lia]|].
  simpl orb. cbv iota. destruct (Z.eqb_spec c 8) as [->|H3].
  - specialize (Hbs eq_refl). rewrite (u16_small (t_pos t - 1)), (u16_small (2 * _)) by lia.
    rewrite gs_store8_ok by (unfold VIDEO_LIMIT; lia). rb. rewrite u16_small by lia.
    rewrite gs_store8_ok by (unfold VIDEO_LIMIT; lia). rb. eexists. split; [done|].
    replace ((2 * (t_pos t - 1) + 1) / 2) with (t_pos t - 1) by zdm.
    apply set_cursor_shows; [by rewrite length_insert| |lia]. simpl vram.
    pose proof (cells_at_store (vram V) (cells t) (Z.to_nat (t_pos t - 1)) 0x20 0x07 Hm) as Hst.
    rewrite Z2Nat.id in Hst by lia. apply Hst; lia.
  - rewrite (u16_small (2 * _)) by lia.
    rewrite gs_store8_ok by (unfold VIDEO_LIMIT; lia). rb. rewrite (u16_small (2 * t_pos t + 1)) by lia.
    rewrite gs_store8_ok by (unfold VIDEO_LIMIT; lia). rb.
    replace ((2 * t_pos t + 1) / 2) with (t_pos t) by zdm. rewrite (u16_small (t_pos t + 1)), s16_small by lia.
    set (V2 := set_vram _ _). set (l := <[_ := _]> (cells t)).
    assert (Hl2 : length l = 2000%nat) by (unfold l; by rewrite length_insert).
    assert (Hm2 : cells_at (vram V2) l).
    { pose proof (cells_at_store (vram V) (cells t) (Z.to_nat (t_pos t)) c 0x07 Hm) as Hst.
      rewrite Z2Nat.id in Hst by lia. apply Hst; lia. }
    simpl t_pos. destruct (Z.ltb_spec (t_pos t + 1) 2000).
    + eexists. split; [done|]. apply set_cursor_shows; auto. lia.
    + apply (line_feed_shows V2 (Term l (t_pos t + 1))); simpl; auto. lia.
Qed.

Lemma put_char_backspace V t :
  shows V t → t_pos t = 0 → put_char V 8 = Fault.
Proof.
  intros Hs Hp. pose proof (get_cursor_shows V t Hs) as Hcur. unfold put_char.
  rewrite Hcur, Hp. done.
Qed.

(** * Strings *)

Definition t_puts (t : term) (s : list Z) : term := foldl t_put t s.

Lemma printable_other t c : 0 ≤ c < 256 → c ≠ 8 → printable t c.
Proof. by split. Qed.

Lemma put_str_shows {M} `{!ByteMem M, !ByteMemSpec M} (m : M) g V t p s :
  holds m g → cstr g p s → shows V t → 8 ∉ s →
  ∃ V', put_str m V p = Ok V' ∧ shows V' (t_puts t s).
Proof.
  intros Hh Hs HV Hb.
  apply (strwalk (put_str_body m) g snd (λ st r, ∃ d, s = d ++ r ∧ shows st.1 (t_puts t d)))
    with (s := s); [| |by exists []|done].
  - intros [V1 q] (d & -> & Hd) Hc. rewrite app_nil_r. exists V1. split; [|done].
    simpl in *. by rewrite (load8_holds m g q 0 Hh (cstr_nil _ _ Hc)).
  - intros [V1 q] c r (d & -> & Hd) Hc. left. simpl in *. pose proof (cstr_next _ _ _ _ Hc) as Hn.
    apply cstr_cons in Hc as (H0 & Hr & _).
    rewrite (load8_holds m g q c Hh H0). rb. rewrite (proj2 (Z.eqb_neq c 0)) by lia.
    destruct (put_char_shows V1 (t_puts t d) c Hd) as (V2 & -> & H2).
    { apply printable_other; [lia|]. intros ->. apply Hb, elem_of_app. right. left. }
    rb. eexists. split_and!; [done|done|]. exists (d ++ [c]). split; [by rewrite <- app_assoc|].
    unfold t_puts in *. by rewrite foldl_app.
Qed.

(** Characters that are not controls go side by side. *)
Definition plain (c : Z) : Prop := 0 < c < 256 ∧ c ≠ 8 ∧ c ≠ 0xa ∧ c ≠ 0xd.

Lemma t_puts_plain t s :
  Forall plain s → 0 ≤ t_pos t → t_pos t + Z.of_nat (length s) < 2000 →
  t_puts t s = Term (list_inserts (Z.to_nat (t_pos t)) ((λ c, (c, 0x07)) <$> s) (cells t))
                    (t_pos t + Z.of_nat (length s)).
Proof.
  intros Hs. revert t. induction Hs as [|c s Hc _ IH]; intros t H0 Hl; simpl in *.
  { rewrite Z.add_0_r. by destruct t. }
  assert (t_put t c = Term (<[Z.to_nat (t_pos t) := (c, 0x07)]> (cells t)) (t_pos t + 1)) as ->.
  { unfold t_put. destruct Hc as (_ & H8 & Ha & Hd).
    rewrite !(proj2 (Z.eqb_neq c _)) by done. simpl. by rewrite (proj2 (Z.ltb_lt _ _)) by lia. }
  rewrite IH by (simpl; lia). simpl. f_equal; [|lia].
  replace (Z.to_nat (t_pos t + 1)) with (S (Z.to_nat (t_pos t))) by lia.
  symmetry. by rewrite list_insert_inserts_lt by lia.
Qed.

(** * Hexadecimal numbers *)

Definition nibble (n : Z) (k : Z) : Z := n / 16 ^ k mod 16.
Definition digits (n : Z) : list Z := (λ k, hex_digit (nibble n k)) <$> [7; 6; 5; 4; 3; 2; 1; 0].

Fixpoint strip (l : list Z) : list Z :=
  match l with
  | [] => [0x30]
  | c :: r => if c =? 0x30 then strip r else c :: r
  end.

(** A number as it is written: no leading zeros. *)
Definition hex (n : Z) : list Z := strip (digits n).

Definition digit_value (c : Z) : Z := if c >=? 0x41 then c - 0x41 + 10 else c - 0x30.
Definition hex_value (l : list Z) : Z := foldl (λ v c, 16 * v + digit_value c) 0 l.

Lemma hex_digit_value d : 0 ≤ d < 16 → digit_value (hex_digit d) = d.
Proof.
  intros Hd. unfold hex_digit, digit_value. rewrite Z.gtb_ltb.
  destruct (Z.ltb_spec 9 d); rewrite Z.geb_leb;
    [rewrite (proj2 (Z.leb_le _ _)) by lia|rewrite (proj2 (Z.leb_gt _ _)) by lia]; lia.
Qed.

Lemma hex_digit_range d : 0 ≤ d < 16 → 0x30 ≤ hex_digit d < 0x47.
Proof. intros. unfold hex_digit. rewrite Z.gtb_ltb. destruct (Z.ltb_spec 9 d); lia. Qed.

Lemma nibble_range n k : 0 ≤ nibble n k < 16.
Proof. apply Z.mod_pos_bound. lia. Qed.

Lemma strip_value l : hex_value (strip l) = hex_value l.
Proof.
  induction l as [|c l IH]; [done|]. simpl. destruct (Z.eqb_spec c 0x30) as [->|]; [|done].
  by rewrite IH.
Qed.

Lemma hex_value_hex n : 0 ≤ n < 2 ^ 32 → hex_value (hex n) = n.
Proof.
  intros Hn. unfold hex. rewrite strip_value. unfold hex_value, digits. cbn [fmap list_fmap foldl].
  rewrite !hex_digit_value by apply nibble_range. unfold nibble.
  change (16 ^ 0) with 1. change (16 ^ 1) with 16. change (16 ^ 2) with 256. change (16 ^ 3) with 4096.
  change (16 ^ 4) with 65536. change (16 ^ 5) with 1048576. change (16 ^ 6) with 16777216.
  change (16 ^ 7) with 268435456. zdm.
Qed.

Lemma strip_canonical l : strip l = [0x30] ∨ (∃ c r, strip l = c :: r ∧ c ≠ 0x30).
Proof.
  induction l as [|c l IH]; [by left|]. simpl. destruct (Z.eqb_spec c 0x30); [done|]. right. eauto.
Qed.

Lemma hex_loop_digits n : hex_loop (replicate 8 0) n 7 8 = digits n.
Proof.
  unfold digits, nibble. simpl hex_loop. rewrite !Z.shiftr_shiftr by lia.
  rewrite !Z.shiftr_div_pow2 by lia. change 15 with (Z.ones 4). rewrite !Z.land_ones by lia.
  simpl. by rewrite Z.div_1_r.
Qed.

(** ** Skipping zeros *)

Lemma digit_at_drop buf k c r : drop k buf = c :: r → digit_at buf (Z.of_nat k) = c.
Proof.
  intros Hd. unfold digit_at. rewrite Nat2Z.id, <- (take_drop k buf), Hd, app_nth2.
  - rewrite length_take_le; [by rewrite Nat.sub_diag|].
    apply (f_equal length) in Hd. rewrite length_drop in Hd. simpl in Hd. lia.
  - rewrite length_take. lia.
Qed.

Lemma drop_next {A} (l : list A) k c r : drop k l = c :: r → drop (S k) l = r.
Proof. intros Hd. rewrite <- Nat.add_1_r, <- drop_drop. by rewrite Hd. Qed.

Lemma skip_run buf k l :
  length buf = 8%nat → drop k buf = l → (k ≤ 8)%nat →
  ∃ j cl r, while_nat (skip_prefix_0 buf) (S (length l)) (Z.of_nat k) = Ok (inr (Z.of_nat j, cl))
    ∧ drop (S j) buf = r ∧ strip l = cl :: r.
Proof.
  intros Hl. revert k. induction l as [|c l IH]; intros k Hd Hk; cbn [while_nat length].
  - apply (f_equal length) in Hd as Hlen. rewrite length_drop in Hlen. simpl in Hlen.
    assert (k = 8%nat) as -> by lia. exists 8%nat, 0x30, []. split_and!; [done| |done].
    apply drop_ge. lia.
  - pose proof (drop_next _ _ _ _ Hd) as Hn. unfold skip_prefix_0.
    apply (f_equal length) in Hd as Hlen. rewrite length_drop in Hlen. simpl in Hlen.
    rewrite (proj2 (Z.eqb_neq _ 8)) by lia. rewrite (digit_at_drop _ _ _ _ Hd). simpl strip.
    destruct (Z.eqb_spec c 0x30) as [->|].
    + rb. cbn [then_]. replace (Z.of_nat k + 1) with (Z.of_nat (S k)) by lia. apply IH; [done|lia].
    + rb. exists k, c, l. done.
Qed.

Definition is_digit (c : Z) : Prop := 0x30 ≤ c < 0x47.

Lemma put_each_num_ok buf V edi cl V1 :
  put_char V cl = Ok V1 →
  put_each_num buf (V, edi, cl)
  = Ok (if edi + 1 <? 8 then inl (V1, edi + 1, digit_at buf (edi + 1)) else inr V1).
Proof. intros HV. unfold put_each_num. rewrite HV. rb. by destruct (_ <? _). Qed.

Lemma print_run buf r j cl V t :
  length buf = 8%nat → drop (S j) buf = r → Forall is_digit (cl :: r) → shows V t →
  ∃ V', while_nat (put_each_num buf) (S (length r)) (V, Z.of_nat j, cl) = Ok (inr V')
    ∧ shows V' (t_puts t (cl :: r)).
Proof.
  intros Hl. revert j cl V t. induction r as [|c r IH]; intros j cl V t Hd Hf Hs;
    apply Forall_cons in Hf as [Hc Hf]; apply (f_equal length) in Hd as Hlen;
    rewrite length_drop, Hl in Hlen; unfold is_digit in Hc;
    (destruct (put_char_shows V t cl Hs) as (V1 & HV1 & Hs1); [apply printable_other; lia|]);
    cbn [while_nat]; rewrite (put_each_num_ok _ _ _ _ _ HV1).
  - simpl in Hlen. rewrite (proj2 (Z.ltb_ge _ _)) by lia. by exists V1.
  - simpl in Hlen. rewrite (proj2 (Z.ltb_lt _ _)) by lia. rb. cbn [then_].
    replace (Z.of_nat j + 1) with (Z.of_nat (S j)) by lia. rewrite (digit_at_drop _ _ _ _ Hd).
    apply (IH (S j) c V1 (t_put t cl)); auto. by apply (drop_next _ _ c).
Qed.

Lemma digits_are n : Forall is_digit (digits n).
Proof.
  unfold digits. apply Forall_fmap, Forall_forall. intros k _. apply hex_digit_range, nibble_range.
Qed.

Lemma strip_digits l : Forall is_digit l → Forall is_digit (strip l).
Proof.
  intros Hf. induction Hf as [|c l Hc Hl IH]; simpl; [by repeat constructor|].
  destruct (Z.eqb_spec c 0x30); [done|by constructor].
Qed.

Lemma put_int_shows V t n :
  shows V t → ∃ V', put_int V n = Ok V' ∧ shows V' (t_puts t (hex n)).
Proof.
  intros Hs. unfold put_int, hex. rewrite hex_loop_digits. set (buf := digits n).
  assert (Hl : length buf = 8%nat) by done.
  destruct (skip_run buf 0 buf Hl eq_refl) as (j & cl & r & Hrun & Hd & Hst); [lia|].
  pose proof (strip_digits buf (digits_are n)) as Hf. rewrite Hst in Hf |- *.
  rewrite (while_from_nat _ _ _ (Z.of_nat j, cl)).
  2:{ eexists. split; [|exact Hrun]. rewrite Hl. pose proof LOOP_FUEL_val. lia. }
  rb. destruct (print_run buf r j cl V t Hl Hd Hf Hs) as (V' & HV & Hs').
  exists V'. split; [|done]. apply while_from_nat. eexists. split; [|exact HV].
  apply (f_equal length) in Hd. rewrite length_drop, Hl in Hd. pose proof LOOP_FUEL_val. lia.
Qed.

(** * Properties *)

(** C23: Printing a character on a screen that shows a terminal leaves it
    showing the terminal after the character: a visible character fills the
    cell under the cursor, a backspace clears the one before it, carriage
    return and line feed both start the next line, and running over the last
    line scrolls.  A backspace in the first cell faults. *)
Theorem put_char_refines V t c :
  shows V t → 0 ≤ c < 256 →
  if decide (c = 8 ∧ t_pos t = 0) then put_char V c = Fault
  else ∃ V', put_char V c = Ok V' ∧ shows V' (t_put t c).
Proof.
  intros Hs Hc. destruct (decide _) as [[-> Hp]|Hn]; [by apply (put_char_backspace V t)|].
  apply put_char_shows; [done|]. split; [done|]. intros ->. pose proof (sh_pos _ _ Hs).
  destruct (decide (t_pos t = 0)); [|lia]. by destruct Hn.
Qed.

(** A string of visible characters that fits on the rest of the screen
    appears in the cells from the cursor on, the cursor ends behind it and no
    other cell changes. *)
Theorem put_str_prints {M} `{!ByteMem M, !ByteMemSpec M} (m : M) g V t p s :
  holds m g → cstr g p s → shows V t → Forall plain s →
  t_pos t + Z.of_nat (length s) < 2000 →
  ∃ V', put_str m V p = Ok V'
    ∧ shows V' (Term (list_inserts (Z.to_nat (t_pos t)) ((λ c, (c, 0x07)) <$> s) (cells t))
                     (t_pos t + Z.of_nat (length s))).
Proof.
  intros Hh Hc Hs Hp Hl. rewrite <- t_puts_plain; [|done|apply Hs|done].
  apply (put_str_shows m g); auto. intros Hin. rewrite Forall_forall in Hp.
  by destruct (Hp 8 Hin) as (_ & ? & _).
Qed.

(** C24: [put_int] prints a word in hexadecimal: the printed digits read back as
    the number, without leading zeros. *)
Theorem put_int_hex V t n :
  shows V t → 0 ≤ n < 2 ^ 32 →
  ∃ V' ds, put_int V n = Ok V' ∧ shows V' (t_puts t ds) ∧ hex_value ds = n
    ∧ (ds = [0x30] ∨ ∃ c r, ds = c :: r ∧ c ≠ 0x30) ∧ Forall is_digit ds.
Proof.
  intros Hs Hn. destruct (put_int_shows V t n Hs) as (V' & HV & Hs').
  exists V', (hex n). split_and!; auto; [by apply hex_value_hex|apply strip_canonical|].
  apply strip_digits, digits_are.
Qed.

(** * Witnesses *)
Module ScreenRuns.
Definition clear_screen : video :=
  Video (list_to_map (concat ((λ i, [(2 * i, 0x20); (2 * i + 1, 0x07)]) <$> seqZ 0 2000))) 7 0x80.
Definition last_line : term := Term (replicate 2000 blank) 1920.

Lemma clear_screen_shows : shows clear_screen last_line.
Proof.
  split; [done|simpl; lia|done|].
  assert (H : all_range 0 2000 (λ i, (rd8 (vram clear_screen) (2 * i) =? 0x20)
    && (rd8 (vram clear_screen) (2 * i + 1) =? 0x07)) = true) by (vm_compute; reflexivity).
  intros i x [-> Hi]%lookup_replicate.
  pose proof (all_range_spec _ _ _ (Z.of_nat i) H ltac:(lia)) as Hx.
  apply andb_true_iff in Hx as [H1%Z.eqb_eq H2%Z.eqb_eq]. exact (conj H1 H2).
Qed.

Lemma put_char_refines_witness :
  ∃ V', put_char clear_screen 0xa = Ok V' ∧ shows V' (t_put last_line 0xa).
Proof.
  assert (Hc : 0 ≤ 0xa < 256) by lia.
  pose proof (put_char_refines clear_screen last_line 0xa clear_screen_shows Hc) as H.
  rewrite decide_False in H by (intros [E _]; discriminate E). exact H.
Defined.

Definition hello : gmap Z Z := write_bytes ∅ 0x4000 [0x68; 0x69; 0].

Lemma put_str_prints_witness :
  ∃ V', put_str hello clear_screen 0x4000 = Ok V'
    ∧ shows V' (Term (<[1920%nat := (0x68, 7)]> (<[1921%nat := (0x69, 7)]> (cells last_line))) 1922).
Proof.
  apply (put_str_prints hello hello clear_screen last_line 0x4000 [0x68; 0x69]).
  - apply flat_holds. reflexivity.
  - apply cstrb_ok. reflexivity.
  - apply clear_screen_shows.
  - repeat constructor; lia.
  - simpl. lia.
Defined.

Lemma put_int_hex_witness :
  ∃ V' ds, put_int clear_screen 0xbeef = Ok V' ∧ shows V' (t_puts last_line ds) ∧ hex_value ds = 0xbeef.
Proof.
  destruct (put_int_hex clear_screen last_line 0xbeef clear_screen_shows) as (V' & ds & ? & ? & ? & _);
    [lia|]. by exists V', ds.
Defined.
End ScreenRuns.
