(* ===== verification/UserProg.v ===== *)
(** The two user programs of kernel/main.c.  They call [put_str] of the kernel
    where they run, at privilege 3; what such a call meets first is the load of
    the video selector in [put_char].  The pages of the kernel can be read at
    this level, because the loader maps them with [PG_US_U]. *)
From S2P Require Import Prelude ByteMem CString Paging Memory MemInit Interrupt Tss Loader LoaderProps Screen.

(** [mov gs, ax] at privilege [cpl]: a data segment may be loaded when its
    privilege is that of the program and of the selector, or lower. *)
Definition load_gs (rd : Z → res Z) (gdtr cpl sel : Z) : res unit :=
  bs ← read_n rd (desc_addr gdtr sel) 8;
  match decode_desc bs with
  | Some s => if seg_present s && (Z.max cpl (sel mod 4) <=? seg_dpl s) then Ok () else Fault
  | None => Fault
  end.

Section user.
Context (M : machine) (gdtr cpl : Z).

(** print.S from its entries on, at privilege [cpl]. *)
Definition put_char_at (V : video) (c : Z) : res video :=
  _ ← load_gs (load8 M) gdtr cpl SELECTOR_VIDEO; put_char V c.

Definition put_str_body_at (st : video * Z) : res (video * Z + video) :=
  let '(V, ebx) := st in
  cl ← load8 M ebx;
  if cl =? 0 then Ok (inr V) else
  V ← put_char_at V cl;
  Ok (inl (V, incp ebx)).

Definition put_str_at (V : video) (message : Z) : res video :=
  while_ put_str_body_at LOOP_FUEL (V, message).

(** [u_prog_a] and [u_prog_b], which differ in the message and the variable: the
    message, then [n] rounds of the endless loop. *)
Definition u_prog (V : video) (message test_var : Z) (n : nat) : res (video * Z) :=
  V ← put_str_at V message;
  Ok (V, Nat.iter n (λ v, s32 (v + 1)) test_var).
End user.

(** The table the loader leaves and [tss_init] loads again. *)
Definition gdt_in (M : machine) : Prop :=
  ∀ i v, high_gdt_bytes !! i = Some v → load8 M (0xc0000903 + Z.of_nat i) = Ok v.

Lemma load_gs_video M cpl :
  gdt_in M → 0 ≤ cpl → load_gs (load8 M) gdt_operand cpl SELECTOR_VIDEO = if cpl =? 0 then Ok () else Fault.
Proof.
  intros Hg Hc. unfold load_gs. change (desc_addr gdt_operand SELECTOR_VIDEO) with (0xc0000903 + 24).
  set (bs := take 8 (drop 24 high_gdt_bytes)). change 8%nat with (length bs). rewrite read_n_bytes.
  - rb. change (decode_desc bs) with (Some (Segment 0xc00b8000 (8 * 4096 - 1) 0 0x12 true)).
    change (SELECTOR_VIDEO mod 4) with 0. simpl. rewrite Z.max_l by done.
    destruct (Z.leb_spec cpl 0), (Z.eqb_spec cpl 0); done || lia.
  - intros i v Hi. apply lookup_take_Some in Hi as [Hi _]. rewrite lookup_drop in Hi.
    rewrite <- (Hg _ _ Hi). f_equal. lia.
Qed.

(** A user program runs where it must not: at the level of the kernel it would
    print its message as [put_str] does and count its variable up; at its own
    level it faults with the first character of the message, before anything is
    on the screen and before its loop. *)
Theorem u_prog_faults M V message c var n :
  gdt_in M → load8 M message = Ok c → c ≠ 0 →
  u_prog M gdt_operand 0 V message var n
    = (V ← put_str M V message; Ok (V, Nat.iter n (λ v, s32 (v + 1)) var))
  ∧ u_prog M gdt_operand 3 V message var n = Fault.
Proof.
  intros Hg Hl Hc. unfold u_prog, put_str_at, put_str. split.
  - rewrite (while_ext (put_str_body_at M gdt_operand 0) (put_str_body M)); [done|].
    intros [V1 p]. unfold put_str_body_at, put_str_body, put_char_at. by rewrite load_gs_video.
  - rewrite while_fault; [done|]. unfold put_str_body_at, put_char_at. rewrite Hl. rb.
    rewrite (proj2 (Z.eqb_neq c 0)) by done. by rewrite load_gs_video.
Qed.

Module UserRuns.

(** A machine with the loader's table and the first letters of the message. *)
Definition user_machine : machine :=
  let M := boot_machine in
  Machine (write_bytes (write_bytes (pm M) 0x903 high_gdt_bytes) 0x2000 [0x73; 0x74; 0]) (cr3 M).

Example u_prog_faults_runs :
  u_prog user_machine gdt_operand 3 ScreenRuns.clear_screen 0xc0002000 0 1 = Fault.
Proof. vm_compute. reflexivity. Qed.

Example u_prog_prints_in_kernel :
  (x ← u_prog user_machine gdt_operand 0 ScreenRuns.clear_screen 0xc0002000 0 5; Ok x.2) = Ok 5.
Proof. vm_compute. reflexivity. Qed.
End UserRuns.
