(* ===== verification/Console.v ===== *)
(** device/console.c and the printing threads of kernel/main.c: the screen of
    Screen.v behind the console's lock.  As in Sync.v a thread carries the
    program points it still has to run; the loops of [put_str] and [put_int]
    give up the processor between characters, not inside [put_char].  The
    names [schedule] prints reach the screen without the lock. *)
From S2P Require Import Prelude ByteMem CString Paging Interrupt DList Sched Sync Uncontended.
From S2P Require Import SyncInv SyncSafe SyncProps Screen.

(** * Data *)

Record con_state := ConState { con_ker : kernel; con_screen : video; test_var_a : Z; test_var_b : Z }.

Definition set_con_ker (s : con_state) (K : kernel) : con_state :=
  ConState K (con_screen s) (test_var_a s) (test_var_b s).
Definition set_screen (s : con_state) (V : video) : con_state :=
  ConState (con_ker s) V (test_var_a s) (test_var_b s).

Inductive con_point :=
| ConSync (f : point)
| PutStr (str : Z)                     (* [put_str] *)
| PutStrLoop (ebx : Z)                 (* its loop *)
| PutChar (char_asci : Z)              (* [put_char] *)
| PutInt (num : Z)                     (* [put_int] *)
| PutEachNum (buf : list Z) (edi cl : Z)  (* its loop *)
(* the calls of the threads in main.c *)
| ConsolePutStr (str : Z)
| ConsolePutVarA                       (* [console_put_int(test_var_a)] *)
| ConsolePutVarB
| IntrSwitch (s : intr_status).        (* [intr_disable], [intr_enable] *)

(** Addresses of the lock and of the strings in main.c, and the read-only data
    the strings are in. *)
Class ConSyms := { console_lock : Z; v_a : Z; v_b : Z; blank_str : Z; rodata : gmap Z Z }.

(** The strings of debug.c. *)
Class PanicSyms := { p_head : Z; p_file : Z; newline : Z; p_line : Z; p_func : Z; p_cond : Z; p_tail : Z }.

(** * Operations *)

Section console.
Context `{Symbols, ConSyms, PanicSyms}.

Definition console_init (K : kernel) : res kernel := lock_init K console_lock.

Definition console_acquire : con_point := ConSync (LockAcquire console_lock).
Definition console_release : con_point := ConSync (LockRelease console_lock).

Definition console_put_str (str : Z) : list con_point :=
  [console_acquire; PutStr str; console_release].
Definition console_put_char (char_asci : Z) : list con_point :=
  [console_acquire; PutChar char_asci; console_release].
Definition console_put_int (num : Z) : list con_point :=
  [console_acquire; PutInt num; console_release].

(** One round of the loop of a thread. *)
Definition k_thread_a : list con_point :=
  [ IntrSwitch INTR_OFF; ConsolePutStr v_a; ConsolePutVarA; ConsolePutStr blank_str;
    IntrSwitch INTR_ON ].
Definition k_thread_b : list con_point :=
  [ IntrSwitch INTR_OFF; ConsolePutStr v_b; ConsolePutVarB; ConsolePutStr blank_str;
    IntrSwitch INTR_ON ].

(** Printing, one character at a time. *)
Definition exec_print (V : video) (f : con_point) : res (video * list con_point) :=
  match f with
  | PutStr p => Ok (V, [PutStrLoop p])
  | PutStrLoop p =>
      r ← put_str_body rodata (V, p);
      Ok (match r with inl (V, p) => (V, [PutStrLoop p]) | inr V => (V, []) end)
  | PutChar c => V ← put_char V c; Ok (V, [])
  | PutInt n =>
      let buf := hex_loop (replicate 8 0) n 7 8 in
      '(edi, cl) ← while_ (skip_prefix_0 buf) LOOP_FUEL 0;
      Ok (V, [PutEachNum buf edi cl])
  | PutEachNum buf edi cl =>
      r ← put_each_num buf (V, edi, cl);
      Ok (match r with inl (V, edi, cl) => (V, [PutEachNum buf edi cl]) | inr V => (V, []) end)
  | _ => Fault
  end.

(** [put_str(next->name)] of [schedule], which does not take the console's
    lock: the array of the task_struct, up to its zero. *)
Fixpoint put_name (V : video) (nm : list Z) : res video :=
  match nm with
  | [] => Fault
  | c :: r => if c =? 0 then Ok V else V ← put_char V c; put_name V r
  end.

Fixpoint put_names (V : video) (nms : list (list Z)) : res video :=
  match nms with [] => Ok V | nm :: r => V ← put_name V nm; put_names V r end.

(** The names the scheduler has printed on the way from [K] to [K']. *)
Definition show_names (V : video) (K K' : kernel) : res video :=
  put_names V (drop (length (k_out K)) (k_out K')).

Definition exec_con (s : con_state) (f : con_point) : res (con_state * list con_point) :=
  match f with
  | ConSync f => '(K, fs) ← exec (con_ker s) f; V ← show_names (con_screen s) (con_ker s) K;
                 Ok (set_screen (set_con_ker s K) V, map ConSync fs)
  | ConsolePutStr p => Ok (s, console_put_str p)
  | ConsolePutVarA => Ok (s, console_put_int (test_var_a s))
  | ConsolePutVarB => Ok (s, console_put_int (test_var_b s))
  | IntrSwitch st => let K := con_ker s in
      Ok (set_con_ker s (set_eflags K (intr_set_status st (k_eflags K)).2), [])
  | f => '(V, fs) ← exec_print (con_screen s) f; Ok (set_screen s V, fs)
  end.

(** kernel/debug.c, up to its endless loop. *)
Definition panic_spin (V : video) (eflags filename line func condition : Z) : res (Z * video) :=
  let '(_, eflags) := intr_disable eflags in
  V ← put_str rodata V p_head;
  V ← put_str rodata V p_file; V ← put_str rodata V filename; V ← put_str rodata V newline;
  V ← put_str rodata V p_line; V ← put_int V line; V ← put_str rodata V newline;
  V ← put_str rodata V p_func; V ← put_str rodata V func; V ← put_str rodata V newline;
  V ← put_str rodata V p_cond; V ← put_str rodata V condition; V ← put_str rodata V newline;
  V ← put_str rodata V p_tail;
  Ok (eflags, V).

Definition con_runs := runs exec_con (λ s, running_thread (con_ker s)).

(** * Interleaving

    Threads call the console and other locks at any point where they run;
    [con_log] records the calls of print.S in the order in which they begin. *)

Definition is_call (f : con_point) : bool :=
  match f with PutStr _ | PutChar _ | PutInt _ => true | _ => false end.

Record con_config := ConConfig {
  con_st : con_state;
  con_conts : gmap Z (list con_point);
  con_log : list (Z * con_point);
}.

Definition log_after (t : Z) (f : con_point) (l : list (Z * con_point)) : list (Z * con_point) :=
  if is_call f then l ++ [(t, f)] else l.

Inductive con_step (Ls : gset Z) : con_config → con_config → Prop :=
(* the running thread executes its next program point *)
| con_exec s cs lg f r s' fs :
    cs !! running_thread (con_ker s) = Some (f :: r) → exec_con s f = Ok (s', fs) →
    con_step Ls (ConConfig s cs lg)
      (ConConfig s' (<[running_thread (con_ker s) := fs ++ r]> cs)
                 (log_after (running_thread (con_ker s)) f lg))
(* a timer interrupt *)
| con_timer s cs lg st K' V' : let K := con_ker s in
    intr_get_status (k_eflags K) = INTR_ON → cs !! running_thread K = Some st →
    intr_timer_handler (set_eflags K (cli (k_eflags K))) = Ok K' →
    show_names (con_screen s) K K' = Ok V' →
    con_step Ls (ConConfig s cs lg)
      (ConConfig (set_screen (set_con_ker s K') V')
                 (<[running_thread K := ConSync (TimerReturn (k_eflags K)) :: st]> cs) lg)
(* client code calls a function of the console *)
| con_call s cs lg f l : let K := con_ker s in
    cs !! running_thread K = Some [] → is_call f = true → console_lock ∈ Ls →
    k_locks K !! console_lock = Some l → holder_repeat_nr l < 2 ^ 32 - 1 →
    con_step Ls (ConConfig s cs lg)
      (ConConfig s (<[running_thread K := [console_acquire; f; console_release]]> cs) lg)
(* client code takes or gives back another lock *)
| con_acquire s cs lg L l : let K := con_ker s in
    L ∈ Ls → L ≠ console_lock → cs !! running_thread K = Some [] →
    k_locks K !! L = Some l → holder_repeat_nr l < 2 ^ 32 - 1 →
    con_step Ls (ConConfig s cs lg)
      (ConConfig s (<[running_thread K := [ConSync (LockAcquire L)]]> cs) lg)
| con_release s cs lg L l : let K := con_ker s in
    L ∈ Ls → L ≠ console_lock → cs !! running_thread K = Some [] →
    k_locks K !! L = Some l → holder l = running_thread K →
    con_step Ls (ConConfig s cs lg)
      (ConConfig s (<[running_thread K := [ConSync (LockRelease L)]]> cs) lg)
(* client code switches interrupts on or off, changes the variables *)
| con_intr s cs lg i : let K := con_ker s in
    cs !! running_thread K = Some [] →
    con_step Ls (ConConfig s cs lg)
      (ConConfig (set_con_ker s (set_eflags K (intr_set_status i (k_eflags K)).2)) cs lg)
| con_vars s cs lg a b :
    con_step Ls (ConConfig s cs lg)
      (ConConfig (ConState (con_ker s) (con_screen s) a b) cs lg)
(* the stack pointer moves within the running thread's stack *)
| con_stack s cs lg a :
    stack_ok (running_thread (con_ker s)) a →
    con_step Ls (ConConfig s cs lg) (ConConfig (set_con_ker s (set_esp (con_ker s) a)) cs lg).

Inductive con_reachable (Ls : gset Z) (c0 : con_config) : con_config → Prop :=
| con_refl : con_reachable Ls c0 c0
| con_next c c' : con_reachable Ls c0 c → con_step Ls c c' → con_reachable Ls c0 c'.
End console.

Lemma show_names_same V K K' : k_out K' = k_out K → show_names V K K' = Ok V.
Proof. unfold show_names. intros ->. by rewrite drop_ge. Qed.
