(* ===== verification/ConsoleProps.v ===== *)
(** What the console promises under every interleaving: the texts of different
    calls are not mixed, and only the scheduler's thread names come between.
    The proof relates the threads of Console.v to those of Sync.v, whose
    invariant says who is inside the lock. *)
From S2P Require Import Prelude ByteMem CString Paging Interrupt DList Sched Sync Uncontended.
From S2P Require Import SchedProps SyncInv SyncSafe SyncProps Screen Console.

(** * Threads of the console as threads of the locks *)

(** The points inside sync.c, and the point of console.c under them. *)
Fixpoint proj (st : list con_point) : list point :=
  match st with ConSync f :: r => f :: proj r | _ => [] end.

Fixpoint front (st : list con_point) : option con_point :=
  match st with ConSync _ :: r => front r | f :: _ => Some f | [] => None end.

Definition is_loop (f : con_point) : bool :=
  match f with PutStrLoop _ | PutEachNum _ _ _ => true | _ => false end.

Definition is_print (f : con_point) : bool := is_call f || is_loop f.

Lemma proj_app fs r : proj (map ConSync fs ++ r) = fs ++ proj r.
Proof. induction fs as [|f fs IH]; simpl; congruence. Qed.

Lemma front_app fs r : front (map ConSync fs ++ r) = front r.
Proof. by induction fs as [|f fs IH]; simpl. Qed.

Lemma proj_map fs : proj (map ConSync fs) = fs.
Proof. rewrite <- (app_nil_r (map ConSync fs)), proj_app. apply app_nil_r. Qed.

Lemma front_map fs : front (map ConSync fs) = None.
Proof. by induction fs. Qed.

Section console.
Context `{Symbols, ConSyms} (Ls : gset Z).

Abbreviation L := console_lock.

(** In [lock_acquire], on the way to the lock. *)
Definition acquiring (p : pos) : Prop :=
  p = Calling L ∨ p = Want L ∨ p = Trying L ∨ p = Waiting L ∨ p = Got L ∨ p = Counting L.

(** A thread is outside the console, on its way in, or prints with the lock. *)
Inductive shape (h : gset (Z * Z)) (t : Z) : list con_point → Prop :=
| sh_free pre : shape h t (map ConSync pre)
| sh_acquire pre p f : at_pos pre p → acquiring p → is_call f = true →
    shape h t (map ConSync pre ++ [f; console_release])
| sh_print pre f : at_pos pre Out → (t, L) ∈ h → is_print f = true →
    shape h t (map ConSync pre ++ [f; console_release]).

Lemma shape_mono h h' t st : shape h t st → ((t, L) ∈ h → (t, L) ∈ h') → shape h' t st.
Proof. destruct 1; intros Hm; [by constructor|by eapply sh_acquire|]. apply sh_print; auto. Qed.

Lemma print_not_sync f : is_print f = true → ∀ f', f ≠ ConSync f'.
Proof. by intros Hp f' ->. Qed.

Lemma call_print f : is_call f = true → is_print f = true.
Proof. unfold is_print. by intros ->. Qed.

Lemma print_front pre f r : is_print f = true → front (map ConSync pre ++ f :: r) = Some f.
Proof. intros Hp. rewrite front_app. by destruct f. Qed.

Lemma print_proj pre f r : is_print f = true → proj (map ConSync pre ++ f :: r) = pre.
Proof. intros Hp. rewrite proj_app. destruct f; by rewrite ?app_nil_r. Qed.

(** A printing point at the head runs inside the lock. *)
Lemma shape_print h t f r :
  shape h t (f :: r) → is_print f = true → r = [console_release] ∧ (t, L) ∈ h.
Proof.
  intros Hs Hp. inversion Hs as [pre E|pre p f' Hat Ha Hc E|pre f' Hat Hin Hp' E].
  - destruct pre; [done|]. simpl in E. injection E as <- _. done.
  - destruct pre; simpl in E; injection E as <- <-; [|done].
    inversion Hat; subst. by destruct Ha as [?|[?|[?|[?|[?|?]]]]].
  - destruct pre; simpl in E; injection E as <- <-; [|done]. done.
Qed.

(** A thread in a loop is inside the lock. *)
Lemma shape_loop h t st f :
  shape h t st → front st = Some f → is_loop f = true → (t, L) ∈ h.
Proof.
  intros Hs Hf Hl. destruct Hs as [pre|pre p f' Hat Ha Hc|pre f' Hat Hin Hp].
  - by rewrite front_map in Hf.
  - rewrite print_front in Hf by by apply call_print. injection Hf as ->. by destruct f.
  - done.
Qed.

(** * Lock steps *)

Lemma held_other K f h u : u ≠ running_thread K → (u, L) ∈ held_after K f h ↔ (u, L) ∈ h.
Proof. intros Hu. destruct f; simpl; repeat case_match; set_solver. Qed.

Lemma out_step K f r K' fs h :
  at_pos (f :: r) Out → exec K f = Ok (K', fs) → at_pos (fs ++ r) Out ∧ held_after K f h = h.
Proof.
  intros Hat He. inversion Hat; subst; simpl in He; injection He as _ <-; by split; try constructor.
Qed.

Lemma held_unique K cs h qs P t u :
  sync_inv Ls (Config K cs h) qs P → L ∈ Ls → (t, L) ∈ h → (u, L) ∈ h → t = u.
Proof.
  intros Hi HL H1 H2. destruct (sy_lock _ _ _ _ Hi L HL) as (v & l & ws & _ & Hlk).
  apply (li_ghost _ _ _ _ _ _ Hlk) in H1 as (_ & <- & _).
  by apply (li_ghost _ _ _ _ _ _ Hlk) in H2 as (_ & <- & _).
Qed.

Lemma sema_down_loop_pos K s o K' fs :
  sema_down_loop K s o = Ok (K', fs) → fs = [] ∨ ∃ o', fs = [BlockReturn o'; SemaDownLoop s o].
Proof.
  unfold sema_down_loop. intros (v & _ & E)%bind_ok_inv. destruct (v =? 0).
  - apply bind_ok_inv in E as (b & _ & E). apply bind_ok_inv in E as (_ & _ & E).
    apply bind_ok_inv in E as (b' & _ & E). destruct b'; [done|].
    apply bind_ok_inv in E as (K1 & _ & E). apply bind_ok_inv in E as ([o' K2] & _ & E).
    injection E as _ <-. right. eauto.
  - apply bind_ok_inv in E as (_ & _ & E). injection E as _ <-. by left.
Qed.

Lemma acquire_step K cs h qs P f r p K' fs :
  sync_inv Ls (Config K cs h) qs P → L ∈ Ls → cs !! running_thread K = Some (f :: r) →
  at_pos (f :: r) p → acquiring p → exec K f = Ok (K', fs) →
  (∃ p', at_pos (fs ++ r) p' ∧ acquiring p')
  ∨ (at_pos (fs ++ r) Out ∧ (running_thread K, L) ∈ held_after K f h).
Proof.
  intros Hi HL Hcs Hat Ha He. unfold acquiring in *.
  inversion Hat as [fl st q Hq| | |M0|M0|M0 o|M0 o o'|M0|M0|M0|M0|M0]; subst;
    try (by destruct Ha as [?|[?|[?|[?|[?|?]]]]]);
    try (assert (M0 = L) by (by destruct Ha as [?|[?|[?|[?|[?|?]]]]]; simplify_eq); subst M0).
  - simpl in He. injection He as _ <-. left. eauto.
  - simpl in He. apply bind_ok_inv in He as (l & Hl & E).
    destruct (Z.eqb_spec (holder l) (running_thread K)) as [Eh|].
    + simpl in E. injection E as _ <-. right. split; [constructor|]. simpl.
      destruct (sy_lock _ _ _ _ Hi L HL) as (v & l' & ws & (_ & Hl' & _) & Hlk). simpl in Hl'.
      unfold get_lock in Hl. rewrite Hl' in Hl. injection Hl as ->.
      apply (li_ghost _ _ _ _ _ _ Hlk). split_and!; [by eapply cur_nonnull|done|].
      destruct (cur_pos Ls K cs h qs P _ Hi Hcs) as (p & Hp & Hat' & _).
      rewrite (at_pos_unique _ _ _ Hat' Hat) in Hp. simpl in Hp. by rewrite Hp.
    + injection E as _ <-. left. eexists. split; [constructor|]. auto.
  - simpl in He. unfold sema_down in He. destruct (intr_disable _). injection He as _ <-.
    left. eexists. split; [constructor|]. auto.
  - simpl in He. destruct (sema_down_loop_pos _ _ _ _ _ He) as [->|(o' & ->)];
      left; eexists; (split; [constructor|]); auto 10.
  - simpl in He. injection He as _ <-. left. eexists. split; [constructor|]. auto.
  - simpl in He. apply bind_ok_inv in He as (l & _ & E). injection E as _ <-.
    left. eexists. split; [constructor|]. auto 10.
  - simpl in He. apply bind_ok_inv in He as (l & _ & E). apply bind_ok_inv in E as (_ & _ & E).
    injection E as _ <-. right. split; [constructor|]. simpl. set_solver.
Qed.

(** * Texts *)

(** What a call prints. *)
Definition says (f : con_point) (s : list Z) : Prop :=
  match f with
  | PutStr p => cstr rodata p s
  | PutChar c => s = [u8 c]
  | PutInt n => s = hex n
  | _ => False
  end.

(** What a loop still has to print. *)
Definition loop_text (f : con_point) (s : list Z) : Prop :=
  match f with
  | PutStrLoop p => cstr rodata p s
  | PutEachNum buf edi cl => ∃ j, edi = Z.of_nat j ∧ length buf = 8%nat ∧ Forall is_digit s
      ∧ s = cl :: drop (S j) buf
  | _ => False
  end.

Definition loop_at (cs : gmap Z (list con_point)) (t : Z) (f : con_point) : Prop :=
  ∃ st, cs !! t = Some st ∧ front st = Some f ∧ is_loop f = true.

(** What is on the screen: characters of the calls, and of the thread names the
    scheduler prints in between. *)
Inductive ink := Said (c : Z) | Named (c : Z).

Definition ink_char (i : ink) : Z := match i with Said c | Named c => c end.
Definition said : list ink → list Z := omap (λ i, match i with Said c => Some c | Named _ => None end).
Definition named : list ink → list Z := omap (λ i, match i with Said _ => None | Named c => Some c end).

Lemma said_app l l' : said (l ++ l') = said l ++ said l'.
Proof. apply omap_app. Qed.

Lemma named_app l l' : named (l ++ l') = named l ++ named l'.
Proof. apply omap_app. Qed.

(** A name up to its zero. *)
Fixpoint name_text (nm : list Z) : list Z :=
  match nm with [] => [] | c :: r => if c =? 0 then [] else u8 c :: name_text r end.

Definition names_text (nms : list (list Z)) : list Z := concat (map name_text nms).

(** The screen shows the texts of the calls one after the other, and between
    their characters the names in the order in which threads were scheduled
    since [k_out] was [N0]; [rest] is what is missing of the last call. *)
Record text_inv (t0 : term) (N0 : list (list Z)) (s : con_state) (cs : gmap Z (list con_point))
    (texts : list (list Z)) (out : list ink) (rest : list Z) : Prop := {
  tx_shows : shows (con_screen s) (t_puts t0 (map ink_char out));
  tx_texts : concat texts = said out ++ rest;
  tx_names : ∃ ns, k_out (con_ker s) = N0 ++ ns ∧ named out = names_text ns;
  tx_loop t f : loop_at cs t f → loop_text f rest;
  tx_done : rest = [] ∨ ∃ t f, loop_at cs t f;
}.

Lemma loop_at_insert cs t st u f :
  loop_at (<[t := st]> cs) u f
  ↔ (u = t ∧ front st = Some f ∧ is_loop f = true) ∨ (u ≠ t ∧ loop_at cs u f).
Proof.
  unfold loop_at. rewrite lookup_insert. destruct (decide (t = u)) as [->|Hne].
  - split; [intros (? & [= <-] & ?); tauto|]. intros [(_ & ?)|[? _]]; [eauto|done].
  - naive_solver.
Qed.

(** A thread that is at the same loop, or at none, before and after. *)
Lemma loop_at_same cs t st st' :
  cs !! t = Some st →
  (∀ f, is_loop f = true → front st' = Some f ↔ front st = Some f) →
  ∀ u f, loop_at (<[t := st']> cs) u f ↔ loop_at cs u f.
Proof.
  intros Hst Hf u f. rewrite loop_at_insert. unfold loop_at. split.
  - intros [(-> & Hfr & Hl)|[_ Hx]]; [|done]. exists st. split_and!; auto. by apply Hf.
  - intros (st0 & Hst0 & Hfr & Hl). destruct (decide (u = t)) as [->|]; [|right; eauto].
    left. rewrite Hst in Hst0. injection Hst0 as ->. split_and!; auto. by apply Hf.
Qed.

Context (Hro : is_byte_map rodata = true).

Lemma put_char_ok V t c V' : shows V t → put_char V c = Ok V' → shows V' (t_put t (u8 c)).
Proof.
  intros Hs Hp. pose proof (u8_range c) as Hr.
  assert (E : put_char V c = put_char V (u8 c)) by (unfold put_char; by rewrite (u8_small (u8 c))).
  rewrite E in Hp. destruct (decide (u8 c = 8 ∧ t_pos t = 0)) as [[E8 H0']|Hn].
  - rewrite E8, (put_char_backspace V t) in Hp by done. done.
  - destruct (put_char_shows V t (u8 c) Hs) as (V1 & E1 & Hs1); [|congruence].
    split; [done|]. intros E8. pose proof (sh_pos _ _ Hs).
    destruct (decide (t_pos t = 0)); [|lia]. by destruct Hn.
Qed.

Lemma t_puts_snoc t s c : t_puts t (s ++ [c]) = t_put (t_puts t s) c.
Proof. unfold t_puts. by rewrite foldl_app. Qed.

Lemma t_puts_app t s s' : t_puts t (s ++ s') = t_puts (t_puts t s) s'.
Proof. apply foldl_app. Qed.

Lemma put_name_ok nm : ∀ V t V',
  shows V t → put_name V nm = Ok V' → shows V' (t_puts t (name_text nm)).
Proof.
  induction nm as [|c r IH]; intros V t V' Hs; simpl; [done|]. destruct (c =? 0); [by intros [= <-]|].
  intros (V1 & Hp & Hr)%bind_ok_inv. exact (IH V1 _ V' (put_char_ok V t c V1 Hs Hp) Hr).
Qed.

Lemma put_names_ok nms : ∀ V t V',
  shows V t → put_names V nms = Ok V' → shows V' (t_puts t (names_text nms)).
Proof.
  induction nms as [|nm r IH]; intros V t V' Hs; simpl; [by intros [= <-]|].
  intros (V1 & Hp & Hr)%bind_ok_inv. unfold names_text. simpl. rewrite t_puts_app.
  exact (IH V1 _ V' (put_name_ok nm V t V1 Hs Hp) Hr).
Qed.

(** The screen of [s'] is that of [s] with the names printed in between. *)
Definition printed (s s' : con_state) : Prop :=
  k_out (con_ker s) `prefix_of` k_out (con_ker s')
  ∧ show_names (con_screen s) (con_ker s) (con_ker s') = Ok (con_screen s').

Lemma printed_none s s' :
  con_screen s' = con_screen s → k_out (con_ker s') = k_out (con_ker s) → printed s s'.
Proof. intros Ev Eo. split; [by rewrite Eo|]. by rewrite show_names_same, Ev. Qed.

(** The new ink, in the order of the screen. *)
Lemma said_chars l : said (map Said l) = l ∧ named (map Said l) = [].
Proof. induction l as [|c l [IH1 IH2]]; [done|]. split; simpl; [by rewrite IH1|done]. Qed.

Lemma named_chars l : said (map Named l) = [] ∧ named (map Named l) = l.
Proof. induction l as [|c l [IH1 IH2]]; [done|]. split; simpl; [done|by rewrite IH2]. Qed.

Lemma ink_chars f l : (∀ c, ink_char (f c) = c) → map ink_char (map f l) = l.
Proof. intros Hf. rewrite map_map. rewrite (map_ext _ id) by exact Hf. apply map_id. Qed.

Lemma text_inv_names t0 N0 s s' cs cs' texts out rest :
  (∀ t f, loop_at cs' t f ↔ loop_at cs t f) → printed s s' →
  text_inv t0 N0 s cs texts out rest → ∃ out', text_inv t0 N0 s' cs' texts out' rest.
Proof.
  intros Hl [[l Ho] Hn] [H1 H2 (ns & En & Hns) H3 H4]. unfold show_names in Hn.
  rewrite Ho, drop_app_length in Hn. exists (out ++ map Named (names_text l)). split.
  - rewrite map_app, (ink_chars Named) by done. rewrite t_puts_app. by eapply put_names_ok.
  - by rewrite said_app, (proj1 (named_chars _)), app_nil_r.
  - exists (ns ++ l). split; [by rewrite Ho, En, app_assoc|]. rewrite named_app, (proj2 (named_chars _)), Hns. unfold names_text. by rewrite map_app, concat_app.
  - intros t f Hf%Hl. eauto.
  - destruct H4 as [?|(t & f & Hf)]; [by left|right]. exists t, f. by apply Hl.
Qed.

(** One step of a printing thread: what it printed and what remains. *)
Lemma print_call V t f s V' fs :
  shows V t → is_call f = true → exec_print V f = Ok (V', fs) → says f s →
  ∃ d r, s = d ++ r ∧ shows V' (t_puts t d)
    ∧ ((fs = [] ∧ r = []) ∨ ∃ f', fs = [f'] ∧ is_loop f' = true ∧ loop_text f' r).
Proof.
  intros Hs Hc He Hsay. destruct f as [|p| |c|n| | | | |]; try done; cbn [exec_print] in He; simpl in Hsay.
  - injection He as <- <-. exists [], s. split_and!; [done|done|]. right. by eexists.
  - apply bind_ok_inv in He as (V1 & Hp & E). injection E as <- <-. subst s.
    exists [u8 c], []. split_and!; [done| |by left]. by apply (put_char_ok V t c).
  - rewrite hex_loop_digits in He. set (buf := digits n) in *.
    destruct (skip_run buf 0 buf eq_refl eq_refl) as (j & cl & r & Hrun & Hd & Hst); [lia|].
    rewrite (while_from_nat _ _ _ (Z.of_nat j, cl)) in He.
    2:{ eexists. split; [|exact Hrun]. pose proof LOOP_FUEL_val. change (length buf) with 8%nat. lia. }
    rewrite bind_ok in He. injection He as <- <-. exists [], s. split_and!; [done|done|].
    right. eexists. split_and!; [done|done|]. exists j. pose proof (strip_digits buf (digits_are n)) as Hf.
    subst s. unfold hex. fold buf. rewrite Hst in Hf |- *. by rewrite Hd.
Qed.

Lemma print_loop V t f s V' fs :
  shows V t → is_loop f = true → exec_print V f = Ok (V', fs) → loop_text f s →
  ∃ d r, s = d ++ r ∧ shows V' (t_puts t d)
    ∧ ((fs = [] ∧ r = []) ∨ ∃ f', fs = [f'] ∧ is_loop f' = true ∧ loop_text f' r).
Proof.
  intros Hs Hc He Hsay. destruct f as [| |p| | |buf edi cl| | | |]; try done; cbn [exec_print] in He; simpl in Hsay;
    unfold put_str_body, put_each_num in He.
  - pose proof (flat_holds rodata Hro) as Hh. destruct s as [|c s].
    + rewrite (load8_holds rodata rodata p 0 Hh (cstr_nil _ _ Hsay)) in He.
      simpl in He. injection He as <- <-. exists [], []. split_and!; [done|done|by left].
    + pose proof (cstr_next _ _ _ _ Hsay) as Hn. apply cstr_cons in Hsay as (H0' & Hr & Hc').
      rewrite (load8_holds rodata rodata p c Hh H0') in He. rewrite !bind_ok in He.
      rewrite (proj2 (Z.eqb_neq c 0)) in He by lia.
      apply bind_ok_inv in He as (x & E & He). apply bind_ok_inv in E as (V1 & Hp & E).
      injection E as <-. injection He as <- <-. exists [c], s. split_and!; [done| |].
      * rewrite <- (u8_small c) by lia. by apply (put_char_ok V t c).
      * right. eexists. split_and!; [done|done|]. simpl. by rewrite Hn.
  - destruct Hsay as (j & -> & Hl & Hf & ->). apply Forall_cons in Hf as [Hcl Hf].
    apply bind_ok_inv in He as (x & E & He). apply bind_ok_inv in E as (V1 & Hp & E).
    pose proof (put_char_ok V t cl V1 Hs Hp) as Hs1. unfold is_digit in Hcl.
    rewrite u8_small in Hs1 by lia. destruct (Z.ltb_spec (Z.of_nat j + 1) 8).
    + injection E as <-. injection He as <- <-. exists [cl], (drop (S j) buf). split_and!; [done|done|].
      right. eexists. split_and!; [done|done|].
      destruct (drop (S j) buf) as [|c r] eqn:Ed.
      { apply (f_equal length) in Ed. rewrite length_drop in Ed. simpl in Ed. lia. }
      exists (S j). replace (Z.of_nat j + 1) with (Z.of_nat (S j)) by lia. split_and!; auto.
      rewrite (digit_at_drop _ _ _ _ Ed). f_equal. symmetry. by apply (drop_next _ _ c).
    + injection E as <-. injection He as <- <-. exists [cl], []. split_and!; [|done|by left].
      rewrite drop_ge by lia. done.
Qed.

(** * The invariant *)

Abbreviation says_all := (Forall2 (λ (e : Z * con_point) s, says e.2 s)).

Record con_inv (t0 : term) (N0 : list (list Z)) (c : con_config) (h : gset (Z * Z)) : Prop := {
  ci_sync : ∃ qs P, sync_inv Ls (Config (con_ker (con_st c)) (proj <$> con_conts c) h) qs P;
  ci_shape t st : con_conts c !! t = Some st → shape h t st;
  ci_text texts : says_all (con_log c) texts →
    ∃ out rest, text_inv t0 N0 (con_st c) (con_conts c) texts out rest;
}.

Context (HL : L ∈ Ls) (t0 : term) (N0 : list (list Z)).

(** Moves that print no text. *)
Lemma con_keep s cs lg h s' cs' h' :
  con_inv t0 N0 (ConConfig s cs lg) h →
  step Ls (Config (con_ker s) (proj <$> cs) h) (Config (con_ker s') (proj <$> cs') h') →
  printed s s' →
  (∀ t st, cs' !! t = Some st → shape h' t st) →
  (∀ t f, loop_at cs' t f ↔ loop_at cs t f) →
  con_inv t0 N0 (ConConfig s' cs' lg) h'.
Proof.
  intros [(qs & P & Hi) _ Ht] Hstep Hv Hs Hl. split; simpl in *.
  - apply (step_preserves Ls _ _ qs P Hi Hstep).
  - done.
  - intros texts Hsay. destruct (Ht texts Hsay) as (d & r & Hx).
    destruct (text_inv_names t0 N0 s s' cs cs' texts d r Hl Hv Hx) as [d' Hx']. by exists d', r.
Qed.

(** ... of the running thread. *)
Lemma con_move s cs lg h s' st st' h' :
  let cur := running_thread (con_ker s) in
  con_inv t0 N0 (ConConfig s cs lg) h → cs !! cur = Some st →
  step Ls (Config (con_ker s) (proj <$> cs) h)
          (Config (con_ker s') (<[cur := proj st']> (proj <$> cs)) h') →
  printed s s' → shape h' cur st' →
  (∀ u, u ≠ cur → (u, L) ∈ h → (u, L) ∈ h') →
  (∀ f, is_loop f = true → front st' = Some f ↔ front st = Some f) →
  con_inv t0 N0 (ConConfig s' (<[cur := st']> cs) lg) h'.
Proof.
  intros cur Hi Hst Hstep Hv Hs Hh Hf. apply (con_keep s cs lg h); auto.
  - by rewrite fmap_insert.
  - intros t st0. rewrite lookup_insert. destruct (decide (cur = t)) as [<-|Hne].
    + by intros [= <-].
    + intros Ht. apply (shape_mono h); [by apply (ci_shape _ _ _ _ Hi t st0 Ht)|]. apply Hh. congruence.
  - by apply (loop_at_same cs cur st).
Qed.

Lemma proj_lookup (cs : gmap Z (list con_point)) (t : Z) st : cs !! t = Some st → (proj <$> cs) !! t = Some (proj st).
Proof. intros Hst. by rewrite lookup_fmap, Hst. Qed.

(** A point inside sync.c. *)
Lemma con_sync_step s cs lg h f r K' fs V' :
  let cur := running_thread (con_ker s) in
  con_inv t0 N0 (ConConfig s cs lg) h → cs !! cur = Some (ConSync f :: r) →
  exec (con_ker s) f = Ok (K', fs) → show_names (con_screen s) (con_ker s) K' = Ok V' →
  con_inv t0 N0 (ConConfig (set_screen (set_con_ker s K') V') (<[cur := map ConSync fs ++ r]> cs) lg)
    (held_after (con_ker s) f h).
Proof.
  intros cur Hi Hst He Hv. pose proof (proj_lookup cs _ _ Hst) as Hpst. simpl in Hpst.
  destruct (ci_sync _ _ _ _ Hi) as (qs & P & Hsync). simpl in Hsync.
  apply (con_move s cs lg h _ (ConSync f :: r)); auto.
  - rewrite proj_app. by apply step_exec.
  - split; [by apply (exec_out _ f _ fs)|done].
  - pose proof (ci_shape _ _ _ _ Hi _ _ Hst) as Hs.
    inversion Hs as [pre E|pre p f' Hat Ha Hc E|pre f' Hat Hin Hp E].
    + destruct pre as [|g pre]; [done|]. injection E as -> <-. rewrite <- map_app. apply sh_free.
    + destruct pre as [|g pre]; simpl in E; injection E as Eg <-; [by rewrite Eg in Hc|]. subst g.
      rewrite app_assoc, <- map_app. simpl in Hpst. rewrite print_proj in Hpst by by apply call_print.
      destruct (acquire_step _ _ _ _ _ _ _ _ _ _ Hsync HL Hpst Hat Ha He) as [(p' & Hat' & Ha')|[Hat' Hin]].
      * by eapply sh_acquire.
      * apply sh_print; [done|done|by apply call_print].
    + destruct pre as [|g pre]; simpl in E; injection E as Eg <-; [by rewrite Eg in Hp|]. subst g.
      rewrite app_assoc, <- map_app.
      destruct (out_step _ _ _ _ _ h Hat He) as [Hat' ->]. by apply sh_print.
  - intros u Hu. by apply held_other.
  - intros f0 _. by rewrite front_app.
Qed.

(** Everybody else is outside the loops while a thread prints. *)
Lemma alone s cs lg h t u f :
  con_inv t0 N0 (ConConfig s cs lg) h → (t, L) ∈ h → loop_at cs u f → u = t.
Proof.
  intros Hi Ht (st & Hst & Hf & Hl). destruct (ci_sync _ _ _ _ Hi) as (qs & P & Hsync).
  apply (held_unique _ _ _ qs P u t Hsync HL); [|done].
  by apply (shape_loop h u st f); [apply (ci_shape _ _ _ _ Hi)| |].
Qed.

(** A point inside print.S. *)
Lemma con_print_step s cs lg h f r V' fs :
  let cur := running_thread (con_ker s) in
  con_inv t0 N0 (ConConfig s cs lg) h → cs !! cur = Some (f :: r) → is_print f = true →
  exec_print (con_screen s) f = Ok (V', fs) →
  (fs = [] ∨ ∃ f', fs = [f'] ∧ is_loop f' = true) →
  con_inv t0 N0 (ConConfig (set_screen s V') (<[cur := fs ++ r]> cs) (log_after cur f lg)) h.
Proof.
  intros cur Hi Hst Hp He Hfs. pose proof (proj_lookup cs _ _ Hst) as Hpst.
  assert (Hpr : proj (f :: r) = []) by (by destruct f). rewrite Hpr in Hpst.
  destruct (shape_print h cur f r (ci_shape _ _ _ _ Hi _ _ Hst) Hp) as [-> Hin].
  destruct (ci_sync _ _ _ _ Hi) as (qs & P & Hsync). split; simpl.
  - rewrite fmap_insert. destruct Hfs as [->|(f' & -> & Hl)].
    + apply (step_preserves Ls _ _ qs P Hsync). by apply step_release.
    + exists qs, P. assert (proj ([f'] ++ [console_release]) = []) as -> by (by destruct f').
      by rewrite insert_id.
  - intros t st. rewrite lookup_insert. destruct (decide (cur = t)) as [<-|].
    + intros [= <-]. destruct Hfs as [->|(f' & -> & Hl)].
      * apply (sh_free h cur [LockRelease L]).
      * apply (sh_print h cur []); [constructor|done|]. unfold is_print. rewrite Hl. apply orb_true_r.
    + apply (ci_shape _ _ _ _ Hi).
  - intros texts Hsay.
    assert (Hnew : ∀ out d r, (fs = [] ∧ r = []) ∨ (∃ f', fs = [f'] ∧ is_loop f' = true ∧ loop_text f' r) →
      shows V' (t_puts (t_puts t0 (map ink_char out)) d) → concat texts = said out ++ d ++ r →
      (∃ ns, k_out (con_ker s) = N0 ++ ns ∧ named out = names_text ns) →
      text_inv t0 N0 (set_screen s V') (<[cur := fs ++ [console_release]]> cs) texts (out ++ map Said d) r).
    { intros out d r Hr Hsh Hc (ns & En & Hns). split.
      - by rewrite map_app, (ink_chars Said), t_puts_app by done.
      - by rewrite said_app, (proj1 (said_chars d)), <- app_assoc.
      - exists ns. by rewrite named_app, (proj2 (said_chars d)), app_nil_r.
      - intros u f0 [(-> & Hf & Hl)|[Hne Hu]]%loop_at_insert.
        + destruct Hr as [[-> ->]|(f' & -> & Hl' & Ht)]; [done|]. simpl in Hf.
          destruct f'; simplify_eq; done.
        + by destruct Hne; apply (alone s cs lg h cur u f0).
      - destruct Hr as [[_ ->]|(f' & -> & Hl' & Ht)]; [by left|right]. exists cur, f'.
        apply loop_at_insert. left. split_and!; auto. by destruct f'. }
    destruct (is_call f) eqn:Hc.
    + unfold log_after in Hsay. rewrite Hc in Hsay.
      apply Forall2_app_inv_l in Hsay as (ts & ts' & Hts & Hlast & ->).
      apply Forall2_cons_inv_l in Hlast as (s0 & ? & Hs0 & ->%Forall2_nil_inv_l & ->).
      destruct (ci_text _ _ _ _ Hi ts Hts) as (d & r & [Hsh Hcat Hns _ Hdone]). simpl in *.
      assert (r = []) as ->.
      { destruct Hdone as [?|(u & f0 & Hu)]; [done|]. pose proof (alone s cs lg h cur u f0 Hi Hin Hu) as ->.
        destruct Hu as (st & Hst' & Hf & Hl). rewrite Hst in Hst'. injection Hst' as <-.
        destruct f; simpl in *; simplify_eq; done. }
      destruct (print_call _ _ f s0 V' fs Hsh Hc He Hs0) as (d' & r' & -> & Hsh' & Hr).
      exists (d ++ map Said d'), r'. apply Hnew; [done|done| |done].
      rewrite concat_app, Hcat. simpl. by rewrite !app_nil_r.
    + assert (Hl : is_loop f = true) by (unfold is_print in Hp; by rewrite Hc in Hp).
      unfold log_after in Hsay. rewrite Hc in Hsay.
      destruct (ci_text _ _ _ _ Hi texts Hsay) as (d & r & [Hsh Hcat Hns Hloop _]). simpl in *.
      assert (Ht : loop_text f r).
      { apply (Hloop cur). eexists. split_and!; [done|by destruct f|done]. }
      destruct (print_loop _ _ f r V' fs Hsh Hl He Ht) as (d' & r' & -> & Hsh' & Hr).
      exists (d ++ map Said d'), r'. by apply Hnew.
Qed.

Lemma print_leaves V f V' fs :
  exec_print V f = Ok (V', fs) → fs = [] ∨ ∃ f', fs = [f'] ∧ is_loop f' = true.
Proof.
  intros He. destruct f; try done; cbn [exec_print] in He.
  - injection He as _ <-. right. by eexists.
  - apply bind_ok_inv in He as ([[? ?]|?] & _ & E); injection E as _ <-; [right; by eexists|by left].
  - apply bind_ok_inv in He as (? & _ & E). injection E as _ <-. by left.
  - apply bind_ok_inv in He as ([? ?] & _ & E). injection E as _ <-. right. by eexists.
  - apply bind_ok_inv in He as ([[[? ?] ?]|?] & _ & E); injection E as _ <-; [right; by eexists|by left].
Qed.

(** The head of a thread's list. *)
Lemma shape_head h t f r :
  shape h t (f :: r) → (∃ f', f = ConSync f') ∨ is_print f = true.
Proof.
  intros Hs. inversion Hs as [pre E|pre p f' Hat Ha Hc E|pre f' Hat Hin Hp E];
    (destruct pre as [|g pre]; simpl in E; [try done|injection E as <- _; left; eauto]);
    injection E as <- _; right; auto using call_print.
Qed.

Lemma exec_con_print s f s' fs :
  is_print f = true → exec_con s f = Ok (s', fs) →
  ∃ V', exec_print (con_screen s) f = Ok (V', fs) ∧ s' = set_screen s V'.
Proof.
  intros Hp He. destruct f; try done;
    (apply bind_ok_inv in He as ([V' fs'] & E & Ex); injection Ex as <- <-; eauto).
Qed.

Lemma con_step_inv c c' h :
  con_inv t0 N0 c h → con_step Ls c c' → ∃ h', con_inv t0 N0 c' h'.
Proof.
  intros Hi Hstep.
  destruct Hstep as [s cs lg f r s' fs Hst He|s cs lg st K' V' K Hif Hst He Hv
    |s cs lg f l K Hst Hc _ Hl Hn|s cs lg M l K HM Hne Hst Hl Hn|s cs lg M l K HM Hne Hst Hl Hh
    |s cs lg i K Hst|s cs lg a b|s cs lg a Ha].
  - destruct (shape_head _ _ _ _ (ci_shape _ _ _ _ Hi _ _ Hst)) as [[f' ->]|Hp].
    + apply bind_ok_inv in He as ([K' fs'] & Hx & E). apply bind_ok_inv in E as (V' & Hv & [= <- <-]).
      eexists. by apply con_sync_step.
    + destruct (exec_con_print _ _ _ _ Hp He) as (V' & Hx & ->). exists h.
      apply con_print_step; auto. by apply (print_leaves (con_screen s) f V').
  - exists h. pose proof (proj_lookup cs _ _ Hst) as Hpst.
    apply (con_move s cs lg h _ st); auto; [by apply step_timer| |].
    { split; [exact (timer_out _ _ He)|done]. }
    pose proof (ci_shape _ _ _ _ Hi _ _ Hst) as Hs.
    destruct Hs as [pre|pre p f Hat Hac Hc|pre f Hat Hin Hp].
    + apply (sh_free _ _ (TimerReturn (k_eflags K) :: pre)).
    + by apply (sh_acquire _ _ (TimerReturn (k_eflags K) :: pre) p); [constructor|..].
    + by apply (sh_print _ _ (TimerReturn (k_eflags K) :: pre)); [constructor|..].
  - exists h. pose proof (proj_lookup cs _ _ Hst) as Hpst.
    assert (Hpr : proj [console_acquire; f; console_release] = [LockAcquire L]) by (by destruct f).
    apply (con_move s cs lg h _ []); auto.
    + rewrite Hpr. by eapply step_acquire.
    + by apply printed_none.
    + apply (sh_acquire _ _ [LockAcquire L] (Calling L)); [constructor|by left|done].
    + intros f0 Hf0. simpl. destruct f; simpl; split; intros E; simplify_eq; done.
  - exists h. pose proof (proj_lookup cs _ _ Hst) as Hpst.
    apply (con_move s cs lg h _ []); auto; [by eapply step_acquire|by apply printed_none|].
    apply (sh_free _ _ [LockAcquire M]).
  - exists h. pose proof (proj_lookup cs _ _ Hst) as Hpst. destruct (ci_sync _ _ _ _ Hi) as (qs & P & Hsy).
    apply (con_move s cs lg h _ []); auto; [|by apply printed_none|apply (sh_free _ _ [LockRelease M])].
    apply step_release; [done|done|]. destruct (sy_lock _ _ _ _ Hsy M HM) as (v & l' & ws & Hd & Hlk).
    destruct Hd as (_ & Hl' & _). simpl in Hl', Hsy. fold K in Hl', Hsy.
    rewrite Hl in Hl'. injection Hl' as <-.
    apply (li_ghost _ _ _ _ _ _ Hlk). split_and!; [by eapply cur_nonnull|done|].
    destruct (cur_pos Ls K _ h qs P _ Hsy Hpst) as (p & Hp & Hat & _). inversion Hat. subst p.
    intros E. unfold K in Hp. congruence.
  - exists h. apply (con_keep s cs lg h); auto; [|by apply printed_none|apply Hi].
    apply step_intr. by rewrite (proj_lookup cs _ _ Hst).
  - exists h. destruct Hi as [Hs Hsh Ht]. split; [done..|]. intros texts Hsay.
    destruct (Ht texts Hsay) as (out & rest & [? ? ? ? ?]). exists out, rest. by split.
  - exists h. apply (con_keep s cs lg h); auto; [by apply step_stack|by apply printed_none|apply Hi].
Qed.

(** * Initial states *)

(** All threads are in client code or have not started, and the screen shows
    the terminal [t0]. *)
Record con_init (c : con_config) (qs : gmap Z (list Z)) : Prop := {
  co_sync : init_config Ls (Config (con_ker (con_st c)) (proj <$> con_conts c) ∅) qs;
  co_conts t st : con_conts c !! t = Some st → st = [] ∨ st = [ConSync KernelThread];
  co_log : con_log c = [];
  co_shows : shows (con_screen (con_st c)) t0;
  co_names : k_out (con_ker (con_st c)) = N0;
}.

Lemma con_init_inv c qs : con_init c qs → con_inv t0 N0 c ∅.
Proof.
  intros [Hs Hc Hl Hv Hn]. split.
  - eexists _, _. by apply init_inv.
  - intros t st Hst. destruct (Hc t st Hst) as [->| ->];
      [apply (sh_free _ _ [])|apply (sh_free _ _ [KernelThread])].
  - rewrite Hl. intros texts ->%Forall2_nil_inv_l. exists [], []. split; auto; [exists []; by rewrite app_nil_r|].
    intros t f (st & Hst & Hf & _). by destruct (Hc t st Hst) as [->| ->].
Qed.

Lemma con_reachable_inv c0 qs c :
  con_init c0 qs → con_reachable Ls c0 c → ∃ h, con_inv t0 N0 c h.
Proof.
  intros H0' Hr. induction Hr as [|c c' _ [h IH] Hstep].
  - exists ∅. by apply (con_init_inv c0 qs).
  - by apply (con_step_inv c c' h).
Qed.
End console.

(** A name that is zero-terminated and does not move the cursor back is printed. *)
Fixpoint name_ok (nm : list Z) : bool :=
  match nm with [] => false | c :: r => (c =? 0) || (0 <=? c) && (c <? 256) && negb (c =? 8) && name_ok r end.

Lemma put_name_runs nm : ∀ V t,
  shows V t → name_ok nm = true → ∃ V', put_name V nm = Ok V' ∧ shows V' (t_puts t (name_text nm)).
Proof.
  induction nm as [|c r IH]; intros V t Hs; simpl; [done|]. destruct (c =? 0); [by eexists|simpl].
  rewrite !andb_true_iff, negb_true_iff, Z.leb_le, Z.ltb_lt, Z.eqb_neq. intros (((Hc & Hc') & H8) & Hr).
  destruct (put_char_shows V t c Hs) as (V1 & -> & Hs1); [by apply printable_other|]. rewrite u8_small by lia.
  by apply (IH V1).
Qed.

(** * Uncontended calls *)

Section calls.
Context `{Symbols, ConSyms}.

Lemma con_runs_sync s K fs K' :
  runs exec running_thread K fs K' → k_out K' = k_out K →
  con_runs (set_con_ker s K) (map ConSync fs) (set_con_ker s K').
Proof.
  induction 1 as [|K f r K1 fs K2 He Hh Hr IH]; intros Eo; [apply runs_nil|]. simpl.
  pose proof (exec_out _ _ _ _ He) as Hp1. pose proof (runs_out _ _ _ Hr) as Hp2. rewrite Eo in Hp2.
  assert (E1 : k_out K1 = k_out K) by by apply (anti_symm prefix).
  apply (runs_cons _ _ _ _ _ (set_con_ker s K1) (map ConSync fs)); [|done|].
  - simpl. rewrite He. rb. rewrite show_names_same by done. rb. by destruct s.
  - rewrite <- map_app. apply IH. congruence.
Qed.

(** The lock around a print. *)
Lemma con_bracket s f V' :
  lock_free (con_ker s) console_lock → running_thread (con_ker s) ≠ NULL →
  (∀ K, con_runs (set_con_ker s K) [f] (set_screen (set_con_ker s K) V')) →
  con_runs s [console_acquire; f; console_release] (set_screen s V').
Proof.
  intros Hl Hn Hf. set (K := con_ker s) in *. set (K1 := Uncontended.locked K console_lock).
  change [console_acquire; f; console_release]
    with (map ConSync [LockAcquire console_lock] ++ [f] ++ map ConSync [LockRelease console_lock]).
  eapply runs_app.
  { replace s with (set_con_ker s K) at 1 by (by destruct s). apply con_runs_sync;
      [by apply lock_acquire_free|done]. }
  eapply runs_app; [apply Hf|]. fold K1.
  replace (set_screen s V') with
    (set_con_ker (set_screen s V') (set_locks (set_semas K1 (k_semas K)) (k_locks K))).
  - change (set_screen (set_con_ker s K1) V') with (set_con_ker (set_screen s V') K1).
    apply con_runs_sync; [|done]. apply lock_release_free; [done|done|]. split_and!; try done. apply Hl.
  - unfold set_screen, set_con_ker, K1, K. simpl. f_equal. by destruct (con_ker s).
Qed.

Context (Hro : is_byte_map rodata = true).

Lemma con_put_str_runs p s t sc :
  shows (con_screen s) t → cstr rodata p sc → 8 ∉ sc →
  ∃ V', shows V' (t_puts t sc) ∧ ∀ K, con_runs (set_con_ker s K) [PutStr p] (set_screen (set_con_ker s K) V').
Proof.
  intros Hs Hc H8. pose proof (flat_holds rodata Hro) as Hh.
  assert (Hloop : ∀ V p t, shows V t → cstr rodata p sc → ∃ V', shows V' (t_puts t sc)
    ∧ ∀ s, con_runs (set_screen s V) [PutStrLoop p] (set_screen s V')).
  { clear Hs Hc t p. induction sc as [|c sc IH]; intros V p t Hs Hc.
    - exists V. split; [done|]. intros s0. eapply runs_one; [|done]. cbn [exec_con exec_print].
      unfold put_str_body. by rewrite (load8_holds rodata rodata p 0 Hh (cstr_nil _ _ Hc)).
    - pose proof (cstr_next _ _ _ _ Hc) as Hn. apply cstr_cons in Hc as (H0' & Hr & Hc).
      rewrite not_elem_of_cons in H8. destruct H8 as [Hne H8].
      destruct (put_char_shows V t c Hs) as (V1 & Hp & Hs1); [by apply printable_other; [lia|]|].
      destruct (IH H8 V1 (p + 1) (t_put t c) Hs1 Hc) as (V' & Hs' & Hrun). exists V'. split; [done|].
      intros s0. apply (runs_cons _ _ _ _ _ (set_screen s0 V1) [PutStrLoop (p + 1)]); [|done|apply Hrun].
      cbn [exec_con exec_print].
      unfold put_str_body. rewrite (load8_holds rodata rodata p c Hh H0'). rb.
      rewrite (proj2 (Z.eqb_neq c 0)) by lia. cbn [set_screen con_screen]. rewrite Hp. rb.
      by rewrite Hn. }
  destruct (Hloop (con_screen s) p t Hs Hc) as (V' & Hs' & Hrun). exists V'. split; [done|].
  intros K. apply (runs_cons _ _ _ _ _ (set_con_ker s K) [PutStrLoop p]); [done|done|].
  exact (Hrun (set_con_ker s K)).
Qed.

Lemma con_put_int_runs n s t :
  shows (con_screen s) t →
  ∃ V', shows V' (t_puts t (hex n)) ∧ ∀ K, con_runs (set_con_ker s K) [PutInt n] (set_screen (set_con_ker s K) V').
Proof.
  intros Hs. set (buf := digits n).
  assert (Hl : length buf = 8%nat) by done.
  destruct (skip_run buf 0 buf Hl eq_refl) as (j & cl & r & Hrun & Hd & Hst); [lia|].
  pose proof (strip_digits buf (digits_are n)) as Hf. unfold hex. fold buf. rewrite Hst in Hf |- *.
  assert (Hloop : ∀ r j cl V t, drop (S j) buf = r → Forall is_digit (cl :: r) → shows V t →
    ∃ V', shows V' (t_puts t (cl :: r))
      ∧ ∀ s, con_runs (set_screen s V) [PutEachNum buf (Z.of_nat j) cl] (set_screen s V')).
  { clear. intros r. assert (Hl : length buf = 8%nat) by done.
    induction r as [|c r IH]; intros j cl V t Hd Hf Hs;
      apply Forall_cons in Hf as [Hc Hf]; apply (f_equal length) in Hd as Hlen;
      rewrite length_drop, Hl in Hlen; simpl in Hlen; unfold is_digit in Hc;
      (destruct (put_char_shows V t cl Hs) as (V1 & HV1 & Hs1); [apply printable_other; lia|]).
    - exists V1. split; [done|]. intros s. eapply runs_one; [|done]. cbn [exec_con exec_print].
      rewrite (put_each_num_ok _ _ _ _ V1 HV1). rb. by rewrite (proj2 (Z.ltb_ge _ _)) by lia.
    - destruct (IH (S j) c V1 (t_put t cl)) as (V' & Hs' & Hrun); auto.
      { by apply (drop_next _ _ c). }
      exists V'. split; [done|]. intros s.
      apply (runs_cons _ _ _ _ _ (set_screen s V1) [PutEachNum buf (Z.of_nat (S j)) c]); [|done|apply Hrun].
      cbn [exec_con exec_print]. rewrite (put_each_num_ok _ _ _ _ V1 HV1). rb.
      rewrite (proj2 (Z.ltb_lt _ _)) by lia. replace (Z.of_nat j + 1) with (Z.of_nat (S j)) by lia.
      by rewrite (digit_at_drop _ _ _ _ Hd). }
  destruct (Hloop r j cl (con_screen s) t Hd Hf Hs) as (V' & Hs' & Hr). exists V'. split; [done|].
  intros K. apply (runs_cons _ _ _ _ _ (set_con_ker s K) [PutEachNum buf (Z.of_nat j) cl]);
    [|done|exact (Hr (set_con_ker s K))]. cbn [exec_con exec_print].
  rewrite hex_loop_digits. fold buf. rewrite (while_from_nat _ _ _ (Z.of_nat j, cl)).
  2:{ eexists. split; [|exact Hrun]. rewrite Hl. pose proof LOOP_FUEL_val. lia. }
  by rb.
Qed.

(** Switching interrupts around prints. *)
Lemma lock_free_eflags K p fl : lock_free K p → lock_free (set_eflags K fl) p.
Proof. by intros []. Qed.

Lemma con_runs_call s f fs s' : exec_con s f = Ok (s, fs) → con_runs s fs s' → con_runs s [f] s'.
Proof. intros He Hr. eapply runs_cons; [exact He|done|]. by rewrite app_nil_r. Qed.

Lemma con_round s t x p q n sp sq :
  (∀ V K, exec_con (set_screen (set_con_ker s K) V) x
          = Ok (set_screen (set_con_ker s K) V, console_put_int n)) →
  lock_free (con_ker s) console_lock → running_thread (con_ker s) ≠ NULL → shows (con_screen s) t →
  cstr rodata p sp → 8 ∉ sp → cstr rodata q sq → 8 ∉ sq →
  ∃ s' fl, con_runs s [IntrSwitch INTR_OFF; ConsolePutStr p; x; ConsolePutStr q; IntrSwitch INTR_ON] s'
    ∧ shows (con_screen s') (t_puts t (sp ++ hex n ++ sq))
    ∧ con_ker s' = set_eflags (con_ker s) fl ∧ intr_get_status fl = INTR_ON.
Proof.
  intros Hx Hl Hn Hs Hp H8p Hq H8q. set (K := con_ker s).
  set (K1 := set_eflags K (intr_set_status INTR_OFF (k_eflags K)).2).
  set (s1 := set_con_ker s K1). pose proof (lock_free_eflags _ _ (k_eflags K1) Hl) as Hl1.
  destruct (con_put_str_runs p s1 t sp Hs Hp H8p) as (V2 & Hs2 & R2).
  destruct (con_put_int_runs n (set_screen s1 V2) _ Hs2) as (V3 & Hs3 & R3).
  destruct (con_put_str_runs q (set_screen s1 V3) _ sq Hs3 Hq H8q) as (V4 & Hs4 & R4).
  set (fl := (intr_set_status INTR_ON (k_eflags K1)).2).
  exists (set_con_ker (set_screen s1 V4) (set_eflags K1 fl)), fl. split_and!.
  - eapply runs_cons; [done|done|].
    eapply (runs_app _ _ _ [ConsolePutStr p]).
    { eapply con_runs_call; [done|]. by apply con_bracket. }
    eapply (runs_app _ _ _ [x]).
    { eapply con_runs_call; [exact (Hx V2 K1)|]. by apply con_bracket. }
    eapply (runs_app _ _ _ [ConsolePutStr q]).
    { eapply con_runs_call; [done|]. apply con_bracket; [done|done|apply R4]. }
    by apply runs_one.
  - simpl. unfold t_puts in *. by rewrite !foldl_app.
  - done.
  - apply intr_set_status_get.
Qed.
End calls.

(** * Properties *)

(** C5: The texts of console calls are not mixed.  Under every interleaving of
    threads that call [console_put_str], [console_put_char] and
    [console_put_int], lose the processor between any two characters and use
    other locks, the screen shows the texts of the calls one after the other,
    in the order in which they began, the last one perhaps up to some
    character; then one thread, and only one, is inside the printing routine
    with the rest of it.  The one thing that comes between their characters are
    the names of the threads [schedule] has switched to, in that order: it
    prints them without taking the console's lock. *)
Theorem console_not_mixed `{Symbols, ConSyms} (Ls : gset Z) t0 c0 qs c texts :
  let names c := k_out (con_ker (con_st c)) in
  is_byte_map rodata = true → console_lock ∈ Ls →
  con_init Ls t0 (names c0) c0 qs → con_reachable Ls c0 c →
  Forall2 (λ e s, says e.2 s) (con_log c) texts →
  ∃ out rest ns, shows (con_screen (con_st c)) (t_puts t0 (map ink_char out))
    ∧ concat texts = said out ++ rest
    ∧ names c = names c0 ++ ns ∧ named out = names_text ns
    ∧ (rest ≠ [] → ∃ t f, loop_at (con_conts c) t f ∧ loop_text f rest
         ∧ ∀ u f', loop_at (con_conts c) u f' → u = t).
Proof.
  intros names Hro HL H0' Hr Hsay.
  destruct (con_reachable_inv Ls Hro HL t0 (names c0) c0 qs c H0' Hr) as [h Hi].
  destruct (ci_text _ _ _ _ _ Hi texts Hsay) as (d & r & [Hs Hc (ns & Hn & Hns) Hl Hd]).
  exists d, r, ns. split_and!; auto. intros Hne. destruct Hd as [?|(t & f & Hf)]; [done|].
  exists t, f. split_and!; eauto. intros u f' Hu. destruct c as [s cs lg].
  apply (alone Ls HL t0 (names c0) s cs lg h t u f' Hi); [|done].
  destruct Hf as (st & Hst & Hfr & Hlp).
  by apply (shape_loop h t st f); [apply (ci_shape _ _ _ _ _ Hi)| |].
Qed.

(** The report of a failed assertion: interrupts are off and the screen shows
    where it failed. *)
Theorem panic_spin_reports `{ConSyms, PanicSyms} V t fl filename line func condition
    (sh sf sn sl su sc st name fn cond : list Z) :
  is_byte_map rodata = true → shows V t →
  Forall2 (λ p s, cstr rodata p s ∧ 8 ∉ s)
    [p_head; p_file; filename; newline; p_line; p_func; func; p_cond; condition; p_tail]
    [sh; sf; name; sn; sl; su; fn; sc; cond; st] →
  ∃ fl' V', panic_spin V fl filename line func condition = Ok (fl', V')
    ∧ intr_get_status fl' = INTR_OFF
    ∧ shows V' (t_puts t (sh ++ sf ++ name ++ sn ++ sl ++ hex line ++ sn ++ su ++ fn ++ sn
                          ++ sc ++ cond ++ sn ++ st)).
Proof.
  intros Hro Hs Hall. pose proof (flat_holds rodata Hro) as Hh.
  repeat (apply Forall2_cons in Hall as [[? ?] Hall]). unfold panic_spin.
  pose proof (intr_disable_off fl) as Hoff. destruct (intr_disable fl) as [old fl'].
  unfold t_puts in *.
  repeat match goal with
  | Hs : shows ?V ?t |- context [put_str rodata ?V ?p] =>
      let V' := fresh "V" in let E := fresh "E" in let Hn := fresh "Hs" in
      edestruct (put_str_shows rodata rodata V t p) as (V' & E & Hn); [eassumption..|];
      rewrite E; clear E Hs; rb
  | Hs : shows ?V ?t |- context [put_int ?V ?n] =>
      let V' := fresh "V" in let E := fresh "E" in let Hn := fresh "Hs" in
      destruct (put_int_shows V t n Hs) as (V' & E & Hn); rewrite E; clear E Hs; rb
  end.
  eexists _, _. split_and!; [done|done|]. unfold t_puts in *. by rewrite !foldl_app.
Qed.

(** One round of [k_thread_a] and of [k_thread_b] with the console free
    returns: it prints the label, the variable in hexadecimal and the blank
    where the cursor is, gives the lock back and leaves interrupts on. *)
Theorem k_thread_prints `{Symbols, ConSyms} s t sa sb se :
  is_byte_map rodata = true →
  lock_free (con_ker s) console_lock → running_thread (con_ker s) ≠ NULL → shows (con_screen s) t →
  cstr rodata v_a sa → cstr rodata v_b sb → cstr rodata blank_str se →
  8 ∉ sa → 8 ∉ sb → 8 ∉ se →
  (∃ s' fl, con_runs s k_thread_a s'
     ∧ shows (con_screen s') (t_puts t (sa ++ hex (test_var_a s) ++ se))
     ∧ con_ker s' = set_eflags (con_ker s) fl ∧ intr_get_status fl = INTR_ON)
  ∧ (∃ s' fl, con_runs s k_thread_b s'
     ∧ shows (con_screen s') (t_puts t (sb ++ hex (test_var_b s) ++ se))
     ∧ con_ker s' = set_eflags (con_ker s) fl ∧ intr_get_status fl = INTR_ON).
Proof. intros Hro **. split; by apply con_round. Qed.

(** * Witnesses *)

(** A schedule as a list of moves. *)
Inductive con_act := Run | Tick | Call (f : con_point).

Section run.
Context `{Symbols, ConSyms} (Ls : gset Z).

Definition con_act_run (m : con_act) (c : con_config) : option con_config :=
  let s := con_st c in let K := con_ker s in let cur := running_thread K in
  st ← con_conts c !! cur;
  match m, st with
  | Run, f :: r =>
      match exec_con s f with
      | Ok (s', fs) => Some (ConConfig s' (<[cur := fs ++ r]> (con_conts c)) (log_after cur f (con_log c)))
      | _ => None
      end
  | Tick, _ =>
      if decide (intr_get_status (k_eflags K) = INTR_ON) then
        match intr_timer_handler (set_eflags K (cli (k_eflags K))) with
        | Ok K' =>
            match show_names (con_screen s) K K' with
            | Ok V' => Some (ConConfig (set_screen (set_con_ker s K') V')
                (<[cur := ConSync (TimerReturn (k_eflags K)) :: st]> (con_conts c)) (con_log c))
            | _ => None
            end
        | _ => None
        end
      else None
  | Call f, [] =>
      l ← k_locks K !! console_lock;
      if decide (is_call f = true ∧ console_lock ∈ Ls ∧ holder_repeat_nr l < 2 ^ 32 - 1)
      then Some (ConConfig s (<[cur := [console_acquire; f; console_release]]> (con_conts c)) (con_log c))
      else None
  | _, _ => None
  end.

Fixpoint con_run (ms : list con_act) (c : con_config) : option con_config :=
  match ms with [] => Some c | m :: ms => c' ← con_act_run m c; con_run ms c' end.

Lemma con_act_step m c c' : con_act_run m c = Some c' → con_step Ls c c'.
Proof.
  destruct c as [s cs lg]. unfold con_act_run. simpl.
  destruct (cs !! running_thread (con_ker s)) as [st|] eqn:Hst; [simpl|done].
  destruct m as [| |f0]; destruct st as [|f r]; try done.
  - destruct (exec_con s f) as [[s' fs]| | |] eqn:E; try done. intros [= <-]. by apply con_exec.
  - case_decide; [|done]. destruct (intr_timer_handler _) eqn:E; try done.
    destruct (show_names _ _ _) eqn:Ev; try done. intros [= <-]. by apply con_timer.
  - case_decide; [|done]. destruct (intr_timer_handler _) eqn:E; try done.
    destruct (show_names _ _ _) eqn:Ev; try done. intros [= <-]. by apply con_timer.
  - destruct (k_locks (con_ker s) !! console_lock) as [l|] eqn:El; [simpl|done].
    case_decide as Hd; [|done]. intros [= <-]. destruct Hd as (? & ? & ?). by eapply con_call.
Qed.

Lemma con_run_reachable ms c0 c c' :
  con_reachable Ls c0 c → con_run ms c = Some c' → con_reachable Ls c0 c'.
Proof.
  revert c. induction ms as [|m ms IH]; simpl; intros c Hr; [by intros [= <-]|].
  destruct (con_act_run m c) as [c1|] eqn:E; [simpl|done].
  apply IH. eapply con_next; [done|]. by eapply con_act_step.
Qed.
End run.

Module ConsoleRuns.
Import SchedRuns SyncRuns ScreenRuns.

#[local] Instance csyms : ConSyms :=
  {| console_lock := L; v_a := 0x4000; v_b := 0x4000; blank_str := 0x4010;
     rodata := write_bytes hello 0x4010 [0x20; 0] |}.

Lemma rodata_bytes : is_byte_map rodata = true.
Proof. reflexivity. Qed.

Definition con0 (K : kernel) (V : video) : con_config :=
  ConConfig (ConState K V 0xbeef 7) {[ main_ := []; B := [ConSync KernelThread] ]} [].

Lemma con0_init K V :
  init_config Ls (Config K {[ main_ := []; B := [KernelThread] ]} ∅) qs1 → shows V last_line →
  con_init Ls last_line (k_out K) (con0 K V) qs1.
Proof.
  intros Hi Hv. split; simpl.
  - by rewrite fmap_insert, map_fmap_singleton.
  - intros t st [[_ <-]|[_ [_ <-]%lookup_singleton_Some]]%lookup_insert_Some; [by left|by right].
  - done.
  - done.
  - done.
Qed.

(** main prints one character and is preempted; B calls the console and has to
    wait; main goes on. *)
Definition schedule_ : list con_act :=
  [ Call (PutStr 0x4000); Run; Run; Run; Run; Run; Run; Run; Tick; Run;
    Call (PutInt 0xbeef); Run; Run; Run; Run ].

Definition end_log : list (Z * con_point) := [(main_, PutStr 0x4000)].

Lemma end_reachable : ∃ c, con_reachable Ls (con0 (ker c0) clear_screen) c ∧ con_log c = end_log.
Proof.
  assert (E : option_map con_log (con_run Ls schedule_ (con0 (ker c0) clear_screen)) = Some end_log)
    by (vm_compute; reflexivity).
  destruct (con_run Ls schedule_ (con0 (ker c0) clear_screen)) as [c|] eqn:Hc; [|discriminate].
  exists c. split; [|by injection E].
  apply (con_run_reachable Ls schedule_ _ (con0 (ker c0) clear_screen)); [apply con_refl|exact Hc].
Qed.

Lemma console_not_mixed_witness :
  ∃ c out rest ns, con_reachable Ls (con0 (ker c0) clear_screen) c ∧ con_log c = end_log
    ∧ shows (con_screen (con_st c)) (t_puts last_line (map ink_char out))
    ∧ [0x68; 0x69] = said out ++ rest ∧ named out = names_text ns.
Proof.
  destruct end_reachable as (c & Hr & Hl). exists c.
  assert (Hsay : Forall2 (λ e s, says e.2 s) (con_log c) [[0x68; 0x69]]).
  { rewrite Hl. constructor; [|constructor]. apply cstrb_ok. reflexivity. }
  destruct (console_not_mixed Ls last_line (con0 (ker c0) clear_screen) qs1 c [[0x68; 0x69]] rodata_bytes L_in
    (con0_init _ _ c0_init clear_screen_shows) Hr Hsay) as (out & rest & ns & Hs & Hc & _ & Hn & _).
  exists out, rest, ns. split_and!; [exact Hr|exact Hl|exact Hs|exact Hc|exact Hn].
Defined.

Lemma k_thread_prints_witness :
  ∃ s', con_runs (con_st (con0 (ker c0) clear_screen)) k_thread_a s'
    ∧ shows (con_screen s') (t_puts last_line ([0x68; 0x69] ++ hex 0xbeef ++ [0x20])).
Proof.
  destruct (k_thread_prints (con_st (con0 (ker c0) clear_screen)) last_line
    [0x68; 0x69] [0x68; 0x69] [0x20]) as [(s' & fl & Hr & Hs & _) _].
  - exact rodata_bytes.
  - split; reflexivity.
  - discriminate.
  - exact clear_screen_shows.
  - apply cstrb_ok. reflexivity.
  - apply cstrb_ok. reflexivity.
  - apply cstrb_ok. reflexivity.
  - rewrite !elem_of_cons, elem_of_nil. lia.
  - rewrite !elem_of_cons, elem_of_nil. lia.
  - rewrite !elem_of_cons, elem_of_nil. lia.
  - exists s'. split; [exact Hr|exact Hs].
Defined.
End ConsoleRuns.
