(* ===== verification/Print.v ===== *)
(** What the kernel says with [put_str] of string literals and [put_int]: the
    reports of lib/kernel/print.S's callers in interrupt.c, memory.c and the
    initialisation functions. *)
From S2P Require Import Prelude ByteMem CString Paging Interrupt DList Sched Process Thread Screen Console ConsoleProps.

(** [put_str] of a string literal. *)
Definition put_string (V : video) (s : string) : res video := put_name V (bytes_of s ++ [0]).

Definition newline_ : string := String (Ascii.ascii_of_N 10) EmptyString.

(** A sequence of calls of [put_str] and [put_int]. *)
Inductive piece := Str (s : string) | Int (z : Z).

(** A line, with the line feed at its end. *)
Definition Line (s : string) : piece := Str (s +:+ newline_).

Fixpoint says (V : video) (l : list piece) : res video :=
  match l with
  | [] => Ok V
  | Str s :: l => V ← put_string V s; says V l
  | Int z :: l => V ← put_int V z; says V l
  end.

(** The characters that appear. *)
Definition piece_text (p : piece) : list Z :=
  match p with Str s => bytes_of s | Int z => hex z end.
Definition text_of (l : list piece) : list Z := concat (piece_text <$> l).

(** * Lemmas *)

Lemma name_text_zero s : Forall (λ c, 0 < c < 256) s → name_text (s ++ [0]) = s.
Proof.
  induction 1 as [|c s Hc _ IH]; [done|]. simpl. rewrite (proj2 (Z.eqb_neq c 0)) by lia.
  by rewrite u8_small, IH by lia.
Qed.

Definition literal (s : string) : bool :=
  forallb (λ c, (0 <? c) && (c <? 256) && negb (c =? 8)) (bytes_of s).

Lemma put_string_shows V t s :
  shows V t → literal s = true → ∃ V', put_string V s = Ok V' ∧ shows V' (t_puts t (bytes_of s)).
Proof.
  intros Hs Hl. assert (Hf : Forall (λ c, 0 < c < 256 ∧ c ≠ 8) (bytes_of s)).
  { apply list.Forall_forall. intros c Hc. unfold literal in Hl. rewrite forallb_forall in Hl.
    apply list_elem_of_In, Hl in Hc.
    rewrite !andb_true_iff, negb_true_iff, !Z.ltb_lt, Z.eqb_neq in Hc. lia. }
  assert (Ht : name_text (bytes_of s ++ [0]) = bytes_of s).
  { apply name_text_zero. eapply Forall_impl; [exact Hf|]. simpl. lia. }
  destruct (put_name_runs (bytes_of s ++ [0]) V t Hs) as (V' & HV & Hs'); [|rewrite Ht in Hs'; by exists V'].
  clear Ht Hl. induction Hf as [|c r [Hc H8] _ IH]; [done|]. simpl. rewrite IH.
  rewrite (proj2 (Z.leb_le 0 c)), (proj2 (Z.ltb_lt c 256)), (proj2 (Z.eqb_neq c 8)) by lia. apply orb_true_r.
Qed.

Definition literals (l : list piece) : bool :=
  forallb (λ p, match p with Str s => literal s | Int _ => true end) l.

Lemma says_shows l : ∀ V t, shows V t → literals l = true →
  ∃ V', says V l = Ok V' ∧ shows V' (t_puts t (text_of l)).
Proof.
  induction l as [|[s|z] l IH]; intros V t Hs Hl; [by exists V|..];
    simpl in Hl; try apply andb_true_iff in Hl as [Hp Hl].
  - destruct (put_string_shows V t s Hs Hp) as (V1 & E & Hs1). destruct (IH V1 _ Hs1 Hl) as (V' & HV & Hs').
    exists V'. simpl says. rewrite E. rb. split; [done|]. unfold text_of in *. simpl. by rewrite t_puts_app.
  - destruct (put_int_shows V t z Hs) as (V1 & E & Hs1). destruct (IH V1 _ Hs1 Hl) as (V' & HV & Hs').
    exists V'. simpl says. rewrite E. rb. split; [done|]. unfold text_of in *. simpl. by rewrite t_puts_app.
Qed.

(** Any text screen shows the text behind what it showed. *)
Definition text_screen (V : video) : Prop := ∃ t, shows V t.

Lemma says_on_screen V l :
  text_screen V → literals l = true →
  ∃ V', says V l = Ok V' ∧ text_screen V' ∧ ∀ t, shows V t → shows V' (t_puts t (text_of l)).
Proof.
  intros [t0 H0] Hl. destruct (says_shows l V t0 H0 Hl) as (V' & E & Hs).
  exists V'. split_and!; [done|by eexists|]. intros t Ht.
  destruct (says_shows l V t Ht Hl) as (V2 & E2 & Hs2). congruence.
Qed.

Lemma text_of_app l k : text_of (l ++ k) = text_of l ++ text_of k.
Proof. unfold text_of. by rewrite fmap_app, concat_app. Qed.
