(* ===== verification/Exceptions.v ===== *)
(** What interrupt handlers print.  kernel/interrupt.c, [general_intr_handler]:
    what the kernel does with an interrupt nobody has registered a handler for,
    an exception above all.  device/keyboard.c: its message on the screen. *)
From S2P Require Import Prelude ByteMem CString Paging Interrupt DList Sched Process Thread Keyboard Screen Console.
From S2P Require Import ConsoleProps Print.

(** One round of [while(cursor_pos < 320)]. *)
Definition blank_body (st : video * Z) : res (video * Z + video) :=
  let '(V, cursor_pos) := st in
  if cursor_pos <? 320 then V ← put_char V 0x20; Ok (inl (V, cursor_pos + 1)) else Ok (inr V).

(** It returns from the spurious vectors ([true]); otherwise it reports and
    spins forever ([false]).  [cr2] is the address of the last page fault. *)
Definition general_intr (T : intr_tables) (V : video) (vec_nr cr2 : Z) : res (video * bool) :=
  if (vec_nr =? 0x27) || (vec_nr =? 0x2f) then Ok (V, true) else
  V ← while_ blank_body LOOP_FUEL (V, 0);
  match intr_name T !! Z.to_nat vec_nr with
  | None => Fault
  | Some name =>
      V ← put_string V name;
      V ← (if vec_nr =? 14
           then V ← put_string V (newline_ +:+ "page fault addr is "); put_int V cr2
           else Ok V);
      Ok (V, false)
  end.

(** * Lemmas *)

Lemma blanks_show n : ∀ V t k, shows V t → k = 320 - Z.of_nat n →
  ∃ V', while_nat blank_body (S n) (V, k) = Ok (inr V') ∧ shows V' (t_puts t (replicate n 0x20)).
Proof.
  induction n as [|n IH]; intros V t k Hs ->.
  - exists V. split; [|done]. simpl. unfold blank_body. done.
  - destruct (put_char_shows V t 0x20 Hs) as (V1 & HV & Hs1); [by apply printable_other|].
    destruct (IH V1 (t_put t 0x20) (320 - Z.of_nat n) Hs1 eq_refl) as (V' & HV' & Hs').
    assert (Hb : blank_body (V, 320 - Z.of_nat (S n)) = Ok (inl (V1, 320 - Z.of_nat n))).
    { unfold blank_body. rewrite (proj2 (Z.ltb_lt _ _)) by lia. rewrite HV. rb. do 3 f_equal. lia. }
    exists V'. split; [|done]. change (blank_body (V, 320 - Z.of_nat (S n)) ≫= then_ (while_nat blank_body (S n))
      = Ok (inr V')). rewrite Hb. exact HV'.
Qed.

Lemma names_literal vec name :
  intr_name exception_init !! vec = Some name → literal name = true.
Proof.
  intros Hn. assert (Hf : forallb literal (intr_name exception_init) = true) by (vm_compute; reflexivity).
  rewrite forallb_forall in Hf. apply Hf, list_elem_of_In. by apply list_elem_of_lookup_2 in Hn.
Qed.

(** * Properties *)

(** C26: an exception is reported.  For the two spurious vectors the default
    handler returns and touches nothing; for every other vector of the table it
    ends in its endless loop with four blank lines' worth of blanks and the name
    of the exception where the cursor was, for a page fault also the address in
    hexadecimal. *)
Theorem general_intr_reports T V t vec_nr cr2 :
  intr_name T = intr_name exception_init → shows V t → 0 ≤ vec_nr < IDT_DESC_CNT →
  if (vec_nr =? 0x27) || (vec_nr =? 0x2f) then general_intr T V vec_nr cr2 = Ok (V, true)
  else ∃ V' name, general_intr T V vec_nr cr2 = Ok (V', false)
    ∧ intr_name T !! Z.to_nat vec_nr = Some name
    ∧ shows V' (t_puts t (replicate 320 0x20 ++ bytes_of name
        ++ if vec_nr =? 14 then bytes_of (newline_ +:+ "page fault addr is ") ++ hex cr2 else [])).
Proof.
  intros HT Hs Hv. unfold general_intr. destruct (_ || _); [done|].
  destruct (blanks_show 320 V t 0 Hs eq_refl) as (V1 & HV1 & Hs1).
  rewrite (while_from_nat _ _ _ V1).
  2:{ exists 321%nat. split; [pose proof LOOP_FUEL_val; lia|exact HV1]. }
  rb. destruct (lookup_lt_is_Some_2 (intr_name T) (Z.to_nat vec_nr)) as [name Hn].
  { rewrite HT. change (length _) with 0x81%nat. unfold IDT_DESC_CNT in Hv. lia. }
  rewrite Hn. assert (Hlit : literal name = true) by (apply (names_literal (Z.to_nat vec_nr)); congruence).
  destruct (put_string_shows V1 _ name Hs1 Hlit) as (V2 & -> & Hs2). rb. destruct (vec_nr =? 14).
  - destruct (put_string_shows V2 _ (newline_ +:+ "page fault addr is ") Hs2) as (V3 & -> & Hs3);
      [by vm_compute|]. rb. destruct (put_int_shows V3 _ cr2 Hs3) as (V4 & -> & Hs4). rb.
    exists V4, name. split_and!; [done|done|]. by rewrite !t_puts_app.
  - rb. exists V2, name. split_and!; [done|done|]. by rewrite app_nil_r, t_puts_app.
Qed.

(** Keys without an entry in the key map, the function keys and the numeric
    pad, are reported on the screen. *)
Theorem unknown_keys_reported `{Symbols} kbd_buf K Q S c V t :
  shows V t → 0 ≤ c < 256 → unknown_code c = true →
  ∃ K' V', intr_keyboard_handler kbd_buf K Q S c = Ok (K', Q, next_flags S c, [])
    ∧ show_names V K K' = Ok V' ∧ shows V' (t_puts t (bytes_of ("unknow key" +:+ newline_))).
Proof.
  intros Hs Hc Hu. rewrite handler_decode. destruct (decode_spec S c Hc) as [-> _]. unfold send.
  assert (key_char (shift_status S) (caps_lock_status S) c = 0) as ->.
  { destruct (decide (key_char (shift_status S) (caps_lock_status S) c = 0)) as [E|E]; [done|].
    apply key_char_known in E; [congruence|lia]. }
  rewrite Hu. cbn [fst snd noted]. rb.
  destruct (put_name_runs unknow_key V t Hs) as (V' & HV & HV'); [done|].
  eexists _, V'. split; [reflexivity|]. split; [|exact HV'].
  unfold show_names. simpl k_out. rewrite drop_app_length. cbn [put_names]. by rewrite HV.
Qed.

(** * Witnesses *)

Module ExceptionRuns.
Import ScreenRuns.

Lemma general_intr_reports_witness :
  ∃ V', general_intr exception_init clear_screen 14 0xbeef = Ok (V', false)
    ∧ shows V' (t_puts last_line (replicate 320 0x20 ++ bytes_of "#PF Page-Fault Exception"
        ++ bytes_of (newline_ +:+ "page fault addr is ") ++ hex 0xbeef)).
Proof.
  destruct (general_intr_reports exception_init clear_screen last_line 14 0xbeef) as (V' & name & HV & Hn & Hs).
  - reflexivity.
  - exact clear_screen_shows.
  - unfold IDT_DESC_CNT. lia.
  - exists V'. split; [exact HV|]. vm_compute in Hn. injection Hn as <-. exact Hs.
Defined.
End ExceptionRuns.
