(* ===== verification/Enter.v ===== *)
(** userprog/process.c, [start_process]: the first run of a user process, from
    its kernel stack to its first instruction at level 3. *)
From S2P Require Import Prelude ByteMem CString Bitmap Paging Memory MemInit MemProps PageTable.
From S2P Require Import Interrupt DList Sched Sync Uncontended Tss Process Spaces Thread ThreadProps.
From S2P Require Import UserMem IntrStack Screen Console.

(** * Data *)

Definition USER_STACK3_VADDR : Z := 0xc0000000 - 0x1000.
Definition EFLAGS_MBS : Z := Z.shiftl 1 1.
Definition EFLAGS_IF_1 : Z := Z.shiftl 1 9.
Definition EFLAGS_IOPL_0 : Z := Z.shiftl 0 12.

(** The threads, the screen, and the registers of the program at level 3 once
    it runs. *)
Record estate := EState { e_user : ustate; e_screen : video; e_program : option context }.

Definition e_ker (s : estate) : kernel := u_ker (e_user s).
Definition set_eker (s : estate) (K : kernel) : estate :=
  EState (set_uker (e_user s) K) (e_screen s) (e_program s).

Inductive epoint :=
| InUser (f : upoint)
| StartProcess (filename_ : Z)
| StartStack (proc_stack : Z)    (* ... after [get_a_page] *)
| IntrExit (esp : Z).

(** The message of [start_process]. *)
Class EnterSyms := { start_str : Z }.

(** * Operations *)

(** [proc_stack->f = v] for a list of fields, in order. *)
Fixpoint assign_fields (M : machine) (proc_stack : Z) (l : list (string * Z)) : res machine :=
  match l with
  | [] => Ok M
  | (f, v) :: l => M ← store32 M (proc_stack + field f) v; assign_fields M proc_stack l
  end.

Section enter.
Context `{Symbols, ThreadSyms, PoolLocks, ConSyms, EnterSyms}.

Definition start_process (s : estate) (filename_ : Z) : res (estate * list epoint) :=
  V ← put_str rodata (e_screen s) start_str;
  let function := filename_ in
  let K := e_ker s in
  let cur := running_thread K in
  C ← get_task K cur;
  let proc_stack := u32 (self_kstack C + 4 * sizeof_thread_stack) in
  let K := put_task K cur (with_kstack C proc_stack) in
  M ← assign_fields (k_mach K) proc_stack
        [ ("edi", 0); ("esi", 0); ("ebp", 0); ("esp_dummy", 0);
          ("ebx", 0); ("edx", 0); ("ecx", 0); ("eax", 0);
          ("gs", 0); ("fs", SELECTOR_U_DATA); ("es", SELECTOR_U_DATA); ("ds", SELECTOR_U_DATA);
          ("eip", function); ("cs", SELECTOR_U_CODE);
          ("eflags", Z.lor (Z.lor EFLAGS_IOPL_0 EFLAGS_MBS) EFLAGS_IF_1) ];
  Ok (EState (set_uker (e_user s) (set_mach K M)) V (e_program s),
      [InUser (GetAPage PF_USER USER_STACK3_VADDR); StartStack proc_stack]).

Definition start_stack (s : estate) (proc_stack : Z) : res (estate * list epoint) :=
  let K := e_ker s in
  M ← assign_fields (k_mach K) proc_stack
        [ ("esp", u32 (u_eax (e_user s) + PG_SIZE)); ("ss", SELECTOR_U_DATA) ];
  Ok (set_eker s (set_esp (set_mach K M) proc_stack), [IntrExit proc_stack]).

Definition exec_enter (s : estate) (f : epoint) : res (estate * list epoint) :=
  match f with
  | InUser f => '(u, fs) ← exec_user (e_user s) f; V ← show_names (e_screen s) (e_ker s) (u_ker u);
                Ok (EState u V (e_program s), map InUser fs)
  | StartProcess file => start_process s file
  | StartStack p => start_stack s p
  | IntrExit esp => c ← intr_exit (k_mach (e_ker s)) esp;
                    Ok (EState (e_user s) (e_screen s) (Some c), [])
  end.

Definition eruns := runs exec_enter (λ s, running_thread (e_ker s)).
End enter.

(** * The image of a process *)

(** What [process_execute] leaves in memory, as the machine runs on the
    directory of the process: its stack page [t] in the frame [f], its bitmap
    at [rb], an empty user half. *)
Record process_image (km : kmem) (M : machine) (g : gmap Z Z) (t f rb : Z) : Prop := {
  pi_bare : bare_process km M g rb;
  pi_frame : heap_frame km M t f;
  pi_apart k fb : 0 ≤ k < 23 → heap_frame km M (heap_addr (rb + k)) fb → fb ≠ f;
}.

Lemma heap_frame_switch km M d f c :
  heap_frame km M d f → frame c + 4096 ≤ f ∨ f + 4096 ≤ frame c → heap_frame km (Machine (pm M) c) d f.
Proof. intros [H1 H2 H3 H4] Hc. by split. Qed.

Lemma heap_frame_unique km M d f f' : heap_frame km M d f → heap_frame km M d f' → f = f'.
Proof. intros H1 H2. pose proof (hf_pte _ _ _ _ H1). pose proof (hf_pte _ _ _ _ H2). lia. Qed.

(** The dispatch of the new process. *)
Lemma process_home_image km M g t f rb rd :
  mem_inv km M g → process_home km M t f rb rd → 0 ≤ rd →
  process_image km (Machine (pm M) (dir_of M (heap_addr rd))) g t f rb.
Proof.
  intros Hi [Hhf Hd He Hb Ha] Hrd0. set (D := dir_of M (heap_addr rd)) in *.
  pose proof (hf_range _ _ _ _ Hhf) as (Hf1 & Hf2 & Hf3).
  assert (Hal : frame D mod 4096 = 0).
  { pose proof (pd_page _ _ Hd) as Hpg. unfold D, dir_of.
    destruct (Z.eqb_spec (heap_addr rd) NULL) as [E|E]; [done|].
    pose proof (rd32_range (pm M) (KTABLES + 4 * kpage (heap_addr rd))) as Hrd.
    fold (kpte M (kpage (heap_addr rd))) in Hrd.
    destruct (frame_props _ Hrd) as (? & ? & ? & _).
    rewrite <- (Z.add_0_r (frame (kpte _ _))), frame_flags by lia. done. }
  assert (Hsw : ∀ d q, heap_frame km M d q → q ≠ frame D →
    heap_frame km (Machine (pm M) D) d q).
  { intros d q Hq Hne. apply heap_frame_switch; [done|].
    pose proof (hf_range _ _ _ _ Hq) as (? & ? & ?). zdm. }
  assert (Hback : ∀ d q q', heap_frame km M d q → heap_frame km (Machine (pm M) D) d q' → q' = q).
  { intros d q q' H1 H2. pose proof (hf_pte _ _ _ _ H1) as E1. pose proof (hf_pte _ _ _ _ H2) as E2.
    change (kpte (Machine (pm M) D)) with (kpte M) in E2. lia. }
  split.
  - split.
    + apply mem_inv_switch; try done. unfold heap_addr, K_HEAP_START, NULL. lia.
    + intros i Hi'. apply (He i Hi').
    + intros k Hk. destruct (Hb k Hk) as (fb & Hfb & _ & Hne). exists fb. by apply Hsw.
  - by apply Hsw.
  - intros k fb Hk Hfb. destruct (Hb k Hk) as (fb' & Hfb' & Hne & _). by rewrite (Hback _ _ _ Hfb' Hfb).
Qed.

(** * Assigning fields *)

Section assign.
Context (km : kmem) (d f : Z).

Lemma assign_fields_ok M o l :
  kspace M → heap_frame km M d f → 0 ≤ o →
  Forall (λ '(g, v), word v ∧ o + field g + 4 ≤ 4096 ∧ 0 ≤ field g ∧ field g mod 4 = 0) l →
  NoDup (field ∘ fst <$> l) →
  ∃ M', assign_fields M (d + o) l = Ok M' ∧ page_write M f M'
    ∧ (∀ g v, (g, v) ∈ l → rd32 (pm M') (f + o + field g) = v)
    ∧ (∀ k, k mod 4 = 0 → k ∉ (field ∘ fst <$> l) → rd32 (pm M') (f + o + k) = rd32 (pm M) (f + o + k)).
Proof.
  intros Hk Hf Ho. revert M Hk Hf. induction l as [|[g v] l IH]; intros M Hk Hf Hl Hnd; simpl.
  { exists M. split_and!; auto using page_write_refl. by intros g v ?%not_elem_of_nil. }
  apply Forall_cons in Hl as [(Hv & Hg1 & Hg2 & Hg3) Hl]. apply NoDup_cons in Hnd as [Hni Hnd].
  rewrite <- Z.add_assoc. destruct (heap_store km M d f (o + field g) v) as [-> Hpw]; [done|done|lia|lia|].
  rb. set (M1 := Machine _ _) in *.
  destruct (IH M1) as (M' & -> & Hpw' & Hin & Hout); auto.
  { apply (kspace_same_tables M); [done|]. by apply (page_write_tables km M M1 d f). }
  { by apply (page_write_frame km M M1 d f). }
  exists M'. split_and!; auto.
  - by apply (page_write_trans _ _ M1).
  - intros g' v' [[= -> ->]|Hin']%elem_of_cons; [|by apply Hin].
    rewrite Hout by done. unfold M1. simpl pm.
    replace (f + (o + field g)) with (f + o + field g) by lia. by apply rd32_wr32_same.
  - intros k Hk4 [Hne Hk']%not_elem_of_cons. rewrite Hout by done. unfold M1. simpl pm. simpl in Hne.
    apply rd32_wr32_other. zdm.
Qed.
End assign.

(** * Entering level 3 *)

(** The first registers of a program. *)
Definition first_context (file : Z) : context :=
  Ctx 0 0 0 0 0 0 0 0 SELECTOR_U_DATA SELECTOR_U_DATA SELECTOR_U_DATA
      file SELECTOR_U_CODE 0x202 0xc0000000 SELECTOR_U_DATA.

Lemma bare_process_write km M g rb d f M' :
  bare_process km M g rb → heap_frame km M d f → page_write M f M' → bare_process km M' g rb.
Proof.
  intros [Hi He Hb] Hf Hw. split.
  - by apply (page_write_inv km M M' d f).
  - apply (dir_entries_same M); [|done]. by apply (page_write_tables km M M' d f).
  - intros k Hk. destruct (Hb k Hk) as [q Hq]. exists q. by apply (page_write_frame km M M' d f).
Qed.

(** The frame that [start_process] fills, word by word. *)
Definition start_fields (file : Z) : list (string * Z) :=
  [ ("edi", 0); ("esi", 0); ("ebp", 0); ("esp_dummy", 0); ("ebx", 0); ("edx", 0); ("ecx", 0); ("eax", 0);
    ("gs", 0); ("fs", SELECTOR_U_DATA); ("es", SELECTOR_U_DATA); ("ds", SELECTOR_U_DATA);
    ("eip", file); ("cs", SELECTOR_U_CODE); ("eflags", 0x202) ].
Definition stack_fields : list (string * Z) := [ ("esp", 0xc0000000); ("ss", SELECTOR_U_DATA) ].

Ltac next_field n :=
  apply stack_words_cons;
  [ match goal with Hg : (∀ g v, (g, v) ∈ _ → rd32 _ (?b + field g) = v) |- rd32 _ ?a = _ =>
      let k := eval vm_compute in (field n) in
      replace a with (b + field n) by (change (field n) with k; lia);
      apply Hg; unfold start_fields, stack_fields; simpl; rewrite !elem_of_cons; tauto
    end | ].

Lemma first_frame M f o file :
  (∀ g v, (g, v) ∈ start_fields file ++ stack_fields → rd32 (pm M) (f + o + field g) = v) →
  stack_words M f o (frame_of (first_context file) (rd32 (pm M) (f + o)) (rd32 (pm M) (f + o + 52)) 0).
Proof.
  intros Hg. unfold frame_of, first_context.
  cbn [regs_of segs_of return_of app x_edi x_esi x_ebp x_ebx x_edx x_ecx x_eax x_gs x_fs x_es x_ds
       x_eip x_cs x_eflags].
  change (stack_of _) with [0xc0000000; SELECTOR_U_DATA].
  apply stack_words_cons; [done|].
  next_field "edi". next_field "esi". next_field "ebp". next_field "esp_dummy". next_field "ebx".
  next_field "edx". next_field "ecx". next_field "eax". next_field "gs". next_field "fs".
  next_field "es". next_field "ds".
  apply stack_words_cons; [f_equal; lia|].
  next_field "eip". next_field "cs". next_field "eflags". next_field "esp". next_field "ss".
  by intros i w.
Qed.

Section run.
Context `{Symbols, ThreadSyms, PoolLocks, ConSyms, EnterSyms}.

Ltac ok_inv E :=
  repeat (apply bind_ok_inv in E as (? & ? & E) || (destruct (intr_disable _)) || case_match);
  try done; try (injection E as <- _).

Lemma thread_create_out K t fn arg K' : thread_create K t fn arg = Ok K' → k_out K' = k_out K.
Proof. unfold thread_create. intros E. by ok_inv E; injection E as <-. Qed.

Lemma append_new_out K l e f K' : append_new K l e f = Ok K' → k_out K' = k_out K.
Proof. unfold append_new. intros (? & _ & (? & _ & E%on_lists_out)%bind_ok_inv)%bind_ok_inv. done. Qed.

Lemma exec_thread_out s f s' fs :
  exec_thread s f = Ok (s', fs) → k_out (t_ker s) `prefix_of` k_out (t_ker s').
Proof.
  destruct f; simpl exec_thread.
  - intros ([K fs1] & E%exec_out & [= <- _])%bind_ok_inv. done.
  - unfold thread_start. intros E. by ok_inv E.
  - unfold start_queue. intros (K1 & E1%thread_create_out & (K2 & E2%append_new_out
      & (K3 & E3%append_new_out & [= <- _])%bind_ok_inv)%bind_ok_inv)%bind_ok_inv.
    simpl. by rewrite E3, E2, E1.
  - unfold process_execute. intros E. by ok_inv E.
  - unfold execute_queue. intros ([V M] & _ & (T & _ & (K1 & E1%thread_create_out & ([d M'] & _
      & (T' & _ & E)%bind_ok_inv)%bind_ok_inv)%bind_ok_inv)%bind_ok_inv)%bind_ok_inv.
    destruct (intr_disable _) as [old fl]. cbv zeta in E.
    apply bind_ok_inv in E as (K2 & E2%append_new_out & E).
    apply bind_ok_inv in E as (K3 & E3%append_new_out & [= <- _]). simpl in *. by rewrite E3, E2, E1.
  - unfold init_thread, clear_task. intros (K1 & (? & _ & E)%bind_ok_inv & [= <- _])%bind_ok_inv.
    case_match; [|done]. by injection E as <-.
  - by intros [= <- _].
  - unfold init_fields. intros E. by ok_inv E.
  - unfold thread_init. intros (K1 & E1%on_lists_out & (K2 & E2%on_lists_out
      & (K3 & E3%lock_init_out & [= <- _])%bind_ok_inv)%bind_ok_inv)%bind_ok_inv.
    simpl. by rewrite E3, E2, E1.
  - unfold main_queue. intros (K1 & E%append_new_out & [= <- _])%bind_ok_inv. simpl. by rewrite E.
Qed.

Lemma exec_user_out s f s' fs :
  exec_user s f = Ok (s', fs) → k_out (u_ker s) `prefix_of` k_out (u_ker s').
Proof.
  destruct f; simpl exec_user.
  - intros ([t fs1] & E%exec_thread_out & [= <- _])%bind_ok_inv. done.
  - by intros [= <- _].
  - unfold user_pages. intros E. by ok_inv E.
  - by intros [= <- _].
  - unfold a_page. intros E. by ok_inv E.
  - by intros [= <- _].
Qed.

Lemma uruns_out u fs u' : uruns u fs u' → k_out (u_ker u) `prefix_of` k_out (u_ker u').
Proof. induction 1 as [|u f r u1 fs u2 He%exec_user_out _ _ IH]; [done|]. by etrans. Qed.

(** Work on the user's memory during which no other thread is scheduled. *)
Lemma eruns_user u V c fs u' :
  uruns u fs u' → k_out (u_ker u') = k_out (u_ker u) →
  eruns (EState u V c) (map InUser fs) (EState u' V c).
Proof.
  induction 1 as [|u f r u1 fs u2 He Hh Hr IH]; intros Eo; [apply runs_nil|]. simpl.
  pose proof (exec_user_out _ _ _ _ He) as Hp1. pose proof (uruns_out _ _ _ Hr) as Hp2. rewrite Eo in Hp2.
  assert (E1 : k_out (u_ker u1) = k_out (u_ker u)) by by apply (anti_symm prefix).
  apply (runs_cons _ _ _ _ _ (EState u1 V c) (map InUser fs)); [|done|].
  - simpl. rewrite He. rb. by rewrite show_names_same.
  - rewrite <- map_app. apply IH. congruence.
Qed.

Lemma start_fields_ok file o :
  word file → 0 ≤ o → o + 76 ≤ 4096 →
  Forall (λ '(g, v), word v ∧ o + field g + 4 ≤ 4096 ∧ 0 ≤ field g ∧ field g mod 4 = 0) (start_fields file)
  ∧ Forall (λ '(g, v), word v ∧ o + field g + 4 ≤ 4096 ∧ 0 ≤ field g ∧ field g mod 4 = 0) stack_fields.
Proof.
  intros Hf Ho Ho'. unfold word in *. unfold start_fields, stack_fields.
  split; repeat (apply Forall_cons_2;
    [match goal with |- context [field ?n] => let k := eval vm_compute in (field n) in
       change (field n) with k end; change SELECTOR_U_DATA with 51; change SELECTOR_U_CODE with 43;
     split_and!; try lia; done|]); apply Forall_nil_2.
Qed.

(** The process with the frame on its stack. *)
Lemma start_process_holds s T t f rb g file tm text :
  let K := e_ker s in let km := t_pools (u_threads (e_user s)) in
  process_image km (k_mach K) g t f rb → running_thread K = t →
  k_tasks K !! t = Some T → self_kstack T = t + 3664 →
  word file → shows (e_screen s) tm → is_byte_map rodata = true → cstr rodata start_str text → 8 ∉ text →
  ∃ V M, start_process s file
      = Ok (EState (set_uker (e_user s) (set_mach (put_task K t (with_kstack T (t + 3792))) M)) V (e_program s),
            [InUser (GetAPage PF_USER USER_STACK3_VADDR); StartStack (t + 3792)])
    ∧ shows V (t_puts tm text) ∧ page_write (k_mach K) f M
    ∧ ∀ g v, (g, v) ∈ start_fields file → rd32 (pm M) (f + 3792 + field g) = v.
Proof.
  intros K km Hp Hrun HT Hks Hfile Hs Hro Hc H8.
  pose proof (pi_frame _ _ _ _ _ _ Hp) as Hf. pose proof (hf_page _ _ _ _ Hf) as (Hd1 & Hd2 & _).
  unfold KBASE, KTOP in *.
  destruct (put_str_shows rodata rodata (e_screen s) tm start_str text) as (V & HV & HsV);
    [by apply flat_holds|done|done|done|].
  destruct (start_fields_ok file 3792 Hfile ltac:(lia) ltac:(lia)) as [Hok _].
  destruct (assign_fields_ok km t f (k_mach K) 3792 (start_fields file)) as (M & HM & Hw & Hin & _);
    [apply (mi_space _ _ _ (bp_inv _ _ _ _ (pi_bare _ _ _ _ _ _ Hp)))|done|lia|done|
     apply (bool_decide_eq_true_1 (NoDup _)); vm_compute; reflexivity|].
  exists V, M. split_and!; auto. unfold start_process. rewrite HV. rb. fold K. rewrite Hrun.
  unfold get_task at 1. rewrite HT. rb. unfold sizeof_thread_stack. rewrite Hks.
  replace (t + 3664 + 4 * (8 * 4)) with (t + 3792) by lia. rewrite u32_small by lia.
  cbn [put_task set_tasks k_mach].
  change (Z.lor (Z.lor EFLAGS_IOPL_0 EFLAGS_MBS) EFLAGS_IF_1) with 0x202.
  fold (start_fields file). rewrite HM. by rb.
Qed.

(** The stack pointer, the jump to [intr_exit] and what it pops. *)
Lemma start_stack_holds km M u V c t f file :
  k_mach (u_ker u) = M → u_eax u = USER_STACK3_VADDR →
  running_thread (u_ker u) = t → kspace M → heap_frame km M t f → word file →
  (∀ g v, (g, v) ∈ start_fields file → rd32 (pm M) (f + 3792 + field g) = v) →
  ∃ M', page_write M f M'
    ∧ eruns (EState u V c) [StartStack (t + 3792)]
        (EState (set_uker u (set_esp (set_mach (u_ker u) M') (t + 3792))) V (Some (first_context file))).
Proof.
  intros HM Hax Hrun Hk Hf Hfile Hin. pose proof (hf_page _ _ _ _ Hf) as (Hd1 & Hd2 & Hd3).
  unfold KBASE, KTOP in *.
  destruct (start_fields_ok file 3792 Hfile ltac:(lia) ltac:(lia)) as [_ Hok].
  destruct (assign_fields_ok km t f M 3792 stack_fields) as (M' & HM' & Hw & Hin' & Hout);
    [done|done|lia|done|apply (bool_decide_eq_true_1 (NoDup _)); vm_compute; reflexivity|].
  exists M'. split; [done|].
  eapply runs_cons.
  - simpl. unfold start_stack. change (e_ker (EState u V c)) with (u_ker u). rewrite HM.
    simpl e_user. rewrite Hax. change (u32 (USER_STACK3_VADDR + PG_SIZE)) with 0xc0000000.
    fold stack_fields. rewrite HM'. rb. done.
  - unfold set_eker, e_ker. simpl. rewrite Hrun. apply running_thread_eq; simpl; lia.
  - simpl app. apply runs_one; [|done]. simpl.
    rewrite (intr_exit_frame km t f M' 3792 (first_context file) (rd32 (pm M') (f + 3792))
      (rd32 (pm M') (f + 3792 + 52)) 0); [done| | |lia| | |].
    + apply (kspace_same_tables M); [done|]. by apply (page_write_tables km M M' t f).
    + by apply (page_write_frame km M M' t f).
    + simpl. lia.
    + apply first_frame. intros h v [Hh|Hh]%elem_of_app; [|by apply Hin'].
      rewrite Hout; [by apply Hin| |].
      * destruct (start_fields_ok file 3792 Hfile ltac:(lia) ltac:(lia)) as [Hst _].
        rewrite Forall_forall in Hst. apply (Hst _ Hh).
      * change (field ∘ fst <$> stack_fields) with [68; 72].
        assert (Hlow : Forall (λ p, field p.1 ≤ 64) (start_fields file)).
        { unfold start_fields. repeat (apply Forall_cons_2; [by vm_compute|]). apply Forall_nil_2. }
        rewrite Forall_forall in Hlow. specialize (Hlow _ Hh). simpl in Hlow.
        rewrite !elem_of_cons, elem_of_nil. lia.
    + done.
Qed.
End run.

(** The first run of a process. *)
Lemma enters_user `{Symbols, ThreadSyms, PoolLocks, ConSyms, EnterSyms} s T t f rb g file tm text :
  let K := e_ker s in let km := t_pools (u_threads (e_user s)) in
  process_image km (k_mach K) g t f rb → running_thread K = t → k_tasks K !! t = Some T →
  self_kstack T = t + 3664 → pgdir T ≠ NULL → userprog_vaddr T = user_vaddr rb →
  lock_free K user_pool_lock → (0 < free_count g (ubm km))%nat → (0 < free_count g (kbm km))%nat →
  word file → shows (e_screen s) tm →
  is_byte_map rodata = true → cstr rodata start_str text → 8 ∉ text →
  ∃ s' p i g', eruns s [StartProcess file] s' ∧ e_program s' = Some (first_context file)
    ∧ 0 ≤ i < nbits (ubm km) ∧ p = pool_frame (user_pool km) i
    ∧ bit g (ubm km) i = false ∧ bit g' (ubm km) i = true
    ∧ (∀ x, 0 ≤ x < KBASE → translate (k_mach (e_ker s')) x
         = if decide (x / 4096 = USER_STACK3_VADDR / 4096) then Some (p + x mod 4096) else None)
    ∧ mem_inv km (k_mach (e_ker s')) g' ∧ lock_free (e_ker s') user_pool_lock
    ∧ shows (e_screen s') (t_puts tm text).
Proof.
  intros K km Hp Hrun HT Hks Hd Hv Hl Hcu Hck Hfile Hs Hro Hc H8.
  destruct (start_process_holds s T t f rb g file tm text Hp Hrun HT Hks Hfile Hs Hro Hc H8)
    as (V & M1 & Hst & HsV & Hw1 & Hin1). fold K in Hst, Hw1.
  set (T1 := with_kstack T (t + 3792)) in *. set (K1 := set_mach (put_task K t T1) M1) in *.
  set (u1 := set_uker (e_user s) K1) in *. destruct Hp as [Hbare Hf Hap]. fold K km in Hbare, Hf, Hap.
  pose proof (bare_process_write km (k_mach K) g rb t f M1 Hbare Hf Hw1) as Hbare1.
  pose proof (page_write_frame km (k_mach K) M1 t f Hf Hw1) as Hfr1.
  pose proof (hf_page _ _ _ _ Hf) as (Hd1 & Hd2 & _). unfold KBASE in Hd1.
  destruct (get_a_page_runs u1 T1 g rb USER_STACK3_VADDR) as (p & M2 & g' & Hrun2 & Hg); auto.
  - by destruct Hl.
  - change (running_thread (u_ker u1)) with (running_thread K). unfold NULL. lia.
  - change (running_thread (u_ker u1)) with (running_thread K). rewrite Hrun. apply lookup_insert_eq.
  - unfold user_page. done.
  - change (t_pools (u_threads u1)) with km in *. change (k_mach (u_ker u1)) with M1 in *.
    pose proof (pg_inv _ _ _ _ _ _ _ _ Hg) as Hi2.
    assert (Hf2 : heap_frame km M2 t f).
    { destruct (Hfr1 t f Hf) as [E1 E2 E3 E4]. split; [done| |done|by rewrite (pg_cr3 _ _ _ _ _ _ _ _ Hg)].
      rewrite (pg_kernel _ _ _ _ _ _ _ _ Hg); [done|]. apply kpage_range. lia. }
    assert (Hx2 : ∀ x, f ≤ x < f + 4096 → rd8 (pm M2) x = rd8 (pm M1) x).
    { intros x Hx. apply (pg_data _ _ _ _ _ _ _ _ Hg t f); [by apply Hfr1| |done]. intros k fb Hk Hfb.
      destruct (bp_bitmap _ _ _ _ Hbare k Hk) as [fb' Hfb'].
      rewrite (heap_frame_unique km M1 _ fb fb' Hfb (Hfr1 _ _ Hfb')). by apply (Hap k). }
    set (u2 := UState (set_ker (u_threads u1) (set_mach (u_ker u1) M2)) USER_STACK3_VADDR) in *.
    destruct (start_stack_holds km M2 u2 V (e_program s) t f file) as (M3 & Hw3 & Hrun3); auto;
      [apply Hi2| |].
    { intros h v Hh. rewrite <- (Hin1 h v Hh). apply rd32_same. intros x Hx. apply Hx2.
      destruct (start_fields_ok file 3792 Hfile ltac:(lia) ltac:(lia)) as [Hok _].
      rewrite Forall_forall in Hok. specialize (Hok _ Hh). simpl in Hok. lia. }
    destruct (pg_frame _ _ _ _ _ _ _ _ Hg) as (i & Hi & Ep & Hb0 & Hb1).
    exists (EState (set_uker u2 (set_esp (set_mach (u_ker u2) M3) (t + 3792))) V (Some (first_context file))),
      p, i, g'. split_and!; [|reflexivity|lia|lia|done|done|done| | | |exact HsV].
    + eapply runs_bind; [exact Hst|done| |apply runs_nil].
      change [InUser (GetAPage PF_USER USER_STACK3_VADDR); StartStack (t + 3792)]
        with (map InUser [GetAPage PF_USER USER_STACK3_VADDR] ++ [StartStack (t + 3792)]).
      eapply runs_app; [apply eruns_user; [exact Hrun2|done]|exact Hrun3].
    + intros x Hx. change (k_mach (e_ker _)) with M3.
      rewrite (page_given_write km M1 g rb USER_STACK3_VADDR p M2 g' t f M3) by (auto; by apply Hfr1).
      by apply (pg_page _ _ _ _ _ _ _ _ Hg).
    + by apply (page_write_inv km M2 M3 t f).
    + by destruct Hl.
Qed.

(** * Properties *)

(** C13: A new process reaches level 3.  When it is dispatched for the first time
    with the memory [process_execute] left, [start_process] returns to its
    program: the registers are cleared, the segments are the user segments,
    interrupts are on, execution starts at the program's address, and the stack
    pointer is the top of a page just below 3 GB that is mapped to a frame
    taken from the user pool, the only page of the user half.  The pool's lock
    is free again. *)
Theorem process_enters_user `{Symbols, ThreadSyms, PoolLocks, ConSyms, EnterSyms} s T t f rb g file tm text :
  let K := e_ker s in let km := t_pools (u_threads (e_user s)) in
  process_image km (k_mach K) g t f rb → running_thread K = t → k_tasks K !! t = Some T →
  self_kstack T = t + 3664 → pgdir T ≠ NULL → userprog_vaddr T = user_vaddr rb →
  lock_free K user_pool_lock → (0 < free_count g (ubm km))%nat → (0 < free_count g (kbm km))%nat →
  word file → shows (e_screen s) tm →
  is_byte_map rodata = true → cstr rodata start_str text → 8 ∉ text →
  ∃ s' p i g', eruns s [StartProcess file] s' ∧ e_program s' = Some (first_context file)
    ∧ 0 ≤ i < nbits (ubm km) ∧ p = pool_frame (user_pool km) i
    ∧ bit g (ubm km) i = false ∧ bit g' (ubm km) i = true
    ∧ (∀ x, 0 ≤ x < KBASE → translate (k_mach (e_ker s')) x
         = if decide (x / 4096 = USER_STACK3_VADDR / 4096) then Some (p + x mod 4096) else None)
    ∧ mem_inv km (k_mach (e_ker s')) g' ∧ lock_free (e_ker s') user_pool_lock
    ∧ shows (e_screen s') (t_puts tm text).
Proof. apply enters_user. Qed.

(** * Witnesses *)
Module EnterRuns.
Import MemRuns ScreenRuns.

#[local] Instance symbols : Symbols :=
  {| thread_ready_list := 0xc0007000; thread_all_list := 0xc0007010 |}.
#[local] Instance tsyms : ThreadSyms :=
  {| pid_lock := 0xc0006020; kernel_thread_ptr := 0xc0001850; start_process_ptr := 0xc0003000 |}.
#[local] Instance plocks : PoolLocks :=
  {| kernel_pool_lock := 0xc0006050; user_pool_lock := 0xc0006090 |}.
#[local] Instance csyms : ConSyms :=
  {| console_lock := 0xc00060c0; v_a := 0x4000; v_b := 0x4000; blank_str := 0x4000; rodata := hello |}.
#[local] Instance esyms : EnterSyms := {| start_str := 0x4000 |}.

(** A process as [process_execute] leaves it on a machine of 32 MB. *)
Lemma some_process : ∃ M g t f rb, process_image km32 M g t f rb
  ∧ (0 < free_count g (ubm km32))%nat ∧ (0 < free_count g (kbm km32))%nat.
Proof.
  destruct (mem_pool_init_holds boot_machine 0x2000000 boot_fresh ltac:(lia))
    as (M & g & _ & Hi & _ & Hk & Hu & Hv). fold km32 in *.
  change (nbits (vbm km32)) with 3840 in Hv. change (nbits (kbm km32)) with 3840 in Hk.
  change (nbits (ubm km32)) with 3840 in Hu.
  assert (Hck : free_count g (kbm km32) = Z.to_nat 3840) by (apply free_count_all; [by vm_compute|exact Hk]).
  assert (Hcu : free_count g (ubm km32) = Z.to_nat 3840) by (apply free_count_all; [by vm_compute|exact Hu]).
  destruct (get_kernel_page km32 (kernel_vaddr km32) M g 7 Hi) as (r & f & M1 & g1 & _ & Hr & _ & Hp);
    [change (0 ≤ 7 < 3840); lia|apply Hv; lia|lia|].
  pose proof (fp_alloc _ _ _ _ _ _ _ Hp) as Ha. set (t := heap_addr r).
  set (K1 := Kernel 0 0 ∅ {[ t := first_task t 4 TASK_READY "user_prog_a" default_prio ]} ∅ ∅ M1 0 0 []).
  pose proof (al_count _ _ _ _ _ _ _ Ha) as Hc1.
  assert (Hu1 : free_count g1 (ubm km32) = free_count g (ubm km32)).
  { apply free_count_same. apply (al_ubits _ _ _ _ _ _ _ Ha). }
  destruct (execute_memory km32 K1 g1 t f 4 "user_prog_a" 0xc0001620 8)
    as (rb & rd & M' & g' & _ & _ & Hrd & _ & _ & _ & Hm).
  - apply (al_inv _ _ _ _ _ _ _ Ha).
  - apply Hp.
  - apply lookup_singleton_eq.
  - unfold word. lia.
  - unfold word. simpl. lia.
  - unfold word. simpl. lia.
  - lia.
  - change (8 + 24 ≤ 3840). lia.
  - intros k Hk'. rewrite (al_vbits _ _ _ _ _ _ _ Ha), decide_False by lia. apply Hv. lia.
  - lia.
  - pose proof (pc_count _ _ _ _ _ _ _ _ _ _ Hm). pose proof (pc_user _ _ _ _ _ _ _ _ _ _ Hm).
    eexists _, g', t, f, rb. split; [|lia].
    apply (process_home_image km32 M' g' t f rb rd); [apply Hm|apply Hm|lia].
Qed.

Definition wait_list : Z := waiters (semaphore user_pool_lock).

Definition first_run (M : machine) (t rb : Z) : estate :=
  EState (UState (TState
    (Kernel (t + 3684) 0x202 {[ wait_list := ListElem NULL (tail_of wait_list);
                                tail_of wait_list := ListElem wait_list NULL ]}
       {[ t := with_status (process_task t 4 "user_prog_a" rb 26) TASK_RUNNING ]}
       {[ semaphore user_pool_lock := 1 ]} {[ user_pool_lock := Lock NULL 0 ]} M (t + 4096) 0 [])
    km32 5 0xc009e000) 0) clear_screen None.

Lemma process_enters_user_witness :
  ∃ s s', eruns s [StartProcess 0xc0001620] s' ∧ e_program s' = Some (first_context 0xc0001620).
Proof.
  destruct some_process as (M & g & t & f & rb & Hp & Hu & Hk). exists (first_run M t rb).
  destruct (hf_page _ _ _ _ (pi_frame _ _ _ _ _ _ Hp)) as (Ht1 & Ht2 & Ht3).
  destruct (process_enters_user (first_run M t rb)
    (with_status (process_task t 4 "user_prog_a" rb 26) TASK_RUNNING) t f rb g 0xc0001620
    last_line [0x68; 0x69]) as (s' & p & i & g' & H1 & H2 & _).
  - exact Hp.
  - unfold KBASE, KTOP in *. apply running_thread_eq; simpl; lia.
  - apply lookup_singleton_eq.
  - reflexivity.
  - discriminate.
  - reflexivity.
  - split; reflexivity.
  - exact Hu.
  - exact Hk.
  - unfold word. lia.
  - exact clear_screen_shows.
  - reflexivity.
  - apply cstrb_ok. reflexivity.
  - rewrite !elem_of_cons, elem_of_nil. lia.
  - exists s'. split; [exact H1|exact H2].
Defined.
End EnterRuns.
