(* ===== verification/Boot.v ===== *)
(** kernel/init.c and kernel/main.c: the kernel from the loader's jump to the
    endless loop of [main].  The state puts the components side by side; the
    calls are program points, because [thread_init], [thread_start] and
    [process_execute] are (Thread.v). *)
From S2P Require Import Prelude ByteMem CString Bitmap Paging Memory MemInit MemProps Interrupt.
From S2P Require Import DList Sched Sync Uncontended Tss Timer Process Spaces Thread ThreadProps.
From S2P Require Import ThreadInit UserMem Ioqueue Keyboard Screen Console ConsoleProps Print.

(** * Data *)

Record system := System {
  s_threads : tstate;
  s_idt : list gate_desc;
  s_tables : intr_tables;
  s_ports : list (Z * Z);      (* what was written to I/O ports, in order *)
  s_idtr : Z;                  (* operand of the last lidt *)
  s_gdtr : Z;                  (* operand of the last lgdt *)
  s_tr : Z;                    (* operand of the last ltr *)
  s_kbd : ioqueue;
  s_screen : video;
}.

(** Link-time addresses: locks, tables, handlers, the threads of main.c and
    the string constants they are started with. *)
Class BootSyms := {
  kbd_buf : Z;
  idt_addr : Z; tss_addr : Z; intr_entry_table : Z → Z; syscall_handler : Z;
  timer_handler : Z; keyboard_handler : Z;
  k_thread_a_ptr : Z; k_thread_b_ptr : Z; u_prog_a_ptr : Z; u_prog_b_ptr : Z; str_a : Z; str_b : Z;
}.

Definition s_ker (S : system) : kernel := t_ker (s_threads S).

Definition with_threads (S : system) (t : tstate) : system :=
  System t (s_idt S) (s_tables S) (s_ports S) (s_idtr S) (s_gdtr S) (s_tr S) (s_kbd S) (s_screen S).
Definition with_screen (S : system) (V : video) : system :=
  System (s_threads S) (s_idt S) (s_tables S) (s_ports S) (s_idtr S) (s_gdtr S) (s_tr S) (s_kbd S) V.
Definition with_kernel (S : system) (K : kernel) : system :=
  with_threads S (set_ker (s_threads S) K).

Inductive bpoint :=
| OfThread (f : tpoint)
| InitAll | IdtInit | MemInit | TimerInit | ConsoleInit | KeyboardInit | TssInit
| Main | IntrEnable
| Say (l : list piece).      (* [put_str] and [put_int] *)

(** * Operations *)

Section boot.
Context `{Symbols, ThreadSyms, PoolLocks, ConSyms, BootSyms}.

Definition boot_idt (S : system) : system :=
  let '(gates, tables, outs, op) := idt_init intr_entry_table syscall_handler idt_addr in
  System (s_threads S) gates tables (s_ports S ++ outs) op (s_gdtr S) (s_tr S) (s_kbd S) (s_screen S).

(** [mem_init] with the two locks [mem_pool_init] ends with. *)
Definition boot_mem (S : system) : res system :=
  let t := s_threads S in
  '(km, M) ← mem_init (k_mach (t_ker t));
  K ← lock_init (set_mach (t_ker t) M) kernel_pool_lock;
  K ← lock_init K user_pool_lock;
  Ok (with_threads S (TState K km (next_pid t) (main_thread t))).

Definition boot_timer (S : system) : res system :=
  '(outs, tables) ← timer_init (s_tables S) timer_handler;
  Ok (System (s_threads S) (s_idt S) tables (s_ports S ++ outs) (s_idtr S) (s_gdtr S) (s_tr S)
             (s_kbd S) (s_screen S)).

Definition boot_console (S : system) : res system :=
  K ← console_init (s_ker S); Ok (with_kernel S K).

Definition boot_keyboard (S : system) : res system :=
  '(K, Q, tables) ← keyboard_init kbd_buf (s_ker S) (s_kbd S) (s_tables S) keyboard_handler;
  let t := set_ker (s_threads S) K in
  Ok (System t (s_idt S) tables (s_ports S) (s_idtr S) (s_gdtr S) (s_tr S) Q (s_screen S)).

(** The segment's bytes and [esp0], which the scheduler keeps in [k_esp0]. *)
Definition boot_tss (S : system) : res system :=
  let K := s_ker S in
  '(M, gdtr, tr) ← tss_init (k_mach K) tss_addr;
  let t := set_ker (s_threads S) (set_esp0 (set_mach K M) 0) in
  Ok (System t (s_idt S) (s_tables S) (s_ports S) (s_idtr S) gdtr tr (s_kbd S) (s_screen S)).

(** ** Messages *)

Definition say (S : system) (l : list piece) : res system :=
  V ← says (s_screen S) l; Ok (with_screen S V).

(** A function that reports its start and its end. *)
Definition saying (S : system) (before : list piece) (op : system → res system)
    (after : system → list piece) : res (system * list bpoint) :=
  S ← say S before;
  S ← op S;
  S ← say S (after S);
  Ok (S, []).

(** [mem_pool_init] prints where the bitmaps and the frames of the pools are. *)
Definition pool_lines (km : kmem) : list piece :=
  [ Str "   kernel_pool_bitmap_start:"; Int (bits (kbm km));
    Str "   kernel_pool_phy_addr_start:"; Int (phy_addr_start (kernel_pool km)); Line "";
    Str "   user_pool_bitmap_start:"; Int (bits (ubm km));
    Str "     user_pool_phy_addr_start:"; Int (phy_addr_start (user_pool km)); Line "" ].

Definition idt_start : list piece := [Line "idt_init start"].
Definition idt_done : list piece :=
  [Line " idt_desc_init done"; Line "      pic_init done"; Line "idt_init done."].
Definition mem_start : list piece := [Line "mem_init start"; Line " mem_pool_init start"].
Definition mem_done (S : system) : list piece :=
  pool_lines (t_pools (s_threads S)) ++ [Line " mem_pool_init done"; Line "mem_init done"].
Definition timer_start : list piece := [Line "timer_init start."].
Definition timer_done : list piece := [Line "timer_init done."].
Definition keyboard_start : list piece := [Line "keyboard init start"].
Definition keyboard_done : list piece := [Line "keyboard init done"].
Definition tss_start : list piece := [Line "tss_init start"].
Definition tss_done : list piece := [Line "tss_init and ltr done"].

(** [thread_init] of thread/thread.c is points of Thread.v between its messages. *)
Definition init_all : list bpoint :=
  [ Say [Line "init_all"]; IdtInit; MemInit;
    Say [Line "thread_init start"]; OfThread ThreadInit; Say [Line "thread_init done"];
    TimerInit; ConsoleInit; KeyboardInit; TssInit ].

(** [main] up to its [while(1)]. *)
Definition main : list bpoint :=
  [ Say [Line "hello kernel..."]; InitAll;
    OfThread (ThreadStart "consumer_a" 8 k_thread_a_ptr str_a);
    OfThread (ThreadStart "consumer_b" 31 k_thread_b_ptr str_b);
    OfThread (ProcessExecute u_prog_a_ptr "user_prog_a");
    OfThread (ProcessExecute u_prog_b_ptr "user_prog_b");
    IntrEnable ].

Definition exec_boot (S : system) (f : bpoint) : res (system * list bpoint) :=
  match f with
  | OfThread f => '(t, fs) ← exec_thread (s_threads S) f; Ok (with_threads S t, map OfThread fs)
  | InitAll => Ok (S, init_all)
  | IdtInit => saying S idt_start (λ S, Ok (boot_idt S)) (λ _, idt_done)
  | MemInit => saying S mem_start boot_mem mem_done
  | TimerInit => saying S timer_start boot_timer (λ _, timer_done)
  | ConsoleInit => S ← boot_console S; Ok (S, [])
  | KeyboardInit => saying S keyboard_start boot_keyboard (λ _, keyboard_done)
  | TssInit => saying S tss_start boot_tss (λ _, tss_done)
  | Say l => S ← say S l; Ok (S, [])
  | Main => Ok (S, main)
  | IntrEnable => Ok (with_kernel S (set_eflags (s_ker S) (intr_enable (k_eflags (s_ker S))).2), [])
  end.

Definition bruns := runs exec_boot (λ S, running_thread (s_ker S)).
End boot.

(** * Initialising a lock in a running system *)

Section locks.
Context `{Symbols, ThreadSyms}.

Lemma lock_init_static K qs p ps :
  heap_lists (k_nodes K) qs → static (k_nodes K) qs (waiters (semaphore p) :: ps) →
  ∃ n, lock_init K p
       = Ok (put_lock (put_sema (set_lists K (LMem (k_eflags K) n)) (semaphore p) 1) p (Lock NULL 0))
    ∧ relinked (k_nodes K) n (<[waiters (semaphore p) := []]> qs)
    ∧ static n (<[waiters (semaphore p) := []]> qs) ps.
Proof.
  intros Hh Hs. destruct (static_init (k_eflags K) _ _ _ _ Hh Hs) as (n & E & Hr & Hs').
  exists n. split_and!; auto. unfold lock_init, sema_init, on_lists, lists_of. simpl.
  rewrite E. by rb.
Qed.

(** Queues and machines may change under a scheduler that does not notice. *)
Lemma sched_inv_list K cur qs p n :
  sched_inv K cur qs → qs !! p = None → relinked (k_nodes K) n (<[p := []]> qs) →
  (∀ t, is_Some (k_tasks K !! t) → general_tag t ≠ head_of p ∧ general_tag t ≠ tail_of p) →
  sched_inv (set_lists K (LMem (k_eflags K) n)) cur (<[p := []]> qs).
Proof.
  intros [Hc Hrun] Hp [Hh Hdom] Htag. split; [|exact Hrun].
  destruct (sc_ready _ _ _ Hc) as [rl Hrl].
  assert (Hpr : p ≠ thread_ready_list) by congruence.
  split; simpl; auto; try (by apply Hc).
  - rewrite lookup_insert_ne by done. by eexists.
  - intros t T HT. destruct (sc_task _ _ _ Hc t T HT). split; auto. by apply Hdom.
  - intros q l e. rewrite lookup_insert. case_decide; [|apply Hc].
    intros [= <-] _ Hin. by apply not_elem_of_nil in Hin.
  - intros t T l HT Hs. rewrite lookup_insert_ne by done. by apply (sc_ready_in _ _ _ Hc t T).
  - intros t T q l HT. rewrite lookup_insert. case_decide; [|by apply (sc_tag _ _ _ Hc t T)].
    intros [= <-]. subst q. destruct (Htag t) as [? ?]; [by eexists|]. split_and!; auto.
    intros _. apply not_elem_of_nil.
Qed.

Lemma sched_inv_mach K cur qs M' :
  sched_inv K cur qs → mem_step (k_mach K) M' → kspace M' → sched_inv (set_mach K M') cur qs.
Proof.
  intros [Hc Hrun] Hs Hk. split; [|exact Hrun]. split; simpl; auto; try (by apply Hc).
  intros t T HT. destruct (sc_task _ _ _ Hc t T HT). split; auto.
  by apply (pgdir_ok_step (k_mach K)).
Qed.

(** [sched_inv] reads neither locks nor semaphores nor the task segment. *)
Lemma sched_inv_view K K' cur qs :
  sched_inv K cur qs → k_nodes K' = k_nodes K → k_tasks K' = k_tasks K → k_esp K' = k_esp K →
  k_mach K' = k_mach K → sched_inv K' cur qs.
Proof.
  destruct K, K'. simpl. intros [Hc Hrun] -> -> -> ->. split; [|exact Hrun].
  split; simpl; try apply Hc. intros t T HT. by destruct (sc_task _ _ _ Hc t T HT).
Qed.

Lemma thread_inv_lock s cur qs ts g p ps :
  thread_inv s cur qs ts g → static (k_nodes (t_ker s)) qs (waiters (semaphore p) :: ps) →
  (∀ t, is_Some (k_tasks (t_ker s) !! t) →
     general_tag t ≠ head_of (waiters (semaphore p)) ∧ general_tag t ≠ tail_of (waiters (semaphore p))) →
  ∃ K', lock_init (t_ker s) p = Ok K'
    ∧ thread_inv (set_ker s K') cur (<[waiters (semaphore p) := []]> qs) ts g
    ∧ static (k_nodes K') (<[waiters (semaphore p) := []]> qs) ps
    ∧ k_tasks K' = k_tasks (t_ker s) ∧ k_mach K' = k_mach (t_ker s)
    ∧ k_esp K' = k_esp (t_ker s) ∧ k_eflags K' = k_eflags (t_ker s)
    ∧ k_locks K' = <[p := Lock NULL 0]> (k_locks (t_ker s))
    ∧ k_semas K' = <[semaphore p := 1]> (k_semas (t_ker s)).
Proof.
  intros Hi Hs Htag. pose proof (ti_sched _ _ _ _ _ Hi) as Hsc. pose proof Hsc as [Hc _].
  destruct (st_loose _ _ _ Hs (waiters (semaphore p))) as (Hnone & _); [by left|].
  destruct (lock_init_static (t_ker s) qs p ps) as (n & -> & Hr & Hst); [apply Hc|done|].
  eexists. split; [done|]. set (w := waiters (semaphore p)) in *. destruct (sc_ready _ _ _ Hc) as [rl Hrl].
  assert (Hne : p ≠ pid_lock).
  { intros ->. pose proof (ti_wait _ _ _ _ _ Hi). unfold w in Hnone. congruence. }
  assert (w ≠ waiters (semaphore pid_lock)) by (unfold w, waiters, semaphore; lia).
  assert (w ≠ thread_all_list) by (pose proof (ti_all _ _ _ _ _ Hi); congruence).
  split_and!; try done. split; simpl; try (by apply Hi).
  - apply (sched_inv_view (set_lists (t_ker s) (LMem (k_eflags (t_ker s)) n))); try done.
    by apply sched_inv_list.
  - rewrite lookup_insert_ne by done. apply Hi.
  - rewrite lookup_insert_ne by (unfold semaphore; lia). apply Hi.
  - rewrite lookup_insert_ne by done. apply Hi.
  - intros x Hx. apply (ti_nodes _ _ _ _ _ Hi), Hr, Hx.
  - rewrite lookup_insert_ne by done. apply Hi.
  - apply (ti_main _ _ _ _ _ Hi).
Qed.

(** The machine changes outside what the threads own. *)
Lemma thread_inv_mach s cur qs ts g M' e0 :
  thread_inv s cur qs ts g → mem_step (k_mach (t_ker s)) M' → mem_inv (t_pools s) M' g →
  thread_inv (set_ker s (set_esp0 (set_mach (t_ker s) M') e0)) cur qs ts g.
Proof.
  intros Hi Hs Hm. split; simpl; auto; try (by apply Hi).
  - apply (sched_inv_view (set_mach (t_ker s) M')); try done.
    apply sched_inv_mach; [apply Hi|done|apply Hm].
  - apply (pgdir_ok_step (k_mach (t_ker s))); [done|apply Hi].
  - intros x Hx. apply (kmapped_step (k_mach (t_ker s))); [done|]. by apply (ti_nodes _ _ _ _ _ Hi).
  - intros x Hx. apply (kmapped_step (k_mach (t_ker s))); [done|]. by apply (ti_tasks _ _ _ _ _ Hi).
  - apply (ti_main _ _ _ _ _ Hi).
Qed.
End locks.

(** * What the loader leaves *)

Section loaded.
Context `{Symbols, ThreadSyms, PoolLocks, ConSyms, BootSyms}.

Definition lock_list (p : Z) : Z := waiters (semaphore p).

(** Page of the first thread's stack (kernel/memory.c). *)
Definition MAIN : Z := 0xc009e000.

Definition later_lists : list Z := [lock_list console_lock; lock_list kbd_buf].
Definition static_lists : list Z :=
  lock_list kernel_pool_lock :: lock_list user_pool_lock
  :: thread_all_list :: thread_ready_list :: lock_list pid_lock :: later_lists.

(** The machine of [setup_page] without stale entries in its page tables, with
    some number at 0xb00 and in [next_pid], the stack in the page of [MAIN], and the kernel image, with its lists and the task
    state segment, below the memory bitmaps. *)
Record loaded (S : system) (all_mem : Z) : Prop := {
  ld_machine : fresh_machine (k_mach (s_ker S));
  ld_size : load32 (k_mach (s_ker S)) 0xb00 = Ok all_mem;
  ld_range : 0x270000 ≤ usable_mem all_mem;
  ld_esp : stack_ok MAIN (k_esp (s_ker S));
  ld_tasks : k_tasks (s_ker S) = ∅;
  ld_pid : 0 ≤ next_pid (s_threads S) ≤ 65530;
  ld_static : static (k_nodes (s_ker S)) ∅ static_lists;
  ld_nodes x : is_Some (k_nodes (s_ker S) !! x) → KBASE ≤ x < MEM_BITMAP_BASE;
  ld_tss : KBASE ≤ tss_addr ∧ tss_addr + TSS_SIZE ≤ MEM_BITMAP_BASE;
  ld_screen : text_screen (s_screen S);
}.

(** The lock of the user pool and that of the console are apart from the other
    lists of the kernel. *)
Lemma static_apart S all_mem :
  loaded S all_mem →
  thread_all_list ≠ lock_list user_pool_lock ∧ thread_ready_list ≠ lock_list user_pool_lock
  ∧ pid_lock ≠ user_pool_lock ∧ console_lock ≠ user_pool_lock ∧ kbd_buf ≠ user_pool_lock
  ∧ kbd_buf ≠ console_lock.
Proof.
  intros Hl. destruct (static_cons _ _ _ _ (ld_static _ _ Hl)) as [Hs _].
  destruct (static_cons _ _ _ _ Hs) as [Hs1 Hu]. do 3 (destruct (static_cons _ _ _ _ Hs1) as [Hs1' _]; clear Hs1; rename Hs1' into Hs1).
  destruct (static_cons _ _ _ _ Hs1) as [_ Hc].
  pose proof (Hu thread_all_list ltac:(left)). pose proof (Hu thread_ready_list ltac:(right; left)).
  pose proof (Hu (lock_list pid_lock) ltac:(do 2 right; left)).
  pose proof (Hu (lock_list console_lock) ltac:(do 3 right; left)).
  pose proof (Hu (lock_list kbd_buf) ltac:(do 4 right; left)). pose proof (Hc (lock_list kbd_buf) ltac:(left)).
  unfold apart, lock_list, waiters, semaphore in *. split_and!; intros E; rewrite ?E in *; lia.
Qed.

Lemma kmapped_low M x : kspace M → KBASE ≤ x < K_HEAP_START → kmapped M x.
Proof.
  intros Hk Hx. unfold KBASE, K_HEAP_START in *. split; [unfold KBASE, KTOP; lia|].
  apply (ks_low _ Hk). unfold kpage, KBASE. zdm.
Qed.

(** The kernel's own directory is good for kernel threads. *)
Lemma kernel_dir_ok M : kspace M → frame (cr3 M) = PAGE_DIR_TABLE_POS → pgdir_ok M NULL.
Proof.
  intros [(Hc & Hp & Hf) Hd Hpde Hlow Hu] E. split; [by left|].
  change (dir_of M NULL) with PAGE_DIR_TABLE_POS.
  assert (frame PAGE_DIR_TABLE_POS = PAGE_DIR_TABLE_POS) as E' by reflexivity.
  rewrite E in *. split; simpl; rewrite ?E'; try done.
Qed.

Lemma heap_lists_empty n : heap_lists n ∅.
Proof. split; intros *; by rewrite lookup_empty. Qed.

Lemma same_high_step M M' : same_high M M' → mem_step M M'.
Proof.
  intros Hh. pose proof Hh as [Hc Hx]. split; [done|..].
  - intros i Hi _. apply kpte_same_high; [done|lia].
  - intros i x _ _ Hge Hin. apply Hx. lia.
  - intros x Hin. apply Hx. unfold PAGE_DIR_TABLE_POS in Hin. lia.
Qed.

(** After [mem_init]. *)
Lemma boot_mem_holds S all_mem :
  loaded S all_mem →
  let km := pool_layout all_mem in
  ∃ K' g, boot_mem S = Ok (with_threads S (TState K' km (next_pid (s_threads S)) (main_thread (s_threads S))))
    ∧ boot_state (TState K' km (next_pid (s_threads S)) (main_thread (s_threads S))) MAIN
        (<[lock_list user_pool_lock := []]> (<[lock_list kernel_pool_lock := []]> ∅)) later_lists g
    ∧ window g (vbm km) 0 (nbits (vbm km)) ∧ window g (kbm km) 0 (nbits (kbm km))
    ∧ window g (ubm km) 0 (nbits (ubm km))
    ∧ k_locks K' !! user_pool_lock = Some (Lock NULL 0) ∧ k_semas K' !! semaphore user_pool_lock = Some 1
    ∧ (∀ a, is_Some (g !! a) → MEM_BITMAP_BASE ≤ a)
    ∧ (∀ x, is_Some (k_nodes K' !! x) → KBASE ≤ x < MEM_BITMAP_BASE)
    ∧ k_esp K' = k_esp (s_ker S) ∧ k_eflags K' = k_eflags (s_ker S)
    ∧ mem_step (k_mach (s_ker S)) (k_mach K').
Proof.
  intros Hl km. set (K := s_ker S). pose proof (ld_range _ _ Hl) as Hrg.
  pose proof (usable_mem_range all_mem).
  destruct (mem_pool_init_region (k_mach K) (usable_mem all_mem) (ld_machine _ _ Hl))
    as (M' & g & HM & Hi & Hh & Hk & Hub & Hv & Hdom); [lia|].
  rewrite <- mem_pool_init_usable in HM. rewrite <- pool_layout_usable in HM, Hi, Hk, Hub, Hv.
  fold km in HM, Hi, Hk, Hub, Hv.
  pose proof (mi_space _ _ _ Hi) as Hks.
  destruct (lock_init_static (set_mach K M') ∅ kernel_pool_lock
    (lock_list user_pool_lock :: thread_all_list :: thread_ready_list :: lock_list pid_lock :: later_lists))
    as (n1 & E1 & [Hh1 Hd1] & Hs1); [apply heap_lists_empty|apply (ld_static _ _ Hl)|].
  set (K1 := put_lock _ _ _) in E1.
  destruct (lock_init_static K1 _ user_pool_lock
    (thread_all_list :: thread_ready_list :: lock_list pid_lock :: later_lists) Hh1 Hs1)
    as (n2 & E2 & [Hh2 Hd2] & Hs2). set (K2 := put_lock _ _ _) in E2.
  assert (Hdn : ∀ x, is_Some (n2 !! x) → KBASE ≤ x < MEM_BITMAP_BASE).
  { intros x Hx. apply (ld_nodes _ _ Hl), Hd1, Hd2, Hx. }
  assert (Hcr : frame (cr3 M') = PAGE_DIR_TABLE_POS)
    by (rewrite (proj1 Hh); apply (ld_machine _ _ Hl)).
  exists K2, g. split_and!; auto; [| |apply lookup_insert_eq|apply lookup_insert_eq|by apply same_high_step].
  - pose proof (ld_size _ _ Hl) as Hsz. unfold boot_mem, mem_init. fold (s_ker S).
    fold K in Hsz |- *. rewrite Hsz. rb. rewrite HM. rb.
    rewrite E1. rb. rewrite E2. rb. done.
  - split; simpl; auto.
    + intros p l. rewrite !lookup_insert, lookup_empty. repeat case_decide; congruence.
    + apply (ld_tasks _ _ Hl).
    + by apply kernel_dir_ok.
    + split; [done|]. apply kmapped_low; [done|]. unfold KBASE, K_HEAP_START, MAIN. lia.
    + apply (ld_esp _ _ Hl).
    + intros x Hx. apply eq_None_not_Some. intros Hx'%Hdn. unfold MEM_BITMAP_BASE, MAIN in *. lia.
    + intros x Hx%Hdn. apply kmapped_low; [done|]. unfold K_HEAP_START, MEM_BITMAP_BASE in *. lia.
    + pose proof (ld_pid _ _ Hl). lia.
Qed.

(** * [tss_init] among the other data *)

Lemma tss_init_step km M g tss :
  mem_inv km M g → (∀ a, is_Some (g !! a) → MEM_BITMAP_BASE ≤ a) →
  KBASE ≤ tss → tss + TSS_SIZE ≤ MEM_BITMAP_BASE →
  ∃ M', tss_init M tss = Ok (M', gdt_operand, SELECTOR_TSS) ∧ mem_step M M' ∧ mem_inv km M' g.
Proof.
  intros Hi Hg Ht Ht'. pose proof (mi_space _ _ _ Hi) as Hk.
  remember (Z.to_nat 0x9a000) as n eqn:En.
  assert (Hn : Z.of_nat n = 0x9a000) by (subst n; by rewrite Z2Nat.id). clear En.
  unfold TSS_SIZE, MEM_BITMAP_BASE, KBASE in *.
  destruct (region_map_holds M KBASE n) as (Hlow & Hh & Ho);
    [done|unfold KBASE; lia|unfold KBASE, K_HEAP_START; lia|]. unfold KBASE in *.
  set (G := region_map M 0xc0000000 n) in *.
  destruct (tss_init_holds (ByteMemSpec0 := framed_spec M G) M G tss) as (M' & HM & Hf).
  - by apply framed_refl.
  - apply (owned_sub _ 0xc0000000 (Z.of_nat n)); [done|unfold TSS_SIZE; lia..].
  - apply (owned_sub _ 0xc0000000 (Z.of_nat n)); [done|lia..].
  - lia.
  - unfold TSS_SIZE. lia.
  - pose proof (framed_same_high _ _ _ _ Hk Hlow Hf) as Hhi.
    exists M'. split_and!; [done|by apply same_high_step|].
    apply (mem_inv_same km M); [done|by apply same_high_tables|]. intros a Ha.
    destruct Hf as (_ & _ & _ & _ & Hx). apply Hx. intros b Hb Htr.
    unfold G in Hb. rewrite region_map_lookup in Hb by (done || unfold KBASE, K_HEAP_START; lia).
    case_decide; [|by destruct Hb].
    rewrite kspace_translate_low in Htr by (done || unfold KBASE, K_HEAP_START; lia).
    injection Htr as Htr. specialize (Hg a Ha). unfold KBASE in *. lia.
Qed.

(** * [init_all] *)

Lemma bruns_thread S t fs t' :
  truns t fs t' → bruns (with_threads S t) (map OfThread fs) (with_threads S t').
Proof.
  apply (runs_lift exec_thread); [|done]. intros t0 f t1 fs0 He. simpl. by rewrite He.
Qed.

(** Messages only touch the screen.  [exec_log] collects what is to be
    printed; its runs are the kernel's runs on any text screen. *)
Definition exec_log (st : system * list piece) (f : bpoint) : res (system * list piece * list bpoint) :=
  let S := st.1 in
  let L := st.2 in
  match f with
  | IdtInit => Ok (boot_idt S, L ++ idt_start ++ idt_done, [])
  | MemInit => S ← boot_mem S; Ok (S, L ++ mem_start ++ mem_done S, [])
  | TimerInit => S ← boot_timer S; Ok (S, L ++ timer_start ++ timer_done, [])
  | KeyboardInit => S ← boot_keyboard S; Ok (S, L ++ keyboard_start ++ keyboard_done, [])
  | TssInit => S ← boot_tss S; Ok (S, L ++ tss_start ++ tss_done, [])
  | Say l => Ok (S, L ++ l, [])
  | f => '(S', fs) ← exec_boot S f; Ok (S', L, fs)
  end.

Definition log_runs := runs exec_log (λ st, running_thread (s_ker st.1)).

(** [V'] shows what [V] showed and then the text. *)
Definition screen_adds (V V' : video) (l : list piece) : Prop :=
  text_screen V' ∧ ∀ t, shows V t → shows V' (t_puts t (text_of l)).

Lemma screen_adds_nil V : text_screen V → screen_adds V V [].
Proof. by split. Qed.

Lemma screen_adds_app V V1 V2 l k :
  screen_adds V V1 l → screen_adds V1 V2 k → screen_adds V V2 (l ++ k).
Proof.
  intros [_ Ha] [Ht Hb]. split; [done|]. intros t Hs. rewrite text_of_app, t_puts_app. by apply Hb, Ha.
Qed.

Lemma say_adds S V l :
  text_screen V → literals l = true →
  ∃ V', say (with_screen S V) l = Ok (with_screen S V') ∧ screen_adds V V' l.
Proof.
  intros Ht Hl. destruct (says_on_screen V l Ht Hl) as (V' & E & Ht' & Hs). exists V'.
  split; [|by split]. unfold say. simpl s_screen. by rewrite E.
Qed.

Lemma saying_adds S V before op after S1 :
  text_screen V → (∀ V, op (with_screen S V) = Ok (with_screen S1 V)) → (∀ V, after (with_screen S1 V) = after S1) →
  literals (before ++ after S1) = true →
  ∃ V', saying (with_screen S V) before op after = Ok (with_screen S1 V', [])
    ∧ screen_adds V V' (before ++ after S1).
Proof.
  intros Ht Hop Ha Hl. unfold literals in Hl. rewrite forallb_app in Hl. apply andb_true_iff in Hl as [Hb Hl].
  destruct (say_adds S V before Ht Hb) as (V1 & E1 & A1).
  destruct (say_adds S1 V1 (after S1) (proj1 A1) Hl) as (V2 & E2 & A2).
  exists V2. unfold saying. rewrite E1. rb. rewrite Hop. rb. rewrite Ha, E2. rb.
  split; [done|]. by eapply screen_adds_app.
Qed.

Lemma log_step S L f S' L' fs :
  exec_log (S, L) f = Ok (S', L', fs) →
  ∃ l, L' = L ++ l ∧ ∀ V, text_screen V → literals l = true →
    ∃ V', exec_boot (with_screen S V) f = Ok (with_screen S' V', fs) ∧ screen_adds V V' l.
Proof.
  assert (Hs : ∀ before op after,
    (∀ V S1, op S = Ok S1 → op (with_screen S V) = Ok (with_screen S1 V)) →
    (∀ S1 V, after (with_screen S1 V) = after S1) →
    (S1 ← op S; Ok (S1, L ++ before ++ after S1, [])) = Ok (S', L', fs) →
    ∃ l, L' = L ++ l ∧ ∀ V, text_screen V → literals l = true →
      ∃ V', saying (with_screen S V) before op after = Ok (with_screen S' V', fs) ∧ screen_adds V V' l).
  { intros before op after Hop Ha (S1 & E & [= <- <- <-])%bind_ok_inv. eexists. split; [reflexivity|].
    intros V Ht Hl. apply saying_adds; auto. }
  assert (Hn : ∀ r, (∀ V, exec_boot (with_screen S V) f = '(S1, fs) ← r; Ok (with_screen S1 V, fs)) →
    ('(S1, fs) ← r; Ok (S1, L, fs)) = Ok (S', L', fs) →
    ∃ l, L' = L ++ l ∧ ∀ V, text_screen V → literals l = true →
      ∃ V', exec_boot (with_screen S V) f = Ok (with_screen S' V', fs) ∧ screen_adds V V' l).
  { intros r Hr ([S1 fs1] & -> & [= <- <- <-])%bind_ok_inv. exists []. split; [by rewrite app_nil_r|].
    intros V Ht _. exists V. rewrite Hr. split; [done|]. by apply screen_adds_nil. }
  destruct f; cbn [exec_log fst snd].
  - apply Hn. intros V. simpl. destruct (exec_thread _ _) as [[]| | |]; done.
  - by apply Hn.
  - apply (Hs _ (λ S, Ok (boot_idt S)) (λ _, idt_done)); [|done]. by intros V S1 [= <-].
  - apply (Hs _ boot_mem mem_done); [|done]. intros V S1. unfold boot_mem. simpl. destruct (mem_init _) as [[]| | |]; try done.
    rb. do 2 (destruct (lock_init _ _); try done; rb). by intros [= <-].
  - apply (Hs _ boot_timer (λ _, timer_done)); [|done]. intros V S1. unfold boot_timer. simpl.
    destruct (timer_init _ _) as [[]| | |]; try done. rb. by intros [= <-].
  - apply Hn. intros V. simpl. unfold boot_console. change (s_ker (with_screen S V)) with (s_ker S).
    by destruct (console_init _).
  - apply (Hs _ boot_keyboard (λ _, keyboard_done)); [|done]. intros V S1. unfold boot_keyboard.
    change (s_ker (with_screen S V)) with (s_ker S). simpl.
    destruct (keyboard_init _ _ _ _ _) as [[[]]| | |]; try done. rb. by intros [= <-].
  - apply (Hs _ boot_tss (λ _, tss_done)); [|done]. intros V S1. unfold boot_tss.
    change (s_ker (with_screen S V)) with (s_ker S). simpl.
    destruct (tss_init _ _) as [[[]]| | |]; try done. rb. by intros [= <-].
  - by apply Hn.
  - by apply Hn.
  - intros [= <- <- <-]. exists l. split; [done|]. intros V Ht Hl. simpl.
    destruct (say_adds S V l Ht Hl) as (V' & -> & Ha). by exists V'.
Qed.

Lemma log_runs_on st fs st' :
  log_runs st fs st' →
  ∃ l, st'.2 = st.2 ++ l ∧ ∀ V, text_screen V → literals l = true →
    ∃ V', bruns (with_screen st.1 V) fs (with_screen st'.1 V') ∧ screen_adds V V' l.
Proof.
  induction 1 as [st|[S L] f r [S1 L1] fs st2 He Hh Hr (l2 & E2 & IH)].
  - exists []. split; [by rewrite app_nil_r|]. intros V Ht _. exists V. split; [apply runs_nil|].
    by apply screen_adds_nil.
  - destruct (log_step S L f S1 L1 fs He) as (l1 & E1 & Hstep). exists (l1 ++ l2). simpl in *. split.
    { by rewrite E2, E1, app_assoc. }
    intros V Ht Hl. unfold literals in Hl. rewrite forallb_app in Hl. apply andb_true_iff in Hl as [Hl1 Hl2].
    destruct (Hstep V Ht Hl1) as (V1 & E & A1). destruct (IH V1 (proj1 A1) Hl2) as (V2 & Hrun & A2).
    exists V2. split; [|by eapply screen_adds_app]. eapply runs_cons; [exact E|exact Hh|exact Hrun].
Qed.

Lemma log_runs_thread S L t fs t' :
  truns t fs t' → log_runs (with_threads S t, L) (map OfThread fs) (with_threads S t', L).
Proof.
  apply (runs_lift exec_thread _ exec_log _ (λ t, (with_threads S t, L)) OfThread); [|done].
  intros t0 f t1 fs0 He. simpl. by rewrite He.
Qed.

(** What [init_all] prints. *)
Definition init_text (km : kmem) : list piece :=
  [Line "init_all"] ++ idt_start ++ idt_done
  ++ mem_start ++ pool_lines km ++ [Line " mem_pool_init done"; Line "mem_init done"]
  ++ [Line "thread_init start"; Line "thread_init done"] ++ timer_start ++ timer_done
  ++ keyboard_start ++ keyboard_done ++ tss_start ++ tss_done.

(** The handler tables after [timer_init] and [keyboard_init]. *)
Definition boot_tables : intr_tables :=
  IntrTables (<[0x21%nat := Handler keyboard_handler]>
               (<[0x20%nat := Handler timer_handler]> (idt_table exception_init)))
             (intr_name exception_init).

Definition boot_ports : list (Z * Z) :=
  pic_init ++ frequency_set COUNTER0_PORT COUNTER0_NO READ_WRITE_LATCH COUNTER_MODE COUNTER0_VALUE.

Record initialised (S : system) (all_mem : Z) (S' : system) (qs : gmap Z (list Z)) (g : gmap Z Z)
    : Prop := {
  in_threads : thread_inv (s_threads S') MAIN qs [MAIN] g;
  in_ready : qs !! thread_ready_list = Some [];
  in_tasks : k_tasks (s_ker S') = {[ MAIN := main_task MAIN (next_pid (s_threads S) + 1) ]};
  in_pools : t_pools (s_threads S') = pool_layout all_mem;
  in_pid : next_pid (s_threads S') = next_pid (s_threads S) + 1;
  in_main : main_thread (s_threads S') = MAIN;
  in_heap : window g (vbm (pool_layout all_mem)) 0 (nbits (vbm (pool_layout all_mem)));
  in_frames : window g (kbm (pool_layout all_mem)) 0 (nbits (kbm (pool_layout all_mem)));
  in_user : window g (ubm (pool_layout all_mem)) 0 (nbits (ubm (pool_layout all_mem)));
  in_esp : k_esp (s_ker S') = k_esp (s_ker S);
  in_eflags : k_eflags (s_ker S') = k_eflags (s_ker S);
  in_idt : s_idt S' = idt_desc_init intr_entry_table syscall_handler;
  in_tables : s_tables S' = boot_tables;
  in_ports : s_ports S' = s_ports S ++ boot_ports;
  in_tss : s_gdtr S' = gdt_operand ∧ s_tr S' = SELECTOR_TSS;
  in_kbd : used (s_kbd S') = 0;
  in_locks p : p ∈ [console_lock; user_pool_lock] → k_locks (s_ker S') !! p = Some (Lock NULL 0)
    ∧ k_semas (s_ker S') !! semaphore p = Some 1 ∧ qs !! lock_list p = Some [];
  in_step : mem_step (k_mach (s_ker S)) (k_mach (s_ker S'));
  in_idtr : s_idtr S' = idt_operand idt_addr;
  in_screen : screen_adds (s_screen S) (s_screen S') (init_text (pool_layout all_mem));
}.

Lemma init_all_holds S all_mem :
  loaded S all_mem → ∃ S' qs g, bruns S [InitAll] S' ∧ initialised S all_mem S' qs g.
Proof.
  intros Hl. assert (Hl1 : loaded (boot_idt S) all_mem) by by destruct Hl.
  set (S1 := boot_idt S) in *. set (km := pool_layout all_mem).
  destruct (boot_mem_holds S1 all_mem Hl1) as (K2 & g & HM & Hbs & Hwv & Hwk & Hwu & Hul & Hus & Hg & Hnd & He2 & Hf2 & Hst2).
  fold km in HM, Hbs, Hwv, Hwk, Hwu. set (t2 := TState K2 km _ _) in *.
  assert (Htag : ∀ o x, 0 ≤ o < 4096 → is_Some (k_nodes K2 !! x) → MAIN + o ≠ x).
  { intros o x Ho Hx%Hnd. unfold MAIN, MEM_BITMAP_BASE in *. lia. }
  assert (Hlate : ∀ o p, 0 ≤ o < 4096 → p ∈ later_lists → MAIN + o ≠ head_of p ∧ MAIN + o ≠ tail_of p).
  { intros o p Ho Hp. destruct (st_loose _ _ _ (bo_static _ _ _ _ _ Hbs) p) as (_ & (_ & ? & _) & (_ & ? & _)).
    - do 3 right. done.
    - split; by apply Htag. }
  destruct (thread_init_holds t2 MAIN _ later_lists g Hbs) as (t3 & n3 & Hrun3 & Hi3 & EK3 & Ep3 & En3 & Em3 & Hs3).
  { intros p Hp. by apply (Hlate 44). }
  set (qs3 := <[thread_all_list := _]> _) in *. set (S3 := with_threads S1 t3).
  assert (Htk3 : k_tasks (t_ker t3) = {[ MAIN := main_task MAIN (next_pid (s_threads S) + 1) ]}).
  { pose proof (bo_tasks _ _ _ _ _ Hbs) as E0. simpl in E0. rewrite EK3. simpl. rewrite E0.
    apply insert_empty. }
  assert (Hst3 : static (k_nodes (t_ker t3)) qs3 later_lists) by (rewrite EK3; exact Hs3).
  set (S4 := System t3 (s_idt S3) (IntrTables (<[0x20%nat := Handler timer_handler]>
    (idt_table exception_init)) (intr_name exception_init)) (s_ports S ++ boot_ports)
    (s_idtr S3) (s_gdtr S3) (s_tr S3) (s_kbd S3) (s_screen S3)).
  assert (H4 : boot_timer S3 = Ok S4).
  { unfold boot_timer, timer_init. simpl. unfold S4, boot_ports. rewrite app_assoc. done. }
  destruct (thread_inv_lock t3 MAIN qs3 [MAIN] g console_lock [lock_list kbd_buf])
    as (K5 & E5 & Hi5 & Hs5 & Htk5 & HM5 & Hesp5 & Hfl5 & Hlk5 & Hse5); [done..| |].
  { intros t. rewrite Htk3, lookup_singleton_is_Some. intros <-. apply (Hlate 36); [lia|]. left. }
  set (qs5 := <[lock_list console_lock := []]> qs3).
  destruct (thread_inv_lock (set_ker t3 K5) MAIN qs5 [MAIN] g kbd_buf [])
    as (K6 & E6 & Hi6 & _ & Htk6 & HM6 & Hesp6 & Hfl6 & Hlk6 & Hse6); [done..| |].
  { simpl. intros t. rewrite Htk5, Htk3, lookup_singleton_is_Some. intros <-.
    apply (Hlate 36); [lia|]. right. left. }
  set (qs6 := <[lock_list kbd_buf := []]> qs5). simpl in Htk6, HM6, Hesp6, Hfl6.
  destruct (tss_init_step (t_pools t3) (k_mach K6) g tss_addr) as (M7 & E7 & Hstep7 & Hi7);
    [apply (ti_mem _ _ _ _ _ Hi6)|done|apply (ld_tss _ _ Hl)|apply (ld_tss _ _ Hl)|].
  set (K7 := set_esp0 (set_mach K6 M7) 0).
  set (Q := Ioqueue NULL NULL (buf (s_kbd S)) 0 0).
  set (S7 := System (set_ker t3 K7) (s_idt S3) boot_tables (s_ports S ++ boot_ports) (s_idtr S3)
    gdt_operand SELECTOR_TSS Q (s_screen S3)).
  assert (Hmain : ∀ K, k_esp K = k_esp (s_ker S) → running_thread K = running_thread (s_ker S)).
  { intros K E. unfold running_thread. by rewrite E. }
  assert (Hesp3 : k_esp (t_ker t3) = k_esp (s_ker S)) by (rewrite EK3; simpl; exact He2).
  assert (Hlog : log_runs (S, []) [InitAll] (S7, init_text km)).
  { eapply runs_bind; [reflexivity|done| |apply runs_nil].
    do 2 (eapply runs_cons; [reflexivity|done|]; simpl app; cbn [fst snd]). fold S1.
    eapply runs_cons; [unfold exec_log, fst, snd; rewrite HM; reflexivity|by apply (Hmain K2)|]. simpl app. cbn [fst snd].
    eapply runs_cons; [reflexivity|done|]; simpl app. cbn [fst snd].
    eapply (runs_app _ _ _ [OfThread ThreadInit]).
    { apply (log_runs_thread S1 _ t2 [ThreadInit]). exact Hrun3. }
    eapply runs_cons; [reflexivity|done|]; simpl app. cbn [fst snd]. fold S3.
    eapply runs_cons; [unfold exec_log, fst, snd; rewrite H4; reflexivity|done|]. simpl app. cbn [fst snd].
    eapply runs_cons; [unfold exec_log, exec_boot, boot_console, console_init, fst, snd;
      change (s_ker S4) with (t_ker t3); rewrite E5; reflexivity| |].
    { change (running_thread K5 = running_thread (t_ker t3)). unfold running_thread. by rewrite Hesp5. }
    simpl app. cbn [fst snd]. eapply runs_cons.
    { unfold exec_log, boot_keyboard, keyboard_init, ioqueue_init, fst, snd.
      change (s_ker (with_kernel S4 K5)) with K5. cbn [set_ker t_ker] in E6. rewrite E6. reflexivity. }
    { change (running_thread K6 = running_thread K5). unfold running_thread. by rewrite Hesp6. }
    simpl app. cbn [fst snd]. eapply runs_one; [|done].
    unfold exec_log, boot_tss, fst, snd. cbv zeta. match goal with |- context [k_mach ?K] =>
      change K with K6 end. rewrite E7. reflexivity. }
  destruct (log_runs_on _ _ _ Hlog) as (l & El & Hscr). simpl in El. subst l.
  destruct (Hscr (s_screen S) (ld_screen _ _ Hl)) as (V & Hrun & Hadds); [reflexivity|].
  exists (with_screen S7 V), qs6, g. split.
  - simpl in Hrun. by destruct S.
  - split; try solve [assumption | reflexivity | split; reflexivity | exact Hadds].
    + apply (thread_inv_mach (set_ker t3 K6) MAIN qs6 [MAIN] g M7 0 Hi6 Hstep7 Hi7).
    + assert (Hr3 : qs3 !! thread_ready_list = Some []).
      { destruct (ti_sep _ _ _ _ _ Hi3) as [Hn1 _]. destruct (ti_sched _ _ _ _ _ Hi3) as [Hc3 _].
        pose proof (sc_lists _ _ _ Hc3). unfold qs3.
        rewrite lookup_insert_ne, lookup_insert_ne, lookup_insert_eq by done. done. }
      destruct (st_loose _ _ _ Hst3 (lock_list console_lock)) as (Hn4 & _); [left|].
      destruct (st_loose _ _ _ Hst3 (lock_list kbd_buf)) as (Hn5 & _); [right; left|].
      unfold qs6, qs5. rewrite !lookup_insert_ne by congruence. done.
    + change (k_tasks K6 = {[MAIN := main_task MAIN (next_pid (s_threads S) + 1)]}). congruence.
    + change (k_esp K6 = k_esp (s_ker S)). congruence.
    + change (k_eflags K6 = k_eflags (s_ker S)). rewrite Hfl6, Hfl5, EK3. exact Hf2.
    + assert (Hw5 : qs5 !! lock_list console_lock = Some []) by apply lookup_insert_eq.
      pose proof (static_apart S all_mem Hl) as (Hua & Hur & Hup & Huc & Huk & Hck).
      assert (Hsem : ∀ p q, p ≠ q → semaphore p ≠ semaphore q) by (unfold semaphore; lia).
      assert (Hlist : ∀ p q, p ≠ q → lock_list p ≠ lock_list q)
        by (unfold lock_list, waiters, semaphore; lia).
      change (∀ p, p ∈ [console_lock; user_pool_lock] → k_locks K6 !! p = Some (Lock NULL 0)
        ∧ k_semas K6 !! semaphore p = Some 1 ∧ qs6 !! lock_list p = Some []).
      rewrite Hlk6, Hse6. simpl. rewrite Hlk5, Hse5, EK3. simpl. unfold qs6, qs5, qs3.
      intros p. rewrite !elem_of_cons, elem_of_nil. intros [->|[->|[]]].
      * split_and!; rewrite lookup_insert_ne by auto; apply lookup_insert_eq.
      * split_and!; [by rewrite !lookup_insert_ne by auto|by rewrite !lookup_insert_ne by auto|].
        do 6 rewrite lookup_insert_ne by (done || by apply Hlist). apply lookup_insert_eq.
    + change (mem_step (k_mach (s_ker S)) M7). etrans; [exact Hst2|].
      assert (EM : k_mach K6 = k_mach K2) by (rewrite HM6, HM5, EK3; done). by rewrite <- EM.
Qed.

(** * Creating threads on a heap filled from below *)

(** The first [n] pages of the kernel heap are taken, the rest is free. *)
Record heap_at (km : kmem) (g : gmap Z Z) (n : Z) : Prop := {
  ha_pos : 0 ≤ n;
  ha_taken j : 0 ≤ j < n → bit g (vbm km) j = true;
  ha_free : window g (vbm km) n (nbits (vbm km) - n);
  ha_count : free_count g (kbm km) = Z.to_nat (nbits (kbm km) - n);
  ha_user : (0 < free_count g (ubm km))%nat;
}.

(** A thread that has never run. *)
Definition runnable (km : kmem) (M : machine) (t fn arg : Z) : Prop :=
  ∃ f, heap_frame km M t f ∧ first_stack M f fn arg.

Lemma runnable_step km M M' t fn arg :
  mem_step M M' → runnable km M t fn arg → runnable km M' t fn arg.
Proof.
  intros Hs (f & Hf & Hst). exists f. split; [by apply (heap_frame_step km M)|].
  by apply (first_stack_step km M M' t).
Qed.

Lemma first_free km g n r : heap_at km g n → 0 ≤ r ≤ n → bit g (vbm km) r = false → r = n.
Proof.
  intros Hh Hr Hb. destruct (decide (r = n)); [done|].
  rewrite (ha_taken _ _ _ Hh) in Hb by lia. done.
Qed.

Lemma thread_start_next s cur qs ts g n nm prio fn arg :
  thread_inv s cur qs ts g → heap_at (t_pools s) g n →
  n + 1 ≤ nbits (vbm (t_pools s)) → n + 1 ≤ nbits (kbm (t_pools s)) → next_pid s < 65535 →
  (length (bytes_of nm) < 24)%nat → word fn → word arg → word kernel_thread_ptr →
  ∃ s' g', truns s [ThreadStart nm prio fn arg] s'
    ∧ created s cur qs ts (heap_addr n) (thread_task (heap_addr n) (next_pid s + 1) nm prio)
        fn arg s' g'
    ∧ heap_at (t_pools s) g' (n + 1).
Proof.
  intros Hi Hh Hv Hk Hp Hnm Hfn Harg Hkt. pose proof (ha_pos _ _ _ Hh).
  destruct (thread_start_holds s cur qs ts g n nm prio fn arg)
    as (r & s' & M1 & g' & Hrun & Hr & _ & Hb & Ha & Hcr); auto; [lia| | |].
  { apply (ha_free _ _ _ Hh). lia. }
  { rewrite (ha_count _ _ _ Hh). lia. }
  apply (first_free _ g n) in Hb as ->; [|done|lia]. exists s', g'. split_and!; auto. split.
  - lia.
  - intros j Hj. rewrite (al_vbits _ _ _ _ _ _ _ Ha) by lia. case_decide; [done|].
    apply (ha_taken _ _ _ Hh). lia.
  - intros j Hj. rewrite (al_vbits _ _ _ _ _ _ _ Ha), decide_False by lia.
    apply (ha_free _ _ _ Hh). lia.
  - pose proof (al_count _ _ _ _ _ _ _ Ha) as Hc. rewrite (ha_count _ _ _ Hh) in Hc. lia.
  - rewrite (free_count_same g g'); [apply Hh|]. apply (al_ubits _ _ _ _ _ _ _ Ha).
Qed.

Lemma process_execute_next s cur qs ts g n file nm :
  thread_inv s cur qs ts g → heap_at (t_pools s) g n →
  n + 25 ≤ nbits (vbm (t_pools s)) → n + 25 ≤ nbits (kbm (t_pools s)) → next_pid s < 65535 →
  (length (bytes_of nm) < 24)%nat → word file → word start_process_ptr → word kernel_thread_ptr →
  ∃ s' g', truns s [ProcessExecute file nm] s'
    ∧ created s cur qs ts (heap_addr n)
        (process_task (heap_addr n) (next_pid s + 1) nm (n + 1) (n + 24)) start_process_ptr file s' g'
    ∧ (∃ f, process_home (t_pools s) (k_mach (t_ker s')) (heap_addr n) f (n + 1) (n + 24))
    ∧ heap_at (t_pools s) g' (n + 25).
Proof.
  intros Hi Hh Hv Hk Hp Hnm Hfile Hsp Hkt. pose proof (ha_pos _ _ _ Hh).
  destruct (process_execute_holds s cur qs ts g n file nm)
    as (r & rb & rd & s' & M1 & g1 & g' & Hrun & Hr & _ & Hb & Ha & Hrb & Hrd & Hwb & Hbd & Hap & Hcr & f & Hpm);
    auto.
  { intros j Hj. apply (ha_free _ _ _ Hh). lia. }
  { rewrite (ha_count _ _ _ Hh). lia. }
  apply (first_free _ g n) in Hb as ->; [|done|lia].
  assert (Hg1 : ∀ j, 0 ≤ j < n + 1 → bit g1 (vbm (t_pools s)) j = true).
  { intros j Hj. rewrite (al_vbits _ _ _ _ _ _ _ Ha) by lia. case_decide; [done|].
    apply (ha_taken _ _ _ Hh). lia. }
  assert (rb = n + 1) as ->.
  { destruct (decide (rb < n + 1)); [|lia]. specialize (Hwb rb ltac:(lia)).
    by rewrite Hg1 in Hwb by lia. }
  assert (rd = n + 24) as ->.
  { destruct (decide (rd < n + 1)); [|lia]. by rewrite Hg1 in Hbd by lia. }
  exists s', g'. split_and!; [done|done|exists f; apply Hpm|]. pose proof (pc_bits _ _ _ _ _ _ _ _ _ _ Hpm) as Hbits.
  split.
  - lia.
  - intros j Hj. rewrite Hbits by lia. case_decide; [done|]. apply Hg1. lia.
  - intros j Hj. rewrite Hbits, decide_False by lia.
    rewrite (al_vbits _ _ _ _ _ _ _ Ha), decide_False by lia. apply (ha_free _ _ _ Hh). lia.
  - pose proof (al_count _ _ _ _ _ _ _ Ha) as Hc. pose proof (pc_count _ _ _ _ _ _ _ _ _ _ Hpm) as Hc'.
    rewrite (ha_count _ _ _ Hh) in Hc. lia.
  - rewrite (pc_user _ _ _ _ _ _ _ _ _ _ Hpm), (free_count_same g g1); [apply Hh|].
    apply (al_ubits _ _ _ _ _ _ _ Ha).
Qed.
End loaded.
