(* ===== verification/BootProps.v ===== *)
(** The kernel's boot as one theorem, thread creation, and runs on a concrete
    machine. *)
From S2P Require Import Prelude ByteMem CString Bitmap Paging Memory MemInit MemProps Interrupt.
From S2P Require Import DList Sched SchedProps Sync Uncontended Tss Timer Process Spaces Thread.
From S2P Require Import ThreadProps ThreadInit UserMem Ioqueue Keyboard Screen Console Print Boot.

(** A thread whose first dispatch enters [kernel_thread_ptr(fn, arg)] with cleared
    registers. *)
Definition starts `{ThreadSyms} (M : machine) (t fn arg : Z) : Prop :=
  switch_pop M (t + 3664) = Ok (SwitchFrame 0 0 0 0 kernel_thread_ptr, t + 3684)
  ∧ kernel_thread_args M (t + 3684) = Ok (fn, arg).

(** A directory that maps nothing below the kernel. *)
Definition no_user_half (M : machine) (d : Z) : Prop :=
  ∀ va, 0 ≤ va < KBASE → translate (Machine (pm M) (dir_of M d)) va = None.

Section boot.
Context `{Symbols, ThreadSyms} (ws : list Z).

Lemma runnable_starts km M t fn arg : kspace M → runnable km M t fn arg → starts M t fn arg.
Proof. intros Hk (f & Hf & Hs). by apply (first_stack_entry km M t f). Qed.

Lemma empty_dir_none M d :
  (∀ i, 0 ≤ i < 768 → rd32 (pm M) (frame (dir_of M d) + 4 * i) = 0) → no_user_half M d.
Proof.
  intros He va Hva. unfold translate, pde_at, pde_addr. simpl.
  by rewrite He by (unfold KBASE in *; zdm).
Qed.

Lemma added_ready qs t rl al :
  thread_ready_list ≠ thread_all_list →
  added qs t rl al !! thread_ready_list = Some (rl ++ [general_tag t]).
Proof. intros. unfold added. by rewrite lookup_insert_ne, lookup_insert_eq. Qed.

(** What a sequence of creations leaves: [ts] and their ready tags, tasks,
    first stacks.  The lists in [ws] stay empty. *)
Record population (S0 s : tstate) (cur : Z) (rs : list Z) (ts : list Z) (n : Z) (jobs : list (Z * Z * Z))
    : Prop := {
  po_inv : ∃ qs g, thread_inv s cur qs ts g ∧ heap_at (t_pools S0) g n
    ∧ qs !! thread_ready_list = Some (general_tag <$> rs) ∧ (∀ w, w ∈ ws → qs !! w = Some []);
  po_wait w : w ∈ ws → w ≠ thread_ready_list ∧ w ≠ thread_all_list;
  po_locks : k_locks (t_ker s) = k_locks (t_ker S0) ∧ k_semas (t_ker s) = k_semas (t_ker S0);
  po_step : mem_step (k_mach (t_ker S0)) (k_mach (t_ker s));
  po_pools : t_pools s = t_pools S0;
  po_pid : next_pid s = next_pid S0 + Z.of_nat (length rs);
  po_esp : k_esp (t_ker s) = k_esp (t_ker S0);
  po_eflags : k_eflags (t_ker s) = k_eflags (t_ker S0);
  po_jobs t fn arg : (t, fn, arg) ∈ jobs → runnable (t_pools S0) (k_mach (t_ker s)) t fn arg;
}.

Lemma population_add S0 s cur rs ts n jobs qs g t T fn arg s' g' k :
  population S0 s cur rs ts n jobs →
  thread_inv s cur qs ts g → qs !! thread_ready_list = Some (general_tag <$> rs) → (∀ w, w ∈ ws → qs !! w = Some []) →
  created s cur qs ts t T fn arg s' g' → heap_at (t_pools S0) g' k →
  population S0 s' cur (rs ++ [t]) (ts ++ [t]) k (jobs ++ [(t, fn, arg)]).
Proof.
  intros [_ Hw Hlo Hst Hpo Hpi Hes Hef Hj] Hi Hr He Hcr Hh'.
  pose proof (ti_sched _ _ _ _ _ Hi) as [Hcore _]. split.
  - eexists _, g'. split_and!; [by apply (cr_inv _ _ _ _ _ _ _ _ _ _ Hcr)|done| |].
    + rewrite added_ready by apply Hcore. by rewrite fmap_app.
    + intros w Hin. destruct (Hw w Hin). unfold added. rewrite !lookup_insert_ne by done. by apply He.
  - done.
  - destruct (cr_locks _ _ _ _ _ _ _ _ _ _ Hcr), Hlo. split; congruence.
  - etrans; [exact Hst|apply Hcr].
  - by rewrite (cr_pools _ _ _ _ _ _ _ _ _ _ Hcr).
  - rewrite (cr_pid _ _ _ _ _ _ _ _ _ _ Hcr), Hpi, length_app. simpl. lia.
  - by rewrite (cr_esp _ _ _ _ _ _ _ _ _ _ Hcr).
  - by rewrite (cr_eflags _ _ _ _ _ _ _ _ _ _ Hcr).
  - intros u fu au. rewrite elem_of_app, list_elem_of_singleton. intros [Hin|[= -> -> ->]].
    + apply (runnable_step _ (k_mach (t_ker s))); [apply Hcr|by apply Hj].
    + rewrite <- Hpo. apply (cr_stack _ _ _ _ _ _ _ _ _ _ Hcr).
Qed.

(** One more kernel thread, one more process. *)
Lemma population_start S0 s cur rs ts n jobs nm prio fn arg :
  population S0 s cur rs ts n jobs →
  n + 1 ≤ nbits (vbm (t_pools S0)) → n + 1 ≤ nbits (kbm (t_pools S0)) → next_pid s < 65535 →
  (length (bytes_of nm) < 24)%nat → word fn → word arg → word kernel_thread_ptr →
  ∃ s', let t := heap_addr n in
    truns s [ThreadStart nm prio fn arg] s'
    ∧ population S0 s' cur (rs ++ [t]) (ts ++ [t]) (n + 1) (jobs ++ [(t, fn, arg)])
    ∧ k_tasks (t_ker s') = <[t := thread_task t (next_pid s + 1) nm prio]> (k_tasks (t_ker s))
    ∧ mem_step (k_mach (t_ker s)) (k_mach (t_ker s')).
Proof.
  intros Hp Hv Hk Hpid Hnm Hfn Harg Hkt. destruct (po_inv _ _ _ _ _ _ _ Hp) as (qs & g & Hi & Hh & Hr & Hwe).
  pose proof (po_pools _ _ _ _ _ _ _ Hp) as Epo. rewrite <- Epo in Hh, Hv, Hk.
  destruct (thread_start_next s cur qs ts g n nm prio fn arg) as (s' & g' & Hrun & Hcr & Hh'); auto.
  rewrite Epo in Hh'. exists s'. split_and!; [done| |apply Hcr|apply Hcr].
  by eapply population_add.
Qed.

Lemma population_execute S0 s cur rs ts n jobs nm file :
  population S0 s cur rs ts n jobs →
  n + 25 ≤ nbits (vbm (t_pools S0)) → n + 25 ≤ nbits (kbm (t_pools S0)) → next_pid s < 65535 →
  (length (bytes_of nm) < 24)%nat → word file → word start_process_ptr → word kernel_thread_ptr →
  ∃ s', let t := heap_addr n in
    truns s [ProcessExecute file nm] s'
    ∧ population S0 s' cur (rs ++ [t]) (ts ++ [t]) (n + 25) (jobs ++ [(t, start_process_ptr, file)])
    ∧ k_tasks (t_ker s') = <[t := process_task t (next_pid s + 1) nm (n + 1) (n + 24)]> (k_tasks (t_ker s))
    ∧ mem_step (k_mach (t_ker s)) (k_mach (t_ker s'))
    ∧ ∃ f, process_home (t_pools S0) (k_mach (t_ker s')) t f (n + 1) (n + 24).
Proof.
  intros Hp Hv Hk Hpid Hnm Hfile Hsp Hkt. destruct (po_inv _ _ _ _ _ _ _ Hp) as (qs & g & Hi & Hh & Hr & Hwe).
  pose proof (po_pools _ _ _ _ _ _ _ Hp) as Epo. rewrite <- Epo in Hh, Hv, Hk.
  destruct (process_execute_next s cur qs ts g n file nm) as (s' & g' & Hrun & Hcr & He & Hh'); auto.
  rewrite Epo in Hh', He. exists s'. split_and!; [done| |apply Hcr|apply Hcr|done].
  by eapply population_add.
Qed.
End boot.

(** The four creations of [main]. *)
Section creations.
Context `{Symbols, ThreadSyms, PoolLocks, ConSyms, BootSyms}.

Lemma main_creates ws S0 :
  population ws S0 S0 MAIN [] [MAIN] 0 [] → next_pid S0 ≤ 65531 →
  let p := next_pid S0 in
  52 ≤ nbits (kbm (t_pools S0)) → nbits (vbm (t_pools S0)) = nbits (kbm (t_pools S0)) →
  word k_thread_a_ptr → word k_thread_b_ptr → word u_prog_a_ptr → word u_prog_b_ptr → word str_a → word str_b →
  word kernel_thread_ptr → word start_process_ptr →
  let A := heap_addr 0 in let B := heap_addr 1 in
  let PA := heap_addr 2 in let PB := heap_addr 27 in
  ∃ s2 s3 s4 s5,
    truns S0 [ThreadStart "consumer_a" 8 k_thread_a_ptr str_a] s2
    ∧ truns s2 [ThreadStart "consumer_b" 31 k_thread_b_ptr str_b] s3
    ∧ truns s3 [ProcessExecute u_prog_a_ptr "user_prog_a"] s4
    ∧ truns s4 [ProcessExecute u_prog_b_ptr "user_prog_b"] s5
    ∧ population ws S0 s5 MAIN [A; B; PA; PB] [MAIN; A; B; PA; PB] 52
        [(A, k_thread_a_ptr, str_a); (B, k_thread_b_ptr, str_b);
         (PA, start_process_ptr, u_prog_a_ptr); (PB, start_process_ptr, u_prog_b_ptr)]
    ∧ k_tasks (t_ker s5) = <[PB := process_task PB (p + 4) "user_prog_b" 28 51]>
        (<[PA := process_task PA (p + 3) "user_prog_a" 3 26]>
          (<[B := thread_task B (p + 2) "consumer_b" 31]>
            (<[A := thread_task A (p + 1) "consumer_a" 8]> (k_tasks (t_ker S0)))))
    ∧ (∃ f, process_home (t_pools S0) (k_mach (t_ker s5)) PA f 3 26)
    ∧ (∃ f, process_home (t_pools S0) (k_mach (t_ker s5)) PB f 28 51).
Proof.
  intros Hp1 Hpid p Hk Hv ? ? ? ? ? ? ? ? A B PA PB.
  destruct (population_start ws S0 S0 MAIN _ _ _ _ "consumer_a" 8 k_thread_a_ptr str_a Hp1)
    as (s2 & R2 & Hp2 & Tk2 & St2); auto; [lia..|by vm_compute; lia|].
  pose proof (po_pid _ _ _ _ _ _ _ _ Hp2) as Pd2. simpl in Pd2.
  destruct (population_start ws S0 s2 MAIN _ _ _ _ "consumer_b" 31 k_thread_b_ptr str_b Hp2)
    as (s3 & R3 & Hp3 & Tk3 & St3); auto; [lia..|by vm_compute; lia|].
  pose proof (po_pid _ _ _ _ _ _ _ _ Hp3) as Pd3. simpl in Pd3.
  destruct (population_execute ws S0 s3 MAIN _ _ _ _ "user_prog_a" u_prog_a_ptr Hp3)
    as (s4 & R4 & Hp4 & Tk4 & St4 & fa & D4); auto; [lia..|by vm_compute; lia|].
  pose proof (po_pid _ _ _ _ _ _ _ _ Hp4) as Pd4. simpl in Pd4.
  destruct (population_execute ws S0 s4 MAIN _ _ _ _ "user_prog_b" u_prog_b_ptr Hp4)
    as (s5 & R5 & Hp5 & Tk5 & St5 & D5); auto; [lia..|by vm_compute; lia|].
  exists s2, s3, s4, s5. split_and!; [done..|exact Hp5| | |exact D5].
  - rewrite Tk5, Tk4, Tk3, Tk2, Pd2, Pd3, Pd4, <- !Z.add_assoc. done.
  - exists fa. by apply (process_home_step _ (k_mach (t_ker s4))).
Qed.

(** One call of [main] that is a thread's. *)
Lemma bruns_call S f t' r S' :
  truns (s_threads S) [f] t' → bruns (with_threads S t') r S' → bruns S (OfThread f :: r) S'.
Proof.
  intros Ht Hr. eapply (runs_app _ _ _ [OfThread f]); [|exact Hr].
  replace S with (with_threads S (s_threads S)) at 1 by by destruct S.
  by apply (bruns_thread S _ [f]).
Qed.

Lemma layout_room all_mem :
  0x270000 ≤ usable_mem all_mem →
  let km := pool_layout all_mem in
  53 ≤ nbits (kbm km) ∧ nbits (vbm km) = nbits (kbm km) ∧ 0 < nbits (ubm km).
Proof.
  intros Hm. pose proof (usable_mem_range all_mem). rewrite pool_layout_usable.
  set (mem := usable_mem all_mem) in *. clearbody mem. rewrite pool_layout_eq by lia. cbv zeta.
  rewrite (u16_small ((mem - 0x200000) / 4096)) by zdm. unfold nbits. simpl. zdm.
Qed.

Lemma thread_inv_eflags s cur qs ts g fl :
  thread_inv s cur qs ts g → thread_inv (set_ker s (set_eflags (t_ker s) fl)) cur qs ts g.
Proof.
  intros Hi. split; simpl; try (by apply Hi); [|apply (ti_main _ _ _ _ _ Hi)].
  apply (sched_inv_view (t_ker s)); try done. apply Hi.
Qed.
End creations.

Section main.
Context `{Symbols, ThreadSyms, PoolLocks, ConSyms, BootSyms}.

Lemma console_apart S all_mem :
  loaded S all_mem → lock_list console_lock ≠ thread_ready_list ∧ lock_list console_lock ≠ thread_all_list.
Proof.
  intros Hl. destruct (static_cons _ _ _ _ (ld_static _ _ Hl)) as [Hs1 _].
  destruct (static_cons _ _ _ _ Hs1) as [Hs2 _]. destruct (static_cons _ _ _ _ Hs2) as [Hs3 Ha].
  destruct (static_cons _ _ _ _ Hs3) as [_ Hr].
  specialize (Ha (lock_list console_lock) ltac:(do 2 right; left)).
  specialize (Hr (lock_list console_lock) ltac:(right; left)). unfold apart in *. lia.
Qed.

(** What the kernel prints before its threads run. *)
Definition boot_text (km : kmem) : list piece := Line "hello kernel..." :: init_text km.

(** The five threads, when [p] is what [next_pid] held before. *)
Definition boot_tasks (p : Z) : gmap Z task_struct :=
  <[heap_addr 27 := process_task (heap_addr 27) (p + 5) "user_prog_b" 28 51]>
    (<[heap_addr 2 := process_task (heap_addr 2) (p + 4) "user_prog_a" 3 26]>
      (<[heap_addr 1 := thread_task (heap_addr 1) (p + 3) "consumer_b" 31]>
        (<[heap_addr 0 := thread_task (heap_addr 0) (p + 2) "consumer_a" 8]> {[ MAIN := main_task MAIN (p + 1) ]}))).

(** What [main] leaves. *)
Record booted (S S' : system) (qs : gmap Z (list Z)) (g : gmap Z Z) : Prop := {
  bt_inv : thread_inv (s_threads S') MAIN qs [MAIN; heap_addr 0; heap_addr 1; heap_addr 2; heap_addr 27] g;
  bt_ready : qs !! thread_ready_list
    = Some (general_tag <$> [heap_addr 0; heap_addr 1; heap_addr 2; heap_addr 27]);
  bt_tasks : k_tasks (s_ker S') = boot_tasks (next_pid (s_threads S));
  bt_if : intr_get_status (k_eflags (s_ker S')) = INTR_ON;
  bt_jobs t fn arg :
    (t, fn, arg) ∈ [(heap_addr 0, k_thread_a_ptr, str_a); (heap_addr 1, k_thread_b_ptr, str_b);
                    (heap_addr 2, start_process_ptr, u_prog_a_ptr); (heap_addr 27, start_process_ptr, u_prog_b_ptr)] →
    runnable (t_pools (s_threads S')) (k_mach (s_ker S')) t fn arg;
  bt_dirs d : d = heap_addr 26 ∨ d = heap_addr 51 → no_user_half (k_mach (s_ker S')) d;
  bt_tables : s_tables S' = boot_tables;
  bt_locks p : p ∈ [console_lock; user_pool_lock] → k_locks (s_ker S') !! p = Some (Lock NULL 0)
    ∧ k_semas (s_ker S') !! semaphore p = Some 1 ∧ qs !! lock_list p = Some [];
  bt_home : ∃ f, process_home (t_pools (s_threads S')) (k_mach (s_ker S')) (heap_addr 2) f 3 26;
  bt_free : (0 < free_count g (ubm (t_pools (s_threads S'))))%nat
    ∧ (0 < free_count g (kbm (t_pools (s_threads S'))))%nat;
  bt_step : mem_step (k_mach (s_ker S)) (k_mach (s_ker S'));
  bt_idtr : s_idtr S' = idt_operand idt_addr;
  bt_screen : screen_adds (s_screen S) (s_screen S') (boot_text (t_pools (s_threads S')));
}.

Lemma main_runs S all_mem :
  loaded S all_mem →
  Forall word [k_thread_a_ptr; k_thread_b_ptr; u_prog_a_ptr; u_prog_b_ptr; str_a; str_b; kernel_thread_ptr; start_process_ptr] →
  ∃ S' qs g, bruns S main S' ∧ booted S S' qs g.
Proof.
  intros Hl Hw.
  rewrite !Forall_cons in Hw. destruct Hw as (Ha & Hb & Hua & Hub & Hsa & Hsb & Hkt & Hsp & _).
  destruct (say_adds S (s_screen S) [Line "hello kernel..."] (ld_screen _ _ Hl) eq_refl) as (V0 & E0 & A0).
  set (S0 := with_screen S V0). assert (Hl0 : loaded S0 all_mem) by (destruct Hl; split; auto; apply A0).
  destruct (init_all_holds S0 all_mem Hl0) as (S1 & qs1 & g1 & Hrun1 & Hin).
  destruct (layout_room all_mem (ld_range _ _ Hl)) as (Hk & Hv & Hu).
  assert (Hp1 : population [lock_list console_lock; lock_list user_pool_lock] (s_threads S1) (s_threads S1) MAIN [] [MAIN] 0 []).
  { split; try done; [| |simpl; lia|by intros ? ? ? ?%not_elem_of_nil].
    - exists qs1, g1. rewrite (in_pools _ _ _ _ _ Hin). split_and!; [apply Hin| |apply Hin|].
      + split; [done|intros; lia|rewrite Z.sub_0_r; apply Hin| |].
        * rewrite Z.sub_0_r. apply free_count_all; [lia|apply Hin].
        * rewrite (free_count_all g1); [lia..|apply Hin].
      + intros w. rewrite !elem_of_cons, elem_of_nil. intros [->|[->|[]]]; apply Hin;
          rewrite !elem_of_cons; auto.
    - destruct (static_apart S all_mem Hl) as (? & ? & _). intros w. rewrite !elem_of_cons, elem_of_nil.
      intros [->|[->|[]]]; [exact (console_apart S all_mem Hl)|done]. }
  rewrite <- (in_pools _ _ _ _ _ Hin) in Hk, Hv, Hu. pose proof (in_pid _ _ _ _ _ Hin) as Hpid.
  destruct (main_creates _ (s_threads S1) Hp1) as (s2 & s3 & s4 & s5 & R2 & R3 & R4 & R5 & Hp5 & Htk & (fa & Ha') & (fb & Hb'));
    auto; [rewrite Hpid; pose proof (ld_pid _ _ Hl0); lia|lia|]. set (S5 := with_threads S1 s5).
  set (S6 := with_kernel S5 (set_eflags (s_ker S5) (intr_enable (k_eflags (s_ker S5))).2)).
  destruct (po_inv _ _ _ _ _ _ _ _ Hp5) as (qs & g & Hi5 & Hh5 & Hr5 & Hw5).
  exists S6, qs, g. split.
  { unfold main. eapply (runs_cons _ _ _ _ _ S0); [|done|].
    { simpl exec_boot. replace (with_screen S (s_screen S)) with S in E0 by by destruct S. rewrite E0. reflexivity. }
    simpl app. eapply (runs_app _ _ _ [InitAll]); [exact Hrun1|].
    do 4 (eapply bruns_call; [eassumption|]). eapply runs_one; [reflexivity|done]. }
  split.
  - apply thread_inv_eflags. exact Hi5.
  - exact Hr5.
  - change (k_tasks (t_ker s5) = boot_tasks (next_pid (s_threads S0))). unfold boot_tasks.
    pose proof (in_tasks _ _ _ _ _ Hin) as Et. unfold s_ker in Et. rewrite Htk, Hpid, Et, <- !Z.add_assoc. done.
  - change (intr_get_status (intr_enable (k_eflags (t_ker s5))).2 = INTR_ON).
    exact (intr_set_status_get INTR_ON _).
  - change (t_pools (s_threads S6)) with (t_pools s5). rewrite (po_pools _ _ _ _ _ _ _ _ Hp5).
    exact (po_jobs _ _ _ _ _ _ _ _ Hp5).
  - intros d [->| ->]; apply empty_dir_none; [apply Ha'|apply Hb'].
  - apply (in_tables _ _ _ _ _ Hin).
  - destruct (po_locks _ _ _ _ _ _ _ _ Hp5) as [El Es]. intros p Hpin.
    destruct (in_locks _ _ _ _ _ Hin p Hpin) as (Hlk & Hse & _).
    change (k_locks (t_ker s5) !! p = Some (Lock NULL 0)
      ∧ k_semas (t_ker s5) !! semaphore p = Some 1 ∧ qs !! lock_list p = Some []).
    rewrite El, Es. split_and!; [done|done|]. apply Hw5. revert Hpin.
    rewrite !elem_of_cons, elem_of_nil. intros [->|[->|[]]]; auto.
  - exists fa. change (t_pools (s_threads S6)) with (t_pools s5). by rewrite (po_pools _ _ _ _ _ _ _ _ Hp5).
  - change (t_pools (s_threads S6)) with (t_pools s5). rewrite (po_pools _ _ _ _ _ _ _ _ Hp5).
    split; [apply (ha_user _ _ _ Hh5)|]. rewrite (ha_count _ _ _ Hh5). lia.
  - etrans; [apply (in_step _ _ _ _ _ Hin)|apply (po_step _ _ _ _ _ _ _ _ Hp5)].
  - apply (in_idtr _ _ _ _ _ Hin).
  - change (t_pools (s_threads S6)) with (t_pools s5). rewrite (po_pools _ _ _ _ _ _ _ _ Hp5).
    rewrite (in_pools _ _ _ _ _ Hin). apply (screen_adds_app _ V0 _ [Line "hello kernel..."]); [exact A0|].
    exact (in_screen _ _ _ _ _ Hin).
Qed.

(** * Properties *)

(** C8: the boot, end to end.  The state is one the loader leaves when the
    memory of the page tables it does not clear holds no present entry
    ([LoaderProps.no_stale]); the number at 0xb00, whatever the loader
    computed, is one of which the code's 16-bit page count leaves 448 KB or
    more beyond the first 2 MB; [next_pid], which nothing clears, holds at most 65530; and the
    screen is a text screen.  Then [main] returns from every call and reaches
    its loop with interrupts on.  Five threads exist with the five pids after
    what [next_pid] held: the first one, running, and two kernel threads and two processes, ready in this order at
    the first pages of the heap.  Each of the four will enter [kernel_thread]
    with its function and argument, the processes [start_process] with their
    program, in address spaces whose user half is empty; the timer and the
    keyboard have their handlers, the invariants of threads, scheduler and
    page allocator hold, and the screen shows the messages of the functions
    called, with the addresses of the memory pools, behind what it showed. *)
Theorem main_boots S all_mem :
  loaded S all_mem →
  Forall word [k_thread_a_ptr; k_thread_b_ptr; u_prog_a_ptr; u_prog_b_ptr; str_a; str_b; kernel_thread_ptr; start_process_ptr] →
  let A := heap_addr 0 in let B := heap_addr 1 in
  let PA := heap_addr 2 in let PB := heap_addr 27 in
  ∃ S' qs g, bruns S main S'
    ∧ thread_inv (s_threads S') MAIN qs [MAIN; A; B; PA; PB] g
    ∧ qs !! thread_ready_list = Some (general_tag <$> [A; B; PA; PB])
    ∧ k_tasks (s_ker S') = boot_tasks (next_pid (s_threads S))
    ∧ intr_get_status (k_eflags (s_ker S')) = INTR_ON
    ∧ (let M := k_mach (s_ker S') in
       starts M A k_thread_a_ptr str_a ∧ starts M B k_thread_b_ptr str_b
       ∧ starts M PA start_process_ptr u_prog_a_ptr ∧ starts M PB start_process_ptr u_prog_b_ptr
       ∧ no_user_half M (heap_addr 26) ∧ no_user_half M (heap_addr 51))
    ∧ s_tables S' = boot_tables
    ∧ ∀ t, shows (s_screen S) t →
        shows (s_screen S') (t_puts t (text_of (boot_text (t_pools (s_threads S'))))).
Proof.
  intros Hl Hw A B PA PB. destruct (main_runs S all_mem Hl Hw) as (S' & qs & g & Hrun & Hb).
  pose proof (mi_space _ _ _ (ti_mem _ _ _ _ _ (bt_inv _ _ _ _ Hb))) as Hks.
  pose proof (λ t fn arg Hj, runnable_starts _ _ t fn arg Hks (bt_jobs _ _ _ _ Hb t fn arg Hj)) as Hj.
  exists S', qs, g. split; [exact Hrun|]. cbv zeta.
  split_and!; try apply Hb; try apply Hj; rewrite ?elem_of_cons; auto.
Qed.
End main.

(** * A concrete boot: 32 MB *)

Module BootRuns.
#[local] Instance syms : Symbols := {| thread_ready_list := 0xc0006000; thread_all_list := 0xc0006010 |}.
#[local] Instance tsyms : ThreadSyms :=
  {| pid_lock := 0xc0006020; kernel_thread_ptr := 0xc0001850; start_process_ptr := 0xc0003000 |}.
#[local] Instance plocks : PoolLocks :=
  {| kernel_pool_lock := 0xc0006050; user_pool_lock := 0xc0006090 |}.
#[local] Instance csyms : ConSyms :=
  {| console_lock := 0xc00060c0; v_a := 0xc0004010; v_b := 0xc0004020; blank_str := 0xc0004030;
     rodata := write_bytes ∅ 0xc0004010
       ((bytes_of "v_a:0x" ++ replicate 10 0) ++ (bytes_of "v_b:0x" ++ replicate 10 0) ++ bytes_of " " ++ [0]) |}.
#[local] Instance bsyms : BootSyms := {|
  kbd_buf := 0xc0006100; idt_addr := 0xc0005680; tss_addr := 0xc0006600;
  intr_entry_table := λ i, 0xc0001000 + 32 * i; syscall_handler := 0xc0001700;
  timer_handler := 0xc0002e50; keyboard_handler := 0xc0002f00;
  k_thread_a_ptr := 0xc0001580; k_thread_b_ptr := 0xc00015d0; u_prog_a_ptr := 0xc0001620; u_prog_b_ptr := 0xc0001640;
  str_a := 0xc0004000; str_b := 0xc0004005;
|}.

Definition boot_memory : machine := Machine (wr32 (pm boot_machine) 0xb00 0x2000000) (cr3 boot_machine).

Definition boot_nodes : gmap Z list_elem :=
  list_to_map ((λ p, (p, ListElem 0 0)) <$> (static_lists ++ (tail_of <$> static_lists))).

Definition boot_kernel : kernel :=
  Kernel 0xc009efe0 2 boot_nodes ∅ ∅ ∅ boot_memory 0 0 [].

Definition boot_system : system :=
  System (TState boot_kernel (pool_layout 0) 0 0) [] (IntrTables [] []) [] 0 0 0
    (Ioqueue 0 0 (replicate 1024 0) 0 0) ScreenRuns.clear_screen.

Lemma fresh_same_high M M' : fresh_machine M → same_high M M' → fresh_machine M'.
Proof.
  intros Hf Hh. split.
  - apply (kspace_same_high M); [apply Hf|done].
  - rewrite (proj1 Hh). apply Hf.
  - intros i Hi. rewrite (kpte_same_high M M') by (done || lia). by apply Hf.
  - intros i Hi. rewrite (dir_entry_same_tables M M'); [by apply Hf| |lia].
    by apply same_high_tables; [apply Hf|].
  - rewrite (dir_entry_same_tables M M'); [apply Hf| |lia]. by apply same_high_tables; [apply Hf|].
Qed.

Lemma fresh_poke M v : fresh_machine M → fresh_machine (Machine (wr32 (pm M) 0xb00 v) (cr3 M)).
Proof.
  intros Hf. apply (fresh_same_high M); [done|]. split; [done|].
  intros x Hx. apply rd8_wr32_other. lia.
Qed.

Lemma boot_loaded : loaded boot_system 0x2000000.
Proof.
  split.
  - exact (fresh_poke boot_machine 0x2000000 boot_fresh).
  - vm_compute. reflexivity.
  - vm_compute. discriminate.
  - unfold stack_ok, MAIN. change (k_esp (s_ker boot_system)) with 0xc009efe0. lia.
  - reflexivity.
  - change (0 ≤ 0 ≤ 65530). lia.
  - split.
    + intros p Hp. split; [by rewrite lookup_empty|].
      unfold static_lists, later_lists, lock_list, waiters, semaphore in Hp. simpl in Hp.
      rewrite !elem_of_cons, elem_of_nil in Hp. destruct_or? Hp; subst p; try done;
        (split; (split_and!; [unfold addr_ok; simpl; lia|vm_compute; by eexists|intros *; by rewrite lookup_empty])).
    + unfold static_lists, later_lists, lock_list, waiters, semaphore. simpl.
      repeat (constructor; [repeat constructor; unfold apart; lia|]). constructor.
  - intros x [e Hx]. apply elem_of_list_to_map_2 in Hx. apply list_elem_of_fmap in Hx as (p & [= -> _] & Hp).
    unfold static_lists, later_lists, lock_list, waiters, semaphore, tail_of in Hp. simpl in Hp.
    rewrite !elem_of_cons, elem_of_nil in Hp. unfold KBASE, MEM_BITMAP_BASE. lia.
  - unfold KBASE, MEM_BITMAP_BASE, TSS_SIZE. simpl. lia.
  - eexists. exact ScreenRuns.clear_screen_shows.
Qed.

Lemma main_boots_witness :
  ∃ S', bruns boot_system main S' ∧ intr_get_status (k_eflags (s_ker S')) = INTR_ON
    ∧ starts (k_mach (s_ker S')) (heap_addr 2) 0xc0003000 0xc0001620.
Proof.
  destruct (main_boots boot_system 0x2000000 boot_loaded)
    as (S' & qs & g & Hrun & _ & _ & _ & Hif & (_ & _ & HA & _) & _ & _).
  - repeat constructor; cbn; lia.
  - exists S'. split; [exact Hrun|]. split; [exact Hif|exact HA].
Defined.

(** The kernel after [init_all]. *)
Lemma creation_preserves_witness :
  ∃ s t s', truns s [ThreadStart "consumer_a" 8 0xc0001580 0xc0004000] s'
    ∧ k_tasks (t_ker s') = <[t := thread_task t 2 "consumer_a" 8]> {[ MAIN := main_task MAIN 1 ]}.
Proof.
  destruct (init_all_holds boot_system 0x2000000 boot_loaded) as (S1 & qs & g & _ & Hin).
  exists (s_threads S1). pose proof (in_pools _ _ _ _ _ Hin) as Hp. pose proof (in_pid _ _ _ _ _ Hin) as Hpid.
  change (next_pid (s_threads S1) = 1) in Hpid.
  destruct (creation_preserves (s_threads S1) MAIN qs [MAIN] g 0 "consumer_a" 8 0xc0001580 0xc0004000 [])
    as [(t & s' & g' & H1 & _ & _ & H2 & _) _].
  - exact (in_threads _ _ _ _ _ Hin).
  - rewrite Hpid. lia.
  - simpl. lia.
  - repeat constructor; cbn; lia.
  - lia.
  - rewrite Hp. change (0 + 25 ≤ 3840). lia.
  - rewrite Hp. intros k Hk. apply (in_heap _ _ _ _ _ Hin). change (0 ≤ k < 0 + 3840). lia.
  - rewrite Hp, free_count_all; [change (25 ≤ Z.to_nat 3840)%nat; lia|by vm_compute|exact (in_frames _ _ _ _ _ Hin)].
  - exact (in_ready _ _ _ _ _ Hin).
  - exists t, s'. split; [exact H1|]. rewrite H2, Hpid. f_equal. exact (in_tasks _ _ _ _ _ Hin).
Defined.
End BootRuns.
