(* ===== verification/PowerOn.v ===== *)
(** From the boot sector to the kernel's loop: boot/mbr.S, boot/loader.S and
    the boot of the kernel composed. *)
From S2P Require Import Prelude ByteMem CString Ports Bitmap Paging Disk Memory MemInit MemProps Interrupt.
From S2P Require Import DList Sched SchedProps Sync Uncontended Tss Elf MemSize Loader LoaderProps Timer.
From S2P Require Import Process Spaces Thread ThreadProps ThreadInit UserMem Ioqueue Keyboard Console.
From S2P Require Import Print Boot BootProps.

(** * The boot sector *)

(** Function 6 of [int 0x10] writes to the video memory only. *)
Definition clears_screen `{VB : VideoBios} : Prop :=
  ∀ m x, ¬ 0xb8000 ≤ x < 0xc0000 → rd8 (int10 m) x = rd8 m x.

(** The loader's data on the disk: sector 2, behind the jump. *)
Definition loader_on (img : Z → Z) : Prop :=
  take (length loader_data) (drop 3 (sector_bytes img LOADER_START_SECTOR 4)) = loader_data.

(** The bytes the boot sector may change. *)
Definition mbr_area (x : Z) : Prop :=
  0x900 ≤ x < 0x1100 ∨ 0x7bfe ≤ x < 0x7c00 ∨ 0xb8000 ≤ x < 0xc0000.

Section mbr.
Context `{VB : VideoBios} {D : Type} `{!Ports D, !AtaDisk D}.

Lemma mbr_holds (d : D) img m ret :
  clears_screen → no_wait D → idle d img → loader_on img →
  ∃ d' m', mbr d m ret = Ok (d', m', LOADER_BASE_ADDR) ∧ idle d' img
    ∧ has_bytes m' GDT_BASE loader_data ∧ ∀ x, ¬ mbr_area x → rd8 m' x = rd8 m x.
Proof.
  intros Hv Hnw Hi Hl. unfold mbr. cbv zeta. set (m1 := wr16 _ _ _).
  destruct (rd_disk_m_16_holds d img m1 LOADER_START_SECTOR LOADER_BASE_ADDR 4 Hnw Hi)
    as (d' & -> & Hi'); [by vm_compute|lia|by vm_compute|by vm_compute|]. rb.
  set (bs := sector_bytes img LOADER_START_SECTOR 4) in *.
  assert (Hlen : Z.of_nat (length bs) = 2048) by (unfold bs; rewrite length_sector_bytes; lia).
  eexists d', _. split; [reflexivity|]. split_and!; [done| |].
  - intros i v Hv'. unfold loader_on in Hl. rewrite <- Hl in Hv'. apply lookup_take_Some in Hv' as [Hv' _].
    rewrite lookup_drop in Hv'. replace (GDT_BASE + Z.of_nat i) with (LOADER_BASE_ADDR + Z.of_nat (3 + i))
      by (unfold GDT_BASE; lia).
    rewrite (rd8_write_bytes_in _ _ _ _ _ Hv'). apply u8_small. by apply word_bytes_range in Hv'.
  - intros x Hx. unfold mbr_area in Hx. rewrite rd8_write_bytes_other by (unfold LOADER_BASE_ADDR; lia).
    unfold m1. rewrite rd8_wr16_other by lia. rewrite rd8_write_bytes_other; [apply Hv; lia|].
    change (length mbr_text) with 16%nat. lia.
Qed.
End mbr.

Lemma bios_reports_same `{BI : Bios} m m' total :
  (∀ x, 0 ≤ x < 240 → rd8 m' x = rd8 m x) → bios_reports m total → bios_reports m' total.
Proof.
  intros Hs [(l & cont & Hb & Hl & ->)|H]; [|by right]. left. exists l, cont. split_and!; auto; [lia..|].
  symmetry. apply e820_total_same; [lia|done].
Qed.

(** * The kernel's objects *)

(** What the linker and the loader are responsible for besides the machine:
    the stack in the page of [MAIN], no thread yet, a pid counter not about to
    wrap, lists and task state segment inside the kernel's image, and a screen with
    its cursor on it. *)
Record linked `{Symbols, ThreadSyms, PoolLocks, ConSyms, BootSyms} (S : system) : Prop := {
  li_esp : stack_ok MAIN (k_esp (s_ker S));
  li_tasks : k_tasks (s_ker S) = ∅;
  li_pid : 0 ≤ next_pid (s_threads S) ≤ 65530;
  li_static : static (k_nodes (s_ker S)) ∅ static_lists;
  li_nodes x : is_Some (k_nodes (s_ker S) !! x) → KBASE ≤ x < MEM_BITMAP_BASE;
  li_tss : KBASE ≤ tss_addr ∧ tss_addr + TSS_SIZE ≤ MEM_BITMAP_BASE;
  li_screen : text_screen (s_screen S);
}.

Lemma linked_loaded `{Symbols, ThreadSyms, PoolLocks, ConSyms, BootSyms} S total :
  linked S → fresh_machine (k_mach (s_ker S)) → load32 (k_mach (s_ker S)) 0xb00 = Ok total →
  0x270000 ≤ usable_mem total → loaded S total.
Proof. intros []. by split. Qed.

(** * Properties *)

Section power_on.
Context `{VB : VideoBios, BI : Bios, !LoaderSyms} {D : Type} `{!Ports D, !AtaDisk D}.
Context `{Symbols, ThreadSyms, PoolLocks, ConSyms, BootSyms}.

(** C6: from power on to the running kernel.  The boot sector reads the loader
    and jumps to it; the loader stores the number its memory detection
    computes (which by [MemSize.mem_get_e820] is not the size of memory when
    the BIOS answers 0xe820), reads the kernel, switches to protected mode and
    paging, loads the segments and jumps to the kernel; and [main] on the
    machine handed over runs to its loop with interrupts on, its five threads
    in place and the first of them running.  Needed are a disk with loader and
    kernel that is ready for the next sector as soon as one is read (the code
    polls it once per transfer), a BIOS that answers and clears the screen, no
    entry marked present in the memory of the page tables the loader does not
    clear, a computed number of which the kernel uses 448 KB or more beyond the
    first 2 MB, and a
    [next_pid] of at most 65530 in the memory nobody clears. *)
Theorem power_on (d : D) img kimg m r ebp ret total :
  clears_screen → no_wait D → idle d img → loader_on img → kernel_on img kimg →
  elf_file kimg = true → low_segments kimg = true →
  no_stale m → bios_reports m total → 0x270000 ≤ usable_mem total →
  Forall (λ v, 0 ≤ v < 2 ^ 32) [ret_kernel_init; ebp; ret_mem_cpy] →
  ∃ d1 m1 d2 h, mbr d m ret = Ok (d1, m1, LOADER_BASE_ADDR)
    ∧ loader d1 m1 r ebp = Ok (d2, h)
    ∧ h_eip h = KERNEL_ENTRY_POINT ∧ h_esp h = MAIN + PG_SIZE ∧ segments_in (h_mach h) kimg
    ∧ ∀ S, linked S → k_mach (s_ker S) = h_mach h →
        Forall word [k_thread_a_ptr; k_thread_b_ptr; u_prog_a_ptr; u_prog_b_ptr; str_a; str_b;
                     kernel_thread_ptr; start_process_ptr] →
        ∃ S' qs g, bruns S main S'
          ∧ thread_inv (s_threads S') MAIN qs [MAIN; heap_addr 0; heap_addr 1; heap_addr 2; heap_addr 27] g
          ∧ intr_get_status (k_eflags (s_ker S')) = INTR_ON.
Proof.
  intros Hv Hnw Hi Hl Hk Helf Hlow Hz Hb Hsz Hw.
  destruct (mbr_holds d img m ret Hv Hnw Hi Hl) as (d1 & m1 & E1 & Hi1 & Hd1 & Hf1).
  destruct (loader_holds d1 img kimg m1 r ebp total) as (d2 & M & E2 & HM & Hfr & _); auto.
  { apply (bios_reports_same m); [|done]. intros x Hx. apply Hf1. unfold mbr_area. lia. }
  exists d1, m1, d2, (Handover M 0xc009f000 KERNEL_ENTRY_POINT (gdtr_of 0xc0000903)).
  split_and!; [done|done|done|done|apply HM|]. intros S HS EM Hws. simpl in EM.
  assert (Hst : no_stale m1).
  { intros i Hi'. rewrite (rd32_same m m1); [by apply Hz|]. intros x Hx. apply Hf1. unfold mbr_area, KTABLES in *. lia. }
  destruct (main_runs S total) as (S' & qs & g & Hrun & Hb'); [|done|].
  2: { exists S', qs, g. split; [done|]. split; [apply Hb'|apply (bt_if _ _ _ _ Hb')]. }
  apply linked_loaded; [done|rewrite EM; by apply Hfr|rewrite EM; apply HM|done].
Qed.
End power_on.

(** * A machine that starts *)

Module PowerRuns.
Import BootRuns.
#[local] Existing Instances syms tsyms plocks csyms bsyms ElfRuns.syms SizeRuns.bios32.

(** Loader and kernel on the disk. *)
Definition disk_byte (x : Z) : Z :=
  if (1027 <=? x) && (x <? 1792) then byte_at loader_data (x - 1027)
  else if (4608 <=? x) && (x <? 4732) then byte_at ElfRuns.small_kernel (x - 4608)
  else 0.
Definition image (i : Z) : Z := u16 (disk_byte (2 * i) + 2 ^ 8 * disk_byte (2 * i + 1)).
Definition boot_disk : DiskRuns.ata 0 := DiskRuns.Ata image 0 0 0 0 0 0 [].

(** A cleared screen. *)
Definition blanks : list Z := replicate 4000 0x20.
#[local] Instance screen : VideoBios := {| int10 m := write_bytes m 0xb8000 blanks |}.

Lemma length_blanks : length blanks = 4000%nat.
Proof. apply length_replicate. Qed.

Lemma screen_clears : clears_screen.
Proof.
  intros m x Hx. apply (rd8_write_bytes_other m 0xb8000 blanks x). rewrite length_blanks. lia.
Qed.

Lemma boot_disk_idle : idle boot_disk image.
Proof. split; [reflexivity|]. intros i. apply u16_range. Qed.

(** The objects of BootProps's example, on another machine. *)
Definition system_on (M : machine) : system := with_kernel boot_system (set_mach boot_kernel M).

Lemma system_on_linked M : linked (system_on M).
Proof. destruct boot_loaded. by split. Qed.

Lemma loader_on_disk : loader_on image.
Proof. vm_compute. reflexivity. Qed.

Lemma kernel_on_disk : kernel_on image ElfRuns.small_kernel.
Proof.
  unfold kernel_on. change 200 with (1 + 199). rewrite sector_bytes_app, take_app_le; [|..|done|done].
  - vm_compute. reflexivity.
  - apply Nat2Z.inj_le. rewrite length_sector_bytes by lia. vm_compute. discriminate.
Qed.

Lemma bios32_reports : bios_reports ∅ 0x534d4150.
Proof.
  left. eexists SizeRuns.map32, _. split; [exact SizeRuns.bios32_e820|]. split; [simpl; lia|].
  vm_compute. reflexivity.
Qed.

(** The loader with its own data in memory. *)
Definition loader_memory : gmap Z Z := write_bytes ∅ GDT_BASE loader_data.

Lemma loader_memory_data : has_bytes loader_memory GDT_BASE loader_data.
Proof.
  intros i v Hi. unfold loader_memory. rewrite (rd8_write_bytes_in _ _ _ _ _ Hi). apply u8_small.
  assert (Hf : forallb (λ b, (0 <=? b) && (b <? 256)) loader_data = true) by (vm_compute; reflexivity).
  rewrite forallb_forall in Hf. specialize (Hf v). rewrite <- list_elem_of_In in Hf.
  specialize (Hf (list_elem_of_lookup_2 _ _ _ Hi)). lia.
Qed.

Lemma loader_hands_over_witness :
  ∃ d' M, loader boot_disk loader_memory (Regs 0 0 0 0 0 false) 0
      = Ok (d', Handover M 0xc009f000 0xc0001500 (gdtr_of 0xc0000903))
    ∧ load32 M 0xb00 = Ok 0x534d4150 ∧ load8 M 0xc0006560 = Ok 11.
Proof.
  destruct (loader_hands_over boot_disk image ElfRuns.small_kernel loader_memory (Regs 0 0 0 0 0 false) 0
    0x534d4150) as (d' & M & E & _ & _ & Et & Hs & _).
  - exact loader_memory_data.
  - apply (bios_reports_same ∅); [|exact bios32_reports]. intros x Hx. unfold loader_memory.
    apply rd8_write_bytes_other. left. change GDT_BASE with 0x903. lia.
  - exact DiskRuns.ata_no_wait.
  - exact boot_disk_idle.
  - exact kernel_on_disk.
  - vm_compute. reflexivity.
  - vm_compute. reflexivity.
  - rewrite !Forall_cons, Forall_nil. cbn. lia.
  - exists d', M. split; [exact E|]. split; [exact Et|].
    apply (Hs 1%nat (phdr_at ElfRuns.small_kernel 84) ltac:(vm_compute; reflexivity)
      ltac:(vm_compute; reflexivity)) with (k := O) (v := 11); [|reflexivity].
    intros j q Hj Hq. apply lookup_lt_Some in Hq. change (j < 2)%nat in Hq. lia.
Defined.

Lemma power_on_witness :
  ∃ d1 m1 d2 h S', mbr boot_disk ∅ 0x7c9a = Ok (d1, m1, 0x900)
    ∧ loader d1 m1 (Regs 0 0 0 0 0 false) 0 = Ok (d2, h)
    ∧ bruns (system_on (h_mach h)) main S' ∧ intr_get_status (k_eflags (s_ker S')) = INTR_ON.
Proof.
  destruct (power_on boot_disk image ElfRuns.small_kernel ∅ (Regs 0 0 0 0 0 false) 0 0x7c9a 0x534d4150)
    as (d1 & m1 & d2 & h & E1 & E2 & _ & _ & _ & HS).
  - exact screen_clears.
  - exact DiskRuns.ata_no_wait.
  - exact boot_disk_idle.
  - exact loader_on_disk.
  - exact kernel_on_disk.
  - vm_compute. reflexivity.
  - vm_compute. reflexivity.
  - intros i Hi. reflexivity.
  - exact bios32_reports.
  - vm_compute. discriminate.
  - rewrite !Forall_cons, Forall_nil. cbn. lia.
  - destruct (HS (system_on (h_mach h))) as (S' & qs & g & Hrun & _ & Hif).
    + exact (system_on_linked (h_mach h)).
    + reflexivity.
    + repeat constructor; cbn; lia.
    + exists d1, m1, d2, h, S'. split; [exact E1|]. split; [exact E2|]. split; [exact Hrun|exact Hif].
Defined.
End PowerRuns.
