(* ===== verification/Run.v ===== *)
(** The booted system at work: the loop of [main], the two kernel threads and
    the first process of kernel/main.c under the timer, interrupt by
    interrupt.  An interrupt is taken through the descriptor table, which the
    processor reads in the address space it happens to be in. *)
From S2P Require Import Prelude ByteMem CString Bitmap Paging Memory MemInit MemProps Interrupt.
From S2P Require Import DList Sched SchedProps Sync Uncontended Tss Loader Timer Process Spaces Thread.
From S2P Require Import ThreadProps ThreadInit UserMem IntrStack Ioqueue Keyboard Screen Console ConsoleProps.
From S2P Require Import Print Enter Boot BootProps.

(** * Data *)

(** Program points beyond those of the console. *)
Inductive rpoint :=
| OfCon (f : con_point)
| MainLoop                            (* [while(1);] of [main] *)
| SwitchReturn                        (* the end of [switch_to] on a new stack *)
| KThread                             (* [kernel_thread], just entered *)
| CallFunction (function func_arg : Z)  (* ... its call *)
| LoopA                               (* [while(1)] of [k_thread_a] *)
| LoopB
| InProcess (filename : Z).           (* [start_process]: Enter.v goes on from here *)

Record run_state := RunState {
  r_con : con_state;
  r_conts : gmap Z (list rpoint);
  r_ticks : nat;                      (* timer interrupts so far *)
}.

(** * Operations *)

Section run.
Context `{Symbols, ThreadSyms, ConSyms, BootSyms}.

Definition on_ker (s : con_state) (f : kernel → kernel) : con_state := set_con_ker s (f (con_ker s)).

(** [schedule] of Sched.v returns to a caller that drops its two arguments; a
    new thread has no such caller, its stack begins 28 bytes below. *)
Definition switch_return (s : con_state) : res (con_state * list rpoint) :=
  let K := con_ker s in
  '(fr, esp) ← switch_pop (k_mach K) (k_esp K - 28);
  if sf_eip fr =? kernel_thread_ptr then Ok (set_con_ker s (set_esp K esp), [KThread]) else Fault.

(** [kernel_thread] up to the call of its function. *)
Definition kernel_thread (s : con_state) : res (con_state * list rpoint) :=
  let K := con_ker s in
  '(function, func_arg) ← kernel_thread_args (k_mach K) (k_esp K);
  Ok (set_con_ker s (set_eflags K (intr_enable (k_eflags K)).2), [CallFunction function func_arg]).

(** The functions threads are started with; a jump anywhere else is lost. *)
Definition call_function (function func_arg : Z) : res (list rpoint) :=
  if function =? k_thread_a_ptr then Ok [LoopA]
  else if function =? k_thread_b_ptr then Ok [LoopB]
  else if function =? start_process_ptr then Ok [InProcess func_arg]
  else Fault.

(** [None]: the code that follows is not in this file. *)
Definition exec_run (s : con_state) (f : rpoint) : option (res (con_state * list rpoint)) :=
  match f with
  | OfCon f => Some ('(s, fs) ← exec_con s f; Ok (s, map OfCon fs))
  | MainLoop => Some (Ok (s, [MainLoop]))
  | SwitchReturn => Some (switch_return s)
  | KThread => Some (kernel_thread s)
  | CallFunction fn arg => Some (fs ← call_function fn arg; Ok (s, fs))
  | LoopA => Some (Ok (s, map OfCon k_thread_a ++ [LoopA]))
  | LoopB => Some (Ok (s, map OfCon k_thread_b ++ [LoopB]))
  | InProcess _ => None
  end.

Inductive run_step (idtr : Z) : run_state → run_state → Prop :=
(* the running thread executes its next program point *)
| run_exec s cs n f r s' fs :
    cs !! running_thread (con_ker s) = Some (f :: r) → exec_run s f = Some (Ok (s', fs)) →
    run_step idtr (RunState s cs n) (RunState s' (<[running_thread (con_ker s) := fs ++ r]> cs) n)
(* a timer interrupt: the gate is read, IF is cleared, [intr_exit] will restore eflags *)
| run_tick s cs n st gate K' V' : let K := con_ker s in
    intr_get_status (k_eflags K) = INTR_ON → cs !! running_thread K = Some st →
    fetch_gate (k_mach K) idtr 0x20 = Ok gate →
    intr_timer_handler (set_eflags K (cli (k_eflags K))) = Ok K' →
    show_names (con_screen s) K K' = Ok V' →
    run_step idtr (RunState s cs n)
      (RunState (set_screen (set_con_ker s K') V')
         (<[running_thread K := OfCon (ConSync (TimerReturn (k_eflags K))) :: st]> cs) (S n)).

Inductive run_steps (idtr : Z) (c0 : run_state) : run_state → Prop :=
| run_refl : run_steps idtr c0 c0
| run_next c c' : run_steps idtr c0 c → run_step idtr c c' → run_steps idtr c0 c'.

Lemma run_steps_trans idtr c0 c1 c2 : run_steps idtr c0 c1 → run_steps idtr c1 c2 → run_steps idtr c0 c2.
Proof. intros Ha Hb. induction Hb as [|c c' _ IH Hs]; [done|]. by eapply run_next. Qed.

(** The state [main] leaves: itself in its loop, the others with a new stack. *)
Definition run0 (S : system) (a b : Z) : run_state :=
  RunState (ConState (s_ker S) (s_screen S) a b)
    (<[heap_addr 27 := [SwitchReturn]]> (<[heap_addr 2 := [SwitchReturn]]>
      (<[heap_addr 1 := [SwitchReturn]]> (<[heap_addr 0 := [SwitchReturn]]> {[ MAIN := [MainLoop] ]})))) 0.
End run.

(** * Interrupts stay off inside a round *)

Section quiet.
Context `{Symbols, ConSyms}.

Lemma insert_before_eflags m b e m' : list_insert_before m b e = Ok m' → l_eflags m' = l_eflags m.
Proof.
  unfold list_insert_before. pose proof (intr_restore (l_eflags m)) as Hr.
  destruct (intr_disable (l_eflags m)) as [old fl]. intros Hm.
  repeat (apply bind_ok_inv in Hm as (? & _ & Hm)). by injection Hm as <-.
Qed.

Lemma list_remove_eflags m e m' : list_remove m e = Ok m' → l_eflags m' = l_eflags m.
Proof.
  unfold list_remove. pose proof (intr_restore (l_eflags m)) as Hr.
  destruct (intr_disable (l_eflags m)) as [old fl]. intros Hm.
  repeat (apply bind_ok_inv in Hm as (? & _ & Hm)). by injection Hm as <-.
Qed.

Lemma on_append_eflags K l e K' :
  on_lists K (list_append (lists_of K) l e) = Ok K' → k_eflags K' = k_eflags K.
Proof. intros (m & Hm & [= <-])%bind_ok_inv. by apply insert_before_eflags in Hm. Qed.

Lemma on_push_eflags K l e K' :
  on_lists K (list_push (lists_of K) l e) = Ok K' → k_eflags K' = k_eflags K.
Proof.
  intros (m & (h & _ & Hm)%bind_ok_inv & [= <-])%bind_ok_inv. by apply insert_before_eflags in Hm.
Qed.

Lemma list_pop_eflags m l e m' : list_pop m l = Ok (e, m') → l_eflags m' = l_eflags m.
Proof.
  intros (h & _ & (m1 & Hm & [= _ <-])%bind_ok_inv)%bind_ok_inv. by apply list_remove_eflags in Hm.
Qed.

Lemma process_activate_eflags K t K' : process_activate K t = Ok K' → k_eflags K' = k_eflags K.
Proof.
  intros (? & _ & (T & _ & (M & _ & [= <-])%bind_ok_inv)%bind_ok_inv)%bind_ok_inv. by case_match.
Qed.

Lemma switch_to_eflags K a b K' : switch_to K a b = Ok K' → k_eflags K' = k_eflags K.
Proof. by intros (T & _ & (T' & _ & [= <-])%bind_ok_inv)%bind_ok_inv. Qed.

Lemma schedule_eflags K K' : schedule K = Ok K' → k_eflags K' = k_eflags K.
Proof.
  unfold schedule. intros (? & _ & (C & _ & (K1 & Hq & Hr)%bind_ok_inv)%bind_ok_inv)%bind_ok_inv.
  assert (E1 : k_eflags K1 = k_eflags K).
  { case_bool_decide; [|by injection Hq as <-].
    apply bind_ok_inv in Hq as (? & _ & Hq). apply bind_ok_inv in Hq as (? & _ & Hq).
    apply bind_ok_inv in Hq as (K2 & Ha & [= <-]). by apply on_append_eflags in Ha. }
  apply bind_ok_inv in Hr as (? & _ & Hr). apply bind_ok_inv in Hr as (? & _ & Hr).
  apply bind_ok_inv in Hr as ([e m] & Hp & Hr). apply list_pop_eflags in Hp.
  apply bind_ok_inv in Hr as (N & _ & Hr). apply bind_ok_inv in Hr as (K2 & Ha & Hr).
  apply process_activate_eflags in Ha. apply bind_ok_inv in Hr as (K3 & Hs & [= <-]).
  apply switch_to_eflags in Hs. simpl in *. congruence.
Qed.

Lemma thread_block_eflags K st old K' :
  thread_block K st = Ok (old, K') →
  old = intr_get_status (k_eflags K) ∧ intr_get_status (k_eflags K') = INTR_OFF.
Proof.
  unfold thread_block. pose proof (intr_disable_off (k_eflags K)) as Hoff.
  assert (Hold : (intr_disable (k_eflags K)).1 = intr_get_status (k_eflags K))
    by (unfold intr_disable; destruct (intr_get_status (k_eflags K)); reflexivity).
  destruct (intr_disable (k_eflags K)) as [o fl]. simpl in Hoff, Hold. intros Hr.
  apply bind_ok_inv in Hr as (? & _ & Hr). apply bind_ok_inv in Hr as (C & _ & Hr).
  apply bind_ok_inv in Hr as (K1 & Hs & [= <- <-]). apply schedule_eflags in Hs. simpl in Hs.
  by rewrite Hs.
Qed.

Definition off (K : kernel) : Prop := intr_get_status (k_eflags K) = INTR_OFF.

(** Points that leave interrupts off when they find them off. *)
Definition quiet_sync (f : point) : Prop :=
  match f with
  | KernelThread | TimerReturn _ => False
  | BlockReturn st | SemaDownLoop _ st => st = INTR_OFF
  | _ => True
  end.
Definition quiet (f : con_point) : Prop :=
  match f with ConSync f => quiet_sync f | IntrSwitch _ => False | _ => True end.

Lemma quiet_sema_down K p K' fs :
  off K → sema_down K p = Ok (K', fs) → off K' ∧ Forall quiet_sync fs.
Proof.
  intros Ho. unfold sema_down, intr_disable, off in *. rewrite Ho. intros [= <- <-].
  split; [done|]. by repeat constructor.
Qed.

Lemma quiet_sema_down_loop K p K' fs :
  off K → sema_down_loop K p INTR_OFF = Ok (K', fs) → off K' ∧ Forall quiet_sync fs.
Proof.
  intros Ho Hr. unfold sema_down_loop in Hr. apply bind_ok_inv in Hr as (v & _ & Hr).
  destruct (v =? 0).
  - apply bind_ok_inv in Hr as (f1 & _ & Hr). apply bind_ok_inv in Hr as (? & _ & Hr).
    apply bind_ok_inv in Hr as ([|] & _ & Hr); [done|]. apply bind_ok_inv in Hr as (K1 & Ha & Hr).
    apply on_append_eflags in Ha. apply bind_ok_inv in Hr as ([old K2] & Hb & [= <- <-]).
    apply thread_block_eflags in Hb as [-> Hoff]. split; [done|]. rewrite Ha.
    by repeat constructor.
  - apply bind_ok_inv in Hr as (? & _ & [= <- <-]). split; [|constructor].
    exact (intr_set_status_get INTR_OFF _).
Qed.

Lemma quiet_sema_up K p K' : off K → sema_up K p = Ok K' → off K'.
Proof.
  intros Ho Hr. unfold sema_up, intr_disable in Hr. unfold off in *. rewrite Ho in Hr.
  apply bind_ok_inv in Hr as (v & _ & Hr). apply bind_ok_inv in Hr as (? & _ & Hr).
  apply bind_ok_inv in Hr as (emp & _ & Hr). apply bind_ok_inv in Hr as (K1 & _ & Hr).
  apply bind_ok_inv in Hr as (? & _ & [= <-]). exact (intr_set_status_get INTR_OFF _).
Qed.

Lemma quiet_exec_sync K f K' fs :
  off K → quiet_sync f → exec K f = Ok (K', fs) → off K' ∧ Forall quiet_sync fs.
Proof.
  intros Ho Hq. destruct f; simpl in Hq; subst; try done; simpl exec.
  - intros [= <- <-]. split; [|constructor]. exact (intr_set_status_get INTR_OFF _).
  - by apply quiet_sema_down.
  - by apply quiet_sema_down_loop.
  - intros (K1 & Hu & [= <- <-])%bind_ok_inv. split; [by eapply quiet_sema_up|constructor].
  - unfold lock_acquire. intros (l & _ & Hr)%bind_ok_inv. destruct (negb _); injection Hr as <- <-;
      by repeat constructor.
  - unfold lock_acquired. intros (l & _ & [= <- <-])%bind_ok_inv. by repeat constructor.
  - unfold lock_count. intros (l & _ & (? & _ & [= <- <-])%bind_ok_inv)%bind_ok_inv. by repeat constructor.
  - unfold lock_release. intros (l & _ & (? & _ & Hr)%bind_ok_inv)%bind_ok_inv.
    destruct (_ >? _); [injection Hr as <- <-; by repeat constructor|].
    apply bind_ok_inv in Hr as (? & _ & [= <- <-]). by repeat constructor.
  - unfold lock_clear. intros (l & _ & [= <- <-])%bind_ok_inv. by repeat constructor.
Qed.

Lemma quiet_print V f V' fs : exec_print V f = Ok (V', fs) → Forall quiet fs.
Proof.
  destruct f; simpl; try done.
  - intros [= <- <-]. by repeat constructor.
  - intros ([[]|] & _ & [= <- <-])%bind_ok_inv; by repeat constructor.
  - intros (? & _ & [= <- <-])%bind_ok_inv. constructor.
  - intros ([] & _ & [= <- <-])%bind_ok_inv. by repeat constructor.
  - intros ([[[]]|] & _ & [= <- <-])%bind_ok_inv; by repeat constructor.
Qed.

Lemma quiet_exec s f s' fs :
  off (con_ker s) → quiet f → exec_con s f = Ok (s', fs) → off (con_ker s') ∧ Forall quiet fs.
Proof.
  intros Ho Hq. destruct f as [g| | | | | | | | |]; simpl in Hq; try done.
  - intros ([K fs1] & He & (V & _ & [= <- <-])%bind_ok_inv)%bind_ok_inv.
    apply quiet_exec_sync in He as [Hk Hf]; [|done..].
    split; [done|]. induction Hf; constructor; auto.
  - intros ([V fs1] & He & [= <- <-])%bind_ok_inv. split; [done|by eapply quiet_print].
  - intros ([V fs1] & He & [= <- <-])%bind_ok_inv. split; [done|by eapply quiet_print].
  - intros ([V fs1] & He & [= <- <-])%bind_ok_inv. split; [done|by eapply quiet_print].
  - intros ([V fs1] & He & [= <- <-])%bind_ok_inv. split; [done|by eapply quiet_print].
  - intros ([V fs1] & He & [= <- <-])%bind_ok_inv. split; [done|by eapply quiet_print].
  - intros [= <- <-]. by repeat constructor.
  - intros [= <- <-]. by repeat constructor.
  - intros [= <- <-]. by repeat constructor.
Qed.
End quiet.

(** * The scheduler between two ticks *)

(** What a thread that has not run keeps until it does. *)
Definition home_of (T : task_struct) : Z * Z * virtual_addr := (self_kstack T, pgdir T, userprog_vaddr T).

Section live.
Context `{Symbols} (qs : gmap Z (list Z)) (pm0 : gmap Z Z) (locks : list Z).
Context (home : Z → Z * Z * virtual_addr).
Context (Hwait : ∀ p, p ∈ locks → qs !! lock_list p = Some [] ∧ lock_list p ≠ thread_ready_list).

(** [cur] runs with [left] ticks left on the directory at [d]; then come the
    threads [rest], which have not run yet, and [ds], which have.  The locks
    are free. *)
Record live (K : kernel) (cur : Z) (rest : list (Z * task_struct)) (ds : list Z) (left d : Z) : Prop := {
  lv_sched : sched_inv K cur (<[thread_ready_list := general_tag <$> (rest.*1 ++ ds)]> qs);
  lv_cur : ∃ C, k_tasks K !! cur = Some C ∧ ticks C = left ∧ home_of C = home cur;
  lv_rest t T : (t, T) ∈ rest → k_tasks K !! t = Some T ∧ home_of T = home t;
  lv_pm : pm (k_mach K) = pm0;
  lv_dir : cr3 (k_mach K) = d;
  lv_locks p : p ∈ locks → k_locks K !! p = Some (Lock NULL 0) ∧ k_semas K !! semaphore p = Some 1;
}.

Lemma live_running K cur rest ds left d : live K cur rest ds left d → running_thread K = cur.
Proof. intros Hl. destruct (lv_sched _ _ _ _ _ _ Hl) as [Hc _]. by apply (core_running K cur _ Hc). Qed.

Lemma live_nonnull K cur rest ds left d : live K cur rest ds left d → running_thread K ≠ NULL.
Proof.
  intros Hl. rewrite (live_running _ _ _ _ _ _ Hl). destruct (lv_sched _ _ _ _ _ _ Hl) as [Hc (C & HC & _)].
  pose proof (to_addr _ _ _ (sc_task _ _ _ Hc cur C HC)). unfold NULL. lia.
Qed.

Lemma live_eflags K cur rest ds left d fl :
  live K cur rest ds left d → live (set_eflags K fl) cur rest ds left d.
Proof. intros Hl. split; try apply Hl. by apply (sched_inv_view K); [apply Hl|..]. Qed.

Lemma live_esp K cur rest ds left d a :
  live K cur rest ds left d → stack_ok cur a → live (set_esp K a) cur rest ds left d.
Proof.
  intros Hl Ha. split; try apply Hl. destruct (lv_sched _ _ _ _ _ _ Hl) as [Hc Hr]. split; [|exact Hr].
  split; simpl; try apply Hc; [|exact Ha]. intros t T HT. by destruct (sc_task _ _ _ Hc t T HT).
Qed.

Lemma live_lock_free K cur rest ds left d p :
  live K cur rest ds left d → p ∈ locks → lock_free K p.
Proof.
  intros Hl Hp. destruct (Hwait p Hp) as [Hw Hsep]. split; [by apply (lv_locks _ _ _ _ _ _ Hl)..|].
  destruct (lv_sched _ _ _ _ _ _ Hl) as [Hc _].
  unfold lists_of. rewrite (list_empty_holds _ _ _ _ [] (sc_heap _ _ _ Hc)); [by rewrite bool_decide_true|].
  by rewrite lookup_insert_ne.
Qed.

(** A tick that leaves the thread on the processor. *)
Lemma live_tick K cur rest ds left d :
  live K cur rest ds left d → 0 < left < 256 → cur ∉ rest.*1 →
  ∃ K', intr_timer_handler K = Ok K' ∧ live K' cur rest ds (left - 1) d ∧ k_eflags K' = k_eflags K
    ∧ k_out K' = k_out K.
Proof.
  intros Hl Hleft Hin. destruct (lv_cur _ _ _ _ _ _ Hl) as (C & HC & <- & Hho).
  pose proof (lv_sched _ _ _ _ _ _ Hl) as Hs.
  destruct (tick_holds K cur _ C Hs HC Hleft) as (K' & HK & Hs' & Hf & _ & HC').
  destruct (timer_eq K cur _ C Hs HC) as [_ E]. rewrite HK in E.
  destruct (Z.eqb_spec (ticks C) 0) as [|_]; [lia|]. injection E as ->.
  eexists. split_and!; [done| |done|done].
  split; try apply Hl; [done|by eexists|].
  intros t T HT. destruct (lv_rest _ _ _ _ _ _ Hl t T HT) as [HT' Hht].
  assert (t ≠ cur) by (intros ->; apply Hin, (list_elem_of_fmap_2' _ _ (cur, T)); done).
  simpl. by rewrite !lookup_insert_ne.
Qed.

(** The tick that hands over to a thread that has not run yet. *)
Lemma live_switch K cur t T rest ds d :
  live K cur ((t, T) :: rest) ds 0 d → off K → NoDup (cur :: t :: rest.*1) →
  ∃ K', intr_timer_handler K = Ok K'
    ∧ live K' t rest (ds ++ [cur]) (ticks T) (dir_of (k_mach K) (pgdir T))
    ∧ k_eflags K' = k_eflags K ∧ k_esp K' = self_kstack T + 28 ∧ k_out K' = k_out K ++ [name T].
Proof.
  intros Hl Hoff Hnd. destruct (lv_cur _ _ _ _ _ _ Hl) as (C & HC & Ht & _).
  pose proof (lv_sched _ _ _ _ _ _ Hl) as Hs. rewrite !NoDup_cons, not_elem_of_cons in Hnd.
  destruct Hnd as ((Hne & Hcur) & Htr & _).
  destruct (timer_eq K cur _ C Hs HC) as [Hs1 E]. rewrite Ht, Z.eqb_refl in E.
  set (K1 := set_kticks _ _) in Hs1, E.
  destruct (schedule_running K1 cur _ (ticked C) (general_tag <$> ((t, T) :: rest).*1 ++ ds) Hs1)
    as (n & l' & K' & El & HK & Hsw & Hinv); [exact Hoff|apply lookup_insert_eq|apply lookup_insert_eq|].
  simpl in El. injection El as En El. apply general_tag_inj in En. subst n l'.
  destruct (lv_rest _ _ _ _ _ _ Hl t T ltac:(left)) as [HT Hht].
  assert (HT1 : k_tasks (put_task K1 cur (requeued (ticked C))) !! t = Some T)
    by (simpl; by rewrite !lookup_insert_ne).
  destruct (sw_dir _ _ _ _ Hsw T HT1) as (Hcr & _ & Hesp). rewrite bool_decide_false in Hesp by congruence.
  exists K'. split; [by rewrite E|].
  split_and!; [|by rewrite (sw_eflags _ _ _ _ Hsw)|done|exact (sw_out _ _ _ _ Hsw T HT1)].
  split.
  - rewrite insert_insert_eq in Hinv. by rewrite app_assoc, fmap_app.
  - eexists. split; [by rewrite (sw_tasks _ _ _ _ Hsw), HT1|]. unfold sched_task.
    by rewrite (bool_decide_true (t = t)), (bool_decide_false (t = cur)) by congruence.
  - intros u U HU. destruct (lv_rest _ _ _ _ _ _ Hl u U ltac:(by right)) as [HU' Hhu].
    assert (u ∈ rest.*1) by by apply (list_elem_of_fmap_2' _ _ (u, U)).
    assert (u ≠ cur) by (intros ->; done). assert (u ≠ t) by (intros ->; done).
    rewrite (sw_tasks _ _ _ _ Hsw). simpl. rewrite !lookup_insert_ne, HU' by done. simpl.
    unfold sched_task. split; [by rewrite !bool_decide_false|done].
  - rewrite (sw_pm _ _ _ _ Hsw). apply Hl.
  - by rewrite Hcr.
  - rewrite (sw_locks _ _ _ _ Hsw), (sw_semas _ _ _ _ Hsw). apply Hl.
Qed.
End live.

(** * Address spaces *)

Section spaces.
Context `{Symbols, ThreadSyms}.

Lemma load32_same M M' va :
  kspace M → kspace M' → pm M' = pm M → KBASE ≤ va < KTOP → load32 M' va = load32 M va.
Proof.
  intros Hk Hk' E Hva. unfold load32. rewrite !kspace_translate by done. unfold kpte. by rewrite E.
Qed.

(** The first stack of a thread reads the same in every directory. *)
Lemma starts_same M M' t fn arg :
  kspace M → kspace M' → pm M' = pm M → KBASE ≤ t → t + 4096 ≤ KTOP →
  starts M t fn arg → starts M' t fn arg.
Proof.
  intros Hk Hk' E Ht Ht'. unfold starts, switch_pop, kernel_thread_args.
  by rewrite !(load32_same M M') by (done || lia).
Qed.

Lemma read_n_ok (rd : Z → res Z) n : ∀ a,
  (∀ x, a ≤ x < a + Z.of_nat n → ∃ v, rd x = Ok v) → ∃ bs, read_n rd a n = Ok bs.
Proof.
  induction n as [|n IH]; intros a Hrd; [by eexists|]. simpl.
  destruct (Hrd a) as [v ->]; [lia|]. destruct (IH (a + 1)) as [bs Hb]; [intros x Hx; apply Hrd; lia|].
  exists (v :: bs). rb. by rewrite Hb.
Qed.

(** In the kernel's directory every gate can be read, in one without a user
    half none. *)
Lemma fetch_mapped M idt vec :
  word idt → kspace M → present (dir_entry M 0) = true → frame (dir_entry M 0) = KTABLES →
  0 ≤ vec < IDT_DESC_CNT → ∃ gate, fetch_gate M (idt_operand idt) vec = Ok gate.
Proof.
  intros Hi Hk Hp Hf Hv. destruct (idtr_parts idt Hi) as [El Hbase]. unfold fetch_gate. rewrite El.
  destruct (Z.ltb_spec (8 * IDT_DESC_CNT - 1) (8 * vec + 7)); [lia|]. apply read_n_ok.
  intros x Hx. unfold IDT_DESC_CNT in *. simpl load8. rewrite ident_translate by (done || lia). by eexists.
Qed.

Lemma fetch_unmapped M idt vec :
  word idt → 0 ≤ vec → (∀ va, 0 ≤ va < KBASE → translate M va = None) →
  fetch_gate M (idt_operand idt) vec = Fault.
Proof.
  intros Hi Hv Hno. destruct (idtr_parts idt Hi) as [El Hbase]. destruct (decide (vec < IDT_DESC_CNT)).
  - apply fetch_missing, Hno. unfold IDT_DESC_CNT, KBASE in *. lia.
  - unfold fetch_gate. rewrite El, (proj2 (Z.ltb_lt _ _)); [done|lia].
Qed.

Lemma dir_entry_step M M' i :
  mem_step M M' → frame (cr3 M) = PAGE_DIR_TABLE_POS → 0 ≤ i < 1024 → dir_entry M' i = dir_entry M i.
Proof.
  intros Hs Hc Hi. unfold dir_entry. rewrite (ms_cr3 _ _ Hs), Hc. apply rd32_same.
  intros x Hx. apply (ms_dir _ _ Hs). unfold PAGE_DIR_TABLE_POS, KTABLES in *. lia.
Qed.
End spaces.

(** * Where a thread is *)

(** One round of a printing thread: [x] with interrupts off. *)
Definition round (x : list con_point) : list con_point :=
  IntrSwitch INTR_OFF :: x ++ [IntrSwitch INTR_ON].

(** What a thread does once it runs. *)
Inductive script :=
| InMain
| InLoop (loop : rpoint) (x : list con_point) (fn arg : Z)
| InProc (fn arg : Z).

Definition enters (sc : script) (fn arg : Z) : Prop :=
  match sc with InMain => False | InLoop _ _ fn' arg' | InProc fn' arg' => fn' = fn ∧ arg' = arg end.

(** Its program points while interrupts are on. *)
Definition resting (sc : script) (st : list rpoint) : Prop :=
  match sc with
  | InMain => st = [MainLoop]
  | InLoop loop x fn arg =>
      st = [CallFunction fn arg] ∨ st = [loop] ∨ st = map OfCon (round x) ++ [loop]
  | InProc fn arg => st = [CallFunction fn arg] ∨ st = [InProcess arg]
  end.

Section control.
Context `{Symbols, ThreadSyms, ConSyms, BootSyms}.

Definition on (K : kernel) : Prop := intr_get_status (k_eflags K) = INTR_ON.
Definition readable (s : con_state) : Prop := ∃ tm, shows (con_screen s) tm.

(** A loop that prints and leaves the kernel as it was. *)
Record loop_ok (loop : rpoint) (x : list con_point) (fn : Z) : Prop := {
  lo_exec s : exec_run s loop = Some (Ok (s, map OfCon (round x) ++ [loop]));
  lo_call arg : call_function fn arg = Ok [loop];
  lo_quiet : Forall quiet x;
  lo_run s : lock_free (con_ker s) console_lock → running_thread (con_ker s) ≠ NULL → readable s →
    ∃ s' fl, con_runs s (round x) s' ∧ readable s'
      ∧ con_ker s' = set_eflags (con_ker s) fl ∧ intr_get_status fl = INTR_ON;
}.

Definition script_ok (sc : script) : Prop :=
  match sc with
  | InMain => True
  | InLoop loop x fn arg => loop_ok loop x fn
  | InProc fn arg => call_function fn arg = Ok [InProcess arg]
  end.

(** The running thread [t] at its program points [st]; [good] holds of the
    kernel whenever the thread can be interrupted. *)
Inductive ctl (good : kernel → Prop) (t : Z) (sc : script) (s : con_state) : list rpoint → Prop :=
| ctl_on st : good (con_ker s) → readable s → on (con_ker s) → resting sc st → ctl good t sc s st
| ctl_return fl st :
    good (con_ker s) → readable s → off (con_ker s) → intr_get_status fl = INTR_ON → resting sc st →
    ctl good t sc s (OfCon (ConSync (TimerReturn fl)) :: st)
| ctl_switch : good (con_ker s) → readable s → off (con_ker s) → k_esp (con_ker s) = t + 3692 → sc ≠ InMain →
    ctl good t sc s [SwitchReturn]
| ctl_enter : good (con_ker s) → readable s → off (con_ker s) → k_esp (con_ker s) = t + 3684 → sc ≠ InMain →
    ctl good t sc s [KThread]
| ctl_mid loop x fn arg fs s' :
    sc = InLoop loop x fn arg → off (con_ker s) → Forall quiet fs →
    con_runs s (fs ++ [IntrSwitch INTR_ON]) s' → good (con_ker s') → readable s' → on (con_ker s') →
    ctl good t sc s (map OfCon (fs ++ [IntrSwitch INTR_ON]) ++ [loop]).

(** What the threads' steps need of [good]. *)
Record steady (good : kernel → Prop) (t : Z) (sc : script) : Prop := {
  sy_script : script_ok sc;
  sy_eflags K fl : good K → good (set_eflags K fl);
  sy_esp K : good K → good (set_esp K (t + 3684));
  sy_free K : good K → lock_free K console_lock ∧ running_thread K ≠ NULL;
  sy_running K : good K → running_thread K = t;
  sy_start K fn arg : good K → enters sc fn arg → starts (k_mach K) t fn arg;
}.

Lemma exec_con_run s f s' fs :
  exec_run s (OfCon f) = Some (Ok (s', fs)) ↔ ∃ fs', exec_con s f = Ok (s', fs') ∧ fs = map OfCon fs'.
Proof.
  simpl. destruct (exec_con s f) as [[s1 fs1]| | |]; simpl.
  - split; [intros [= <- <-]; by eexists|]. by intros (fs' & [= -> ->] & ->).
  - split; [done|]. by intros (fs' & ? & _).
  - split; [done|]. by intros (fs' & ? & _).
  - split; [done|]. by intros (fs' & ? & _).
Qed.

(** The first step of a round. *)
Lemma ctl_round good t loop x fn arg s s' fs :
  steady good t (InLoop loop x fn arg) → good (con_ker s) → readable s →
  exec_run s (OfCon (IntrSwitch INTR_OFF)) = Some (Ok (s', fs)) →
  ctl good t (InLoop loop x fn arg) s' (fs ++ map OfCon (x ++ [IntrSwitch INTR_ON]) ++ [loop]).
Proof.
  intros Hsy Hg Hr. rewrite exec_con_run. intros (fs' & He & ->).
  destruct (sy_free _ _ _ Hsy _ Hg) as [Hlf Hn]. pose proof (sy_script _ _ _ Hsy) as Hsc.
  destruct (lo_run _ _ _ Hsc s Hlf Hn Hr) as (s2 & fl & Hrun & Hr2 & EK & Hon).
  inversion Hrun as [|? ? ? s3 fs3 ? He3 _ Hrun3]; subst. rewrite He in He3. injection He3 as <- <-.
  injection He as <- <-. simpl app.
  eapply ctl_mid; [reflexivity| | |exact Hrun3| |exact Hr2|].
  - exact (intr_set_status_get INTR_OFF _).
  - apply Hsc.
  - rewrite EK. by apply (sy_eflags _ _ _ Hsy).
  - unfold on. by rewrite EK.
Qed.

Lemma resting_exec good t sc s f r s' fs :
  steady good t sc → good (con_ker s) → readable s → on (con_ker s) → resting sc (f :: r) →
  exec_run s f = Some (Ok (s', fs)) → ctl good t sc s' (fs ++ r).
Proof.
  intros Hsy Hg Hr Ho Hres He. pose proof (sy_script _ _ _ Hsy) as Hsc.
  destruct sc as [|loop x fn arg|fn arg]; simpl in Hres, Hsc.
  - injection Hres as -> ->. injection He as <- <-. by apply ctl_on.
  - destruct Hres as [E|[E|E]].
    + injection E as -> ->. simpl in He. rewrite (lo_call _ _ _ Hsc arg) in He. injection He as <- <-.
      apply ctl_on; [done..|]. right. by left.
    + injection E as -> ->. rewrite (lo_exec _ _ _ Hsc s) in He. injection He as <- <-. rewrite app_nil_r.
      apply ctl_on; [done..|]. by right; right.
    + injection E as -> ->. by apply (ctl_round good t loop x fn arg s).
  - destruct Hres as [E|E].
    + injection E as -> ->. simpl in He. rewrite Hsc in He. injection He as <- <-.
      apply ctl_on; [done..|]. by right.
    + injection E as -> ->. done.
Qed.

Lemma enters_some sc : sc ≠ InMain → ∃ fn arg, enters sc fn arg.
Proof. destruct sc; [done|by repeat eexists..]. Qed.

(** The two steps of a thread that runs for the first time. *)
Lemma switch_runs good t sc s :
  steady good t sc → good (con_ker s) → k_esp (con_ker s) = t + 3692 → sc ≠ InMain →
  exec_run s SwitchReturn = Some (Ok (set_con_ker s (set_esp (con_ker s) (t + 3684)), [KThread])).
Proof.
  intros Hsy Hg Ee Hne. destruct (enters_some sc Hne) as (fn & arg & Hen).
  destruct (sy_start _ _ _ Hsy _ fn arg Hg Hen) as [Hp _]. simpl. unfold switch_return. cbv zeta.
  rewrite Ee. replace (t + 3692 - 28) with (t + 3664) by lia. rewrite Hp. rb. simpl. by rewrite Z.eqb_refl.
Qed.

Lemma enter_runs good t sc s :
  steady good t sc → good (con_ker s) → k_esp (con_ker s) = t + 3684 → sc ≠ InMain →
  ∃ fn arg, enters sc fn arg ∧ exec_run s KThread
    = Some (Ok (set_con_ker s (set_eflags (con_ker s) (intr_enable (k_eflags (con_ker s))).2),
                [CallFunction fn arg])).
Proof.
  intros Hsy Hg Ee Hne. destruct (enters_some sc Hne) as (fn & arg & Hen). exists fn, arg. split; [done|].
  destruct (sy_start _ _ _ Hsy _ fn arg Hg Hen) as [_ Hp]. simpl. unfold kernel_thread. cbv zeta.
  rewrite Ee, Hp. by rb.
Qed.

Lemma switch_exec good t sc s s' fs :
  steady good t sc → good (con_ker s) → readable s → off (con_ker s) → k_esp (con_ker s) = t + 3692 →
  sc ≠ InMain → exec_run s SwitchReturn = Some (Ok (s', fs)) → ctl good t sc s' fs.
Proof.
  intros Hsy Hg Hr Ho Ee Hne. rewrite (switch_runs good t sc s) by done. intros [= <- <-].
  apply ctl_enter; [by apply (sy_esp _ _ _ Hsy)|done..].
Qed.

Lemma enter_exec good t sc s s' fs :
  steady good t sc → good (con_ker s) → readable s → k_esp (con_ker s) = t + 3684 → sc ≠ InMain →
  exec_run s KThread = Some (Ok (s', fs)) → ctl good t sc s' fs.
Proof.
  intros Hsy Hg Hr Ee Hne. destruct (enter_runs good t sc s) as (fn & arg & Hen & ->); auto. intros [= <- <-].
  apply ctl_on; [by apply (sy_eflags _ _ _ Hsy)|done|exact (intr_set_status_get INTR_ON _)|].
  destruct sc; [done|..]; destruct Hen as [-> ->]; by left.
Qed.

Lemma mid_exec good t loop x fn arg fs0 s s2 f r s' fs :
  let sc := InLoop loop x fn arg in
  off (con_ker s) → Forall quiet fs0 →
  con_runs s (fs0 ++ [IntrSwitch INTR_ON]) s2 → good (con_ker s2) → readable s2 → on (con_ker s2) →
  map OfCon (fs0 ++ [IntrSwitch INTR_ON]) ++ [loop] = f :: r →
  exec_run s f = Some (Ok (s', fs)) →
  running_thread (con_ker s') = running_thread (con_ker s) ∧ ctl good t sc s' (fs ++ r).
Proof.
  intros sc Ho Hq Hrun Hg Hr Hon. destruct fs0 as [|f0 fs0]; simpl app; simpl map.
  - intros [= <- <-]. rewrite exec_con_run. intros (fs' & He & ->).
    inversion Hrun as [|? ? ? s3 fs3 ? He3 Hh Hrun3]; subst. rewrite He in He3. injection He3 as <- <-.
    split; [done|]. injection He as <- <-. inversion Hrun3; subst. apply ctl_on; [done..|]. right. by left.
  - intros [= <- <-]. rewrite exec_con_run. intros (fs' & He & ->).
    inversion Hrun as [|? ? ? s3 fs3 ? He3 Hh Hrun3]; subst. rewrite He in He3. injection He3 as <- <-.
    split; [done|]. apply Forall_cons in Hq as [Hq0 Hq]. destruct (quiet_exec _ _ _ _ Ho Hq0 He) as [Ho' Hq'].
    rewrite app_assoc, <- map_app, app_assoc. eapply ctl_mid; [done|done| |by rewrite <- app_assoc|done..].
    by apply Forall_app.
Qed.

Lemma ctl_running good t sc s st : steady good t sc → ctl good t sc s st → running_thread (con_ker s) = t.
Proof.
  intros Hsy [? Hg| ? ? Hg|Hg|Hg|loop x fn arg fs s2 _ _ _ Hrun Hg]; try by apply (sy_running _ _ _ Hsy).
  rewrite <- (sy_running _ _ _ Hsy _ Hg). symmetry. apply (runs_here _ _ _ _ _ Hrun).
Qed.

Lemma timer_return s fl :
  exec_con s (ConSync (TimerReturn fl)) = Ok (set_con_ker s (set_eflags (con_ker s) fl), []).
Proof. simpl. rewrite show_names_same by done. rb. by destruct s. Qed.

(** Every step of the thread keeps it so. *)
Lemma ctl_exec good t sc s f r s' fs :
  steady good t sc → ctl good t sc s (f :: r) → exec_run s f = Some (Ok (s', fs)) →
  ctl good t sc s' (fs ++ r).
Proof.
  intros Hsy Hc He. remember (f :: r) as st eqn:Est.
  destruct Hc as [st Hg Hr Ho Hres|fl st Hg Hr Ho Hf Hres|Hg Hr Ho Ee Hne|Hg Hr Ho Ee Hne
    |loop x fn arg fs0 s2 -> Ho Hq Hrun Hg Hr Hon].
  - subst st. by eapply resting_exec.
  - injection Est as <- <-. apply exec_con_run in He as (fs' & He & ->).
    rewrite timer_return in He. injection He as <- <-. apply ctl_on; [by apply (sy_eflags _ _ _ Hsy)|done..].
  - injection Est as <- <-. rewrite app_nil_r. by eapply switch_exec.
  - injection Est as <- <-. rewrite app_nil_r. by eapply enter_exec.
  - by eapply mid_exec.
Qed.
End control.

(** * The slices after the boot *)

Section booted.
Context `{Symbols, ThreadSyms, PoolLocks, ConSyms, BootSyms}.
Context (S0 S1 : system) (all_mem : Z) (qs : gmap Z (list Z)) (g : gmap Z Z).
Context (Hload : loaded S0 all_mem) (Hb : booted S0 S1 qs g) (Hidt : word idt_addr).
Context (Hptr : NoDup [k_thread_a_ptr; k_thread_b_ptr; start_process_ptr]).
Context (sa sb se : list Z) (Hro : is_byte_map rodata = true).
Context (Hsa : cstr rodata v_a sa) (Hsb : cstr rodata v_b sb) (Hse : cstr rodata blank_str se).
Context (H8a : 8 ∉ sa) (H8b : 8 ∉ sb) (H8e : 8 ∉ se).

Notation A := (heap_addr 0).
Notation B := (heap_addr 1).
Notation PA := (heap_addr 2).
Notation PB := (heap_addr 27).
Let M0 := k_mach (s_ker S1).
Let p0 := next_pid (s_threads S0).
Let locks := [console_lock; user_pool_lock].
Let home (t : Z) : Z * Z * virtual_addr :=
  match k_tasks (s_ker S1) !! t with Some T => home_of T | None => home_of zero_task end.
Notation alive := (live qs (pm M0) locks home).

Definition task_a : task_struct := thread_task A (p0 + 2) "consumer_a" 8.
Definition task_b : task_struct := thread_task B (p0 + 3) "consumer_b" 31.
Definition task_pa : task_struct := process_task PA (p0 + 4) "user_prog_a" 3 26.
Definition task_pb : task_struct := process_task PB (p0 + 5) "user_prog_b" 28 51.

Definition script_a : script :=
  InLoop LoopA [ConsolePutStr v_a; ConsolePutVarA; ConsolePutStr blank_str] k_thread_a_ptr str_a.
Definition script_b : script :=
  InLoop LoopB [ConsolePutStr v_b; ConsolePutVarB; ConsolePutStr blank_str] k_thread_b_ptr str_b.
Definition script_p : script := InProc start_process_ptr u_prog_a_ptr.

Definition kdir : Z := PAGE_DIR_TABLE_POS.
Definition pdir : Z := dir_of M0 (heap_addr 26).

(** Who runs, what it does, the tick its slice begins with, the length of the
    slice, its directory, who has not run yet, and who has. *)
Inductive phase : Z → script → Z → Z → Z → list (Z * task_struct) → list Z → Prop :=
| ph_main : phase MAIN InMain 0 31 (cr3 M0) [(A, task_a); (B, task_b); (PA, task_pa); (PB, task_pb)] []
| ph_a : phase A script_a 32 8 kdir [(B, task_b); (PA, task_pa); (PB, task_pb)] [MAIN]
| ph_b : phase B script_b 41 31 kdir [(PA, task_pa); (PB, task_pb)] [MAIN; A]
| ph_p : phase PA script_p 73 31 pdir [(PB, task_pb)] [MAIN; A; B].

Definition inv (c : run_state) : Prop := ∃ t sc start slice d rest ds left st,
  phase t sc start slice d rest ds ∧ 0 ≤ left ≤ slice ∧ (t = PA → left = slice)
  ∧ Z.of_nat (r_ticks c) = start + (slice - left)
  ∧ r_conts c !! t = Some st ∧ (∀ u, u ∈ rest.*1 → r_conts c !! u = Some [SwitchReturn])
  ∧ ctl (λ K, alive K t rest ds left d) t sc (r_con c) st.

Lemma phase_nodup t sc start slice d rest ds : phase t sc start slice d rest ds → NoDup (t :: rest.*1).
Proof. intros [| | |]; apply (bool_decide_unpack _); vm_compute; exact I. Qed.

Lemma phase_range t sc start slice d rest ds :
  phase t sc start slice d rest ds → 0 < slice < 256 ∧ KBASE + 0x9e000 ≤ t ∧ t + 4096 ≤ KTOP.
Proof. intros [| | |]; (split; [lia|]); by vm_compute. Qed.

Lemma phase_ok t sc start slice d rest ds : phase t sc start slice d rest ds → script_ok sc.
Proof.
  pose proof Hptr as Hd. rewrite !NoDup_cons, !not_elem_of_cons in Hd. destruct Hd as ((Hn1 & Hn2 & _) & (Hn3 & _) & _).
  intros [| | |]; simpl; [done|..].
  - split; [done| |by repeat constructor|].
    + intros arg. unfold call_function. by rewrite Z.eqb_refl.
    + intros s Hlf Hn [tm Hs]. destruct (con_round Hro s tm ConsolePutVarA v_a blank_str (test_var_a s) sa se)
        as (s' & fl & Hr & Hs' & EK & Hon); auto. exists s', fl. split_and!; [exact Hr|by eexists|done..].
  - split; [done| |by repeat constructor|].
    + intros arg. unfold call_function. rewrite (proj2 (Z.eqb_neq _ _)) by congruence. by rewrite Z.eqb_refl.
    + intros s Hlf Hn [tm Hs]. destruct (con_round Hro s tm ConsolePutVarB v_b blank_str (test_var_b s) sb se)
        as (s' & fl & Hr & Hs' & EK & Hon); auto. exists s', fl. split_and!; [exact Hr|by eexists|done..].
  - unfold call_function. rewrite (proj2 (Z.eqb_neq start_process_ptr k_thread_a_ptr)) by congruence.
    rewrite (proj2 (Z.eqb_neq start_process_ptr k_thread_b_ptr)) by congruence. by rewrite Z.eqb_refl.
Qed.

Lemma kspace0 : kspace M0.
Proof. apply (mi_space _ _ _ (ti_mem _ _ _ _ _ (bt_inv _ _ _ _ Hb))). Qed.

Lemma phase_starts t sc start slice d rest ds fn arg :
  phase t sc start slice d rest ds → enters sc fn arg → starts M0 t fn arg.
Proof.
  intros Hp Hen. apply (runnable_starts (t_pools (s_threads S1))); [exact kspace0|].
  apply (bt_jobs _ _ _ _ Hb). destruct Hp; [destruct Hen|..]; destruct Hen as [<- <-].
  - left.
  - right. left.
  - do 2 right. left.
Qed.

Lemma locks_apart p :
  p ∈ locks → qs !! lock_list p = Some [] ∧ lock_list p ≠ thread_ready_list.
Proof.
  intros Hp. split; [by apply (bt_locks _ _ _ _ Hb)|]. revert Hp. unfold locks.
  destruct (static_apart _ _ Hload) as (_ & ? & _). rewrite !elem_of_cons, elem_of_nil.
  intros [->|[->|[]]]; [apply (console_apart _ _ Hload)|done].
Qed.

Lemma phase_steady t sc start slice d rest ds left :
  phase t sc start slice d rest ds → steady (λ K, alive K t rest ds left d) t sc.
Proof.
  intros Hp. pose proof (phase_range _ _ _ _ _ _ _ Hp) as (_ & Ht & Ht'). split.
  - by eapply phase_ok.
  - intros K fl. apply live_eflags.
  - intros K Hg. apply live_esp; [done|]. unfold stack_ok. lia.
  - intros K Hg. split; [|by eapply live_nonnull]. 
    eapply (live_lock_free qs); [exact locks_apart|exact Hg|left].
  - intros K Hg. by eapply live_running.
  - intros K fn arg Hg Hen. destruct (lv_sched _ _ _ _ _ _ _ _ _ _ Hg) as [Hc _].
    apply (starts_same M0); [exact kspace0|apply Hc|apply Hg|unfold KBASE in *; lia|done|].
    by eapply phase_starts.
Qed.
Lemma phase_script_p t sc start slice d rest ds : phase t sc start slice d rest ds → (t = PA ↔ sc = script_p).
Proof. intros [| | |]; (split; [intros E; by vm_compute in E|done]) || done. Qed.

Lemma phase_next t sc start slice d rest ds :
  phase t sc start slice d rest ds → sc ≠ script_p →
  ∃ u U rest' sc', rest = (u, U) :: rest' ∧ self_kstack U = u + 3664 ∧ name_ok (name U) = true ∧ sc' ≠ InMain
    ∧ phase u sc' (start + slice + 1) (ticks U) (dir_of M0 (pgdir U)) rest' (ds ++ [t]).
Proof.
  intros [| | |] Hne.
  - exists A, task_a. eexists _, script_a. split_and!; [reflexivity|reflexivity|reflexivity|discriminate|exact ph_a].
  - exists B, task_b. eexists _, script_b. split_and!; [reflexivity|reflexivity|reflexivity|discriminate|exact ph_b].
  - exists PA, task_pa. eexists _, script_p. split_and!; [reflexivity|reflexivity|reflexivity|discriminate|exact ph_p].
  - done.
Qed.

Lemma translate_frame M M' va :
  pm M' = pm M → frame (cr3 M') = frame (cr3 M) → translate M' va = translate M va.
Proof.
  intros Ep Ef. unfold translate, pte_at, pte_addr, pde_at, pde_addr. by rewrite Ep, Ef.
Qed.

(** The gates can be read while the kernel's directory is in use, and cannot
    in the process. *)
Lemma phase_fetch K t sc start slice d rest ds left vec :
  phase t sc start slice d rest ds → alive K t rest ds left d → 0 ≤ vec < IDT_DESC_CNT →
  if bool_decide (t = PA) then fetch_gate (k_mach K) (s_idtr S1) vec = Fault
  else ∃ gate, fetch_gate (k_mach K) (s_idtr S1) vec = Ok gate.
Proof.
  intros Hp Hv Hvec. rewrite (bt_idtr _ _ _ _ Hb).
  pose proof (bt_step _ _ _ _ Hb) as Hst. pose proof (fm_dir _ (ld_machine _ _ Hload)) as Hd0.
  assert (Hk : frame d = kdir → ∃ gate, fetch_gate (k_mach K) (idt_operand idt_addr) vec = Ok gate).
  { intros Hd. destruct (lv_sched _ _ _ _ _ _ _ _ _ _ Hv) as [Hc _].
    destruct (fm_ident _ (ld_machine _ _ Hload)) as [Hp0 Hf0].
    assert (E : dir_entry (k_mach K) 0 = dir_entry (k_mach (s_ker S0)) 0).
    { rewrite <- (dir_entry_step _ _ 0 Hst Hd0) by lia. fold M0. unfold dir_entry.
      rewrite (lv_pm _ _ _ _ _ _ _ _ _ _ Hv), (lv_dir _ _ _ _ _ _ _ _ _ _ Hv).
      unfold M0. by rewrite (ms_cr3 _ _ Hst), Hd0, Hd. }
    apply fetch_mapped; [done|apply Hc|by rewrite E..|done]. }
  destruct Hp; [by apply Hk; unfold M0; rewrite (ms_cr3 _ _ Hst)|by apply Hk..|]. change (bool_decide (PA = PA)) with true. cbv iota.
  apply fetch_unmapped; [done|lia|]. intros va Hva.
  rewrite <- (bt_dirs _ _ _ _ Hb (heap_addr 26)) with (va := va); [|by left|done].
  apply translate_frame; [apply Hv|exact (f_equal frame (lv_dir _ _ _ _ _ _ _ _ _ _ Hv))].
Qed.

Lemma on_off K : on K → off K → False.
Proof. unfold on, off. congruence. Qed.

Lemma cli_off K : off (set_eflags K (cli (k_eflags K))).
Proof. apply intr_get_status_cli. Qed.

Lemma inv_exec s cs n f r s' fs :
  inv (RunState s cs n) → cs !! running_thread (con_ker s) = Some (f :: r) →
  exec_run s f = Some (Ok (s', fs)) →
  inv (RunState s' (<[running_thread (con_ker s) := fs ++ r]> cs) n).
Proof.
  intros (t & sc & start & slice & d & rest & ds & left & st & Hp & Hle & Hfull & Hn & Hst & Hr & Hc) Hcs He.
  simpl in *. pose proof (phase_steady _ _ _ _ _ _ _ left Hp) as Hsy.
  pose proof (ctl_running _ _ _ _ _ Hsy Hc) as Ht. rewrite Ht in *. rewrite Hcs in Hst. injection Hst as <-.
  exists t, sc, start, slice, d, rest, ds, left, (fs ++ r). simpl.
  split_and!; [done|lia|lia|done|done|apply lookup_insert_eq| |by eapply ctl_exec].
  intros u Hu. pose proof (phase_nodup _ _ _ _ _ _ _ Hp) as Hnd. apply NoDup_cons in Hnd as [Hnd _].
  rewrite lookup_insert_ne by (intros ->; done). by apply Hr.
Qed.

Lemma inv_tick s cs n st gate K' V' :
  let K := con_ker s in
  inv (RunState s cs n) → on K → cs !! running_thread K = Some st →
  fetch_gate (k_mach K) (s_idtr S1) 0x20 = Ok gate →
  intr_timer_handler (set_eflags K (cli (k_eflags K))) = Ok K' →
  show_names (con_screen s) K K' = Ok V' →
  inv (RunState (set_screen (set_con_ker s K') V')
    (<[running_thread K := OfCon (ConSync (TimerReturn (k_eflags K))) :: st]> cs) (S n)).
Proof.
  intros K (t & sc & start & slice & d & rest & ds & left & st' & Hp & Hle & Hfull & Hn & Hst & Hr & Hc)
    Hon Hcs Hf HK HV.
  simpl in *. pose proof (phase_steady _ _ _ _ _ _ _ left Hp) as Hsy.
  pose proof (ctl_running _ _ _ _ _ Hsy Hc) as Ht. subst K. rewrite Ht in *.
  rewrite Hcs in Hst. injection Hst as <-.
  destruct Hc as [st Hg Hrd _ Hres|? ? _ _ Ho|_ _ Ho|_ _ Ho|? ? ? ? ? ? _ Ho];
    [|by destruct (on_off _ Hon Ho)..].
  assert (Hrd' : readable (set_screen (set_con_ker s K') V')).
  { destruct Hrd as [tm Hs]. eexists. by eapply put_names_ok. }
  pose proof (phase_nodup _ _ _ _ _ _ _ Hp) as Hnd. pose proof (proj1 (NoDup_cons _ _) Hnd) as [Hnin _].
  pose proof (live_eflags _ _ _ _ _ _ _ _ _ _ (cli (k_eflags (con_ker s))) Hg) as Hg'.
  pose proof (phase_range _ _ _ _ _ _ _ Hp) as (Hsl & _).
  pose proof (phase_fetch _ _ _ _ _ _ _ _ _ 0x20 Hp Hg ltac:(unfold IDT_DESC_CNT; lia)) as Hfe.
  case_bool_decide as Htp; [congruence|].
  destruct (decide (left = 0)) as [->|Hl0].
  - destruct (phase_next _ _ _ _ _ _ _ Hp) as (u & U & rest' & sc' & -> & Hks & _ & Hm & Hp').
    { intros ->. by apply Htp, (phase_script_p _ _ _ _ _ _ _ Hp). }
    destruct (live_switch _ _ _ _ _ _ _ _ _ _ _ Hg' (cli_off _) Hnd) as (K1 & E & Hl1 & Hfl & Hesp & _).
    rewrite HK in E. injection E as <-.
    replace (dir_of (k_mach (set_eflags (con_ker s) (cli (k_eflags (con_ker s))))) (pgdir U))
      with (dir_of M0 (pgdir U)) in Hl1 by (symmetry; unfold dir_of, kpte; simpl; by rewrite (lv_pm _ _ _ _ _ _ _ _ _ _ Hg)).
    pose proof (phase_range _ _ _ _ _ _ _ Hp') as (Hsl' & _).
    exists u, sc', (start + slice + 1), (ticks U), (dir_of M0 (pgdir U)), rest', (ds ++ [t]), (ticks U), [SwitchReturn].
    simpl. split_and!; [done|lia|lia|done|lia| | |].
    + rewrite lookup_insert_ne by (intros ->; apply Hnin; left). apply Hr. left.
    + intros v Hv. rewrite lookup_insert_ne by (intros ->; apply Hnin; by right). apply Hr. by right.
    + apply ctl_switch; [exact Hl1|exact Hrd'| |simpl; lia|exact Hm].
      unfold off. simpl. rewrite Hfl. apply cli_off.
  - destruct (live_tick _ _ _ _ _ _ _ _ _ _ Hg') as (K1 & E & Hl1 & Hfl & _); [lia|done|].
    rewrite HK in E. injection E as <-.
    exists t, sc, start, slice, d, rest, ds, (left - 1), (OfCon (ConSync (TimerReturn (k_eflags (con_ker s)))) :: st).
    simpl. split_and!; [done|lia|lia|done|lia|apply lookup_insert_eq| |].
    + intros v Hv. rewrite lookup_insert_ne by (intros ->; done). by apply Hr.
    + apply ctl_return; [exact Hl1|exact Hrd'| |exact Hon|exact Hres].
      unfold off. simpl. rewrite Hfl. apply cli_off.
Qed.
Lemma inv_step c c' : inv c → run_step (s_idtr S1) c c' → inv c'.
Proof.
  intros Hi Hs. destruct Hs; [by eapply inv_exec|by eapply inv_tick].
Qed.

Lemma inv_steps c c' : inv c → run_steps (s_idtr S1) c c' → inv c'.
Proof. intros Hi. induction 1 as [|c1 c2 _ IH Hs]; [done|]. by eapply inv_step. Qed.

Lemma alive_init :
  alive (s_ker S1) MAIN [(A, task_a); (B, task_b); (PA, task_pa); (PB, task_pb)] [] 31 (cr3 M0).
Proof.
  pose proof (bt_tasks _ _ _ _ Hb) as Htk.
  assert (Hho : ∀ t T, k_tasks (s_ker S1) !! t = Some T → home_of T = home t)
    by (unfold home; by intros t T ->). split; auto.
  - simpl. rewrite insert_id; [|apply (bt_ready _ _ _ _ Hb)]. apply (ti_sched _ _ _ _ _ (bt_inv _ _ _ _ Hb)).
  - exists (main_task MAIN (p0 + 1)). assert (k_tasks (s_ker S1) !! MAIN = Some (main_task MAIN (p0 + 1))) by by rewrite Htk.
    split_and!; [done|done|by apply Hho].
  - intros t T Hin. assert (k_tasks (s_ker S1) !! t = Some T); [|by split; [|apply Hho]]. revert Hin.
    rewrite !elem_of_cons, elem_of_nil, Htk. intros [[= -> ->]|[[= -> ->]|[[= -> ->]|[[= -> ->]|[]]]]]; done.
  - intros p Hp. by destruct (bt_locks _ _ _ _ Hb p Hp) as (? & ? & _).
Qed.

Lemma inv_init a b : inv (run0 S1 a b).
Proof.
  exists MAIN, InMain, 0, 31, (cr3 M0). eexists _, [], 31, [MainLoop]. split; [exact ph_main|].
  split_and!; [lia|lia|discriminate|reflexivity|reflexivity| |].
  - intros u. cbn [fmap list_fmap fst]. rewrite !elem_of_cons, elem_of_nil.
    intros [->|[->|[->|[->|[]]]]]; reflexivity.
  - apply ctl_on; [exact alive_init|apply (bt_screen _ _ _ _ Hb)|apply (bt_if _ _ _ _ Hb)|done].
Qed.

(** * Going on *)

Lemma run_con s fs s' : con_runs s fs s' → ∀ cs n r,
  cs !! running_thread (con_ker s) = Some (map OfCon fs ++ r) →
  ∃ cs', run_steps (s_idtr S1) (RunState s cs n) (RunState s' cs' n).
Proof.
  induction 1 as [s|s f r0 s1 fs s2 He Hh _ IH]; intros cs n r Hcs; [eexists; apply run_refl|].
  destruct (IH (<[running_thread (con_ker s) := map OfCon fs ++ map OfCon r0 ++ r]> cs) n r) as [cs' Hs].
  { rewrite Hh, lookup_insert_eq. by rewrite map_app, app_assoc. }
  exists cs'. eapply run_steps_trans; [|exact Hs]. eapply run_next; [apply run_refl|].
  eapply run_exec; [exact Hcs|]. apply exec_con_run. by exists fs.
Qed.

(** From every state there is a way to one with interrupts on, without a tick. *)
Lemma reach_on c :
  inv c → ∃ c', run_steps (s_idtr S1) c c' ∧ r_ticks c' = r_ticks c ∧ inv c' ∧ on (con_ker (r_con c')).
Proof.
  intros Hi. destruct c as [s cs n]. assert (Hgo : ∀ s' cs', run_steps (s_idtr S1) (RunState s cs n) (RunState s' cs' n) →
    on (con_ker s') → ∃ c', run_steps (s_idtr S1) (RunState s cs n) c' ∧ r_ticks c' = n ∧ inv c'
      ∧ on (con_ker (r_con c'))).
  { intros s' cs' Hr Ho. exists (RunState s' cs' n). split_and!; [done|done|by eapply inv_steps|done]. }
  destruct Hi as (t & sc & start & slice & d & rest & ds & left & st & Hp & Hle & Hfull & Hn & Hst & Hr & Hc).
  simpl in *. pose proof (phase_steady _ _ _ _ _ _ _ left Hp) as Hsy.
  pose proof (ctl_running _ _ _ _ _ Hsy Hc) as Ht. rewrite <- Ht in Hst.
  destruct Hc as [st Hg Hrd Hon Hres|fl st Hg Hrd Ho Hf Hres|Hg Hrd Ho Ee Hne|Hg Hrd Ho Ee Hne
    |loop x fn arg fs0 s2 -> Ho Hq Hrun Hg Hrd Hon].
  - by eapply Hgo; [apply run_refl|].
  - eapply Hgo; [eapply run_next; [apply run_refl|eapply run_exec; [exact Hst|]]|].
    + apply exec_con_run. exists []. split; [apply timer_return|reflexivity].
    + done.
  - set (s1 := set_con_ker s (set_esp (con_ker s) (t + 3684))).
    assert (Hg1 : alive (con_ker s1) t rest ds left d) by by apply (sy_esp _ _ _ Hsy).
    destruct (enter_runs _ t sc s1 Hsy Hg1) as (fn & arg & _ & E2); [done|done|].
    pose proof (run_exec (s_idtr S1) s cs n _ _ _ _ Hst (switch_runs _ t sc s Hsy Hg Ee Hne)) as R1.
    fold s1 in R1. set (cs1 := <[_ := _]> cs) in R1.
    assert (Hst1 : cs1 !! running_thread (con_ker s1) = Some [KThread]).
    { rewrite (sy_running _ _ _ Hsy _ Hg1), <- Ht. apply lookup_insert_eq. }
    pose proof (run_exec (s_idtr S1) s1 cs1 n _ _ _ _ Hst1 E2) as R2.
    eapply Hgo; [eapply run_next; [eapply run_next; [apply run_refl|exact R1]|exact R2]|].
    exact (intr_set_status_get INTR_ON _).
  - destruct (enter_runs _ t sc s Hsy Hg Ee Hne) as (fn & arg & _ & E2).
    eapply Hgo; [eapply run_next; [apply run_refl|]; eapply run_exec; [exact Hst|exact E2]|].
    exact (intr_set_status_get INTR_ON _).
  - destruct (run_con s _ s2 Hrun cs n [loop] Hst) as [cs' Hs]. by eapply Hgo.
Qed.

(** ... and from there to the next tick, as long as a kernel thread runs. *)
Lemma reach_tick c :
  inv c → (r_ticks c < 73)%nat → ∃ c', run_steps (s_idtr S1) c c' ∧ r_ticks c' = S (r_ticks c).
Proof.
  intros Hi Hlt. destruct (reach_on c Hi) as ([s cs n] & Hs & En & Hi' & Hon). simpl in En, Hon.
  destruct Hi' as (t & sc & start & slice & d & rest & ds & left & st & Hp & Hle & Hfull & Hn & Hst & Hr & Hc).
  simpl in *. pose proof (phase_steady _ _ _ _ _ _ _ left Hp) as Hsy.
  pose proof (ctl_running _ _ _ _ _ Hsy Hc) as Ht. rewrite <- Ht in Hst.
  destruct Hc as [st Hg Hrd _ Hres|? ? _ _ Ho|_ _ Ho|_ _ Ho|? ? ? ? ? ? _ Ho];
    [|by destruct (on_off _ Hon Ho)..].
  assert (Htp : t ≠ PA).
  { intros E. specialize (Hfull E). destruct Hp; try (by vm_compute in E). lia. }
  pose proof (phase_fetch _ _ _ _ _ _ _ _ _ 0x20 Hp Hg ltac:(unfold IDT_DESC_CNT; lia)) as Hfe.
  rewrite bool_decide_false in Hfe by done. destruct Hfe as [gate Hfe].
  pose proof (live_eflags _ _ _ _ _ _ _ _ _ _ (cli (k_eflags (con_ker s))) Hg) as Hg'.
  pose proof (phase_range _ _ _ _ _ _ _ Hp) as (Hsl & _).
  pose proof (phase_nodup _ _ _ _ _ _ _ Hp) as Hnd. pose proof (proj1 (NoDup_cons _ _) Hnd) as [Hnin _].
  assert (∃ K' V', intr_timer_handler (set_eflags (con_ker s) (cli (k_eflags (con_ker s)))) = Ok K'
    ∧ show_names (con_screen s) (con_ker s) K' = Ok V') as (K' & V' & HK & HV).
  { destruct (decide (left = 0)) as [->|Hl0].
    - destruct (phase_next _ _ _ _ _ _ _ Hp) as (u & U & rest' & sc' & -> & _ & Hnm & _).
      { intros ->. by apply Htp, (phase_script_p _ _ _ _ _ _ _ Hp). }
      destruct (live_switch _ _ _ _ _ _ _ _ _ _ _ Hg' (cli_off _) Hnd) as (K1 & E & _ & _ & _ & Eo).
      destruct Hrd as [tm Hs']. destruct (put_name_runs (name U) _ _ Hs' Hnm) as (V1 & Ev & _).
      exists K1, V1. split; [done|]. unfold show_names. rewrite Eo. simpl k_out.
      rewrite drop_app_length. simpl. by rewrite Ev.
    - destruct (live_tick _ _ _ _ _ _ _ _ _ _ Hg') as (K1 & E & _ & _ & Eo); [lia|done|].
      exists K1, (con_screen s). split; [done|]. by apply show_names_same. }
  pose proof (run_tick (s_idtr S1) s cs n st gate K' V' Hon Hst Hfe HK HV) as Hr'.
  eexists. split; [eapply run_next; [exact Hs|exact Hr']|simpl; congruence].
Qed.

Lemma reach_ticks c n :
  inv c → r_ticks c = O → (n ≤ 73)%nat → ∃ c', run_steps (s_idtr S1) c c' ∧ r_ticks c' = n.
Proof.
  intros Hi H0'. induction n as [|n IH]; intros Hn; [exists c; split; [apply run_refl|done]|].
  destruct IH as (c1 & Hs & En); [lia|].
  destruct (reach_tick c1) as (c2 & Hs2 & En2); [by eapply inv_steps|lia|].
  exists c2. split; [by eapply run_steps_trans|congruence].
Qed.

(** The thread that runs after [n] ticks. *)
Definition owner (n : nat) : Z :=
  if (n <? 32)%nat then MAIN else if (n <? 41)%nat then A else if (n <? 73)%nat then B else PA.

Lemma inv_owner c : inv c →
  (r_ticks c ≤ 73)%nat ∧ running_thread (con_ker (r_con c)) = owner (r_ticks c)
  ∧ (r_ticks c = 73%nat → ∀ vec, 0 ≤ vec < IDT_DESC_CNT →
       fetch_gate (k_mach (con_ker (r_con c))) (s_idtr S1) vec = Fault).
Proof.
  intros (t & sc & start & slice & d & rest & ds & left & st & Hp & Hle & Hfull & Hn & Hst & Hr & Hc).
  pose proof (phase_steady _ _ _ _ _ _ _ left Hp) as Hsy. rewrite (ctl_running _ _ _ _ _ Hsy Hc).
  assert (Hno : (r_ticks c ≤ 73)%nat ∧ t = owner (r_ticks c) ∧ (r_ticks c = 73%nat → t = PA)).
  { unfold owner. destruct (Nat.ltb_spec (r_ticks c) 32), (Nat.ltb_spec (r_ticks c) 41),
      (Nat.ltb_spec (r_ticks c) 73); destruct Hp; try specialize (Hfull eq_refl); split_and!; lia || done. }
  destruct Hno as (H73 & -> & HPA). split_and!; [done..|]. intros E vec Hv. specialize (HPA E).
  assert (Hg : alive (con_ker (r_con c)) (owner (r_ticks c)) rest ds left d).
  { destruct Hc as [st Hg|? ? Hg|Hg|Hg|loop x fn arg fs0 s2 Esc]; try exact Hg. exfalso.
    apply (phase_script_p _ _ _ _ _ _ _ Hp) in HPA. rewrite HPA in Esc. discriminate. }
  pose proof (phase_fetch _ _ _ _ _ _ _ _ _ vec Hp Hg Hv) as Hf. by rewrite bool_decide_true in Hf.
Qed.

(** What the process finds: its page, directory and bitmap as [process_execute]
    left them, the lock of the user pool free, frames in both pools. *)
Lemma process_finds c :
  inv c → r_ticks c = 73%nat →
  let K := con_ker (r_con c) in let km := t_pools (s_threads S1) in
  readable (r_con c) ∧ lock_free K user_pool_lock ∧ running_thread K = PA
  ∧ (∃ C, k_tasks K !! PA = Some C ∧ self_kstack C = PA + 3664 ∧ pgdir C ≠ NULL ∧ userprog_vaddr C = user_vaddr 3)
  ∧ ∃ f, process_image km (k_mach K) g PA f 3.
Proof.
  intros Hi E K km. destruct (inv_owner _ Hi) as (_ & Ht & _). rewrite E in Ht. change (owner 73) with PA in Ht.
  destruct Hi as (t & sc & start & slice & d & rest & ds & left & st & Hp & _ & _ & _ & _ & _ & Hc).
  pose proof (phase_steady _ _ _ _ _ _ _ left Hp) as Hsy. pose proof (ctl_running _ _ _ _ _ Hsy Hc) as Ht'.
  rewrite Ht in Ht'. subst t. pose proof (proj1 (phase_script_p _ _ _ _ _ _ _ Hp) eq_refl) as Esc.
  assert (Hg : alive K PA rest ds left d ∧ readable (r_con c)).
  { by destruct Hc as [? ? ?|? ? ? ?|? ?|? ?|? ? ? ? ? ? ->]. }
  destruct Hg as [Hg Hrd]. assert (d = pdir) as ->.
  { inversion Hp; try done; subst; discriminate. }
  split_and!; [done|eapply (live_lock_free qs); [exact locks_apart|exact Hg|right; left]|done| |].
  - destruct (lv_cur _ _ _ _ _ _ _ _ _ _ Hg) as (C & HC & _ & Hh). exists C.
    assert (home PA = home_of task_pa) as E' by (unfold home; by rewrite (bt_tasks _ _ _ _ Hb)).
    rewrite E' in Hh. injection Hh as -> -> ->. done.
  - destruct (bt_home _ _ _ _ Hb) as [f Hf]. exists f.
    replace (k_mach K) with (Machine (pm M0) (dir_of M0 (heap_addr 26))).
    + apply (process_home_image km M0); [apply (ti_mem _ _ _ _ _ (bt_inv _ _ _ _ Hb))|exact Hf|lia].
    + rewrite <- (lv_pm _ _ _ _ _ _ _ _ _ _ Hg). fold pdir. rewrite <- (lv_dir _ _ _ _ _ _ _ _ _ _ Hg).
      by destruct (k_mach K).
Qed.

(** The process is reached: its first call is [start_process]. *)
Lemma reach_process c :
  inv c → r_ticks c = O →
  ∃ c', run_steps (s_idtr S1) c c' ∧ inv c' ∧ r_ticks c' = 73%nat
    ∧ r_conts c' !! PA = Some [InProcess u_prog_a_ptr] ∧ on (con_ker (r_con c')).
Proof.
  intros Hi E0. destruct (reach_ticks c 73 Hi E0 ltac:(lia)) as (c1 & Hs1 & E1).
  destruct (reach_on c1 (inv_steps _ _ Hi Hs1)) as ([s cs n] & Hs2 & E2 & Hi2 & Hon). simpl in E2, Hon.
  pose proof (run_steps_trans _ _ _ _ Hs1 Hs2) as Hs.
  destruct (inv_owner _ Hi2) as (_ & Ht & _). simpl in Ht. rewrite E2, E1 in Ht. change (owner 73) with PA in Ht.
  destruct Hi2 as (t & sc & start & slice & d & rest & ds & left & st & Hp & Hrest). pose proof Hrest as Hrest'.
  destruct Hrest as (Hle & Hfull & Hn & Hst & Hr & Hc). simpl in *.
  pose proof (ctl_running _ _ _ _ _ (phase_steady _ _ _ _ _ _ _ left Hp) Hc) as Ht'. rewrite Ht in Ht'. subst t.
  destruct Hc as [st Hg Hrd _ Hres|? ? _ _ Ho|_ _ Ho|_ _ Ho|? ? ? ? ? ? _ Ho];
    [|by destruct (on_off _ Hon Ho)..].
  assert (Esc : sc = script_p) by by apply (phase_script_p _ _ _ _ _ _ _ Hp).
  rewrite Esc in Hres. destruct Hres as [-> | ->].
  - pose proof (phase_ok _ _ _ _ _ _ _ Hp) as Hok. rewrite Esc in Hok. simpl in Hok.
    rewrite <- Ht in Hst. assert (He : exec_run s (CallFunction start_process_ptr u_prog_a_ptr)
      = Some (Ok (s, [InProcess u_prog_a_ptr]))) by (simpl; by rewrite Hok).
    pose proof (run_exec (s_idtr S1) s cs n _ _ _ _ Hst He) as R.
    eexists. split; [eapply run_next; [exact Hs|exact R]|]. split; [|split; [simpl; lia|]].
    + eapply inv_step; [|exact R]. by exists PA, sc, start, slice, d, rest, ds, left, [CallFunction start_process_ptr u_prog_a_ptr].
    + split; [|done]. simpl. rewrite Ht. apply lookup_insert_eq.
  - exists (RunState s cs n). split_and!; [done| |simpl; lia|done|done].
    by exists PA, sc, start, slice, d, rest, ds, left, [InProcess u_prog_a_ptr].
Qed.
End booted.

(** [start_process] in the state the process is reached in. *)
Definition process_state (S : system) (c : run_state) : estate :=
  EState (UState (set_ker (s_threads S) (con_ker (r_con c))) 0) (con_screen (r_con c)) None.

(** The page of the user's stack is not one of the table's. *)
Lemma fetch_lost M idt vec p :
  word idt → 0 ≤ vec →
  (∀ x, 0 ≤ x < KBASE → translate M x
     = if decide (x / 4096 = USER_STACK3_VADDR / 4096) then Some (p + x mod 4096) else None) →
  fetch_gate M (idt_operand idt) vec = Fault.
Proof.
  intros Hi Hv Htr. destruct (idtr_parts idt Hi) as [El Hbase]. destruct (decide (vec < IDT_DESC_CNT)).
  - apply fetch_missing. unfold IDT_DESC_CNT in *. rewrite Htr by (unfold KBASE; lia).
    apply decide_False. change (USER_STACK3_VADDR / 4096) with 0xbffff. zdm.
  - unfold fetch_gate. rewrite El, (proj2 (Z.ltb_lt _ _)); [done|lia].
Qed.

(** * Properties *)

(** C7: the booted system, tick by tick, up to its crash.  After [main] has
    started its two threads and two processes, whatever the threads print
    between the timer interrupts, [main] keeps the processor for 32 ticks,
    [k_thread_a] has it for the next 9 and [k_thread_b] for the next 32: their
    rounds never fail, and the next tick can always come.  With tick 73 the
    first process gets the processor; [start_process] maps its stack and
    reaches the program at level 3 with interrupts on.  But from tick 73 on,
    before and after, the processor can read no gate of the interrupt
    descriptor table, because [idt_init] loaded an address that only the
    kernel's directory maps.  So there is no tick 74: the next interrupt, from
    whatever source, stops the machine. *)
Theorem runs_into_process `{Symbols, ThreadSyms, PoolLocks, ConSyms, BootSyms, EnterSyms}
    S all_mem a b sa sb se text :
  loaded S all_mem →
  Forall word [k_thread_a_ptr; k_thread_b_ptr; u_prog_a_ptr; u_prog_b_ptr; str_a; str_b; kernel_thread_ptr;
               start_process_ptr; idt_addr] →
  NoDup [k_thread_a_ptr; k_thread_b_ptr; start_process_ptr] →
  is_byte_map rodata = true →
  Forall2 (λ p s, cstr rodata p s ∧ 8 ∉ s) [v_a; v_b; blank_str; start_str] [sa; sb; se; text] →
  ∃ S', bruns S main S' ∧ let idtr := s_idtr S' in let c0 := run0 S' a b in
    (∀ c, run_steps idtr c0 c →
       (r_ticks c ≤ 73)%nat ∧ running_thread (con_ker (r_con c)) = owner (r_ticks c)
       ∧ ((r_ticks c < 73)%nat → ∃ c', run_steps idtr c c' ∧ r_ticks c' = Datatypes.S (r_ticks c)))
    ∧ ∃ c e, run_steps idtr c0 c ∧ r_ticks c = 73%nat
        ∧ r_conts c !! heap_addr 2 = Some [InProcess u_prog_a_ptr] ∧ on (con_ker (r_con c))
        ∧ eruns (process_state S' c) [StartProcess u_prog_a_ptr] e
        ∧ e_program e = Some (first_context u_prog_a_ptr)
        ∧ ∀ vec, 0 ≤ vec < IDT_DESC_CNT → fetch_gate (k_mach (con_ker (r_con c))) idtr vec = Fault
            ∧ fetch_gate (k_mach (e_ker e)) idtr vec = Fault.
Proof.
  intros Hl Hw Hptr Hro Hstr.
  repeat (apply Forall2_cons in Hstr as [[? ?] Hstr]).
  apply (Forall_app word [_; _; _; _; _; _; _; _] [idt_addr]) in Hw as [Hw Hi].
  apply Forall_cons in Hi as [Hi _]. destruct (main_runs S all_mem Hl Hw) as (S' & qs & g & Hrun & Hbt).
  exists S'. split; [exact Hrun|]. cbv zeta.
  pose proof (inv_init S S' qs g Hbt a b) as Hinv. split.
  - intros c Hc. assert (Hic : inv S S' qs c) by by eapply inv_steps.
    edestruct (inv_owner S S' all_mem qs g) as (H73 & Ht & _); [done..|].
    split_and!; [exact H73|exact Ht|]. by eapply reach_tick.
  - destruct (reach_process S S' all_mem qs g Hl Hbt Hi Hptr sa sb se Hro) with (c := run0 S' a b)
      as (c & Hr & Hic & En & Hst & Hon); auto.
    edestruct (inv_owner S S' all_mem qs g) as (_ & _ & Hf); [done..|].
    edestruct (process_finds S S' all_mem qs g) as ([tm' Hs'] & Hlf & Ht & (C & HC & Hks & Hpd & Hva) & f & Hpi);
      [done..|].
    destruct (bt_free _ _ _ _ Hbt) as [Hu Hk].
    destruct (enters_user (process_state S' c) C (heap_addr 2) f 3 g u_prog_a_ptr tm' text)
      as (e & p & i & g' & Hrun' & He & _ & _ & _ & _ & Htr & _); auto.
    { rewrite !Forall_cons in Hw. apply Hw. }
    exists c, e. split_and!; auto. intros vec Hv. split; [by apply Hf|].
    rewrite (bt_idtr _ _ _ _ Hbt). apply (fetch_lost _ _ _ p); [done|lia|exact Htr].
Qed.

(** * A concrete run *)

Module RunRuns.
Import BootRuns.
#[local] Existing Instances syms tsyms plocks csyms bsyms.

#[local] Instance esyms : EnterSyms := {| start_str := blank_str |}.

Lemma runs_into_process_witness :
  ∃ S' c e, bruns boot_system main S' ∧ run_steps (s_idtr S') (run0 S' 0 0) c
    ∧ r_ticks c = 73%nat ∧ eruns (process_state S' c) [StartProcess u_prog_a_ptr] e
    ∧ fetch_gate (k_mach (e_ker e)) (s_idtr S') 0x20 = Fault.
Proof.
  destruct (runs_into_process boot_system 0x2000000 0 0
    (bytes_of "v_a:0x") (bytes_of "v_b:0x") (bytes_of " ") (bytes_of " ") boot_loaded)
    as (S' & Hrun & _ & c & e & Hr & En & _ & _ & He & _ & Hf).
  - repeat constructor; cbn; lia.
  - apply (bool_decide_unpack _). vm_compute. exact I.
  - vm_compute. reflexivity.
  - repeat constructor; (apply cstrb_ok; vm_compute; reflexivity) || (apply (bool_decide_unpack _); vm_compute; exact I).
  - exists S', c, e. split_and!; [exact Hrun|exact Hr|exact En|exact He|].
    apply Hf. unfold IDT_DESC_CNT. lia.
Defined.
End RunRuns.
