(* ===== verification/Typed.v ===== *)
(** The ranges of the kernel's counters.  No thread ever has more of its time
    slice left than its priority grants, so the unsigned decrement of the timer
    interrupt never wraps around; every semaphore is 0 or 1; and no field of a
    kernel object leaves the C type it is declared with. *)
From S2P Require Import Prelude ByteMem CString Bitmap Paging Memory MemInit MemProps Interrupt.
From S2P Require Import DList Sched SchedProps Sync Uncontended Tss Loader Timer Process Spaces Thread.
From S2P Require Import ThreadProps ThreadInit UserMem IntrStack Ioqueue Keyboard Screen Console ConsoleProps.
From S2P Require Import Enter Boot BootProps Run.

(** * Types *)

(** [z] is a value of the unsigned type of [w] bits. *)
Definition has_width (w z : Z) : Prop := 0 ≤ z < 2 ^ w.

(** The integers of [struct task_struct] (thread/thread.h). *)
Record task_typed (T : task_struct) : Prop := {
  ty_pid : has_width 16 (pid T);
  ty_name : length (name T) = 16%nat ∧ Forall (has_width 8) (name T);
  ty_priority : has_width 8 (priority T);
  ty_ticks : 0 ≤ ticks T ≤ priority T;    (* the slice starts at the priority *)
  ty_elapsed : has_width 32 (elapsed_ticks T);
}.

(** Those of [struct semaphore] and [struct lock] (thread/sync.h) and [ticks]
    of device/timer.c as well. *)
Record typed (K : kernel) : Prop := {
  ty_tasks : map_Forall (λ _, task_typed) (k_tasks K);
  ty_semas : map_Forall (λ _ v, 0 ≤ v ≤ 1) (k_semas K);
  ty_locks : map_Forall (λ _ l, has_width 32 (holder_repeat_nr l)) (k_locks K);
  ty_kticks : has_width 32 (k_ticks K);
}.

(** With the static [next_pid] of [allocate_pid]. *)
Definition threads_typed (s : tstate) : Prop := typed (t_ker s) ∧ has_width 16 (next_pid s).

Lemma width_mod w z : 0 ≤ w → has_width w (z mod 2 ^ w).
Proof. intros. apply Z.mod_pos_bound. lia. Qed.

Lemma width_u8 z : has_width 8 (u8 z).
Proof. by apply width_mod. Qed.
Lemma width_u16 z : has_width 16 (u16 z).
Proof. by apply width_mod. Qed.
Lemma width_u32 z : has_width 32 (u32 z).
Proof. by apply width_mod. Qed.

(** * Results *)

(** If [r] returns, it returns something in [Q]. *)
Definition returns {A} (Q : A → Prop) (r : res A) : Prop := ∀ a, r = Ok a → Q a.

Lemma returns_ok {A} (Q : A → Prop) a : Q a → returns Q (Ok a).
Proof. by intros ? ? [= <-]. Qed.

Lemma returns_bind {A B} (P : A → Prop) (Q : B → Prop) r f :
  returns P r → (∀ a, P a → returns Q (f a)) → returns Q (r ≫= f).
Proof. intros Hr Hf b (a & Ea & Eb)%bind_ok_inv. by apply (Hf a); [apply Hr|]. Qed.

Lemma returns_any {A B} (Q : B → Prop) (r : res A) f :
  (∀ a, returns Q (f a)) → returns Q (r ≫= f).
Proof. intros Hf. by apply (returns_bind (λ _, True)). Qed.

Lemma returns_assert {A} (Q : A → Prop) c w (f : unit → res A) :
  (c = true → returns Q (f tt)) → returns Q (ASSERT c w ≫= f).
Proof. intros Hf. destruct c; [by apply Hf|]. by intros ? [=]. Qed.

Lemma returns_panic {A} (Q : A → Prop) w : returns Q (Panic w).
Proof. by intros ? [=]. Qed.

Lemma returns_fault {A} (Q : A → Prop) : returns Q Fault.
Proof. by intros ? [=]. Qed.

(** What a program point returns: a typed state, and whatever comes next. *)
Definition leaves {S P} (Q : S → Prop) (r : S * list P) : Prop := Q r.1.

Lemma leaves_ok {S P} (Q : S → Prop) s (fs : list P) : Q s → returns (leaves Q) (Ok (s, fs)).
Proof. by intros ? ? [= <-]. Qed.

(** A machine inside another one. *)
Lemma leaves_in {S P S' P'} (Q : S → Prop) (Q' : S' → Prop) (r : res (S * list P)) (f : S → S') (g : P → P') :
  returns (leaves Q) r → (∀ s, Q s → Q' (f s)) →
  returns (leaves Q') ('(s, fs) ← r; Ok (f s, map g fs)).
Proof. intros Hr Hf. eapply returns_bind; [exact Hr|]. intros [s fs] Hs. by apply leaves_ok, Hf. Qed.

Create HintDb typed discriminated.
#[export] Hint Resolve width_u8 width_u16 width_u32 returns_ok leaves_ok returns_panic returns_fault : typed.
(** What the assertions of [sema_down] and [sema_up] say of a value. *)
Lemma binary_zero v : (v =? 0) = true → 0 ≤ v ≤ 1.
Proof. lia. Qed.
Lemma binary_one v : (v =? 1) = true → 0 ≤ v ≤ 1.
Proof. lia. Qed.
Lemma binary_init : 0 ≤ u8 1 ≤ 1.
Proof. by rewrite u8_small. Qed.
#[export] Hint Resolve binary_zero binary_one binary_init : typed.
#[export] Hint Extern 2 (has_width _ _) => unfold has_width; lia : typed.

(** * Stores *)

Lemma typed_task K t T : typed K → task_typed T → typed (put_task K t T).
Proof. intros [] ?. split; simpl; auto. by apply map_Forall_insert_2. Qed.

Lemma typed_sema K p v : typed K → 0 ≤ v ≤ 1 → typed (put_sema K p v).
Proof. intros [] ?. split; simpl; auto. by apply map_Forall_insert_2. Qed.

Lemma typed_lock K p h n : typed K → has_width 32 n → typed (put_lock K p (Lock h n)).
Proof. intros [] ?. split; simpl; auto. by apply map_Forall_insert_2. Qed.

Lemma get_task_typed K t : typed K → returns task_typed (get_task K t).
Proof.
  intros [Ht _ _ _] T. unfold get_task. destruct (k_tasks K !! t) eqn:E; [|done].
  intros [= <-]. by apply (Ht t).
Qed.

Lemma get_sema_typed K p : typed K → returns (λ v, 0 ≤ v ≤ 1) (get_sema K p).
Proof.
  intros [_ Hs _ _] v. unfold get_sema. destruct (k_semas K !! p) eqn:E; [|done].
  intros [= <-]. by apply (Hs p).
Qed.

Lemma get_lock_typed K p : typed K → returns (λ l, has_width 32 (holder_repeat_nr l)) (get_lock K p).
Proof.
  intros [_ _ Hl _] l. unfold get_lock. destruct (k_locks K !! p) eqn:E; [|done].
  intros [= <-]. by apply (Hl p).
Qed.

(** Registers, lists and memory carry no typed field. *)
Lemma typed_eflags K v : typed K → typed (set_eflags K v).
Proof. by intros []. Qed.
Lemma typed_esp K v : typed K → typed (set_esp K v).
Proof. by intros []. Qed.
Lemma typed_esp0 K v : typed K → typed (set_esp0 K v).
Proof. by intros []. Qed.
Lemma typed_lists K v : typed K → typed (set_lists K v).
Proof. by intros []. Qed.
Lemma typed_mach K v : typed K → typed (set_mach K v).
Proof. by intros []. Qed.
Lemma typed_out K v : typed K → typed (set_out K v).
Proof. by intros []. Qed.
Lemma typed_kticks K v : typed K → has_width 32 v → typed (set_kticks K v).
Proof. by intros [] ?. Qed.

Lemma on_lists_typed K r : typed K → returns typed (on_lists K r).
Proof. intros HK. apply returns_any. intros m. apply returns_ok. by apply typed_lists. Qed.

(** Fields that keep or change their values. *)
Lemma typed_status T v : task_typed T → task_typed (with_status T v).
Proof. by intros []. Qed.
Lemma typed_kstack T v : task_typed T → task_typed (with_kstack T v).
Proof. by intros []. Qed.
Lemma typed_vaddr T v : task_typed T → task_typed (with_vaddr T v).
Proof. by intros []. Qed.
Lemma typed_pgdir T v : task_typed T → task_typed (with_pgdir T v).
Proof. by intros []. Qed.
Lemma typed_ticks T v : task_typed T → 0 ≤ v ≤ priority T → task_typed (with_ticks T v).
Proof. by intros []. Qed.
(** A new slice, and one tick less of a slice that is not used up. *)
Lemma typed_refill T : task_typed T → task_typed (with_ticks T (priority T)).
Proof. intros HT. apply typed_ticks; [done|]. destruct HT as [_ _ [? _] _ _]. lia. Qed.
Lemma typed_tick T : task_typed T → (ticks T =? 0) = false → task_typed (with_ticks T (u8 (ticks T - 1))).
Proof.
  intros HT Hz%Z.eqb_neq. apply typed_ticks; [done|]. destruct HT as [_ _ [_ Hp] Ht _].
  rewrite u8_small; lia.
Qed.
Lemma typed_elapsed T v : task_typed T → has_width 32 v → task_typed (with_elapsed T v).
Proof. by intros []. Qed.

#[export] Hint Resolve typed_task typed_sema typed_lock typed_eflags typed_esp typed_esp0 typed_lists
  typed_mach typed_out typed_kticks typed_status typed_kstack typed_vaddr typed_pgdir typed_refill typed_tick
  typed_elapsed get_task_typed get_sema_typed get_lock_typed on_lists_typed : typed.

(** One step of the source: a typed operation, one that touches no kernel
    object, a branch, a return. *)
Ltac ty_step :=
  first
    [ progress intros
    | progress cbv zeta
    | match goal with
      | |- returns _ (match ?b with true => _ | false => _ end) => let E := fresh "E" in destruct b eqn:E
      | |- returns _ (let '(_, _) := ?p in _) => destruct p
      | |- returns _ (match ?p with pair _ _ => _ end) => destruct p
      end
    | match goal with
      | |- returns _ (mbind _ (ASSERT _ _)) => apply returns_assert
      | |- returns _ (mbind _ _) =>
          first [ eapply (returns_bind typed); [solve [eauto 10 with typed]|]
                | eapply (returns_bind task_typed); [solve [eauto 10 with typed]|]
                | eapply returns_bind; [solve [eauto 10 with typed]|]
                | apply returns_any ]
      end ].
Ltac ty := repeat ty_step; eauto 10 with typed.

(** * Operations *)

Section ops.
Context `{Symbols}.

Lemma process_activate_typed K t : typed K → returns typed (process_activate K t).
Proof. unfold process_activate, update_tss_esp. ty. case_match; ty. Qed.

Lemma switch_to_typed K a b : typed K → returns typed (switch_to K a b).
Proof. unfold switch_to. ty. Qed.
#[local] Hint Resolve process_activate_typed switch_to_typed : typed.

Lemma schedule_typed K : typed K → returns typed (schedule K).
Proof.
  intros HK. unfold schedule. apply returns_any. intros _. eapply returns_bind; [by apply get_task_typed|].
  intros C HC. apply returns_bind with (P := typed); ty.
Qed.
#[local] Hint Resolve schedule_typed : typed.

Lemma thread_block_typed K st : typed K → returns (λ r, typed r.2) (thread_block K st).
Proof. unfold thread_block. ty. Qed.

Lemma thread_unblock_typed K t : typed K → returns typed (thread_unblock K t).
Proof.
  intros HK. unfold thread_unblock. destruct (intr_disable _) as [o fl].
  eapply returns_bind; [apply get_task_typed; ty|]. intros T HT. apply returns_any. intros _.
  apply returns_bind with (P := typed); ty.
Qed.
#[local] Hint Resolve thread_block_typed thread_unblock_typed : typed.

Lemma intr_timer_handler_typed K : typed K → returns typed (intr_timer_handler K).
Proof. unfold intr_timer_handler. ty. Qed.

Lemma lock_init_typed K p : typed K → returns typed (lock_init K p).
Proof. unfold lock_init, sema_init. ty. Qed.

Lemma sema_up_typed K p : typed K → returns typed (sema_up K p).
Proof.
  intros HK. unfold sema_up. destruct (intr_disable _) as [o fl].
  eapply returns_bind; [apply get_sema_typed; ty|]. intros v Hv. do 2 (apply returns_any; intros ?).
  apply returns_bind with (P := typed); ty.
Qed.
#[local] Hint Resolve sema_up_typed : typed.

Lemma exec_typed K f : typed K → returns (leaves typed) (exec K f).
Proof.
  intros HK. destruct f; simpl exec; unfold thread_block_return, sema_down, sema_down_loop, lock_acquire,
    lock_acquired, lock_count, lock_release, lock_clear; ty.
Qed.
End ops.
#[export] Hint Resolve schedule_typed thread_block_typed thread_unblock_typed intr_timer_handler_typed
  lock_init_typed exec_typed : typed.

(** Creation of threads. *)

Lemma zero_task_typed : task_typed zero_task.
Proof. split; try done. split; [done|]. by apply Forall_replicate. Qed.

Lemma strcpy_name_typed T nm :
  task_typed T → returns (λ T', length (name T') = 16%nat ∧ Forall (has_width 8) (name T')) (strcpy_name T nm).
Proof.
  intros [_ [Hl Hn] Hp Ht _]. unfold strcpy_name. destruct (_ <=? _)%nat eqn:E; [|apply returns_fault].
  apply Nat.leb_le in E. rewrite length_app in E. simpl in E. apply returns_ok. cbn [name]. split.
  - rewrite length_take, length_app, length_drop. unfold name_bytes. rewrite !length_app, Hl. cbn [length]. lia.
  - apply Forall_take, Forall_app. split; [apply Forall_app; split|apply Forall_drop].
    + apply list.Forall_forall. intros z (c & -> & _)%list_elem_of_fmap.
      pose proof (Ascii.N_ascii_bounded c). unfold has_width. lia.
    + apply Forall_singleton. unfold has_width. lia.
    + unfold name_bytes. repeat (apply Forall_app; split); [done|..];
        repeat apply list.Forall_cons_2; try apply list.Forall_nil_2; auto with typed; unfold has_width in *; lia.
Qed.

Lemma task_fresh st nm prio k n d v m :
  has_width 16 n → length nm = 16%nat ∧ Forall (has_width 8) nm →
  task_typed (Task k n st nm (u8 prio) (u8 prio) 0 d v m).
Proof. intros ? ?. pose proof (width_u8 prio) as [? _]. split; simpl; eauto with typed; lia. Qed.
#[local] Hint Resolve zero_task_typed strcpy_name_typed task_fresh : typed.

Section creation.
Context `{Symbols, ThreadSyms}.

Lemma clear_task_typed K t : typed K → returns typed (clear_task K t).
Proof. unfold clear_task. ty. case_match; ty. Qed.

Lemma thread_create_typed K t fn arg : typed K → returns typed (thread_create K t fn arg).
Proof. unfold thread_create. ty. Qed.

Lemma append_new_typed K l tag f : typed K → returns typed (append_new K l tag f).
Proof. unfold append_new. ty. Qed.
#[local] Hint Resolve clear_task_typed thread_create_typed append_new_typed : typed.

Lemma set_ker_typed s K : threads_typed s → typed K → threads_typed (set_ker s K).
Proof. by intros [] ?. Qed.

Lemma tstate_typed K km n m : typed K → has_width 16 n → threads_typed (TState K km n m).
Proof. by split. Qed.
#[local] Hint Resolve set_ker_typed tstate_typed : typed.

Lemma exec_thread_typed s f : threads_typed s → returns (leaves threads_typed) (exec_thread s f).
Proof.
  intros Hs. pose proof Hs as [HK Hn]. destruct f; simpl exec_thread;
    [apply leaves_in with (Q := typed); ty| |..];
    unfold thread_start, start_queue, process_execute, execute_queue, init_thread, init_fields, thread_init,
      main_queue; ty.
Qed.
End creation.
#[export] Hint Resolve append_new_typed set_ker_typed tstate_typed exec_thread_typed : typed.

(** Pages of processes, and their first run. *)

Section process.
Context `{Symbols, ThreadSyms, PoolLocks, ConSyms, EnterSyms}.

Definition user_typed (s : ustate) : Prop := threads_typed (u_threads s).

Lemma ker_of_user s : user_typed s → typed (u_ker s).
Proof. by intros []. Qed.
Lemma set_uker_typed s K : user_typed s → typed K → user_typed (set_uker s K).
Proof. by intros [] ?. Qed.
#[local] Hint Resolve ker_of_user set_uker_typed : typed.

Lemma exec_user_typed s f : user_typed s → returns (leaves user_typed) (exec_user s f).
Proof.
  intros Hs. pose proof (ker_of_user s Hs) as HK. destruct f; simpl exec_user;
    [by apply leaves_in with (Q := threads_typed); ty|..];
    unfold get_user_pages, user_pages, get_a_page, a_page; ty.
Qed.

Definition enter_typed (s : estate) : Prop := user_typed (e_user s).

Lemma exec_enter_typed s f : enter_typed s → returns (leaves enter_typed) (exec_enter s f).
Proof.
  intros Hs. pose proof (ker_of_user _ Hs) as HK. destruct f; simpl exec_enter.
  - eapply returns_bind; [by apply exec_user_typed|]. intros [u fs] Hu. apply returns_any. intros V.
    by apply leaves_ok.
  - unfold start_process, e_ker. ty. apply leaves_ok. unfold enter_typed. simpl. ty.
  - unfold start_stack, e_ker. ty. apply leaves_ok. unfold enter_typed. simpl. ty.
  - ty.
Qed.
End process.

(** The start of the kernel. *)

Section boot.
Context `{Symbols, ThreadSyms, PoolLocks, ConSyms, BootSyms}.

Lemma keyboard_init_typed q K Q T fn : typed K → returns (λ r, typed r.1.1) (keyboard_init q K Q T fn).
Proof.
  intros HK. eapply (returns_bind (λ r, typed r.1)); [unfold ioqueue_init; ty|].
  intros [K' Q'] HK'. ty.
Qed.

Definition system_typed (S : system) : Prop := threads_typed (s_threads S).

Lemma say_typed S l : system_typed S → returns system_typed (say S l).
Proof. intros HS. apply returns_any. intros V. by apply returns_ok. Qed.

Lemma saying_typed S before op after :
  system_typed S → (∀ S, system_typed S → returns system_typed (op S)) →
  returns (leaves system_typed) (saying S before op after).
Proof.
  intros HS Hop. eapply returns_bind; [by apply say_typed|]. intros S1 Hs1.
  eapply returns_bind; [by apply Hop|]. intros S2 Hs2.
  eapply returns_bind; [by apply say_typed|]. intros S3 Hs3. by apply leaves_ok.
Qed.

Lemma exec_boot_typed S f : system_typed S → returns (leaves system_typed) (exec_boot S f).
Proof.
  intros HS. pose proof HS as [HK Hn]. destruct f; simpl exec_boot; try (by apply leaves_ok);
    try (apply saying_typed; [done|clear S HS HK Hn; intros S [HK Hn]]).
  - by apply leaves_in with (Q := threads_typed); [ty|].
  - by apply returns_ok.
  - unfold boot_mem. ty. apply returns_ok. unfold system_typed. simpl. ty.
  - unfold boot_timer. ty. by apply returns_ok.
  - eapply (returns_bind system_typed); [|intros S' HS'; by apply leaves_ok].
    unfold boot_console, console_init, s_ker. ty. apply returns_ok. unfold system_typed. simpl. ty.
  - eapply returns_bind; [by apply keyboard_init_typed|]. intros [[K Q] T] HK'. apply returns_ok. by split.
  - unfold boot_tss, s_ker. ty. apply returns_ok. unfold system_typed. simpl. ty.
  - apply leaves_ok. unfold system_typed. simpl. ty.
  - eapply returns_bind; [by apply say_typed|]. intros S' HS'. by apply leaves_ok.
Qed.
End boot.

(** The kernel at work. *)

Section work.
Context `{Symbols, ThreadSyms, ConSyms, BootSyms}.

Definition con_typed (s : con_state) : Prop := typed (con_ker s).

Lemma exec_con_typed s f : con_typed s → returns (leaves con_typed) (exec_con s f).
Proof.
  intros Hs. destruct f; simpl exec_con;
    try (apply returns_any; intros [V fs]; by apply leaves_ok); try (by apply leaves_ok).
  - eapply returns_bind; [by apply exec_typed|]. intros [K fs] HK. apply returns_any. intros V.
    by apply leaves_ok.
  - apply leaves_ok. by apply typed_eflags.
Qed.

Lemma exec_run_typed s f s' fs : con_typed s → exec_run s f = Some (Ok (s', fs)) → con_typed s'.
Proof.
  intros Hs. assert (Hr : ∀ r, returns (leaves con_typed) r → Some r = Some (Ok (s', fs)) → con_typed s').
  { intros r Hr [= E]. exact (Hr _ E). }
  destruct f; try done; apply Hr; try (by apply leaves_ok).
  - by apply leaves_in with (Q := con_typed); [apply exec_con_typed|].
  - unfold switch_return. ty. apply leaves_ok. by apply typed_esp.
  - unfold kernel_thread. ty. apply leaves_ok. by apply typed_eflags.
  - ty.
Qed.

Lemma run_step_typed idtr c c' : run_step idtr c c' → con_typed (r_con c) → con_typed (r_con c').
Proof.
  destruct 1 as [s cs n f r s' fs _ He|s cs n st gate K' V' K _ _ _ Ht _]; intros Hs; simpl in *.
  - by eapply exec_run_typed.
  - eapply intr_timer_handler_typed; [|exact Ht]. by apply typed_eflags.
Qed.

Lemma run_steps_typed idtr c c' : run_steps idtr c c' → con_typed (r_con c) → con_typed (r_con c').
Proof. intros Hr Hc. induction Hr as [|c1 c2 _ IH Hs]; [done|]. by eapply run_step_typed. Qed.
End work.

(** A run of program points whose every point keeps a predicate. *)
Lemma runs_keep {St P} (exec : St → P → res (St * list P)) here (Q : St → Prop) s fs s' :
  (∀ s f, Q s → returns (leaves Q) (exec s f)) → runs exec here s fs s' → Q s → Q s'.
Proof. intros He. induction 1 as [|s f r s1 fs s2 E _ _ IH]; [done|]. intros Hs. apply IH. exact (He s f Hs _ E). Qed.

Lemma reachable_typed `{Symbols} Ls c0 c : reachable Ls c0 c → typed (ker c0) → typed (ker c).
Proof.
  intros Hr Hc. induction Hr as [|c1 c2 _ IH Hs]; [done|].
  destruct Hs; simpl in *; eauto with typed.
  - by apply (exec_typed K f IH (K', fs)).
  - eapply intr_timer_handler_typed; [|done]. by apply typed_eflags.
Qed.

(** * Properties *)

(** C9: the counters of threads and semaphores.  No thread ever has more ticks
    left than its priority, so the timer interrupt, which counts an unsigned
    byte down, never takes one from zero; and every semaphore is 0 or 1.  Start
    from a machine on which this holds of the kernel's objects and each field
    is in its C type.  Then it holds after any run of the kernel's
    initialisation and of thread and process creation, in every state the
    booted threads reach under the timer, after any part of the first run of a
    process, and in every state threads reach that take and release locks. *)
Theorem integers_keep_types `{Symbols, ThreadSyms, PoolLocks, ConSyms, BootSyms, EnterSyms} S fs S' :
  threads_typed (s_threads S) → bruns S fs S' →
  threads_typed (s_threads S')
  ∧ (∀ idtr a b c, run_steps idtr (run0 S' a b) c →
       typed (con_ker (r_con c))
       ∧ ∀ es e, eruns (process_state S' c) es e → threads_typed (u_threads (e_user e)))
  ∧ (∀ Ls cs h c, reachable Ls (Config (s_ker S') cs h) c → typed (ker c)).
Proof.
  intros HS Hr. assert (HS' : system_typed S').
  { by apply (runs_keep _ _ system_typed _ _ _ exec_boot_typed Hr). }
  pose proof HS' as [HK Hn]. split_and!; [done| |].
  - intros idtr a b c Hc. assert (Hct : con_typed (r_con c)) by by apply (run_steps_typed _ _ _ Hc).
    split; [done|]. intros es e He. apply (runs_keep _ _ enter_typed _ _ _ exec_enter_typed He). by split.
  - intros Ls cs h c Hc. by apply (reachable_typed _ _ _ Hc).
Qed.

(** * A concrete run *)

Module TypedRuns.
Import BootRuns.
#[local] Existing Instances syms tsyms plocks csyms bsyms.
#[local] Instance esyms : EnterSyms := {| start_str := blank_str |}.

Lemma integers_keep_types_witness :
  ∃ S', bruns boot_system main S' ∧ threads_typed (s_threads S')
    ∧ ∀ c, run_steps (s_idtr S') (run0 S' 0 0) c → typed (con_ker (r_con c)).
Proof.
  destruct (main_runs boot_system 0x2000000 boot_loaded) as (S' & qs & g & Hr & _).
  { repeat constructor; cbn; lia. }
  destruct (integers_keep_types boot_system main S') as (HS & Hc & _); [|exact Hr|].
  - split; [split; [apply map_Forall_empty..|]|]; split; apply Z.leb_le || apply Z.ltb_lt; reflexivity.
  - exists S'. split; [exact Hr|]. split; [exact HS|]. intros c Hrun. apply (Hc _ _ _ _ Hrun).
Defined.
End TypedRuns.
