(* ===== verification/Create.v ===== *)
(** Threads created by threads that can lose the processor: thread/thread.c
    under the timer interrupt.  The kernel creates its threads with interrupts
    off (Thread.v); this file interleaves [thread_start] and [process_execute]
    of several threads at the program points of Thread.v.  Each of those points
    runs to its end here, so the runs described are some of the real ones. *)
From S2P Require Import Prelude ByteMem CString Bitmap Paging Memory MemInit MemProps Interrupt.
From S2P Require Import DList Sched Sync Uncontended Process Spaces Thread ThreadProps ThreadInit.
From S2P Require Import UserMem Ioqueue Keyboard Console Boot BootProps.

(** * Interleaving *)

Record tconfig := TConfig { tc_state : tstate; tc_conts : gmap Z (list tpoint) }.

Definition tc_run (c : tconfig) : Z := running_thread (t_ker (tc_state c)).

Section step.
Context `{Symbols, ThreadSyms}.

Inductive create_step : tconfig → tconfig → Prop :=
(* the running thread executes its next program point *)
| create_exec s cs f r s' fs :
    cs !! running_thread (t_ker s) = Some (f :: r) → exec_thread s f = Ok (s', fs) →
    create_step (TConfig s cs) (TConfig s' (<[running_thread (t_ker s) := fs ++ r]> cs))
(* a timer interrupt *)
| create_timer s cs st K' : let K := t_ker s in
    intr_get_status (k_eflags K) = INTR_ON → cs !! running_thread K = Some st →
    intr_timer_handler (set_eflags K (cli (k_eflags K))) = Ok K' →
    create_step (TConfig s cs)
      (TConfig (set_ker s K') (<[running_thread K := OfSync (TimerReturn (k_eflags K)) :: st]> cs))
(* a new thread has just got the processor *)
| create_first s cs :
    cs !! running_thread (t_ker s) = None →
    create_step (TConfig s cs) (TConfig s (<[running_thread (t_ker s) := [OfSync KernelThread]]> cs))
(* its function, or any other code, calls [thread_start] *)
| create_call s cs nm prio fn arg :
    cs !! running_thread (t_ker s) = Some [] →
    create_step (TConfig s cs)
      (TConfig s (<[running_thread (t_ker s) := [ThreadStart nm prio fn arg]]> cs))
(* ... or [process_execute] *)
| create_execute s cs file nm :
    cs !! running_thread (t_ker s) = Some [] →
    create_step (TConfig s cs)
      (TConfig s (<[running_thread (t_ker s) := [ProcessExecute file nm]]> cs)).

Inductive create_steps (c0 : tconfig) : tconfig → Prop :=
| create_refl : create_steps c0 c0
| create_next c c' : create_steps c0 c → create_step c c' → create_steps c0 c'.

(** * Execution

    A script says what happens next; [play] follows it. *)

Inductive cue :=
| Points                                        (* run the thread's points to the end *)
| PointsUntil (stop : tpoint → bool)            (* ... or until such a point is next *)
| Ticks (n : nat)
| First
| Call (nm : string) (prio fn arg : Z).

Definition play_exec (c : tconfig) : option tconfig :=
  match tc_conts c !! tc_run c with
  | Some (f :: r) =>
      match exec_thread (tc_state c) f with
      | Ok (s', fs) => Some (TConfig s' (<[tc_run c := fs ++ r]> (tc_conts c)))
      | _ => None
      end
  | _ => None
  end.

Fixpoint play_until (n : nat) (stop : tpoint → bool) (c : tconfig) : option tconfig :=
  match n with
  | O => None
  | S n =>
      match tc_conts c !! tc_run c with
      | Some [] => Some c
      | Some (f :: _) => if stop f then Some c else c ← play_exec c; play_until n stop c
      | None => None
      end
  end.

Definition play_tick (c : tconfig) : option tconfig :=
  let K := t_ker (tc_state c) in
  match intr_get_status (k_eflags K), tc_conts c !! tc_run c,
        intr_timer_handler (set_eflags K (cli (k_eflags K))) with
  | INTR_ON, Some st, Ok K' =>
      Some (TConfig (set_ker (tc_state c) K')
              (<[tc_run c := OfSync (TimerReturn (k_eflags K)) :: st]> (tc_conts c)))
  | _, _, _ => None
  end.

(** Between two ticks of one thread the interrupt returns. *)
Fixpoint play_ticks (n : nat) (c : tconfig) : option tconfig :=
  match n with
  | O => Some c
  | S n =>
      c' ← play_tick c;
      if tc_run c' =? tc_run c then c' ← play_exec c'; play_ticks n c' else Some c'
  end.

Definition play_cue (c : tconfig) (q : cue) : option tconfig :=
  match q with
  | Points => play_until 100 (λ _, false) c
  | PointsUntil stop => play_until 100 stop c
  | Ticks n => play_ticks n c
  | First => match tc_conts c !! tc_run c with
             | None => Some (TConfig (tc_state c) (<[tc_run c := [OfSync KernelThread]]> (tc_conts c)))
             | Some _ => None
             end
  | Call nm prio fn arg =>
      match tc_conts c !! tc_run c with
      | Some [] => Some (TConfig (tc_state c) (<[tc_run c := [ThreadStart nm prio fn arg]]> (tc_conts c)))
      | _ => None
      end
  end.

Fixpoint play (c : tconfig) (script : list cue) : option tconfig :=
  match script with [] => Some c | q :: r => c ← play_cue c q; play c r end.
End step.

(** Runs of Uncontended.v, executed. *)
Section compute.
Context {St P : Type} (exec : St → P → res (St * list P)) (here : St → Z).

Fixpoint run_points (n : nat) (s : St) (fs : list P) : option St :=
  match n, fs with
  | _, [] => Some s
  | O, _ => None
  | S n, f :: r =>
      match exec s f with
      | Ok (s', fs) => if here s' =? here s then run_points n s' (fs ++ r) else None
      | _ => None
      end
  end.

Lemma run_points_runs n : ∀ s fs s', run_points n s fs = Some s' → runs exec here s fs s'.
Proof.
  induction n as [|n IH]; intros s [|f r] s'; simpl; try (intros [= <-]; apply runs_nil); try done.
  destruct (exec s f) as [[s1 fs]| | |] eqn:E; try done.
  destruct (Z.eqb_spec (here s1) (here s)) as [Eh|]; [|done]. intros Hr. eapply runs_cons; eauto.
Qed.
End compute.

(** * Scripts are runs *)

Section sound.
Context `{Symbols, ThreadSyms}.

Lemma create_trans c0 c1 c2 : create_steps c0 c1 → create_steps c1 c2 → create_steps c0 c2.
Proof. intros Ha Hb. induction Hb as [|c c' _ IH Hs]; [done|]. by eapply create_next. Qed.

Lemma create_one c c' : create_step c c' → create_steps c c'.
Proof. intros. eapply create_next; [apply create_refl|done]. Qed.

Lemma play_exec_step c c' : play_exec c = Some c' → create_step c c'.
Proof.
  destruct c as [s cs]. unfold play_exec. simpl. destruct (cs !! _) as [[|f r]|] eqn:Ec; try done.
  destruct (exec_thread s f) as [[s' fs]| | |] eqn:E; try done. intros [= <-]. by eapply create_exec.
Qed.

Lemma play_tick_step c c' : play_tick c = Some c' → create_step c c'.
Proof.
  destruct c as [s cs]. unfold play_tick. simpl. destruct (intr_get_status _) eqn:Ei; try done.
  destruct (cs !! _) as [st|] eqn:Ec; try done.
  destruct (intr_timer_handler _) as [K'| | |] eqn:E; try done. intros [= <-]. by eapply create_timer.
Qed.

Lemma play_until_steps n stop : ∀ c c', play_until n stop c = Some c' → create_steps c c'.
Proof.
  induction n as [|n IH]; intros c c'; [done|]. simpl. destruct (tc_conts c !! _) as [[|f r]|]; try done.
  - intros [= <-]. apply create_refl.
  - destruct (stop f); [intros [= <-]; apply create_refl|].
    intros (c1 & H1 & H2)%bind_Some. eapply create_trans; [by apply create_one, play_exec_step|by apply IH].
Qed.

Lemma play_ticks_steps n : ∀ c c', play_ticks n c = Some c' → create_steps c c'.
Proof.
  induction n as [|n IH]; intros c c'; simpl; [intros [= <-]; apply create_refl|].
  intros (c1 & H1%play_tick_step & H2)%bind_Some. eapply create_trans; [by apply create_one|].
  destruct (_ =? _); [|injection H2 as <-; apply create_refl].
  apply bind_Some in H2 as (c2 & H2%play_exec_step & H3).
  eapply create_trans; [by apply create_one|by apply IH].
Qed.

Lemma play_cue_steps c q c' : play_cue c q = Some c' → create_steps c c'.
Proof.
  destruct q as [|stop|n| |nm prio fn arg]; unfold play_cue.
  - apply play_until_steps.
  - apply play_until_steps.
  - apply play_ticks_steps.
  - destruct c as [s cs]. destruct (_ !! _) eqn:E; [done|]. intros [= <-]. by apply create_one, create_first.
  - destruct c as [s cs]. destruct (_ !! _) as [[|]|] eqn:E; try done. intros [= <-].
    by apply create_one, create_call.
Qed.

Lemma play_steps script : ∀ c c', play c script = Some c' → create_steps c c'.
Proof.
  induction script as [|q r IH]; intros c c'; simpl; [intros [= <-]; apply create_refl|].
  intros (c1 & H1%play_cue_steps & H2)%bind_Some. eapply create_trans; eauto.
Qed.
End sound.

(** * The race *)

Module PidRace.
Import BootRuns.
#[local] Existing Instances syms tsyms plocks csyms bsyms.

(** The kernel starts with one more thread and interrupts on. *)
Definition start : list bpoint :=
  [InitAll; OfThread (ThreadStart "worker" 31 0xc0001580 0); IntrEnable].

Definition at_fields (f : tpoint) : bool := match f with InitFields _ _ _ => true | _ => false end.

(** [main] creates a thread and loses the processor when [allocate_pid] has
    given the lock back; the worker creates another one; [main] goes on. *)
Definition script : list cue :=
  [ Call "first" 31 0 0; PointsUntil at_fields; Ticks 32;
    First; Points; Call "second" 31 0 0; Points; Ticks 32; Points ].

(** Both threads are in place, ready to run, with the pid 4. *)
Definition has_pid_4 (K : kernel) (t : Z) : bool :=
  match k_tasks K !! t with
  | Some T => (pid T =? 4) && bool_decide (status T = TASK_READY)
  | None => false
  end.

Definition collision (c : tconfig) : bool :=
  let K := t_ker (tc_state c) in has_pid_4 K (heap_addr 1) && has_pid_4 K (heap_addr 2).

Lemma has_pid_4_ok K t :
  has_pid_4 K t = true → ∃ T, k_tasks K !! t = Some T ∧ pid T = 4 ∧ status T = TASK_READY.
Proof.
  unfold has_pid_4. destruct (k_tasks K !! t) as [T|]; [|done].
  intros [Hp%Z.eqb_eq Hs%bool_decide_eq_true]%andb_true_iff. by exists T.
Qed.

Lemma script_collides :
  (S' ← run_points exec_boot (λ S, running_thread (s_ker S)) 100 boot_system start;
   c ← play (TConfig (s_threads S') {[ MAIN := [] ]}) script; Some (collision c)) = Some true.
Proof. vm_compute. reflexivity. Qed.

(** [allocate_pid] reads [next_pid] after it has released the lock, so two
    threads can get the same pid: [main] calls [thread_start], a timer
    interrupt comes between the release and the read, and a thread created
    meanwhile has taken the number [main] is going to return. *)
Theorem pids_can_collide :
  ∃ S' c T U, bruns boot_system start S'
    ∧ create_steps (TConfig (s_threads S') {[ MAIN := [] ]}) c
    ∧ k_tasks (t_ker (tc_state c)) !! heap_addr 1 = Some T ∧ status T = TASK_READY
    ∧ k_tasks (t_ker (tc_state c)) !! heap_addr 2 = Some U ∧ status U = TASK_READY
    ∧ pid T = pid U.
Proof.
  pose proof script_collides as E. apply bind_Some in E as (S' & HS%run_points_runs & E).
  apply bind_Some in E as (c & Hc%play_steps & [= Ht]). apply andb_true_iff in Ht as [Ha Hb].
  destruct (has_pid_4_ok _ _ Ha) as (T & HT & Hp & Hs), (has_pid_4_ok _ _ Hb) as (U & HU & Hq & Hr).
  exists S', c, T, U. split_and!; auto. congruence.
Qed.
End PidRace.
